(* ===== verification/_CoqProject ===== *)
-Q . S2P
Prelude.v
Numeric.v
RealModel.v
NormalDist.v
BlackScholes.v
ImpliedVol.v
SolverSteps.v
Vectors.v
Portfolio.v
RandomStream.v
MersenneTwister.v
MonteCarlo.v
PathwiseFacts.v
ParallelPaths.v
BarrierEstimate.v
Session.v
Bindings.v
FloatFacts.v
Binary64.v
NormalSampler.v
CompiledRun.v
