(* ===== verification/Prelude.v ===== *)
(** * A verification development for the C++ option-pricing engine

    The program (under [src/cpp_engine/]) has two classes and a binding file.

    - [BlackScholesEngine] ([black_scholes.hpp]): static, pure functions on
      [double]: the Abramowitz-Stegun normal CDF [norm_cdf], the density
      [norm_pdf], [d1], [d2], [call_price], [put_price], the Greeks [delta],
      [gamma], [vega], [theta_call], [rho_call], the Newton-Raphson solver
      [implied_volatility] (at most 100 iterations, two early exits, a clamp
      to [0.001, 5.0]) and the vectorised [price_portfolio].
    - [MonteCarloEngine] ([monte_carlo.hpp]): one [std::mt19937] member
      [rng], seeded by the constructor, drawn from by [price_european]
      (antithetic pairs), [price_asian], [price_barrier] (knock-out with an
      early [break]) and [simulate_paths] (a matrix of GBM paths).  Each
      method builds a fresh local [std::normal_distribution].
    - [bindings.cpp]: the pybind11 registration of the public functions
      of both classes as the Python module [cpp_quant_engine]; it holds no
      computation, but it fixes how the engines can be called.

    ** How the code is modelled

    A [double] is a value of a type [T] carrying the operations the source
    uses: class [Double] in [Numeric.v] ([fadd], [fsub], [fmul], [fdiv],
    [fneg], [fabs], [fsqrt], [fexp], [flog], the comparisons [flt] and
    [fle] as [bool], the conversion [of_int] from [int], and [M_PI]).  Every
    function of the engine is ONE definition, generic in [T], written in the
    source's operator order; a decimal literal [m / 10^k] of the source is
    [dec m k].  Three readings of the same definitions:

    - the exact reading, [RealModel.v]: [T := R], the operations those of
      the real numbers.  It says what the formulas compute without rounding.
      It differs from IEEE-754 where the source divides by zero or produces
      NaN or infinity; every theorem of that reading whose code path
      divides states the hypothesis that keeps the divisor non-zero;
    - the order-only reading: class [DoubleOrder] states the four facts
      about [<] and [<=] that hold for the reals and for IEEE-754 doubles,
      NaN included (a comparison with NaN is false).  Theorems proved from
      it (the clamp, the range of the solver's result) hold for both;
    - the binary64 reading, [Binary64.v]: [T := float], the kernel's
      IEEE-754 binary64 numbers, whose [+], [-], [*], [/], [sqrt], [abs]
      and comparisons are the correctly rounded operations of the
      standard.  [exp] and [log] are the class [Libm], since the C
      library does not fix their results bit by bit: the theorems on NaN
      and on ranges hold for every [Libm]; the numeric scenarios of the
      specification are evaluated with [ReferenceLibm], an [exp] and a
      [log] written in the development.

    Theorems that mention no arithmetic law at all (lengths, which vector is
    read at which index, how many draws a method takes, which outcome a
    solver run has) are proved for every [T].

    An [int] is a [Z]; a loop [for (int i = 0; i < n; ++i)] runs
    [trip_count n = Z.to_nat n] times ([for_range], below), so a negative
    bound runs it zero times, as in C++.  [n_paths / 2] is [Z.quot].  The one
    [int] addition of the source, [n_steps + 1], is checked against
    [INT_MAX].  A [std::vector] is a [list]; [v[i]] out of range is
    undefined behaviour in C++ and the fault [OutOfBounds] here; a vector
    constructed with a negative size is the fault [LengthError] (the
    exception [std::length_error]).  Faults are values of [outcome].

    [rng] and the local distribution object are the state of a [Sampler]
    ([RandomStream.v]): [sample] takes the distribution's state and the
    engine's and returns a draw and both states.  Methods of
    [MonteCarloEngine] are functions from the engine to a result and the
    engine after the call.  The engine is written against that
    interface and its theorems hold for every instance.  The instance
    the compiled program runs with is [LibstdcxxSampler]
    ([NormalSampler.v]): the generator [std::mt19937] of
    [MersenneTwister.v] (a state of 624 words of 32 bits as a list of
    [Z] and a position; seeding, in-place regeneration and tempering
    with the bit operations of [Z]) under the polar method of
    libstdc++'s [std::normal_distribution] (two values per run of a
    rejection loop, one returned and one saved in the object).  Both
    are code of the C++ library, modelled from the library.

    The Newton loop has a second presentation, [SolverSteps.v]: a step
    relation on its control points, for the claims about its executions
    (every run ends, and ends in the value of the functional model).

    A call from Python ([Bindings.v]) is the registration table of
    [bindings.cpp] as data and the dispatch pybind11 performs on it:
    lookup of the name, matching of positional and keyword arguments
    against the [py::arg] annotations, conversion by the type casters
    (the interface [Casters]), the call of the model's function, the
    translation of a C++ fault ([std::length_error] to [ValueError];
    undefined behaviour stays undefined).

    ** Files

    - [Prelude.v] (this file): tactics, the hint database [pricing], the
      [outcome] monad, counted loops and their induction principles.
    - [Numeric.v]: the class [Double], its notations (scope [dbl_scope]),
      [fmax], [fmin] (as [std::max], [std::min]), [dec], the class
      [DoubleOrder] and the clamp lemmas proved from it.
    - [RealModel.v]: the instance of [Double] and [DoubleOrder] at [R],
      the tactic [real_unfold], and the lemmas on [exp], [sqrt] and
      polynomials the components share.
    - [NormalDist.v]: [norm_cdf] and [norm_pdf]; reflection of the CDF
      about zero, its value at zero, its range, its monotonicity (from
      the derivative of the polynomial of the approximation), and the
      sign of [A N(x) - B N(y)] for weights in the ratio of the Gaussian
      factors.
    - [BlackScholes.v]: [d1], [d2], the prices and the Greeks; put-call
      parity and where it fails, delta parity, signs and bounds, delta
      growing with the spot, the no-arbitrage bounds of the prices, and
      the step of the call price where [d2] crosses zero.
    - [ImpliedVol.v]: the solver as a recursion on the remaining iteration
      count, its tagged specification [solve] and the refinement between
      them; range of the result; what a converged result satisfies, and
      which target prices never give one.
    - [SolverSteps.v]: the Newton loop as a transition system
      ([loop_step] on [loop_state]); determinism, the measure
      [remaining], strong normalisation, and the run from the entry.
    - [Vectors.v]: [std::vector] as a list with faulting reads, writes
      and construction ([vec_get], [vec_set], [vec_new], [mat_set]).
    - [Portfolio.v]: [price_portfolio] as an indexed loop over a
      preallocated vector; equivalence with the element-wise reference
      [price_each]; the fault on a short vector; independence from the
      order of the iterations.
    - [RandomStream.v]: the [Sampler] interface, [draws], [advanced],
      [chunks], the loop lemmas that turn a sampling loop into a fold over
      its draws, and a replayable tape sampler used by the witnesses.
    - [MersenneTwister.v]: [std::mt19937]: [mt_seed], [gen_rand],
      [temper], [mt_next]; the invariant [mt_ok]; the recurrence of the
      standard [mt_sequence] and the equivalence of the in-place
      regeneration with it; the hint database [word] for bounds of bit
      operations.
    - [MonteCarlo.v]: the engine record and its four methods.  For every
      carrier and sampler: [price_european] and [price_asian] equal pure
      estimators of the draws they take, [price_barrier] takes at most
      [n_paths * n_steps] draws, [simulate_paths] returns the matrix
      [paths_matrix] of its draws and is defined exactly for the sizes
      listed in [simulate_paths_defined].  In the exact reading: prices
      are non-negative, the zero-volatility value, the symmetry of the
      antithetic pair, the zero price of a knock-out beyond the strike,
      and the barrier's missing test at [S0].
    - [PathwiseFacts.v]: the Monte Carlo methods in the exact reading,
      whatever the draws: parity of the call and put estimates, their
      no-arbitrage bounds around the estimated forward, the cap of a
      knock-out price, positivity of the simulated paths.
    - [ParallelPaths.v]: the path loop of [simulate_paths] under a
      schedule of its iterations, as the OpenMP pragma allows;
      the rows come out permuted by the schedule.
    - [BarrierEstimate.v]: the pure estimator of [price_barrier]
      ([knock_out], [barrier_sum], [barrier_estimate]) and the equality of
      the method with it, draws used included.
    - [Session.v]: sequences of calls on one engine ([call], [perform],
      [run]), every call as a function of the draws it may take
      ([reply_of_draws], [draws_used]), and the generator after a
      session.
    - [Bindings.v]: the module [cpp_quant_engine] with its two classes,
      the members and their parameter types, the
      registration tables, attribute lookup, argument binding, the calls
      [py_call_static], [py_construct], [py_call_method]; typing of bound
      arguments, the lost default arguments, keyword calls, and the
      faults of [simulate_paths] as Python sees them.
    - [FloatFacts.v]: the order laws and the NaN rules of binary64,
      proved from the kernel's specification of the float operations;
      the rewriting database [float_nan].
    - [Binary64.v]: the instances [FloatDouble] and [FloatOrder], the
      reference [exp] and [log], the behaviour of the solver and of the
      Monte Carlo methods on NaN and on degenerate path counts, and the
      scenarios of the specification evaluated in binary64.
    - [NormalSampler.v]: [std::generate_canonical] and
      [std::normal_distribution] as templates over a generator, the
      sampler [LibstdcxxSampler] on [mt_next], the draws of a method as
      a stream of pairs, independence of the results from the bound on
      the rejection loop, the invariant of the generator over sessions.
    - [CompiledRun.v]: the binary64 reading evaluated on the inputs of a
      test program, against the doubles the compiled source returns:
      the analytic functions, boundary inputs included, the generator
      and the distribution, and the Monte Carlo methods on a tape of
      draws and on engines built from a seed.

    ** What the theorems show

    Each component has (i) its functional behaviour on every branch, the
    faulting ones included ([price_portfolio_spec] and
    [price_portfolio_short_vector], [simulate_paths_shape],
    [simulate_paths_rows] and [simulate_paths_defined],
    [price_european_estimate], [price_asian_estimate],
    [price_barrier_estimate], and [price_asian_on_paths], which relates
    two methods: the Asian price is the payoff average over the matrix
    of [simulate_paths]); (ii) the invariants that make its result
    meaningful ([norm_cdf_range], [norm_cdf_increasing], [delta_range],
    [delta_increasing_in_spot], [price_bounds],
    [implied_volatility_range] and its binary64 form,
    [monte_carlo_prices_nonneg], [monte_carlo_bounds],
    [price_barrier_capped],
    [simulate_paths_positive], [greeks_signs]); (iii) where the code
    has a contract in the specification, a refinement to it
    ([implied_volatility_refines_solve] with [solve_sound], and
    [solve_rejects_arbitrage]: a price outside the no-arbitrage interval
    is never reported as converged); (iv) the
    laws of the model the formulas are meant to satisfy, with the
    inputs at which they fail ([put_call_parity] and
    [put_call_parity_defect], [monte_carlo_parity] for the estimators,
    [norm_cdf_reflect] and [norm_cdf_zero_binary64], and
    [call_price_steps_down]: the call price is not monotone in the
    spot, for any contract); (v) termination of
    the solver as a property of its executions ([loop_terminates],
    [loop_computes_implied_volatility]); (vi) the values of the
    specification's scenarios in binary64 ([scenario_prices],
    [scenario_implied_volatility_round_trip]); (vii) what binary64 does
    where the exact reading is silent: NaN inputs and divisions by zero
    ([implied_volatility_nan_price], [nan_spot_is_priced],
    [price_european_too_few_paths]); (viii) the Python interface
    ([python_calls_well_typed], [python_defaults_lost],
    [python_call_price], [python_simulate_paths],
    [module_attribute_member]); (ix) the state a sequence of calls
    leaves in an engine ([run_generator]) and every call as a function
    of its draws ([perform_determined]); (x) agreement of the
    binary64 reading with a run of the compiled source on concrete calls
    ([compiled_run_analytic], [compiled_run_step],
    [compiled_run_boundary], [compiled_run_monte_carlo],
    [compiled_run_generator], [compiled_run_seeded]), among them the
    calls on which rounding takes a result out of the bounds of the
    exact reading (a negative price, a delta of exactly one); (xi) the random source: the invariant of
    the generator over every session ([engine_generator_invariant]),
    the refinement of the standard's recurrence by the in-place
    generator ([engine_outputs_recurrence]), the draws of a method as
    the stream of pairs of the polar method ([normal_stream],
    [split_calls_skip]), and that the bound the model puts on the
    rejection loop does not show in what a session returns
    ([run_fuel_enough]); (xii) the order of the iterations of the
    parallel loops: irrelevant for [price_portfolio]
    ([price_portfolio_schedule_independent]), visible in the matrix of
    [simulate_paths] ([simulate_paths_schedule], [schedules_differ]).

    ** Bounds and fuel

    The solver recurses on the iteration count (100 in
    [implied_volatility], exactly [max_iterations]), and every other loop
    of the engines on its trip count: no definition that models code uses
    fuel that could run out, and all functions are total.  [loop_step] is
    a relation; that it cannot run for ever is [loop_terminates], and the
    bound of 101 steps in [loop_computes_implied_volatility] is 100
    passes and the final test.  The reference exponential halves its
    argument until it is below 1/2, with fuel 1100: a finite binary64
    number is below 2^1024, so 1025 halvings always suffice.  The one
    loop of the library without a bound, the rejection loop of the
    normal distribution, takes a bound [fuel] on its attempts; a draw
    that returns is the same for every larger bound, and the runs of
    [CompiledRun.v] return with 64 (the first draws of seed 42 with
    8, in the witnesses of [NormalSampler.v]).  That the loop returns
    for every state of the generator is not proved: it is a property of the outputs of the Mersenne
    Twister, which would have to never leave the unit disc 64 times in
    a row.  The generator itself has no fuel: a regeneration is three
    loops of 227, 396 and 1 iterations.  An [int] is
    checked against the 32-bit range where the source adds ([n_steps +
    1]); sizes and counters elsewhere are unbounded naturals, which
    omits only the exhaustion of memory.

    ** Not modelled

    The platform's own [exp] and [log] (they are the class [Libm]; the
    numbers of the scenarios are those of [ReferenceLibm], which agrees
    with the platform's libm on most of the values compared in
    [CompiledRun.v] and differs in the last bits on the others), and
    error bounds of the rounded formulas against the exact ones over
    all inputs.  The distribution of the draws: that the values of
    [generate_canonical] lie in [0, 1), that the draws are normal and
    independent; the model says which doubles are drawn, not how they
    are distributed.  Of the OpenMP pragmas, only the executions in
    which whole iterations run one at a time in some order
    ([Portfolio.v], [ParallelPaths.v]); an execution of
    [simulate_paths] that interleaves the draws of two iterations races
    on [rng] and has no meaning in the language.  pybind11's conversion
    rules for Python objects (the interface [Casters]) and overload
    resolution (no function of the module is overloaded).  Memory
    exhaustion.

    ** Left open

    Monotonicity of the prices in the spot away from the points where
    [d1] or [d2] is zero; accuracy of the binary64 prices against the
    exact reading on a bounded domain (the compiled run shows prices of
    the order of -1e-14 where the exact reading is positive); the range
    of [generate_canonical] from the specification of the binary64
    operations, and with it that no draw is NaN. *)

From Stdlib Require Import List ZArith Lia Bool.
Import ListNotations.

(** The hint database of the development: facts about loops, faults and
    comparisons that close the routine cases. *)
Create HintDb pricing discriminated.
Create Rewrite HintDb pricing.

(** ** Tactics *)

Ltac inv H := inversion H; subst; clear H.

(** Case analysis on the first [if] or [match] scrutinee of the goal. *)
Ltac break_match :=
  match goal with
  | |- context [if ?b then _ else _] => destruct b eqn:?
  | |- context [match ?x with _ => _ end] => destruct x eqn:?
  end.

Ltac break_match_hyp :=
  match goal with
  | H : context [if ?b then _ else _] |- _ => destruct b eqn:?
  | H : context [match ?x with _ => _ end] |- _ => destruct x eqn:?
  end.

(** ** Faults and the [outcome] monad *)

(** What a C++ operation of the engine can do instead of returning. *)
Inductive fault : Type :=
| OutOfBounds     (* [v[i]] with [i >= v.size()]: undefined behaviour *)
| LengthError     (* [std::vector<T>(n)] with [n] negative as [int] *)
| SignedOverflow. (* [int] arithmetic out of range: undefined behaviour *)

Inductive outcome (A : Type) : Type :=
| Done (a : A)
| Fault (f : fault).
Arguments Done {A} a.
Arguments Fault {A} f.

Definition obind {A B} (c : outcome A) (k : A -> outcome B) : outcome B :=
  match c with
  | Done a => k a
  | Fault f => Fault f
  end.

Definition omap {A B} (g : A -> B) (c : outcome A) : outcome B :=
  obind c (fun a => Done (g a)).

Definition of_option {A} (f : fault) (o : option A) : outcome A :=
  match o with
  | Some a => Done a
  | None => Fault f
  end.

Definition is_done {A} (c : outcome A) : bool :=
  match c with Done _ => true | Fault _ => false end.

Declare Scope outcome_scope.
Delimit Scope outcome_scope with outcome.
Notation "x <- c ;; k" := (obind c (fun x => k))
  (at level 100, c at next level, right associativity) : outcome_scope.

(** ** Machine integers *)

Definition INT_MIN : Z := - 2 ^ 31.
Definition INT_MAX : Z := 2 ^ 31 - 1.

Definition int_range (z : Z) : Prop := (INT_MIN <= z <= INT_MAX)%Z.

(** [a + b] on [int]: overflow is undefined behaviour. *)
Definition int_add (a b : Z) : outcome Z :=
  let s := (a + b)%Z in
  if ((INT_MIN <=? s) && (s <=? INT_MAX))%Z%bool then Done s else Fault SignedOverflow.

(** The number of iterations of [for (int i = 0; i < n; ++i)]. *)
Definition trip_count (n : Z) : nat := Z.to_nat n.

(** ** Counted loops *)

(** [for (i = lo; i < lo + n; ++i) a = body i a]. *)
Fixpoint for_range {A} (lo n : nat) (body : nat -> A -> A) (a : A) : A :=
  match n with
  | O => a
  | S n' => for_range (S lo) n' body (body lo a)
  end.

(** The same loop when an iteration can fault: the first fault ends it. *)
Fixpoint for_range_o {A} (lo n : nat) (body : nat -> A -> outcome A) (a : A)
  : outcome A :=
  match n with
  | O => Done a
  | S n' => obind (body lo a) (for_range_o (S lo) n' body)
  end.

(** The iterations of a faulting loop run in a given order [idx] (the
    program order is [seq lo n]; another order is another schedule). *)
Fixpoint foreach_o {A I} (body : I -> A -> outcome A) (idx : list I) (a : A)
  : outcome A :=
  match idx with
  | [] => Done a
  | i :: rest => obind (body i a) (foreach_o body rest)
  end.

(** A loop whose body ignores the counter. *)
Definition repeat_loop {A} (n : nat) (body : A -> A) (a : A) : A :=
  for_range 0 n (fun _ => body) a.

(** ** Lemmas on the monad *)

Lemma obind_done {A B} (c : outcome A) (k : A -> outcome B) (b : B) :
  obind c k = Done b <-> exists a, c = Done a /\ k a = Done b.
Proof.
  destruct c as [a | f]; simpl; split.
  - intros H; exists a; auto.
  - intros (a' & Ha & Hk); inv Ha; auto.
  - discriminate.
  - intros (a' & Ha & _); discriminate.
Qed.

Lemma obind_fault {A B} (c : outcome A) (k : A -> outcome B) (f : fault) :
  obind c k = Fault f <->
  c = Fault f \/ exists a, c = Done a /\ k a = Fault f.
Proof.
  destruct c as [a | f']; simpl; split.
  - intros H; right; exists a; auto.
  - intros [H | (a' & Ha & Hk)]; [discriminate | inv Ha; auto].
  - intros H; left; congruence.
  - intros [H | (a' & Ha & _)]; [congruence | discriminate].
Qed.

Lemma obind_assoc {A B C} (c : outcome A) (k : A -> outcome B) (h : B -> outcome C) :
  obind (obind c k) h = obind c (fun a => obind (k a) h).
Proof. destruct c; reflexivity. Qed.

Lemma of_option_done {A} (f : fault) (o : option A) (a : A) :
  of_option f o = Done a <-> o = Some a.
Proof. destruct o; simpl; split; intros H; inv H; auto. Qed.

(** ** Lemmas on machine integers *)

Lemma int_add_done (a b : Z) :
  int_range (a + b) -> int_add a b = Done (a + b)%Z.
Proof.
  unfold int_range, int_add. intros [H1 H2].
  apply Z.leb_le in H1. apply Z.leb_le in H2. rewrite H1, H2. reflexivity.
Qed.

Lemma int_add_overflow (a b : Z) :
  (INT_MAX < a + b)%Z -> int_add a b = Fault SignedOverflow.
Proof.
  unfold int_add. intros H.
  apply Z.leb_gt in H. rewrite H, andb_false_r. reflexivity.
Qed.

(** [n / 2] on [int]s truncates: an odd count loses its last unit. *)
Lemma quot2_even (k : Z) : (0 <= k -> (2 * k) ÷ 2 = k)%Z.
Proof.
  intros Hk. rewrite Z.quot_div_nonneg by lia.
  symmetry. apply Z.div_unique with (r := 0%Z); lia.
Qed.

Lemma quot2_odd (k : Z) : (0 <= k -> (2 * k + 1) ÷ 2 = k)%Z.
Proof.
  intros Hk. rewrite Z.quot_div_nonneg by lia.
  symmetry. apply Z.div_unique with (r := 1%Z); lia.
Qed.

Lemma quot2_small (n : Z) : (-1 <= n <= 1 -> n ÷ 2 = 0)%Z.
Proof. intros Hn. apply Z.quot_small_iff; lia. Qed.

Lemma quot2_pos (n : Z) : (2 <= n -> 1 <= n ÷ 2)%Z.
Proof.
  intros Hn. rewrite Z.quot_div_nonneg by lia. apply Z.div_le_lower_bound; lia.
Qed.

Lemma trip_count_nonpos (n : Z) : (n <= 0)%Z -> trip_count n = 0%nat.
Proof. unfold trip_count. lia. Qed.

Lemma trip_count_pos (n : Z) : (0 <= n)%Z -> Z.of_nat (trip_count n) = n.
Proof. unfold trip_count. lia. Qed.

(** ** Lemmas on lists *)

(** The last element of a non-empty list does not depend on the default. *)
Lemma last_cons_default {A} (x : A) (l : list A) (d d' : A) :
  last (x :: l) d = last (x :: l) d'.
Proof.
  revert x. induction l as [| y l IH]; intros x; [reflexivity |].
  change (last (y :: l) d = last (y :: l) d'). apply IH.
Qed.

Lemma last_cons_cons {A} (x : A) (l : list A) (d : A) :
  last (x :: l) d = last l x.
Proof.
  destruct l as [| y l]; [reflexivity |].
  change (last (y :: l) d = last (y :: l) x). apply last_cons_default.
Qed.

(** ** Lemmas on loops *)

(** The last iteration, peeled off. *)
Lemma for_range_snoc {A} (body : nat -> A -> A) (n lo : nat) (a : A) :
  for_range lo (S n) body a = body (lo + n) (for_range lo n body a).
Proof.
  revert lo a. induction n as [| n IH]; intros lo a.
  - simpl. rewrite Nat.add_0_r. reflexivity.
  - change (for_range lo (S (S n)) body a)
      with (for_range (S lo) (S n) body (body lo a)).
    rewrite IH. simpl. rewrite Nat.add_succ_r. reflexivity.
Qed.

(** A loop is the left fold of its body over the counter's values. *)
Lemma for_range_fold {A} (body : nat -> A -> A) (n lo : nat) (a : A) :
  for_range lo n body a = fold_left (fun acc i => body i acc) (seq lo n) a.
Proof. revert lo a. induction n as [| n IH]; intros; simpl; auto. Qed.

Lemma for_range_add {A} (body : nat -> A -> A) (n m lo : nat) (a : A) :
  for_range lo (n + m) body a = for_range (lo + n) m body (for_range lo n body a).
Proof.
  revert lo a. induction n as [| n IH]; intros lo a; simpl.
  - rewrite Nat.add_0_r. reflexivity.
  - rewrite IH. rewrite Nat.add_succ_r. reflexivity.
Qed.

Lemma for_range_ext {A} (f g : nat -> A -> A) (n lo : nat) (a : A) :
  (forall i x, lo <= i < lo + n -> f i x = g i x) ->
  for_range lo n f a = for_range lo n g a.
Proof.
  revert lo a. induction n as [| n IH]; intros lo a H; simpl; auto.
  rewrite H by lia. apply IH. intros; apply H; lia.
Qed.

(** The invariant rule of a counted loop. *)
Lemma for_range_inv {A} (P : nat -> A -> Prop) (body : nat -> A -> A)
    (n lo : nat) (a : A) :
  P lo a ->
  (forall i x, lo <= i < lo + n -> P i x -> P (S i) (body i x)) ->
  P (lo + n) (for_range lo n body a).
Proof.
  revert lo a. induction n as [| n IH]; intros lo a H0 Hstep; simpl.
  - rewrite Nat.add_0_r. exact H0.
  - rewrite Nat.add_succ_r. apply (IH (S lo)).
    + apply Hstep; [lia | exact H0].
    + intros; apply Hstep; [lia | assumption].
Qed.

(** A loop that cannot fault is the plain loop. *)
Lemma for_range_o_done {A} (body : nat -> A -> A) (n lo : nat) (a : A) :
  for_range_o lo n (fun i x => Done (body i x)) a = Done (for_range lo n body a).
Proof. revert lo a. induction n as [| n IH]; intros; simpl; auto. Qed.

(** A faulting loop agrees with a plain one as long as an invariant that
    excludes the fault holds. *)
Lemma for_range_o_inv {A} (P : nat -> A -> Prop) (f : nat -> A -> outcome A)
    (g : nat -> A -> A) (n lo : nat) (a : A) :
  P lo a ->
  (forall i x, lo <= i < lo + n -> P i x -> f i x = Done (g i x) /\ P (S i) (g i x)) ->
  for_range_o lo n f a = Done (for_range lo n g a) /\
  P (lo + n) (for_range lo n g a).
Proof.
  revert lo a. induction n as [| n IH]; intros lo a H0 Hstep; simpl.
  - rewrite Nat.add_0_r. auto.
  - destruct (Hstep lo a ltac:(lia) H0) as [-> HP]. simpl.
    rewrite Nat.add_succ_r. apply (IH (S lo)); auto.
    intros; apply Hstep; [lia | assumption].
Qed.

(** When the body ignores the counter, so does the loop. *)
Lemma for_range_shift {A} (body : A -> A) (n lo lo' : nat) (a : A) :
  for_range lo n (fun _ => body) a = for_range lo' n (fun _ => body) a.
Proof. revert lo lo' a. induction n as [| n IH]; intros; simpl; auto. Qed.

Lemma repeat_loop_S {A} (body : A -> A) (n : nat) (a : A) :
  repeat_loop (S n) body a = repeat_loop n body (body a).
Proof. unfold repeat_loop. simpl. apply for_range_shift. Qed.

Lemma for_range_o_foreach {A} (body : nat -> A -> outcome A) (n lo : nat) (a : A) :
  for_range_o lo n body a = foreach_o body (seq lo n) a.
Proof.
  revert lo a. induction n as [| n IH]; intros lo a; simpl; auto.
  destruct (body lo a); simpl; auto.
Qed.

Lemma foreach_o_app {A I} (body : I -> A -> outcome A) (l1 l2 : list I) (a : A) :
  foreach_o body (l1 ++ l2) a = obind (foreach_o body l1 a) (foreach_o body l2).
Proof.
  revert a. induction l1 as [| i l1 IH]; intros a; simpl; auto.
  destruct (body i a); simpl; auto.
Qed.

(** A schedule none of whose iterations faults is the left fold of the
    iterations' effects. *)
Lemma foreach_o_done {A I} (P : A -> Prop) (body : I -> A -> outcome A)
    (g : I -> A -> A) (idx : list I) (a : A) :
  P a ->
  (forall i x, In i idx -> P x -> body i x = Done (g i x) /\ P (g i x)) ->
  foreach_o body idx a = Done (fold_left (fun x i => g i x) idx a) /\
  P (fold_left (fun x i => g i x) idx a).
Proof.
  revert a. induction idx as [| i idx IH]; intros a H0 Hstep; simpl; auto.
  destruct (Hstep i a (or_introl eq_refl) H0) as [-> HP]. simpl.
  apply IH; auto. intros j x Hj; apply Hstep; right; exact Hj.
Qed.

(** A schedule with an iteration that faults from every state faults,
    with the one fault the body can raise. *)
Lemma foreach_o_fault {A I} (body : I -> A -> outcome A) (f : fault)
    (idx : list I) (a : A) (i : I) :
  (forall j x f', body j x = Fault f' -> f' = f) ->
  In i idx -> (forall x, body i x = Fault f) ->
  foreach_o body idx a = Fault f.
Proof.
  intros Hone Hin Hi. revert a.
  induction idx as [| j idx IH]; intros a; simpl; [destruct Hin |].
  destruct (body j a) as [y | f'] eqn:E; simpl.
  - destruct Hin as [-> | Hin]; [rewrite Hi in E; discriminate | apply IH; exact Hin].
  - f_equal. eapply Hone; exact E.
Qed.

Lemma repeat_loop_snoc {A} (body : A -> A) (n : nat) (a : A) :
  repeat_loop (S n) body a = body (repeat_loop n body a).
Proof. unfold repeat_loop. apply (for_range_snoc (fun _ => body)). Qed.

Lemma repeat_loop_add {A} (body : A -> A) (n m : nat) (a : A) :
  repeat_loop (n + m) body a = repeat_loop m body (repeat_loop n body a).
Proof.
  induction m as [| m IH].
  - rewrite Nat.add_0_r. reflexivity.
  - rewrite Nat.add_succ_r, !repeat_loop_snoc, IH. reflexivity.
Qed.

Lemma repeat_loop_ext {A} (f g : A -> A) (n : nat) (a : A) :
  (forall x, f x = g x) -> repeat_loop n f a = repeat_loop n g a.
Proof. intros Hfg. unfold repeat_loop. apply for_range_ext. intros; apply Hfg. Qed.

(** The invariant rule with the iteration count. *)
Lemma repeat_loop_count_inv {A} (P : nat -> A -> Prop) (body : A -> A)
    (n : nat) (a : A) :
  P 0 a -> (forall i x, i < n -> P i x -> P (S i) (body x)) ->
  P n (repeat_loop n body a).
Proof.
  intros H0 Hstep. unfold repeat_loop.
  apply (for_range_inv P (fun _ => body) n 0 a); auto.
  intros i x Hi; apply Hstep; lia.
Qed.

Lemma repeat_loop_inv {A} (P : A -> Prop) (body : A -> A) (n : nat) (a : A) :
  P a -> (forall x, P x -> P (body x)) -> P (repeat_loop n body a).
Proof.
  intros H0 Hstep. unfold repeat_loop.
  apply (for_range_inv (fun _ => P) (fun _ => body) n 0 a); auto.
Qed.

#[export] Hint Resolve trip_count_nonpos trip_count_pos : pricing.
#[export] Hint Rewrite @obind_assoc @for_range_o_done : pricing.
