(* ===== verification/Numeric.v ===== *)
(** * Numeric: the arithmetic of [double] as an interface

    The engine computes on C++ [double]s with [+ - * /], unary minus, the
    comparisons [<], [<=] and [>=], the [<cmath>] functions [fabs], [sqrt],
    [exp] and [log], the constant [M_PI], conversions from [int], and
    [std::max] / [std::min].  Class [Double] names these operations; the
    engine's functions are written against it, so that one definition is
    read both over the real numbers ([RealModel.v]) and over any other
    carrier.  Class [DoubleOrder] states the facts about the comparisons
    that the reals and IEEE-754 doubles share; the clamp lemmas below are
    proved from it alone. *)

From Stdlib Require Import ZArith Bool.
From S2P Require Import Prelude.

(** ** The operations *)

Class Double (T : Type) : Type := {
  fadd : T -> T -> T;      (* x + y *)
  fsub : T -> T -> T;      (* x - y *)
  fmul : T -> T -> T;      (* x * y *)
  fdiv : T -> T -> T;      (* x / y *)
  fneg : T -> T;           (* -x *)
  fabs : T -> T;           (* fabs(x) *)
  fsqrt : T -> T;          (* sqrt(x) *)
  fexp : T -> T;           (* exp(x) *)
  flog : T -> T;           (* log(x) *)
  flt : T -> T -> bool;    (* x < y *)
  fle : T -> T -> bool;    (* x <= y *)
  of_int : Z -> T;         (* (double) n *)
  M_PI : T                 (* M_PI *)
}.

Declare Scope dbl_scope.
Delimit Scope dbl_scope with dbl.
Infix "+" := fadd : dbl_scope.
Infix "-" := fsub : dbl_scope.
Infix "*" := fmul : dbl_scope.
Infix "/" := fdiv : dbl_scope.
Notation "- x" := (fneg x) : dbl_scope.
Infix "<?" := flt : dbl_scope.
Infix "<=?" := fle : dbl_scope.

(** [x >= y] is [y <= x] (both false when an operand is NaN). *)
Definition fge {T} `{Double T} (x y : T) : bool := fle y x.
Infix ">=?" := fge (at level 70) : dbl_scope.

(** A decimal literal of the source with [k] digits after the point:
    [0.254829592] is [dec 254829592 9], [1e-6] is [dec 1 6].  Both the
    numerator and the power of ten are exact as doubles for every literal
    of the engine, so the one rounding of the division is the rounding of
    the literal. *)
Definition dec {T} `{Double T} (m : Z) (k : nat) : T :=
  (of_int m / of_int (10 ^ Z.of_nat k))%dbl.

(** [std::max(a, b)] is [(a < b) ? b : a]; [std::min(a, b)] is
    [(b < a) ? b : a]. *)
Definition fmax {T} `{Double T} (a b : T) : T := if (a <? b)%dbl then b else a.
Definition fmin {T} `{Double T} (a b : T) : T := if (b <? a)%dbl then b else a.

(** ** What the comparisons promise

    [fle a a = true] says that [a] is ordered (for a double: not NaN).  The
    four laws hold over the reals, where every number is ordered, and over
    IEEE-754, where a comparison with NaN is false. *)
Class DoubleOrder (T : Type) `{Double T} : Prop := {
  flt_fle : forall a b : T, flt a b = true -> fle a b = true;
  flt_ordered_l : forall a b : T, flt a b = true -> fle a a = true;
  flt_ordered_r : forall a b : T, flt a b = true -> fle b b = true;
  fle_total : forall a b : T,
    fle a a = true -> fle b b = true -> flt a b = false -> fle b a = true
}.

(** ** Lemmas from the order laws *)

Section OrderLemmas.
Context {T : Type} `{DoubleOrder T}.

Lemma fmax_cases (a b : T) :
  (flt a b = true /\ fmax a b = b) \/ (flt a b = false /\ fmax a b = a).
Proof. unfold fmax. destruct (flt a b); auto. Qed.

Lemma fmin_cases (a b : T) :
  (flt b a = true /\ fmin a b = b) \/ (flt b a = false /\ fmin a b = a).
Proof. unfold fmin. destruct (flt b a); auto. Qed.

(** [std::max(lo, x)] is at least [lo] whenever [lo] is ordered, whatever
    [x] is. *)
Lemma fmax_lower (lo x : T) : fle lo lo = true -> fle lo (fmax lo x) = true.
Proof.
  intros Hlo. destruct (fmax_cases lo x) as [[Hlt ->] | [_ ->]]; auto.
  apply flt_fle; exact Hlt.
Qed.

(** [std::min(x, hi)] is at most [hi] whenever [hi] is ordered and [x] is
    ordered; an unordered [x] is returned as it is. *)
Lemma fmin_upper (x hi : T) :
  fle hi hi = true -> fle x x = true -> fle (fmin x hi) hi = true.
Proof.
  intros Hhi Hx. destruct (fmin_cases x hi) as [[_ ->] | [Hlt ->]]; auto.
  apply fle_total; auto.
Qed.

(** The clamp [std::max(lo, std::min(x, hi))] lands in [[lo, hi]] for every
    [x], ordered or not, as soon as [lo < hi]. *)
Lemma clamp_range (lo hi x : T) :
  flt lo hi = true ->
  fle lo (fmax lo (fmin x hi)) = true /\ fle (fmax lo (fmin x hi)) hi = true.
Proof.
  intros Hlh.
  pose proof (flt_ordered_l _ _ Hlh) as Hlo.
  pose proof (flt_ordered_r _ _ Hlh) as Hhi.
  split; [apply fmax_lower; exact Hlo |].
  destruct (fmax_cases lo (fmin x hi)) as [[Hlt ->] | [_ ->]].
  - destruct (fmin_cases x hi) as [[_ E] | [Hhx E]]; rewrite E in *.
    + exact Hhi.
    + apply fle_total; [exact Hhi | exact (flt_ordered_r _ _ Hlt) | exact Hhx].
  - apply flt_fle; exact Hlh.
Qed.

(** A value already inside the interval is left alone. *)
Lemma clamp_id (lo hi x : T) :
  flt lo x = true -> flt hi x = false -> fmax lo (fmin x hi) = x.
Proof.
  intros Hlx Hhx. unfold fmin. rewrite Hhx. unfold fmax. rewrite Hlx. reflexivity.
Qed.

End OrderLemmas.

#[export] Hint Resolve fmax_lower fmin_upper : pricing.
