(* ===== verification/RealModel.v ===== *)
(** * RealModel: the exact reading of [double]

    The instance of [Double] at the real numbers: [+ - * /] are the field
    operations, [fabs] is [Rabs], [sqrt], [exp] and [log] are the real
    functions, a comparison is the decision of the order.  It reads each
    formula of the engine as what it computes without rounding.

    Where it departs from IEEE-754, and how the theorems deal with it:
    [x / 0] and [/ 0] are [0] in this library ([Rinv_0]) while a double
    gives an infinity or NaN; [sqrt] of a negative number and [ln] of a
    non-positive one are [0] here and NaN or [-inf] there.  A theorem over
    [R] about a path of the code that divides, takes a root or a logarithm
    carries the hypothesis that keeps the argument in the domain.

    The file also holds the real-number lemmas the components share and
    the tactics [real_unfold] (class operations to real operations) and
    [cases_cmp] (case analysis on the comparisons of a goal). *)

From Stdlib Require Import Reals Lra Psatz ZArith Bool.
From S2P Require Import Prelude Numeric.

Local Open Scope R_scope.

(** ** The instance *)

Definition Rltb (x y : R) : bool := if Rlt_dec x y then true else false.
Definition Rleb (x y : R) : bool := if Rle_dec x y then true else false.

#[export] Instance RealDouble : Double R := {|
  fadd := Rplus;
  fsub := Rminus;
  fmul := Rmult;
  fdiv := Rdiv;
  fneg := Ropp;
  fabs := Rabs;
  fsqrt := sqrt;
  fexp := exp;
  flog := ln;
  flt := Rltb;
  fle := Rleb;
  of_int := IZR;
  M_PI := PI
|}.

Lemma Rltb_spec (x y : R) : reflect (x < y) (Rltb x y).
Proof. unfold Rltb. destruct (Rlt_dec x y); constructor; assumption. Qed.

Lemma Rleb_spec (x y : R) : reflect (x <= y) (Rleb x y).
Proof. unfold Rleb. destruct (Rle_dec x y); constructor; assumption. Qed.

Lemma Rltb_true (x y : R) : Rltb x y = true <-> x < y.
Proof. destruct (Rltb_spec x y); split; intros; auto; try discriminate; lra. Qed.

Lemma Rltb_false (x y : R) : Rltb x y = false <-> y <= x.
Proof. destruct (Rltb_spec x y); split; intros; auto; try discriminate; lra. Qed.

Lemma Rleb_true (x y : R) : Rleb x y = true <-> x <= y.
Proof. destruct (Rleb_spec x y); split; intros; auto; try discriminate; lra. Qed.

Lemma Rleb_false (x y : R) : Rleb x y = false <-> y < x.
Proof. destruct (Rleb_spec x y); split; intros; auto; try discriminate; lra. Qed.

#[export] Instance RealOrder : DoubleOrder R.
Proof.
  constructor; simpl; intros a b;
    rewrite ?Rltb_true, ?Rltb_false, ?Rleb_true; intros; lra.
Qed.

(** ** Tactics *)

(** Decimal literals: compute the power of ten under [IZR]. *)
Ltac norm_dec :=
  repeat match goal with
  | |- context [(10 ^ Z.of_nat ?k)%Z] =>
      let v := eval vm_compute in (10 ^ Z.of_nat k)%Z in
      change (10 ^ Z.of_nat k)%Z with v
  | H : context [(10 ^ Z.of_nat ?k)%Z] |- _ =>
      let v := eval vm_compute in (10 ^ Z.of_nat k)%Z in
      change (10 ^ Z.of_nat k)%Z with v in H
  end.

(** Class operations at [R] to the operations of [R]. *)
Ltac real_unfold :=
  cbv [fadd fsub fmul fdiv fneg fabs fsqrt fexp flog flt fle of_int M_PI
       fge fmax fmin dec RealDouble] in *;
  norm_dec.

(** Case analysis on every comparison of the goal, as facts for [lra]. *)
Ltac cases_cmp :=
  repeat match goal with
  | |- context [Rltb ?x ?y] =>
      let E := fresh "E" in
      destruct (Rltb x y) eqn:E;
      [apply Rltb_true in E | apply Rltb_false in E]
  | |- context [Rleb ?x ?y] =>
      let E := fresh "E" in
      destruct (Rleb x y) eqn:E;
      [apply Rleb_true in E | apply Rleb_false in E]
  end.

(** ** Shared lemmas on the reals *)

(** A quadratic with positive leading coefficient and negative
    discriminant is positive. *)
Lemma quad_pos (A B C t : R) :
  0 < C -> B * B < 4 * A * C -> 0 < A + B * t + C * (t * t).
Proof.
  intros HC HD. pose proof (Rle_0_sqr (2 * C * t + B)) as Hs. unfold Rsqr in Hs.
  assert (0 < 4 * C * (A + B * t + C * (t * t))) by nra.
  nra.
Qed.

Lemma exp_le_1 (x : R) : x <= 0 -> exp x <= 1.
Proof.
  intros [Hx | ->]; [| rewrite exp_0; lra].
  left. rewrite <- exp_0. apply exp_increasing; exact Hx.
Qed.

Lemma exp_neg_sqr_le_1 (x : R) : exp (- x * x) <= 1.
Proof. apply exp_le_1. nra. Qed.

Lemma exp_neg_sqr_pos (x : R) : 0 < exp (- x * x) <= 1.
Proof. split; [apply exp_pos | apply exp_neg_sqr_le_1]. Qed.

Lemma sqrt2_pos : 0 < sqrt 2.
Proof. apply sqrt_lt_R0; lra. Qed.

Lemma sqrt_neq_0 (x : R) : 0 < x -> sqrt x <> 0.
Proof. intros H. pose proof (sqrt_lt_R0 x H). lra. Qed.

Lemma Rabs_div_sqrt2_nonneg (x : R) : 0 <= Rabs x / sqrt 2.
Proof.
  apply Rmult_le_pos; [apply Rabs_pos |].
  left; apply Rinv_0_lt_compat, sqrt2_pos.
Qed.

Lemma Rabs_div_sqrt2_lt (x y : R) :
  Rabs x < Rabs y -> Rabs x / sqrt 2 < Rabs y / sqrt 2.
Proof.
  intros H. apply Rmult_lt_compat_r; [apply Rinv_0_lt_compat, sqrt2_pos | exact H].
Qed.

(** [1 / (1 + p * x)] lies in [(0, 1]] for non-negative [p] and [x]. *)
Lemma recip_unit_interval (p x : R) :
  0 <= p -> 0 <= x -> 0 < 1 / (1 + p * x) <= 1.
Proof.
  intros Hp Hx. assert (H1 : 1 <= 1 + p * x) by nra.
  split.
  - apply Rdiv_lt_0_compat; lra.
  - apply Rmult_le_reg_r with (1 + p * x); [lra |].
    unfold Rdiv. rewrite Rmult_assoc, Rinv_l by lra. lra.
Qed.

#[export] Hint Resolve exp_pos sqrt2_pos Rabs_pos Rabs_div_sqrt2_nonneg : pricing.

(** [1 / (1 + p * x)] decreases in [x]. *)
Lemma recip_lt (p u v : R) :
  0 < p -> 0 <= u -> u < v -> 1 / (1 + p * v) < 1 / (1 + p * u).
Proof.
  intros Hp Hu Huv. unfold Rdiv. rewrite !Rmult_1_l.
  assert (0 < 1 + p * u) by nra. assert (0 < 1 + p * v) by nra.
  apply Rinv_lt_contravar; [apply Rmult_lt_0_compat; assumption | nra].
Qed.

(** The Gaussian factor [exp (- x^2 / 2)]. *)
Lemma exp_half_sqr_range (x : R) : 0 < exp (- (x * x / 2)) <= 1.
Proof. split; [apply exp_pos | apply exp_le_1; nra]. Qed.

Lemma exp_half_sqr_le (x y : R) :
  Rabs y <= Rabs x -> exp (- (x * x / 2)) <= exp (- (y * y / 2)).
Proof.
  intros H. pose proof (Rsqr_le_abs_1 _ _ H) as Hs. unfold Rsqr in Hs.
  destruct (Req_dec (y * y) (x * x)) as [-> | Hne]; [lra |].
  left. apply exp_increasing. lra.
Qed.

(** A continuous function stays above a bound near a point where it is
    above it. *)
Lemma continuity_pt_gt (f : R -> R) (x c : R) :
  continuity_pt f x -> c < f x ->
  exists a, 0 < a /\ forall y, Rabs (y - x) < a -> c < f y.
Proof.
  intros Hf Hc. destruct (Hf (f x - c) ltac:(lra)) as [a [Ha H]].
  exists a. split; [exact Ha |]. intros y Hy.
  destruct (Req_dec x y) as [<- | Hne]; [exact Hc |].
  specialize (H y (conj (conj I Hne) Hy)).
  simpl in H. unfold R_dist in H. apply Rabs_def2 in H. lra.
Qed.
