(* ===== verification/NormalDist.v ===== *)
(** * NormalDist: the standard normal CDF and density of the engine

    [norm_cdf] and [norm_pdf] of [BlackScholesEngine]
    ([src/cpp_engine/black_scholes.hpp], lines 15-35), generic in the
    carrier, then their properties in the exact reading: the CDF is the
    Abramowitz-Stegun formula [1/2 (1 + sign (1 - tail))]; it reflects about
    zero everywhere except at zero, where the formula's value is
    [0.5000000005] on both sides; it lies strictly between 0 and 1 and is
    strictly increasing, the step at zero included; and two weights in
    the ratio of the Gaussian factors at [x > y] keep [A N(x) - B N(y)]
    positive ([norm_cdf_weighted]), which is what keeps the prices of
    [BlackScholes.v] inside their no-arbitrage bounds. *)

From Stdlib Require Import Reals Lra Psatz ZArith Bool.
From S2P Require Import Prelude Numeric RealModel.

(** ** The code *)

Section Code.
Context {T : Type} `{Double T}.
Local Open Scope dbl_scope.

(** [static double norm_cdf(double x)]: the local constants, the sign taken
    before [x] is overwritten, the reassignment of [x], Horner's scheme in
    the source's parenthesisation. *)
Definition norm_cdf (x : T) : T :=
  let a1 := dec 254829592 9 in
  let a2 := - dec 284496736 9 in
  let a3 := dec 1421413741 9 in
  let a4 := - dec 1453152027 9 in
  let a5 := dec 1061405429 9 in
  let p := dec 3275911 7 in
  let sign : Z := if x <? of_int 0 then (-1)%Z else 1%Z in
  let x := fabs x / fsqrt (of_int 2) in
  let t := of_int 1 / (of_int 1 + p * x) in
  let y := of_int 1
           - (((((a5 * t + a4) * t) + a3) * t + a2) * t + a1) * t * fexp (- x * x) in
  dec 5 1 * (of_int 1 + of_int sign * y).

(** [static double norm_pdf(double x)]. *)
Definition norm_pdf (x : T) : T :=
  (of_int 1 / fsqrt (of_int 2 * M_PI)) * fexp (- dec 5 1 * x * x).

End Code.

(** ** The exact reading *)

Local Open Scope R_scope.

(** The polynomial factor of the approximation, [t] times the quartic. *)
Definition as_poly (t : R) : R :=
  ((((1061405429 / 1000000000 * t + - (1453152027 / 1000000000)) * t
     + 1421413741 / 1000000000) * t + - (284496736 / 1000000000)) * t
   + 254829592 / 1000000000) * t.

(** The tail [1 - erf u] as the formula approximates it, for [u >= 0]. *)
Definition as_tail (u : R) : R :=
  as_poly (1 / (1 + 3275911 / 10000000 * u)) * exp (- u * u).

(** The derivative of [as_poly]. *)
Definition as_slope (t : R) : R :=
  254829592 / 1000000000 + - (568993472 / 1000000000) * t
  + (t * t) * (4264241223 / 1000000000 + - (5812608108 / 1000000000) * t
               + 5307027145 / 1000000000 * (t * t)).

(** The polynomial factor of the tail at [x]: [as_poly] at the [t] of
    [norm_cdf x]. *)
Definition cdf_poly (x : R) : R :=
  as_poly (1 / (1 + 3275911 / 10000000 * (Rabs x / sqrt 2))).

(** [norm_cdf] over [R], by the sign of its argument. *)
Lemma norm_cdf_real (x : R) :
  norm_cdf x =
  if Rltb x 0 then 1 / 2 * as_tail (Rabs x / sqrt 2)
  else 1 - 1 / 2 * as_tail (Rabs x / sqrt 2).
Proof.
  unfold norm_cdf, as_tail, as_poly. real_unfold.
  destruct (Rltb x 0); lra.
Qed.

(** The quartic is positive everywhere. *)
Lemma as_quartic_pos (t : R) :
  0 < (((1061405429 / 1000000000 * t + - (1453152027 / 1000000000)) * t
        + 1421413741 / 1000000000) * t + - (284496736 / 1000000000)) * t
      + 254829592 / 1000000000.
Proof.
  pose proof (quad_pos (254829592 / 1000000000) (- (284496736 / 1000000000))
                (8 / 10) t ltac:(lra) ltac:(lra)) as H1.
  pose proof (quad_pos (1421413741 / 1000000000 - 8 / 10)
                (- (1453152027 / 1000000000)) (1061405429 / 1000000000) t
                ltac:(lra) ltac:(lra)) as H2.
  assert (H3 : 0 <= t * t) by nra.
  pose proof (Rmult_le_pos _ _ H3 (Rlt_le _ _ H2)) as H4.
  lra.
Qed.

Lemma as_poly_pos (t : R) : 0 < t -> 0 < as_poly t.
Proof.
  intros Ht. unfold as_poly. apply Rmult_lt_0_compat; [apply as_quartic_pos | exact Ht].
Qed.

(** On [[0, 1]] the polynomial stays below its value at 1, which is
    [0.999999999]: the five coefficients do not quite sum to one. *)
Lemma as_poly_le (t : R) : 0 <= t <= 1 -> as_poly t <= 999999999 / 1000000000.
Proof.
  intros [H0 H1].
  pose proof (quad_pos (1029667143 / 1000000000) (- (391746598 / 1000000000))
                (1061405429 / 1000000000) t ltac:(lra) ltac:(lra)) as Hq.
  assert (H3 : 0 <= t * t) by nra.
  pose proof (Rmult_le_pos _ _ H3 (Rlt_le _ _ Hq)) as H4.
  assert (Hr : 0 <= 999999999 / 1000000000 + 745170407 / 1000000000 * t
                 + (t * t) * (1029667143 / 1000000000
                              + - (391746598 / 1000000000) * t
                              + 1061405429 / 1000000000 * (t * t))) by nra.
  assert (H1' : 0 <= 1 - t) by lra.
  pose proof (Rmult_le_pos _ _ H1' Hr) as H5.
  unfold as_poly. lra.
Qed.

Lemma as_poly_1 : as_poly 1 = 999999999 / 1000000000.
Proof. unfold as_poly. lra. Qed.

Lemma as_tail_0 : as_tail 0 = 999999999 / 1000000000.
Proof.
  unfold as_tail.
  replace (1 / (1 + 3275911 / 10000000 * 0)) with 1 by (field; lra).
  replace (- 0 * 0) with 0 by lra.
  rewrite exp_0, as_poly_1. lra.
Qed.

(** The tail stays strictly inside [(0, 1)]. *)
Lemma as_tail_range (u : R) : 0 <= u -> 0 < as_tail u < 1.
Proof.
  intros Hu. unfold as_tail.
  destruct (recip_unit_interval (3275911 / 10000000) u ltac:(lra) Hu) as [Ht0 Ht1].
  pose proof (as_poly_pos _ Ht0) as Hp0.
  pose proof (as_poly_le _ (conj (Rlt_le _ _ Ht0) Ht1)) as Hp1.
  destruct (exp_neg_sqr_pos u) as [He0 He1].
  split; [apply Rmult_lt_0_compat; assumption | nra].
Qed.

(** The polynomial is increasing on the whole line: its derivative
    [as_slope] is a quartic without real roots. *)
Lemma as_poly_derivable : derivable as_poly.
Proof. unfold as_poly. reg. Qed.

Lemma as_poly_derive (t : R) :
  derive_pt as_poly t (as_poly_derivable t) = as_slope t.
Proof. unfold as_poly. reg. unfold as_slope. field. Qed.

Lemma as_slope_pos (t : R) : 0 < as_slope t.
Proof.
  pose proof (quad_pos (254829592 / 1000000000) (- (568993472 / 1000000000))
                (4 / 10) t ltac:(lra) ltac:(lra)) as H1.
  pose proof (quad_pos (4264241223 / 1000000000 - 4 / 10)
                (- (5812608108 / 1000000000)) (5307027145 / 1000000000) t
                ltac:(lra) ltac:(lra)) as H2.
  assert (H3 : 0 <= t * t) by nra.
  pose proof (Rmult_le_pos _ _ H3 (Rlt_le _ _ H2)) as H4.
  unfold as_slope. lra.
Qed.

Lemma as_poly_increasing (s t : R) : s < t -> as_poly s < as_poly t.
Proof.
  apply (positive_derivative as_poly as_poly_derivable).
  intros x. rewrite as_poly_derive. apply as_slope_pos.
Qed.

(** The tail decreases: [t] falls as [u] grows, the polynomial rises
    with [t], and [exp (- u * u)] falls. *)
Lemma as_tail_decreasing (u v : R) : 0 <= u -> u < v -> as_tail v < as_tail u.
Proof.
  intros Hu Huv. unfold as_tail.
  destruct (recip_unit_interval (3275911 / 10000000) v ltac:(lra) ltac:(lra)) as [Hv0 _].
  pose proof (as_poly_increasing _ _
                (recip_lt (3275911 / 10000000) u v ltac:(lra) Hu Huv)) as Hp.
  pose proof (as_poly_pos _ Hv0) as Hpv.
  assert (He : exp (- v * v) < exp (- u * u)) by (apply exp_increasing; nra).
  pose proof (exp_pos (- v * v)). nra.
Qed.

(** On the non-negative side the CDF lies in (1/2, 1), on the negative
    side in (0, 1/2). *)
Lemma norm_cdf_halves (x : R) :
  (0 <= x -> 1 / 2 < norm_cdf x < 1) /\ (x < 0 -> 0 < norm_cdf x < 1 / 2).
Proof.
  rewrite norm_cdf_real.
  pose proof (as_tail_range _ (Rabs_div_sqrt2_nonneg x)) as [H0 H1].
  cases_cmp; split; intros; lra.
Qed.

Lemma norm_cdf_bounds (x : R) : 0 < norm_cdf x < 1.
Proof.
  destruct (norm_cdf_halves x) as [Hpos Hneg].
  destruct (Rlt_le_dec x 0) as [Hx | Hx]; [specialize (Hneg Hx) | specialize (Hpos Hx)]; lra.
Qed.

(** Away from zero the formula reflects exactly. *)
Lemma norm_cdf_neg (x : R) : x <> 0 -> norm_cdf (- x) = 1 - norm_cdf x.
Proof.
  intros Hx. rewrite !norm_cdf_real, Rabs_Ropp.
  cases_cmp; lra.
Qed.

(** At zero the formula returns 0.5000000005, not 1/2. *)
Lemma norm_cdf_0 : norm_cdf 0 = 5000000005 / 10000000000.
Proof.
  rewrite norm_cdf_real.
  replace (Rabs 0 / sqrt 2) with 0 by (rewrite Rabs_R0; unfold Rdiv; lra).
  rewrite as_tail_0. cases_cmp; lra.
Qed.

(** The CDF is at least 1/2 exactly on the non-negative numbers. *)
Lemma norm_cdf_half_iff (x : R) : 0 <= x <-> 1 / 2 < norm_cdf x.
Proof.
  destruct (norm_cdf_halves x) as [Hpos Hneg]. split; intros Hx.
  - apply Hpos, Hx.
  - destruct (Rlt_le_dec x 0) as [Hlt | Hle]; [specialize (Hneg Hlt); lra | exact Hle].
Qed.

(** The CDF is strictly increasing: on each side of zero because the
    tail decreases, across zero by [norm_cdf_halves]. *)
Lemma norm_cdf_lt (x y : R) : x < y -> norm_cdf x < norm_cdf y.
Proof.
  intros Hxy.
  destruct (Rlt_le_dec y 0) as [Hy | Hy]; [| destruct (Rlt_le_dec x 0) as [Hx | Hx]].
  - pose proof (as_tail_decreasing _ _ (Rabs_div_sqrt2_nonneg y)
                  (Rabs_div_sqrt2_lt y x ltac:(rewrite !Rabs_left by lra; lra))).
    rewrite !norm_cdf_real. cases_cmp; lra.
  - destruct (norm_cdf_halves x) as [_ Hn], (norm_cdf_halves y) as [Hp _].
    specialize (Hn Hx). specialize (Hp Hy). lra.
  - pose proof (as_tail_decreasing _ _ (Rabs_div_sqrt2_nonneg x)
                  (Rabs_div_sqrt2_lt x y ltac:(rewrite !Rabs_right by lra; lra))).
    rewrite !norm_cdf_real. cases_cmp; lra.
Qed.

(** *** The CDF as polynomial times Gaussian factor *)

Lemma as_tail_cdf_poly (x : R) :
  as_tail (Rabs x / sqrt 2) = cdf_poly x * exp (- (x * x / 2)).
Proof.
  unfold as_tail, cdf_poly. do 2 f_equal.
  pose proof sqrt2_pos as H2. pose proof (sqrt_sqrt 2 ltac:(lra)) as Hs.
  assert (Ha : Rabs x * Rabs x = x * x) by (unfold Rabs; destruct (Rcase_abs x); ring).
  replace (- (Rabs x / sqrt 2) * (Rabs x / sqrt 2))
    with (- (Rabs x * Rabs x) / (sqrt 2 * sqrt 2)) by (field; lra).
  rewrite Ha, Hs. field.
Qed.

Lemma cdf_poly_range (x : R) : 0 < cdf_poly x <= 999999999 / 1000000000.
Proof.
  unfold cdf_poly.
  destruct (recip_unit_interval (3275911 / 10000000) _ ltac:(lra)
              (Rabs_div_sqrt2_nonneg x)) as [H0 H1].
  split; [apply as_poly_pos; exact H0 | apply as_poly_le; lra].
Qed.

Lemma cdf_poly_lt (x y : R) : Rabs x < Rabs y -> cdf_poly y < cdf_poly x.
Proof.
  intros H. unfold cdf_poly. apply as_poly_increasing, recip_lt;
    [lra | apply Rabs_div_sqrt2_nonneg | apply Rabs_div_sqrt2_lt, H].
Qed.

Lemma norm_cdf_poly (x : R) :
  norm_cdf x =
  if Rltb x 0 then 1 / 2 * (cdf_poly x * exp (- (x * x / 2)))
  else 1 - 1 / 2 * (cdf_poly x * exp (- (x * x / 2))).
Proof. rewrite norm_cdf_real, as_tail_cdf_poly. reflexivity. Qed.

(** *** Two weights in the ratio of the Gaussian factors

    Where [A exp (- x^2 / 2) = B exp (- y^2 / 2)] and [y < x], as for the
    spot and the discounted strike at [d1] and [d2], the errors of the
    approximation at [x] and [y] are ordered, and [A N(x) - B N(y)] lies
    strictly between [0] and [A - B] on the side where that is
    positive. *)

Lemma weight_le (A B x y : R) :
  0 < A -> 0 < B -> A * exp (- (x * x / 2)) = B * exp (- (y * y / 2)) ->
  Rabs y <= Rabs x -> B <= A.
Proof.
  intros HA HB HE H. pose proof (exp_half_sqr_le _ _ H).
  pose proof (exp_half_sqr_range x) as [? _]. pose proof (exp_half_sqr_range y) as [? _].
  nra.
Qed.

Section Weighted.
Variables A B x y : R.
Hypotheses (HA : 0 < A) (HB : 0 < B) (Hxy : y < x).
Hypothesis HE : A * exp (- (x * x / 2)) = B * exp (- (y * y / 2)).

(** The common factor [E], the products with the two polynomial factors,
    and their order by the order of [|x|] and [|y|]. *)
Lemma weighted_facts :
  let E := A * exp (- (x * x / 2)) in
  0 < E /\ E <= A /\ E <= B /\
  A * (cdf_poly x * exp (- (x * x / 2))) = E * cdf_poly x /\
  B * (cdf_poly y * exp (- (y * y / 2))) = E * cdf_poly y /\
  E * cdf_poly x <= E * (999999999 / 1000000000) /\
  E * cdf_poly y <= E * (999999999 / 1000000000) /\
  (Rabs x < Rabs y -> E * cdf_poly y < E * cdf_poly x) /\
  (Rabs y < Rabs x -> E * cdf_poly x < E * cdf_poly y).
Proof.
  intros E.
  pose proof (cdf_poly_range x) as [Hx0 Hx1]. pose proof (cdf_poly_range y) as [Hy0 Hy1].
  pose proof (exp_half_sqr_range x) as [Hex0 Hex1].
  pose proof (exp_half_sqr_range y) as [Hey0 Hey1].
  assert (HE0 : 0 < E) by (apply Rmult_lt_0_compat; assumption).
  split; [exact HE0 |]. split; [unfold E; nra |].
  split; [unfold E; rewrite HE; nra |].
  split; [unfold E; ring |]. split; [unfold E; rewrite HE; ring |].
  do 2 (split; [apply Rmult_le_compat_l; lra |]).
  split; intros H; apply Rmult_lt_compat_l, cdf_poly_lt; assumption.
Qed.

Lemma norm_cdf_weighted : 0 < A * norm_cdf x - B * norm_cdf y.
Proof.
  destruct weighted_facts as (HE0 & HEA & HEB & Hax & Hby & Hx1 & Hy1 & Hlt & Hgt).
  rewrite !norm_cdf_poly. cases_cmp; try lra.
  - specialize (Hlt ltac:(rewrite !Rabs_left by lra; lra)). lra.
  - specialize (Hgt ltac:(rewrite !Rabs_right by lra; lra)).
    pose proof (weight_le A B x y HA HB HE ltac:(rewrite !Rabs_right by lra; lra)). lra.
Qed.

Lemma norm_cdf_weighted_upper :
  0 < B * (1 - norm_cdf y) - A * (1 - norm_cdf x).
Proof.
  destruct weighted_facts as (HE0 & HEA & HEB & Hax & Hby & Hx1 & Hy1 & Hlt & Hgt).
  rewrite !norm_cdf_poly. cases_cmp; try lra.
  - specialize (Hlt ltac:(rewrite !Rabs_left by lra; lra)).
    pose proof (weight_le B A y x HB HA (eq_sym HE) ltac:(rewrite !Rabs_left by lra; lra)).
    lra.
  - specialize (Hgt ltac:(rewrite !Rabs_right by lra; lra)). lra.
Qed.

End Weighted.

(** The density over [R]. *)
Lemma norm_pdf_real (x : R) :
  norm_pdf x = 1 / sqrt (2 * PI) * exp (- (5 / 10) * x * x).
Proof. unfold norm_pdf. real_unfold. reflexivity. Qed.

Lemma sqrt_2PI_pos : 0 < sqrt (2 * PI).
Proof. apply sqrt_lt_R0. pose proof PI_RGT_0. lra. Qed.

(** The density is positive. *)
Lemma norm_pdf_pos (x : R) : 0 < norm_pdf x.
Proof.
  rewrite norm_pdf_real.
  apply Rmult_lt_0_compat; [| apply exp_pos].
  apply Rdiv_lt_0_compat; [lra | apply sqrt_2PI_pos].
Qed.

(** The density is even. *)
Lemma norm_pdf_even (x : R) : norm_pdf (- x) = norm_pdf x.
Proof. rewrite !norm_pdf_real. f_equal. f_equal. lra. Qed.

(** The density is largest at zero. *)
Lemma norm_pdf_max (x : R) : norm_pdf x <= norm_pdf 0.
Proof.
  rewrite !norm_pdf_real.
  apply Rmult_le_compat_l.
  - left. apply Rdiv_lt_0_compat; [lra | apply sqrt_2PI_pos].
  - replace (- (5 / 10) * 0 * 0) with 0 by lra. rewrite exp_0.
    apply exp_le_1. nra.
Qed.

(** A lower bound of the density that needs no value of [exp] or [PI]:
    [exp y >= 1 + y] and [sqrt (2 PI) <= 3]. *)
Lemma sqrt_2PI_le_3 : sqrt (2 * PI) <= 3.
Proof.
  rewrite <- (sqrt_square 3) by lra.
  apply sqrt_le_1_alt. pose proof PI_4. lra.
Qed.

Lemma norm_pdf_lower (x : R) : (1 - x * x / 2) / 3 <= norm_pdf x.
Proof.
  rewrite norm_pdf_real.
  pose proof sqrt_2PI_pos as Hq. pose proof sqrt_2PI_le_3 as Hq3.
  pose proof (exp_ineq1_le (- (5 / 10) * x * x)) as He.
  pose proof (exp_pos (- (5 / 10) * x * x)) as Hp.
  assert (Hr : 1 / 3 <= 1 / sqrt (2 * PI)).
  { unfold Rdiv. rewrite !Rmult_1_l. apply Rinv_le_contravar; assumption. }
  destruct (Rle_lt_dec (1 - x * x / 2) 0) as [Hneg | Hpos].
  - assert (0 < 1 / sqrt (2 * PI) * exp (- (5 / 10) * x * x)).
    { apply Rmult_lt_0_compat; [| exact Hp]. apply Rdiv_lt_0_compat; lra. }
    lra.
  - apply Rle_trans with (1 / 3 * (1 - x * x / 2)); [lra |].
    apply Rmult_le_compat; lra.
Qed.

#[export] Hint Resolve norm_pdf_pos : pricing.

(** ** Properties *)

(** C3. [norm_cdf] returns a value strictly between 0 and 1 for every
    argument: the approximation never leaves the range of a probability. *)
Theorem norm_cdf_range (x : R) : 0 < norm_cdf x < 1.
Proof. apply norm_cdf_bounds. Qed.

(** C16. [norm_cdf] is strictly increasing on the whole line, the step
    from 0.4999999995 to 0.5000000005 at zero included: a larger argument
    never gets a smaller probability. *)
Theorem norm_cdf_increasing (x y : R) : x < y -> norm_cdf x < norm_cdf y.
Proof. apply norm_cdf_lt. Qed.

Lemma norm_cdf_increasing_witness : norm_cdf (- 1) < norm_cdf 1.
Proof. apply norm_cdf_increasing. lra. Defined.

(** Away from zero the approximation satisfies the reflection law of
    the normal CDF exactly: N(x) + N(-x) = 1. *)
Theorem norm_cdf_reflect (x : R) : x <> 0 -> norm_cdf x + norm_cdf (- x) = 1.
Proof. intros Hx. rewrite norm_cdf_neg by exact Hx. lra. Qed.

Lemma norm_cdf_reflect_witness : norm_cdf 1 + norm_cdf (- 1) = 1.
Proof. apply norm_cdf_reflect. lra. Defined.

(** At zero the reflection law fails: the formula returns
    0.5000000005 for both N(0) and N(-0), so their sum is 1.000000001. *)
Theorem norm_cdf_reflect_fails_at_zero :
  norm_cdf 0 + norm_cdf (- 0) = 1 + 1 / 1000000000.
Proof. rewrite Ropp_0, norm_cdf_0. lra. Qed.

(** The density is positive, even, and largest at zero. *)
Theorem norm_pdf_bell (x : R) :
  0 < norm_pdf x <= norm_pdf 0 /\ norm_pdf (- x) = norm_pdf x.
Proof.
  split; [split; [apply norm_pdf_pos | apply norm_pdf_max] | apply norm_pdf_even].
Qed.
