(* ===== verification/BlackScholes.v ===== *)
(** * BlackScholes: closed-form prices and Greeks

    The static functions [d1], [d2], [call_price], [put_price], [delta],
    [gamma], [vega], [theta_call] and [rho_call] of [BlackScholesEngine]
    ([src/cpp_engine/black_scholes.hpp], lines 37-95), generic in the
    carrier, each with the source's local variables and operator order.

    In the exact reading: put-call parity holds whenever neither [d1] nor
    [d2] is zero, and is off by [S * 1e-9] (resp. [K e^(-rT) * 1e-9]) when
    one of them is, because [norm_cdf] returns 0.5000000005 at zero; delta
    parity holds for all inputs; the Greeks have the signs and bounds of
    the model, delta grows strictly with the spot, and the prices of a
    valid contract keep their no-arbitrage bounds; the call price
    does not: it steps down by [K e^(-rT) * 1e-9] where the spot crosses
    [K e^(-(r - sigma^2/2) T)], the point at which [d2] is zero. *)

From Stdlib Require Import Reals Lra Psatz ZArith Bool.
From S2P Require Import Prelude Numeric RealModel NormalDist.

(** ** The code *)

Section Code.
Context {F : Type} `{Double F}.
Local Open Scope dbl_scope.

Definition d1 (S K T r sigma : F) : F :=
  (flog (S / K) + (r + dec 5 1 * sigma * sigma) * T) / (sigma * fsqrt T).

Definition d2 (S K T r sigma : F) : F :=
  d1 S K T r sigma - sigma * fsqrt T.

Definition call_price (S K T r sigma : F) : F :=
  let d1_val := d1 S K T r sigma in
  let d2_val := d2 S K T r sigma in
  S * norm_cdf d1_val - K * fexp (- r * T) * norm_cdf d2_val.

Definition put_price (S K T r sigma : F) : F :=
  let d1_val := d1 S K T r sigma in
  let d2_val := d2 S K T r sigma in
  K * fexp (- r * T) * norm_cdf (- d2_val) - S * norm_cdf (- d1_val).

(** [is_call ? call_price(S, K, T, r, sigma) : put_price(S, K, T, r, sigma)],
    the expression the solver and the portfolio pricer both evaluate. *)
Definition model_price (S K T r : F) (is_call : bool) (sigma : F) : F :=
  if is_call then call_price S K T r sigma else put_price S K T r sigma.

Definition delta (S K T r sigma : F) (is_call : bool) : F :=
  let d1_val := d1 S K T r sigma in
  if is_call then norm_cdf d1_val else norm_cdf d1_val - of_int 1.

Definition gamma (S K T r sigma : F) : F :=
  let d1_val := d1 S K T r sigma in
  norm_pdf d1_val / (S * sigma * fsqrt T).

Definition vega (S K T r sigma : F) : F :=
  let d1_val := d1 S K T r sigma in
  S * norm_pdf d1_val * fsqrt T.

Definition theta_call (S K T r sigma : F) : F :=
  let d1_val := d1 S K T r sigma in
  let d2_val := d2 S K T r sigma in
  let term1 := - (S * norm_pdf d1_val * sigma) / (of_int 2 * fsqrt T) in
  let term2 := - r * K * fexp (- r * T) * norm_cdf d2_val in
  (term1 + term2) / of_int 365.

Definition rho_call (S K T r sigma : F) : F :=
  let d2_val := d2 S K T r sigma in
  K * T * fexp (- r * T) * norm_cdf d2_val / of_int 100.

End Code.

(** ** The exact reading *)

Local Open Scope R_scope.

(** The spot at which [d2] is [- eta]: [eta] standard deviations below
    [K exp (- (r - sigma^2 / 2) T)], where [d2] is zero. *)
Definition step_spot (K T r sigma eta : R) : R :=
  K * exp (- ((r - 5 / 10 * sigma * sigma) * T)) * exp (- eta * (sigma * sqrt T)).

(** The call price at [step_spot eta] for [0 < eta <= sigma sqrt T], where
    [d1] is non-negative and [d2] negative, as a function of [eta]. *)
Definition price_below (K T r sigma eta : R) : R :=
  step_spot K T r sigma eta
  * (1 - 1 / 2 * as_tail ((sigma * sqrt T - eta) / sqrt 2))
  - K * exp (- r * T) * (1 / 2 * as_tail (eta / sqrt 2)).

(** The no-arbitrage interval of a price: above the discounted
    intrinsic value, below the spot (call) or the discounted strike
    (put). *)
Definition price_floor (S K T r : R) (is_call : bool) : R :=
  Rmax 0 (if is_call then S - K * exp (- r * T) else K * exp (- r * T) - S).

Definition price_ceiling (S K T r : R) (is_call : bool) : R :=
  if is_call then S else K * exp (- r * T).

Section Exact.
Variables S K T r sigma : R.

Lemma d1_real :
  d1 S K T r sigma = (ln (S / K) + (r + 5 / 10 * sigma * sigma) * T) / (sigma * sqrt T).
Proof. unfold d1. real_unfold. reflexivity. Qed.

Lemma d2_real : d2 S K T r sigma = d1 S K T r sigma - sigma * sqrt T.
Proof. reflexivity. Qed.

Lemma call_price_real :
  call_price S K T r sigma =
  S * norm_cdf (d1 S K T r sigma) - K * exp (- r * T) * norm_cdf (d2 S K T r sigma).
Proof. reflexivity. Qed.

Lemma put_price_real :
  put_price S K T r sigma =
  K * exp (- r * T) * norm_cdf (- d2 S K T r sigma)
  - S * norm_cdf (- d1 S K T r sigma).
Proof. reflexivity. Qed.

Lemma delta_real (is_call : bool) :
  delta S K T r sigma is_call =
  if is_call then norm_cdf (d1 S K T r sigma) else norm_cdf (d1 S K T r sigma) - 1.
Proof. reflexivity. Qed.

Lemma gamma_real :
  gamma S K T r sigma = norm_pdf (d1 S K T r sigma) / (S * sigma * sqrt T).
Proof. reflexivity. Qed.

Lemma vega_real :
  vega S K T r sigma = S * norm_pdf (d1 S K T r sigma) * sqrt T.
Proof. reflexivity. Qed.

Lemma theta_call_real :
  theta_call S K T r sigma =
  (- (S * norm_pdf (d1 S K T r sigma) * sigma) / (2 * sqrt T)
   + - r * K * exp (- r * T) * norm_cdf (d2 S K T r sigma)) / 365.
Proof. reflexivity. Qed.

Lemma rho_call_real :
  rho_call S K T r sigma =
  K * T * exp (- r * T) * norm_cdf (d2 S K T r sigma) / 100.
Proof. reflexivity. Qed.

(** The gap of put-call parity, for all inputs: each CDF pair
    contributes what it misses from summing to one. *)
Lemma parity_gap :
  call_price S K T r sigma - put_price S K T r sigma - (S - K * exp (- r * T)) =
  S * (norm_cdf (d1 S K T r sigma) + norm_cdf (- d1 S K T r sigma) - 1)
  - K * exp (- r * T)
    * (norm_cdf (d2 S K T r sigma) + norm_cdf (- d2 S K T r sigma) - 1).
Proof. rewrite call_price_real, put_price_real. ring. Qed.

Lemma vega_pos_real : 0 < S -> 0 < T -> 0 < vega S K T r sigma.
Proof.
  intros HS HT. rewrite vega_real.
  apply Rmult_lt_0_compat; [| apply sqrt_lt_R0; exact HT].
  apply Rmult_lt_0_compat; [exact HS | apply norm_pdf_pos].
Qed.

Lemma gamma_pos_real : 0 < S -> 0 < sigma -> 0 < T -> 0 < gamma S K T r sigma.
Proof.
  intros HS Hs HT. rewrite gamma_real.
  apply Rdiv_lt_0_compat; [apply norm_pdf_pos |].
  apply Rmult_lt_0_compat; [| apply sqrt_lt_R0; exact HT].
  apply Rmult_lt_0_compat; assumption.
Qed.

End Exact.

(** [d1] and [d2] at the money ([S = K]) with one year to run. *)
Lemma d1_atm (K r sigma : R) :
  K <> 0 -> d1 K K 1 r sigma = (r + 5 / 10 * sigma * sigma) / sigma.
Proof.
  intros HK. rewrite d1_real.
  replace (K / K) with 1 by (field; exact HK).
  rewrite ln_1, sqrt_1. f_equal; ring.
Qed.

Lemma d2_atm (K r sigma : R) :
  K <> 0 -> d2 K K 1 r sigma = (r + 5 / 10 * sigma * sigma) / sigma - sigma.
Proof. intros HK. rewrite d2_real, d1_atm, sqrt_1 by exact HK. ring. Qed.

(** [d1] and [d2] of a valid contract: their order, and the balance of
    the two terms of the price, [S n(d1) = K exp (- r T) n(d2)] without
    the constant of the density. *)
Section Balance.
Variables S K T r sigma : R.
Hypotheses (HS : 0 < S) (HK : 0 < K) (HT : 0 < T) (Hs : 0 < sigma).

Lemma d2_lt_d1 : d2 S K T r sigma < d1 S K T r sigma.
Proof.
  rewrite d2_real. pose proof (sqrt_lt_R0 T HT) as Hq.
  pose proof (Rmult_lt_0_compat _ _ Hs Hq). lra.
Qed.

Lemma density_balance :
  S * exp (- (d1 S K T r sigma * d1 S K T r sigma / 2)) =
  K * exp (- r * T) * exp (- (d2 S K T r sigma * d2 S K T r sigma / 2)).
Proof.
  pose proof (sqrt_lt_R0 T HT) as Hq. pose proof (sqrt_sqrt T (Rlt_le _ _ HT)) as Hqq.
  assert (Hd : d1 S K T r sigma * (sigma * sqrt T) =
               ln (S / K) + (r + 5 / 10 * sigma * sigma) * T).
  { rewrite d1_real. field. nra. }
  rewrite d2_real.
  replace (- ((d1 S K T r sigma - sigma * sqrt T) * (d1 S K T r sigma - sigma * sqrt T) / 2))
    with (- (d1 S K T r sigma * d1 S K T r sigma / 2) + (ln (S / K) + r * T)).
  - rewrite !exp_plus, exp_ln by (apply Rdiv_lt_0_compat; assumption).
    replace (- r * T) with (- (r * T)) by ring. rewrite (exp_Ropp (r * T)).
    pose proof (exp_pos (r * T)). field. lra.
  - set (a := d1 S K T r sigma) in *. set (q := sqrt T) in *.
    replace ((a - sigma * q) * (a - sigma * q))
      with (a * a - 2 * (a * (sigma * q)) + sigma * sigma * (q * q)) by ring.
    rewrite Hd, Hqq. lra.
Qed.

(** The four differences that bound the prices, from the two lemmas on
    weighted values of the CDF: at ([d1], [d2]) for the call, at
    ([- d2], [- d1]) with the weights exchanged for the put. *)
Lemma price_gaps :
  let D := K * exp (- r * T) in
  0 < S * norm_cdf (d1 S K T r sigma) - D * norm_cdf (d2 S K T r sigma) /\
  0 < D * (1 - norm_cdf (d2 S K T r sigma)) - S * (1 - norm_cdf (d1 S K T r sigma)) /\
  0 < D * norm_cdf (- d2 S K T r sigma) - S * norm_cdf (- d1 S K T r sigma) /\
  0 < S * (1 - norm_cdf (- d1 S K T r sigma)) - D * (1 - norm_cdf (- d2 S K T r sigma)).
Proof.
  intros D.
  assert (HD : 0 < D) by (apply Rmult_lt_0_compat; [exact HK | apply exp_pos]).
  pose proof d2_lt_d1 as Hlt. pose proof density_balance as Hb.
  assert (Hlt' : - d1 S K T r sigma < - d2 S K T r sigma) by lra.
  assert (Hb' : D * exp (- (- d2 S K T r sigma * - d2 S K T r sigma / 2)) =
                S * exp (- (- d1 S K T r sigma * - d1 S K T r sigma / 2)))
    by (rewrite !Rmult_opp_opp; symmetry; exact Hb).
  split; [exact (norm_cdf_weighted _ _ _ _ HS HD Hlt Hb) |].
  split; [exact (norm_cdf_weighted_upper _ _ _ _ HS HD Hlt Hb) |].
  split; [exact (norm_cdf_weighted _ _ _ _ HD HS Hlt' Hb') |].
  exact (norm_cdf_weighted_upper _ _ _ _ HD HS Hlt' Hb').
Qed.

Lemma prices_bounded :
  Rmax 0 (S - K * exp (- r * T)) < call_price S K T r sigma < S /\
  Rmax 0 (K * exp (- r * T) - S) < put_price S K T r sigma < K * exp (- r * T).
Proof.
  destruct price_gaps as (H1 & H2 & H3 & H4).
  assert (HD : 0 < K * exp (- r * T)) by (apply Rmult_lt_0_compat; auto with pricing).
  pose proof (norm_cdf_bounds (d1 S K T r sigma)).
  pose proof (norm_cdf_bounds (d2 S K T r sigma)).
  pose proof (norm_cdf_bounds (- d1 S K T r sigma)).
  pose proof (norm_cdf_bounds (- d2 S K T r sigma)).
  rewrite call_price_real, put_price_real.
  split; (split; [apply Rmax_lub_lt |]); nra.
Qed.

Lemma model_price_bounded (is_call : bool) :
  price_floor S K T r is_call < model_price S K T r is_call sigma
  < price_ceiling S K T r is_call.
Proof.
  unfold price_floor, price_ceiling, model_price.
  destruct prices_bounded as [Hc Hp]. destruct is_call; assumption.
Qed.

End Balance.

(** The call price around the spot where [d2] is zero. *)
Section Step.
Variables K T r sigma : R.
Hypotheses (HK : 0 < K) (HT : 0 < T) (Hs : 0 < sigma).

Lemma step_spot_pos (eta : R) : 0 < step_spot K T r sigma eta.
Proof.
  unfold step_spot. pose proof (exp_pos (- ((r - 5 / 10 * sigma * sigma) * T))).
  pose proof (exp_pos (- eta * (sigma * sqrt T))).
  repeat apply Rmult_lt_0_compat; assumption.
Qed.

Lemma step_spot_lt (eta : R) :
  0 < eta -> step_spot K T r sigma eta < step_spot K T r sigma 0.
Proof.
  intros H. pose proof (sqrt_lt_R0 T HT) as Hq.
  unfold step_spot. apply Rmult_lt_compat_l.
  - apply Rmult_lt_0_compat; [exact HK | apply exp_pos].
  - apply exp_increasing. pose proof (Rmult_lt_0_compat _ _ Hs Hq). nra.
Qed.

Lemma d1_step_spot (eta : R) :
  d1 (step_spot K T r sigma eta) K T r sigma = sigma * sqrt T - eta.
Proof.
  pose proof (sqrt_lt_R0 T HT) as Hq. pose proof (sqrt_sqrt T (Rlt_le _ _ HT)) as Hqq.
  rewrite d1_real. unfold step_spot.
  replace (K * exp (- ((r - 5 / 10 * sigma * sigma) * T)) *
           exp (- eta * (sigma * sqrt T)) / K)
    with (exp (- ((r - 5 / 10 * sigma * sigma) * T) + - eta * (sigma * sqrt T)))
    by (rewrite exp_plus; field; lra).
  rewrite ln_exp. set (q := sqrt T) in *. rewrite <- Hqq. field. nra.
Qed.

Lemma d2_step_spot (eta : R) :
  d2 (step_spot K T r sigma eta) K T r sigma = - eta.
Proof. rewrite d2_real, d1_step_spot. ring. Qed.

Lemma call_price_step_spot (eta : R) :
  0 < eta <= sigma * sqrt T ->
  call_price (step_spot K T r sigma eta) K T r sigma = price_below K T r sigma eta.
Proof.
  intros [H0 H1]. rewrite call_price_real, d2_step_spot, d1_step_spot, !norm_cdf_real.
  rewrite Rabs_Ropp, (Rabs_right eta), (Rabs_right (sigma * sqrt T - eta)) by lra.
  unfold price_below. cases_cmp; lra.
Qed.

(** At the spot itself [norm_cdf d2] is 0.5000000005 and not the limit
    0.4999999995 from below: the price misses the limit by
    [K exp (- r T) * 1e-9]. *)
Lemma call_price_at_step :
  call_price (step_spot K T r sigma 0) K T r sigma =
  price_below K T r sigma 0 - K * exp (- r * T) * (1 / 1000000000).
Proof.
  pose proof (sqrt_lt_R0 T HT) as Hq.
  pose proof (Rmult_lt_0_compat _ _ Hs Hq).
  rewrite call_price_real, d2_step_spot, d1_step_spot, Ropp_0, norm_cdf_0, norm_cdf_real.
  unfold price_below. replace (0 / sqrt 2) with 0 by (unfold Rdiv; ring).
  rewrite as_tail_0, Rabs_right by lra. cases_cmp; lra.
Qed.

Lemma price_below_continuous : continuity_pt (price_below K T r sigma) 0.
Proof.
  pose proof (sqrt_lt_R0 T HT) as Hq. pose proof sqrt2_pos as H2.
  pose proof (Rinv_0_lt_compat _ H2) as Hi.
  pose proof (Rmult_lt_0_compat _ _ Hs Hq) as Hd.
  pose proof (Rmult_lt_0_compat _ _ Hd Hi).
  unfold price_below, step_spot, as_tail, as_poly. reg; rewrite ?Rminus_0_r; nra.
Qed.

(** Just below the spot where [d2] is zero the call is worth more than
    at it. *)
Lemma call_price_dips :
  exists eta, 0 < eta /\
    call_price (step_spot K T r sigma 0) K T r sigma
    < call_price (step_spot K T r sigma eta) K T r sigma.
Proof.
  pose proof (sqrt_lt_R0 T HT) as Hq.
  pose proof (Rmult_lt_0_compat _ _ Hs Hq) as Hd.
  assert (Hgap : call_price (step_spot K T r sigma 0) K T r sigma
                 < price_below K T r sigma 0).
  { rewrite call_price_at_step. pose proof (exp_pos (- r * T)). nra. }
  destruct (continuity_pt_gt _ _ _ price_below_continuous Hgap) as [a [Ha Hnear]].
  pose proof (Rmin_l a (sigma * sqrt T)). pose proof (Rmin_r a (sigma * sqrt T)).
  pose proof (Rmin_glb_lt a (sigma * sqrt T) 0 Ha Hd).
  exists (Rmin a (sigma * sqrt T) / 2). split; [lra |].
  rewrite (call_price_step_spot (Rmin a (sigma * sqrt T) / 2)) by lra.
  apply Hnear. rewrite Rminus_0_r, Rabs_right; lra.
Qed.

End Step.

#[export] Hint Resolve vega_pos_real gamma_pos_real : pricing.

(** ** Properties *)

(** C1. Put-call parity: whenever neither [d1] nor [d2] is zero, the
    computed call price minus the computed put price is exactly
    [S - K e^(-rT)]; the CDF approximation's error cancels. *)
Theorem put_call_parity (S K T r sigma : R) :
  d1 S K T r sigma <> 0 -> d2 S K T r sigma <> 0 ->
  call_price S K T r sigma - put_price S K T r sigma = S - K * exp (- r * T).
Proof.
  intros H1 H2. pose proof (parity_gap S K T r sigma) as Hg.
  rewrite (norm_cdf_neg _ H1), (norm_cdf_neg _ H2) in Hg. lra.
Qed.

Lemma put_call_parity_witness :
  call_price 1 1 1 0 1 - put_price 1 1 1 0 1 = 1 - 1 * exp (- 0 * 1).
Proof.
  apply put_call_parity; [rewrite d1_atm | rewrite d2_atm]; lra.
Defined.

(** C40. Where parity fails: when [d1] is exactly zero (and [d2] is not) the
    computed prices miss parity by [S * 1e-9], because [norm_cdf] returns
    0.5000000005 for both [N(d1)] and [N(-d1)]. *)
Theorem put_call_parity_defect (S K T r sigma : R) :
  d1 S K T r sigma = 0 -> d2 S K T r sigma <> 0 ->
  call_price S K T r sigma - put_price S K T r sigma - (S - K * exp (- r * T))
  = S / 1000000000.
Proof.
  intros H1 H2. rewrite parity_gap, (norm_cdf_neg _ H2), H1, Ropp_0, norm_cdf_0. lra.
Qed.

(** With [S = K = 100], [T = 1], [sigma = 2] and [r = -2] (so that
    [r + sigma^2 / 2 = 0]) the defect is [1e-7]. *)
Lemma put_call_parity_defect_witness :
  call_price 100 100 1 (-2) 2 - put_price 100 100 1 (-2) 2
  - (100 - 100 * exp (- (-2) * 1)) = 100 / 1000000000.
Proof.
  apply put_call_parity_defect; [rewrite d1_atm | rewrite d2_atm]; lra.
Defined.

(** Delta parity: the call delta minus the put delta is 1, for every
    input. *)
Theorem delta_parity (S K T r sigma : R) :
  delta S K T r sigma true - delta S K T r sigma false = 1.
Proof. rewrite !delta_real. lra. Qed.


(** For positive spot, volatility and maturity, gamma and vega are
    positive and related by [vega = S^2 sigma T gamma]. *)
Theorem gamma_vega (S K T r sigma : R) :
  0 < S -> 0 < sigma -> 0 < T ->
  0 < gamma S K T r sigma /\ 0 < vega S K T r sigma /\
  vega S K T r sigma = S * S * sigma * T * gamma S K T r sigma.
Proof.
  intros HS Hs HT. repeat split; auto with pricing.
  rewrite vega_real, gamma_real.
  pose proof (sqrt_lt_R0 T HT) as Hq.
  pose proof (sqrt_sqrt T (Rlt_le _ _ HT)) as Hsq.
  revert Hq Hsq. generalize (sqrt T) as q. intros q Hq Hsq.
  rewrite <- Hsq. field. lra.
Qed.

Lemma gamma_vega_witness :
  0 < gamma 1 1 1 0 1 /\ 0 < vega 1 1 1 0 1 /\
  vega 1 1 1 0 1 = 1 * 1 * 1 * 1 * gamma 1 1 1 0 1.
Proof. apply gamma_vega; lra. Defined.

(** C2. No-arbitrage bounds: for every contract with positive spot,
    strike, expiry and volatility, and any rate, the computed call price
    lies strictly between [max (0, S - K exp (- r T))] and [S], and the
    computed put price strictly between [max (0, K exp (- r T) - S)] and
    [K exp (- r T)].  The approximation of the CDF does not break them,
    because its error at [d1] and at [d2] enters both terms of a price
    with the same Gaussian weight and the polynomial is increasing. *)
Theorem price_bounds (S K T r sigma : R) :
  0 < S -> 0 < K -> 0 < T -> 0 < sigma ->
  Rmax 0 (S - K * exp (- r * T)) < call_price S K T r sigma < S /\
  Rmax 0 (K * exp (- r * T) - S) < put_price S K T r sigma < K * exp (- r * T).
Proof.
  intros HS HK HT Hs. apply prices_bounded; assumption.
Qed.

Lemma price_bounds_witness :
  Rmax 0 (100 - 100 * exp (- (5 / 100) * 1)) < call_price 100 100 1 (5 / 100) (2 / 10) < 100 /\
  Rmax 0 (100 * exp (- (5 / 100) * 1) - 100) < put_price 100 100 1 (5 / 100) (2 / 10)
    < 100 * exp (- (5 / 100) * 1).
Proof. apply price_bounds; lra. Defined.

(** For positive spot and strike the call price is below the spot and
    the put price below the discounted strike. *)
Theorem price_upper_bounds (S K T r sigma : R) :
  0 < S -> 0 < K ->
  call_price S K T r sigma < S /\ put_price S K T r sigma < K * exp (- r * T).
Proof.
  intros HS HK. rewrite call_price_real, put_price_real.
  assert (HD : 0 < K * exp (- r * T)) by (apply Rmult_lt_0_compat; auto with pricing).
  pose proof (norm_cdf_bounds (d1 S K T r sigma)).
  pose proof (norm_cdf_bounds (d2 S K T r sigma)).
  pose proof (norm_cdf_bounds (- d1 S K T r sigma)).
  pose proof (norm_cdf_bounds (- d2 S K T r sigma)).
  split; nra.
Qed.

Lemma price_upper_bounds_witness :
  call_price 1 1 1 0 1 < 1 /\ put_price 1 1 1 0 1 < 1 * exp (- 0 * 1).
Proof. apply price_upper_bounds; lra. Defined.

(** For positive spot, strike, volatility and maturity and a
    non-negative rate, the call's theta is negative: the option loses value
    as time passes. *)
Theorem theta_call_negative (S K T r sigma : R) :
  0 < S -> 0 < K -> 0 < sigma -> 0 < T -> 0 <= r ->
  theta_call S K T r sigma < 0.
Proof.
  intros HS HK Hs HT Hr. rewrite theta_call_real.
  pose proof (sqrt_lt_R0 T HT) as Hq.
  pose proof (norm_pdf_pos (d1 S K T r sigma)) as Hp.
  pose proof (norm_cdf_bounds (d2 S K T r sigma)) as [Hc _].
  pose proof (exp_pos (- r * T)) as He.
  assert (H1 : 0 < S * norm_pdf (d1 S K T r sigma) * sigma / (2 * sqrt T)).
  { apply Rdiv_lt_0_compat; [| lra].
    apply Rmult_lt_0_compat; [apply Rmult_lt_0_compat |]; assumption. }
  assert (H2 : 0 <= r * K * exp (- r * T) * norm_cdf (d2 S K T r sigma)).
  { apply Rmult_le_pos; [apply Rmult_le_pos; [apply Rmult_le_pos |] |]; lra. }
  unfold Rdiv in *. nra.
Qed.

Lemma theta_call_negative_witness : theta_call 1 1 1 0 1 < 0.
Proof. apply theta_call_negative; lra. Defined.

(** For positive strike and maturity the call's rho is positive. *)
Theorem rho_call_positive (S K T r sigma : R) :
  0 < K -> 0 < T -> 0 < rho_call S K T r sigma.
Proof.
  intros HK HT. rewrite rho_call_real.
  pose proof (norm_cdf_bounds (d2 S K T r sigma)) as [Hc _].
  apply Rdiv_lt_0_compat; [| lra].
  apply Rmult_lt_0_compat; [apply Rmult_lt_0_compat; [apply Rmult_lt_0_compat |] |];
    auto with pricing.
Qed.

Lemma rho_call_positive_witness : 0 < rho_call 1 1 1 0 1.
Proof. apply rho_call_positive; lra. Defined.

(** Signs of the Greeks.  For positive spot, strike, volatility and
    maturity and a non-negative rate: gamma and vega are positive and
    related by [vega = S^2 sigma T gamma]; the call's theta is negative
    (the option loses value as time passes); the call's rho is
    positive. *)
Theorem greeks_signs (S K T r sigma : R) :
  0 < S -> 0 < K -> 0 < sigma -> 0 < T -> 0 <= r ->
  0 < gamma S K T r sigma /\ 0 < vega S K T r sigma /\
  vega S K T r sigma = S * S * sigma * T * gamma S K T r sigma /\
  theta_call S K T r sigma < 0 /\ 0 < rho_call S K T r sigma.
Proof.
  intros HS HK Hs HT Hr.
  destruct (gamma_vega S K T r sigma HS Hs HT) as (Hg & Hv & Hgv).
  pose proof (theta_call_negative S K T r sigma HS HK Hs HT Hr).
  pose proof (rho_call_positive S K T r sigma HK HT). auto.
Qed.

Lemma greeks_signs_witness :
  0 < gamma 1 1 1 0 1 /\ 0 < vega 1 1 1 0 1 /\
  vega 1 1 1 0 1 = 1 * 1 * 1 * 1 * gamma 1 1 1 0 1 /\
  theta_call 1 1 1 0 1 < 0 /\ 0 < rho_call 1 1 1 0 1.
Proof. apply greeks_signs; lra. Defined.

(** The sign of [d1]: it is non-negative exactly when the spot is at or
    above the strike discounted at [r + sigma^2 / 2]. *)
Lemma d1_nonneg_iff (S K T r sigma : R) :
  0 < S -> 0 < K -> 0 < sigma -> 0 < T ->
  (0 <= d1 S K T r sigma <-> K * exp (- ((r + 5 / 10 * sigma * sigma) * T)) <= S).
Proof.
  intros HS HK Hs HT. rewrite d1_real.
  pose proof (sqrt_lt_R0 T HT) as Hq.
  assert (HD : 0 < sigma * sqrt T) by (apply Rmult_lt_0_compat; assumption).
  assert (HSK : 0 < S / K) by (apply Rdiv_lt_0_compat; assumption).
  set (c := (r + 5 / 10 * sigma * sigma) * T).
  assert (Hdiv : 0 <= (ln (S / K) + c) / (sigma * sqrt T) <-> - c <= ln (S / K)).
  { split; intros Hx.
    - apply Rmult_le_compat_r with (r := sigma * sqrt T) in Hx; [| lra].
      unfold Rdiv in Hx. rewrite Rmult_assoc, Rinv_l in Hx by lra. lra.
    - apply Rmult_le_pos; [lra | left; apply Rinv_0_lt_compat; exact HD]. }
  assert (Hexp : - c <= ln (S / K) <-> exp (- c) <= S / K).
  { rewrite <- (exp_ln (S / K) HSK) at 2. split; intros Hx.
    - destruct Hx as [Hx | ->]; [left; apply exp_increasing; exact Hx | right; reflexivity].
    - destruct Hx as [Hx | Hx]; [left; apply exp_lt_inv; exact Hx | right; apply exp_inv; exact Hx]. }
  rewrite Hdiv, Hexp. split; intros Hx.
  - apply Rmult_le_compat_l with (r := K) in Hx; [| lra].
    replace (K * (S / K)) with S in Hx by (field; lra). exact Hx.
  - apply Rmult_le_reg_l with K; [exact HK |].
    replace (K * (S / K)) with S by (field; lra). exact Hx.
Qed.

(** [d1] grows with the spot. *)
Lemma d1_increasing (S1 S2 K T r sigma : R) :
  0 < S1 < S2 -> 0 < K -> 0 < sigma -> 0 < T ->
  d1 S1 K T r sigma < d1 S2 K T r sigma.
Proof.
  intros [HS1 HS] HK Hs HT. rewrite !d1_real.
  pose proof (sqrt_lt_R0 T HT) as Hq.
  apply Rmult_lt_compat_r; [apply Rinv_0_lt_compat, Rmult_lt_0_compat; assumption |].
  apply Rplus_lt_compat_r, ln_increasing.
  - apply Rdiv_lt_0_compat; assumption.
  - apply Rmult_lt_compat_r; [apply Rinv_0_lt_compat; exact HK | exact HS].
Qed.

(** Moneyness: for a valid contract the call delta exceeds one half
    exactly when the spot is at or above [K e^(-(r + sigma^2/2) T)]. *)
Theorem delta_call_above_half (S K T r sigma : R) :
  0 < S -> 0 < K -> 0 < sigma -> 0 < T ->
  (1 / 2 < delta S K T r sigma true <->
   K * exp (- ((r + 5 / 10 * sigma * sigma) * T)) <= S).
Proof.
  intros HS HK Hs HT. rewrite delta_real, <- norm_cdf_half_iff.
  apply d1_nonneg_iff; assumption.
Qed.

Lemma delta_call_above_half_witness :
  1 / 2 < delta 1 1 1 0 1 true <->
  1 * exp (- ((0 + 5 / 10 * 1 * 1) * 1)) <= 1.
Proof. apply delta_call_above_half; lra. Defined.

(** C17. The call price is not monotone in the spot: for every contract
    with positive strike, expiry and volatility there are two spots
    [S1 < S2] at which the call is worth strictly more at the lower one.
    At [S2 = K exp (- (r - sigma^2 / 2) T)], where [d2] is zero,
    [norm_cdf d2] steps up by 1e-9 and the price steps down by
    [K exp (- r T) * 1e-9]. *)
Theorem call_price_steps_down (K T r sigma : R) :
  0 < K -> 0 < T -> 0 < sigma ->
  exists S1 S2 : R,
    0 < S1 < S2 /\ call_price S2 K T r sigma < call_price S1 K T r sigma.
Proof.
  intros HK HT Hs.
  destruct (call_price_dips K T r sigma HK HT Hs) as [eta [He Hlt]].
  exists (step_spot K T r sigma eta), (step_spot K T r sigma 0).
  split; [split; [apply step_spot_pos | apply step_spot_lt] |]; assumption.
Qed.

Lemma call_price_steps_down_witness :
  exists S1 S2 : R,
    0 < S1 < S2 /\
    call_price S2 100 1 (2 / 100) (2 / 10) < call_price S1 100 1 (2 / 100) (2 / 10).
Proof. apply call_price_steps_down; lra. Defined.

(** For a valid contract the delta of a call and of a put grows strictly
    with the spot, as the positive gamma says it should. *)
Theorem delta_increasing_in_spot (S1 S2 K T r sigma : R) (is_call : bool) :
  0 < S1 < S2 -> 0 < K -> 0 < sigma -> 0 < T ->
  delta S1 K T r sigma is_call < delta S2 K T r sigma is_call.
Proof.
  intros HS HK Hs HT. rewrite !delta_real.
  pose proof (norm_cdf_lt _ _ (d1_increasing S1 S2 K T r sigma HS HK Hs HT)).
  destruct is_call; lra.
Qed.

Lemma delta_increasing_in_spot_witness :
  delta 1 1 1 0 1 false < delta 2 1 1 0 1 false.
Proof. apply delta_increasing_in_spot; lra. Defined.
