(* ===== verification/ImpliedVol.v ===== *)
(** * ImpliedVol: the Newton-Raphson implied-volatility solver

    [BlackScholesEngine::implied_volatility]
    ([src/cpp_engine/black_scholes.hpp], lines 98-119).  The body of the
    [for] loop is [iteration]: it prices at the current [sigma], computes
    vega, and either leaves the loop ([break] on a flat vega, [return] on a
    price within tolerance) or produces the next, clamped [sigma].  The
    loop is [newton], a recursion on the number of iterations left, so it
    is total; [implied_volatility] runs it for [max_iterations = 100].

    The source returns the same [double] however the loop ended.  [solve]
    is the solver the specification asks for: the same iteration, with the
    way it ended and the number of updates recorded.  The code is proved to
    be [solve] with the tag erased, and each tag is proved to mean what it
    says.  The range of the result, [[0.001, 5.0]] after any update, is
    proved from the order laws alone, so it holds for IEEE doubles too,
    NaN included.  In the exact reading the bounds of the prices
    ([BlackScholes.v]) give the solver a negative result: a target price
    outside the no-arbitrage interval is never reported as converged
    ([solve_rejects_arbitrage]). *)

From Stdlib Require Import Reals Lra Lia ZArith Bool.
From S2P Require Import Prelude Numeric RealModel NormalDist BlackScholes.

(** ** The code *)

Section Code.
Context {F : Type} `{Double F}.
Local Open Scope dbl_scope.

Definition max_iterations : nat := 100.

Definition tolerance : F := dec 1 6.

(** How one pass through the loop body ends. *)
Variant verdict : Type :=
| Flat               (* [if (fabs(vega_val) < 1e-10) break;] *)
| Within             (* [if (fabs(diff) < tolerance) return sigma;] *)
| Next (sigma : F).  (* the update and the clamp *)

(** The loop body. *)
Definition iteration (option_price S K T r : F) (is_call : bool) (sigma : F)
  : verdict :=
  let price := if is_call then call_price S K T r sigma
               else put_price S K T r sigma in
  let vega_val := vega S K T r sigma in
  if fabs vega_val <? dec 1 10 then Flat
  else
    let diff := option_price - price in
    if fabs diff <? tolerance then Within
    else
      let sigma := sigma + diff / vega_val in
      let sigma := fmax (dec 1 3) (fmin sigma (of_int 5)) in
      Next sigma.

(** The loop with [n] iterations left; all three exits return [sigma]. *)
Fixpoint newton (n : nat) (option_price S K T r : F) (is_call : bool)
    (sigma : F) : F :=
  match n with
  | O => sigma
  | Datatypes.S n' =>
      match iteration option_price S K T r is_call sigma with
      | Flat => sigma
      | Within => sigma
      | Next sigma' => newton n' option_price S K T r is_call sigma'
      end
  end.

Definition implied_volatility (option_price S K T r : F) (is_call : bool)
    (initial_guess : F) : F :=
  newton max_iterations option_price S K T r is_call initial_guess.

(** The default argument [initial_guess = 0.3]. *)
Definition implied_volatility_default (option_price S K T r : F)
    (is_call : bool) : F :=
  implied_volatility option_price S K T r is_call (dec 3 1).

(** ** The specified solver: the same iteration, with its outcome *)

Inductive iv_outcome : Type :=
| Converged (sigma : F) (updates : nat)
| Degenerate (sigma : F) (updates : nat)
| NotConverged (last_sigma : F) (updates : nat).

Fixpoint solve_from (n done : nat) (option_price S K T r : F) (is_call : bool)
    (sigma : F) : iv_outcome :=
  match n with
  | O => NotConverged sigma done
  | Datatypes.S n' =>
      match iteration option_price S K T r is_call sigma with
      | Flat => Degenerate sigma done
      | Within => Converged sigma done
      | Next sigma' =>
          solve_from n' (Datatypes.S done) option_price S K T r is_call sigma'
      end
  end.

Definition solve (option_price S K T r : F) (is_call : bool)
    (initial_guess : F) : iv_outcome :=
  solve_from max_iterations 0 option_price S K T r is_call initial_guess.

Definition outcome_sigma (o : iv_outcome) : F :=
  match o with
  | Converged s _ | Degenerate s _ | NotConverged s _ => s
  end.

Definition outcome_updates (o : iv_outcome) : nat :=
  match o with
  | Converged _ k | Degenerate _ k | NotConverged _ k => k
  end.

(** [sigma] is inside the clamp's interval. *)
Definition in_clamp (sigma : F) : Prop :=
  fle (dec 1 3) sigma = true /\ fle sigma (of_int 5) = true.

End Code.

(** A target price at least the tolerance outside the no-arbitrage
    interval of the contract ([price_floor], [price_ceiling]): no
    volatility prices the contract within the tolerance of it. *)
Definition beyond_bounds (p S K T r : R) (is_call : bool) : Prop :=
  (p <= price_floor S K T r is_call - 1 / 1000000)%R \/
  (price_ceiling S K T r is_call + 1 / 1000000 <= p)%R.

(** ** Refinement and the meaning of the tags, for every carrier *)

Section Generic.
Context {F : Type} `{Double F}.
Variables (option_price S K T r : F) (is_call : bool).

#[local] Abbreviation iter := (iteration option_price S K T r is_call).
#[local] Abbreviation newt n := (newton n option_price S K T r is_call).
#[local] Abbreviation slv n d := (solve_from n d option_price S K T r is_call).

Lemma newton_erases (n done : nat) (sigma : F) :
  newt n sigma = outcome_sigma (slv n done sigma).
Proof.
  revert done sigma. induction n as [| n IH]; intros done sigma; simpl; auto.
  destruct (iter sigma); simpl; auto.
Qed.

(** The update count is the number of passes that ended in [Next]. *)
Lemma solve_from_updates (n done : nat) (sigma : F) :
  done <= outcome_updates (slv n done sigma) <= done + n.
Proof.
  revert done sigma. induction n as [| n IH]; intros done sigma; simpl; [lia |].
  destruct (iter sigma); simpl; try lia.
  specialize (IH (Datatypes.S done) sigma0). lia.
Qed.

Lemma solve_from_converged (n done : nat) (sigma s : F) (k : nat) :
  slv n done sigma = Converged s k ->
  iter s = Within /\ k < done + n.
Proof.
  revert done sigma. induction n as [| n IH]; intros done sigma; simpl; [discriminate |].
  destruct (iter sigma) eqn:E; intros Hs; try discriminate.
  - inv Hs. split; [exact E | lia].
  - apply IH in Hs. destruct Hs; split; [assumption | lia].
Qed.

Lemma solve_from_degenerate (n done : nat) (sigma s : F) (k : nat) :
  slv n done sigma = Degenerate s k ->
  iter s = Flat /\ k < done + n.
Proof.
  revert done sigma. induction n as [| n IH]; intros done sigma; simpl; [discriminate |].
  destruct (iter sigma) eqn:E; intros Hs; try discriminate.
  - inv Hs. split; [exact E | lia].
  - apply IH in Hs. destruct Hs; split; [assumption | lia].
Qed.

Lemma solve_from_not_converged (n done : nat) (sigma s : F) (k : nat) :
  slv n done sigma = NotConverged s k -> k = done + n.
Proof.
  revert done sigma. induction n as [| n IH]; intros done sigma; simpl.
  - intros Hs; inv Hs; lia.
  - destruct (iter sigma) eqn:E; intros Hs; try discriminate.
    apply IH in Hs. lia.
Qed.

(** What the verdicts of one pass say about the tests of the source. *)
Lemma iteration_flat (sigma : F) :
  iter sigma = Flat <->
  flt (fabs (vega S K T r sigma)) (dec 1 10) = true.
Proof.
  unfold iteration. destruct (flt (fabs (vega S K T r sigma)) (dec 1 10)).
  - split; auto.
  - destruct (flt _ tolerance); split; discriminate.
Qed.

Lemma iteration_within (sigma : F) :
  iter sigma = Within <->
  flt (fabs (vega S K T r sigma)) (dec 1 10) = false /\
  flt (fabs (fsub option_price (model_price S K T r is_call sigma))) tolerance = true.
Proof.
  unfold iteration, model_price.
  destruct (flt (fabs (vega S K T r sigma)) (dec 1 10)).
  - split; [discriminate | intros [? _]; discriminate].
  - destruct (flt _ tolerance); split; auto; try discriminate.
    intros [_ ?]; discriminate.
Qed.

Lemma iteration_next (sigma sigma' : F) :
  iter sigma = Next sigma' ->
  sigma' = fmax (dec 1 3)
             (fmin (fadd sigma
                      (fdiv (fsub option_price (model_price S K T r is_call sigma))
                            (vega S K T r sigma)))
                   (of_int 5)).
Proof.
  unfold iteration, model_price.
  destruct (flt (fabs (vega S K T r sigma)) (dec 1 10)); [discriminate |].
  destruct (flt _ tolerance); [discriminate |].
  intros Hn; inv Hn; reflexivity.
Qed.

(** If the first pass ends the loop, the guess is returned untouched. *)
Lemma newton_stops (n : nat) (sigma : F) :
  (forall s, iter sigma <> Next s) -> newt n sigma = sigma.
Proof.
  intros Hno. destruct n as [| n]; simpl; auto.
  destruct (iter sigma) as [| | s]; auto. exfalso; exact (Hno s eq_refl).
Qed.

End Generic.

(** ** The range of the result, from the order laws *)

Section Range.
Context {F : Type} `{DoubleOrder F}.
Variables (option_price S K T r : F) (is_call : bool).
Hypothesis clamp_nonempty : flt (dec 1 3 : F) (of_int 5) = true.

Lemma iteration_next_in_clamp (sigma sigma' : F) :
  iteration option_price S K T r is_call sigma = Next sigma' -> in_clamp sigma'.
Proof.
  intros Hn. apply iteration_next in Hn. subst sigma'.
  apply clamp_range; exact clamp_nonempty.
Qed.

(** Either no update happened and the input is returned, or the result is
    inside the clamp's interval. *)
Lemma newton_range (n : nat) (sigma : F) :
  newton n option_price S K T r is_call sigma = sigma \/
  in_clamp (newton n option_price S K T r is_call sigma).
Proof.
  revert sigma. induction n as [| n IH]; intros sigma; simpl; auto.
  destruct (iteration option_price S K T r is_call sigma) eqn:E; auto.
  right. pose proof (iteration_next_in_clamp _ _ E) as Hin.
  destruct (IH sigma0) as [-> | Hc]; assumption.
Qed.

End Range.

(** ** The exact reading *)

Local Open Scope R_scope.

Lemma clamp_nonempty_real : flt (dec 1 3 : R) (of_int 5) = true.
Proof. real_unfold. apply Rltb_true. lra. Qed.

Lemma in_clamp_real (sigma : R) : in_clamp sigma <-> 1 / 1000 <= sigma <= 5.
Proof.
  unfold in_clamp. real_unfold. rewrite !Rleb_true. reflexivity.
Qed.

Lemma iteration_flat_real (p S K T r : R) (c : bool) (sigma : R) :
  iteration p S K T r c sigma = Flat <->
  Rabs (vega S K T r sigma) < 1 / 10000000000.
Proof. rewrite iteration_flat. real_unfold. apply Rltb_true. Qed.

Lemma iteration_within_real (p S K T r : R) (c : bool) (sigma : R) :
  iteration p S K T r c sigma = Within <->
  1 / 10000000000 <= Rabs (vega S K T r sigma) /\
  Rabs (p - model_price S K T r c sigma) < 1 / 1000000.
Proof.
  rewrite iteration_within. unfold tolerance. real_unfold.
  rewrite Rltb_true, Rltb_false. reflexivity.
Qed.

(** At the money with one year to run, vega is at least [S / 4] whenever
    [d1] is within one of zero. *)
Lemma vega_unit_lower : 1 / 4 <= vega 1 1 1 0 1.
Proof.
  rewrite vega_real, d1_atm, sqrt_1 by lra.
  pose proof (norm_pdf_lower ((0 + 5 / 10 * 1 * 1) / 1)). lra.
Qed.

(** The sigma of a converged run is the guess or a clamped value. *)
Lemma converged_sigma_pos (p S K T r : R) (c : bool) (guess s : R) (k : nat) :
  0 < guess -> solve p S K T r c guess = Converged s k -> 0 < s.
Proof.
  intros Hg E.
  assert (Hs : s = newton max_iterations p S K T r c guess)
    by (rewrite (newton_erases _ _ _ _ _ _ _ 0%nat); fold (solve p S K T r c guess);
        rewrite E; reflexivity).
  destruct (newton_range p S K T r c clamp_nonempty_real max_iterations guess)
    as [H | H]; rewrite <- Hs in H; [lra | apply in_clamp_real in H; lra].
Qed.

(** A converged sigma prices the contract within the tolerance of the
    target; the price lies inside the bounds; the target does not. *)
Lemma solve_not_converged_beyond (p S K T r : R) (c : bool) (guess s : R) (k : nat) :
  0 < S -> 0 < K -> 0 < T -> 0 < guess -> beyond_bounds p S K T r c ->
  solve p S K T r c guess <> Converged s k.
Proof.
  intros HS HK HT Hg Hb E.
  pose proof (converged_sigma_pos _ _ _ _ _ _ _ _ _ Hg E) as Hs.
  apply solve_from_converged in E. destruct E as [E _].
  apply iteration_within_real in E. destruct E as [_ E].
  pose proof (model_price_bounded S K T r s HS HK HT Hs c) as Hm.
  apply Rabs_def2 in E. destruct Hb; lra.
Qed.

(** ** Properties *)

(** Refinement: for every carrier of [double], the value the code
    returns is the sigma of the specified solver's outcome; the code is
    [solve] with the tag (converged, degenerate, budget exhausted) erased. *)
Theorem implied_volatility_refines_solve {F : Type} `{Double F}
    (option_price S K T r : F) (is_call : bool) (initial_guess : F) :
  implied_volatility option_price S K T r is_call initial_guess =
  outcome_sigma (solve option_price S K T r is_call initial_guess).
Proof. apply newton_erases. Qed.

(** C8. The tags mean what they say, for every carrier: a converged
    sigma passes both tests of the source at that sigma (vega not flat,
    price within tolerance) after fewer than 100 updates; a degenerate one
    fails the vega test; the budget is exhausted only after exactly 100
    updates. *)
Theorem solve_sound {F : Type} `{Double F}
    (option_price S K T r : F) (is_call : bool) (initial_guess : F) :
  match solve option_price S K T r is_call initial_guess with
  | Converged s k =>
      flt (fabs (vega S K T r s)) (dec 1 10) = false /\
      flt (fabs (fsub option_price (model_price S K T r is_call s))) tolerance = true /\
      (k < max_iterations)%nat
  | Degenerate s k =>
      flt (fabs (vega S K T r s)) (dec 1 10) = true /\ (k < max_iterations)%nat
  | NotConverged _ k => k = max_iterations
  end.
Proof.
  unfold solve.
  destruct (solve_from _ _ _ _ _ _ _ _ _) as [s k | s k | s k] eqn:E.
  - apply solve_from_converged in E. destruct E as [E Hk].
    apply iteration_within in E. tauto.
  - apply solve_from_degenerate in E. destruct E as [E Hk].
    apply iteration_flat in E. tauto.
  - apply solve_from_not_converged in E. exact E.
Qed.

(** C4. The result is the initial guess or lies in the clamp's interval
    [[0.001, 5.0]], for every carrier whose comparisons satisfy the order
    laws (IEEE doubles with NaN included): no input, finite or not, makes
    the solver return a volatility outside the interval unless it returns
    the guess itself. *)
Theorem implied_volatility_range {F : Type} `{DoubleOrder F}
    (option_price S K T r : F) (is_call : bool) (initial_guess : F) :
  flt (dec 1 3 : F) (of_int 5) = true ->
  implied_volatility option_price S K T r is_call initial_guess = initial_guess \/
  in_clamp (implied_volatility option_price S K T r is_call initial_guess).
Proof. intros Hc. apply newton_range; exact Hc. Qed.

Lemma implied_volatility_range_witness :
  implied_volatility (1 : R) 1 1 1 0 true (3 / 10) = 3 / 10 \/
  in_clamp (implied_volatility (1 : R) 1 1 1 0 true (3 / 10)).
Proof. apply implied_volatility_range. exact clamp_nonempty_real. Defined.

(** Fixed point, in exact arithmetic: started at the volatility that
    produced the target price, with vega not flat there, the solver
    returns that volatility at once, for calls and for puts. *)
Theorem implied_volatility_fixed_point (S K T r sigma : R) (is_call : bool) :
  1 / 10000000000 <= Rabs (vega S K T r sigma) ->
  solve (model_price S K T r is_call sigma) S K T r is_call sigma
  = Converged sigma 0 /\
  implied_volatility (model_price S K T r is_call sigma) S K T r is_call sigma
  = sigma.
Proof.
  intros Hv.
  assert (E : iteration (model_price S K T r is_call sigma) S K T r is_call sigma
              = Within).
  { apply iteration_within_real. split; [exact Hv |].
    replace (_ - _) with 0 by ring. rewrite Rabs_R0. lra. }
  split.
  - unfold solve. simpl. rewrite E. reflexivity.
  - unfold implied_volatility. simpl. rewrite E. reflexivity.
Qed.

Lemma implied_volatility_fixed_point_witness :
  solve (model_price 1 1 1 0 true 1) 1 1 1 0 true 1 = Converged 1 0%nat /\
  implied_volatility (model_price 1 1 1 0 true 1) 1 1 1 0 true 1 = 1.
Proof.
  apply implied_volatility_fixed_point.
  pose proof vega_unit_lower as Hv.
  rewrite Rabs_pos_eq; lra.
Defined.

(** Silent degeneracy, in exact arithmetic: where vega is flat at the
    initial guess the solver returns the guess unchanged, whatever the
    target price; the caller receives a number that no test of the price
    has validated. *)
Theorem implied_volatility_flat_returns_guess
    (option_price S K T r : R) (is_call : bool) (initial_guess : R) :
  Rabs (vega S K T r initial_guess) < 1 / 10000000000 ->
  solve option_price S K T r is_call initial_guess = Degenerate initial_guess 0 /\
  implied_volatility option_price S K T r is_call initial_guess = initial_guess.
Proof.
  intros Hv. apply iteration_flat_real with (p := option_price) (c := is_call) in Hv.
  split.
  - unfold solve. simpl. rewrite Hv. reflexivity.
  - unfold implied_volatility. simpl. rewrite Hv. reflexivity.
Qed.

(** A spot of zero makes vega zero: any target "solves" to the guess. *)
Lemma implied_volatility_flat_returns_guess_witness :
  solve 7 0 1 1 0 true (3 / 10) = Degenerate (3 / 10) 0%nat /\
  implied_volatility 7 0 1 1 0 true (3 / 10) = 3 / 10.
Proof.
  apply implied_volatility_flat_returns_guess.
  rewrite vega_real, Rmult_0_l, Rmult_0_l, Rabs_R0. lra.
Defined.

(** In exact arithmetic, a guess inside [[0.001, 5]] gives a result
    inside [[0.001, 5]]. *)
Theorem implied_volatility_stays_in_bounds
    (option_price S K T r : R) (is_call : bool) (initial_guess : R) :
  1 / 1000 <= initial_guess <= 5 ->
  1 / 1000 <= implied_volatility option_price S K T r is_call initial_guess <= 5.
Proof.
  intros Hg.
  destruct (newton_range option_price S K T r is_call clamp_nonempty_real
              max_iterations initial_guess) as [E | Hc].
  - unfold implied_volatility. rewrite E. exact Hg.
  - apply in_clamp_real. exact Hc.
Qed.

Lemma implied_volatility_stays_in_bounds_witness :
  1 / 1000 <= implied_volatility 1 1 1 1 0 true (3 / 10) <= 5.
Proof. apply implied_volatility_stays_in_bounds. lra. Defined.

(** C9. A price no volatility can produce is never reported as solved: in
    exact arithmetic, for a contract with positive spot, strike and
    expiry and a positive guess, if the target price is at least the
    tolerance outside the no-arbitrage interval of the contract (at or
    above the spot for a call, at or below the discounted intrinsic
    value, by 1e-6), the specified solver does not return [Converged]:
    it ends degenerate or exhausts its budget.  The source returns a
    volatility all the same. *)
Theorem solve_rejects_arbitrage (p S K T r : R) (is_call : bool) (guess : R) :
  0 < S -> 0 < K -> 0 < T -> 0 < guess -> beyond_bounds p S K T r is_call ->
  match solve p S K T r is_call guess with
  | Converged _ _ => False
  | Degenerate _ k | NotConverged _ k => (k <= max_iterations)%nat
  end.
Proof.
  intros HS HK HT Hg Hb.
  destruct (solve p S K T r is_call guess) as [s k | s k | s k] eqn:E.
  - exact (solve_not_converged_beyond _ _ _ _ _ _ _ _ _ HS HK HT Hg Hb E).
  - apply solve_from_degenerate in E. simpl in E. lia.
  - apply solve_from_not_converged in E. lia.
Qed.

(** A call on a spot of 100 quoted at 101. *)
Lemma solve_rejects_arbitrage_witness :
  match solve 101 100 100 1 (5 / 100) true (3 / 10) with
  | Converged _ _ => False
  | Degenerate _ k | NotConverged _ k => (k <= max_iterations)%nat
  end.
Proof.
  apply solve_rejects_arbitrage; try lra.
  right. unfold price_ceiling. lra.
Defined.
