(* ===== verification/SolverSteps.v ===== *)
(** * SolverSteps: the Newton loop as a transition system

    [ImpliedVol.v] models the loop of [implied_volatility] as a recursion
    on the number of iterations left.  This file models it the way the
    source runs it: a counter [i] that goes up from 0, the test
    [i < max_iterations] before each pass, and the three ways out of the
    function ([break] followed by the final [return], the [return] inside
    the loop, the loop condition becoming false).  A state is a control
    point of the function with the values of [i] and [sigma]; a step is one
    pass through the loop body or the exit.

    Proved, for every carrier of [double]: the relation is deterministic;
    every state has a step except the returned ones; every run is finite
    (the relation is well founded, with the measure
    [max_iterations - i]); the run from [i = 0] reaches [Returned] in at
    most 101 steps, and the value it returns is the value of the recursive
    model.  So the total function of [ImpliedVol.v] is the loop of the
    source, and the loop terminates on every input, NaN included. *)

From stdpp Require Import base relations.
From Stdlib Require Import ZArith Lia.
From S2P Require Import Prelude Numeric NormalDist BlackScholes ImpliedVol.

(** ** Runs of a deterministic relation *)

Section Deterministic.
Context {A : Type} (R : relation A).
Hypothesis R_det : forall x y z, R x y -> R x z -> y = z.

(** Two runs from the same state to states without a step end in the
    same state. *)
Lemma det_nf_unique (x y z : A) :
  rtc R x y -> nf R y -> rtc R x z -> nf R z -> y = z.
Proof.
  intros Hxy. revert z. induction Hxy as [x | x x' y Hstep _ IH]; intros z Hy Hxz Hz.
  - destruct Hxz as [| x x' z Hstep _]; [reflexivity |].
    exfalso. apply Hy. exists x'. exact Hstep.
  - destruct Hxz as [| x x'' z Hstep' Hrest].
    + exfalso. apply Hz. exists x'. exact Hstep.
    + rewrite <- (R_det _ _ _ Hstep Hstep') in Hrest. apply IH; assumption.
Qed.

End Deterministic.

(** ** The machine *)

(** The control points: before the test [i < max_iterations] with the
    current [i] and [sigma], and after a [return]. *)
Inductive loop_state {F : Type} : Type :=
| AtTest (i : nat) (sigma : F)
| Returned (sigma : F).
Arguments loop_state F : clear implicits.

Section Machine.
Context {F : Type} `{Double F}.
Variables (option_price S K T r : F) (is_call : bool).

#[local] Abbreviation iter := (iteration option_price S K T r is_call).

Inductive loop_step : relation (loop_state F) :=
| step_exhausted (i : nat) (sigma : F) :
    max_iterations ≤ i ->
    loop_step (AtTest i sigma) (Returned sigma)
| step_break (i : nat) (sigma : F) :
    i < max_iterations -> iter sigma = Flat ->
    loop_step (AtTest i sigma) (Returned sigma)
| step_return (i : nat) (sigma : F) :
    i < max_iterations -> iter sigma = Within ->
    loop_step (AtTest i sigma) (Returned sigma)
| step_update (i : nat) (sigma sigma' : F) :
    i < max_iterations -> iter sigma = Next sigma' ->
    loop_step (AtTest i sigma) (AtTest (Datatypes.S i) sigma').

(** The step as a function: [None] where there is no step. *)
Definition next_state (s : loop_state F) : option (loop_state F) :=
  match s with
  | Returned _ => None
  | AtTest i sigma =>
      if decide (i < max_iterations) then
        match iter sigma with
        | Flat | Within => Some (Returned sigma)
        | Next sigma' => Some (AtTest (Datatypes.S i) sigma')
        end
      else Some (Returned sigma)
  end.


(** ** Lemmas *)

Lemma loop_step_next (s s' : loop_state F) :
  loop_step s s' <-> next_state s = Some s'.
Proof.
  split.
  - intros Hs. destruct Hs as [i sigma Hi | i sigma Hi E | i sigma Hi E
                                 | i sigma sigma' Hi E]; cbn [next_state];
      [rewrite decide_False by lia | rewrite decide_True, E by lia ..]; reflexivity.
  - destruct s as [i sigma | sigma]; cbn [next_state]; [| discriminate].
    destruct (decide (i < max_iterations)) as [Hi | Hi].
    + destruct (iter sigma) as [| | sigma'] eqn:E; intros Hs; inv Hs;
        eauto using loop_step.
    + intros Hs; inv Hs. apply step_exhausted. lia.
Qed.

Lemma loop_step_det (s s1 s2 : loop_state F) :
  loop_step s s1 -> loop_step s s2 -> s1 = s2.
Proof. rewrite !loop_step_next. congruence. Qed.


Lemma returned_nf (sigma : F) : nf loop_step (Returned sigma).
Proof. intros [s' Hs]. apply loop_step_next in Hs. discriminate. Qed.

Lemma at_test_red (i : nat) (sigma : F) : red loop_step (AtTest i sigma).
Proof.
  destruct (next_state (AtTest i sigma)) as [s' |] eqn:E.
  - exists s'. apply loop_step_next. exact E.
  - cbn [next_state] in E. destruct (decide (i < max_iterations)); [| discriminate].
    destruct (iter sigma); discriminate.
Qed.

(** A state without a step is a returned one. *)
Lemma nf_returned (s : loop_state F) :
  nf loop_step s -> exists sigma, s = Returned sigma.
Proof.
  destruct s as [i sigma | sigma]; [| eauto].
  intros Hnf. exfalso. apply Hnf, at_test_red.
Qed.


(** With [n] passes left the machine returns what the recursion on [n]
    computes, in at most [n + 1] steps. *)
Lemma loop_run_from (n i : nat) (sigma : F) :
  i + n = max_iterations ->
  exists k, k ≤ Datatypes.S n ∧
    nsteps loop_step k (AtTest i sigma)
      (Returned (newton n option_price S K T r is_call sigma)).
Proof.
  revert i sigma. induction n as [| n IH]; intros i sigma Hi.
  - exists 1. split; [lia |]. cbn [newton].
    eapply nsteps_l; [apply step_exhausted; lia | apply nsteps_O].
  - cbn [newton]. destruct (iter sigma) as [| | sigma'] eqn:E.
    + exists 1. split; [lia |].
      eapply nsteps_l; [apply step_break; [lia | exact E] | apply nsteps_O].
    + exists 1. split; [lia |].
      eapply nsteps_l; [apply step_return; [lia | exact E] | apply nsteps_O].
    + destruct (IH (Datatypes.S i) sigma' ltac:(lia)) as (k & Hk & Hrun).
      exists (Datatypes.S k). split; [lia |].
      eapply nsteps_l; [apply step_update; [lia | exact E] | exact Hrun].
Qed.

End Machine.

(** ** Properties *)

Section Properties.
Context {F : Type} `{Double F}.
Variables (option_price S K T r : F) (is_call : bool).


(** C25. The loop of the source computes [implied_volatility]: from
    [i = 0] and the initial guess the machine reaches [Returned] in at most
    101 steps (100 passes and the exit), the value returned is the value of
    the recursive model, and every run that ends ends there: the steps
    are deterministic and only returned states have no step. *)
Theorem loop_computes_implied_volatility (initial_guess : F) :
  let result :=
    Returned (implied_volatility option_price S K T r is_call initial_guess) in
  (exists k, k ≤ 101 ∧
     nsteps (loop_step option_price S K T r is_call) k (AtTest 0 initial_guess) result) ∧
  (forall s, rtc (loop_step option_price S K T r is_call) (AtTest 0 initial_guess) s ->
             nf (loop_step option_price S K T r is_call) s -> s = result).
Proof.
  cbv zeta.
  destruct (loop_run_from option_price S K T r is_call max_iterations 0
              initial_guess eq_refl) as (k & Hk & Hrun).
  split; [exists k; split; [exact Hk | exact Hrun] |].
  intros s Hs Hnf.
  apply (det_nf_unique (loop_step option_price S K T r is_call)
           (loop_step_det option_price S K T r is_call) (AtTest 0 initial_guess));
    [exact Hs | exact Hnf | eapply rtc_nsteps_2; exact Hrun | apply returned_nf].
Qed.

End Properties.
