(* ===== verification/Vectors.v ===== *)
(** * Vectors: [std::vector] as a list with checked indexing

    The engine indexes vectors with [operator[]], which performs no bounds
    check, and constructs them from an [int] size.  Here a vector is a
    list; a read or write at an index past the end is the fault
    [OutOfBounds] (undefined behaviour in C++), and a vector constructed
    with a negative size is the fault [LengthError]: the [int] converts to
    a [size_t] beyond [max_size()], and the constructor throws
    [std::length_error]. *)

From stdpp Require Import base list.
From Stdlib Require Import ZArith.
From S2P Require Import Prelude.

Local Open Scope outcome_scope.

(** [v[i]] as an rvalue. *)
Definition vec_get {A} (v : list A) (i : nat) : outcome A :=
  of_option OutOfBounds (v !! i).

(** [v[i] = x]. *)
Definition vec_set {A} (v : list A) (i : nat) (x : A) : outcome (list A) :=
  if decide (i < length v) then Done (<[i := x]> v) else Fault OutOfBounds.

(** [std::vector<A>(n, x)] for an [int] [n]. *)
Definition vec_new {A} (n : Z) (x : A) : outcome (list A) :=
  if (n <? 0)%Z then Fault LengthError else Done (replicate (Z.to_nat n) x).

(** [m[i][j] = x]. *)
Definition mat_set {A} (m : list (list A)) (i j : nat) (x : A)
  : outcome (list (list A)) :=
  row <- vec_get m i ;;
  row' <- vec_set row j x ;;
  vec_set m i row'.

Lemma vec_get_done {A} (v : list A) (i : nat) (x : A) :
  vec_get v i = Done x <-> v !! i = Some x.
Proof. apply of_option_done. Qed.

Lemma vec_get_fault {A} (v : list A) (i : nat) :
  length v ≤ i -> vec_get v i = Fault OutOfBounds.
Proof. intros Hi. unfold vec_get. rewrite lookup_ge_None_2 by exact Hi. reflexivity. Qed.

Lemma vec_set_done {A} (v : list A) (i : nat) (x : A) :
  i < length v -> vec_set v i x = Done (<[i := x]> v).
Proof. intros Hi. unfold vec_set. rewrite decide_True by exact Hi. reflexivity. Qed.

Lemma vec_set_fault {A} (v : list A) (i : nat) (x : A) :
  length v ≤ i -> vec_set v i x = Fault OutOfBounds.
Proof. intros Hi. unfold vec_set. rewrite decide_False by lia. reflexivity. Qed.

Lemma vec_new_done {A} (n : Z) (x : A) :
  (0 <= n)%Z -> vec_new n x = Done (replicate (Z.to_nat n) x).
Proof. intros Hn. unfold vec_new. destruct (Z.ltb_spec n 0); [lia | reflexivity]. Qed.

Lemma vec_new_fault {A} (n : Z) (x : A) :
  (n < 0)%Z -> vec_new n x = Fault LengthError.
Proof. intros Hn. unfold vec_new. destruct (Z.ltb_spec n 0); [reflexivity | lia]. Qed.

Lemma mat_set_done {A} (m : list (list A)) (i j : nat) (x : A) (row : list A) :
  m !! i = Some row -> j < length row ->
  mat_set m i j x = Done (<[i := <[j := x]> row]> m).
Proof.
  intros Hrow Hj. unfold mat_set, vec_get. rewrite Hrow. simpl.
  rewrite vec_set_done by exact Hj. simpl.
  apply vec_set_done. eapply lookup_lt_Some; exact Hrow.
Qed.

Lemma mat_set_fault_col {A} (m : list (list A)) (i j : nat) (x : A) (row : list A) :
  m !! i = Some row -> length row ≤ j -> mat_set m i j x = Fault OutOfBounds.
Proof.
  intros Hrow Hj. unfold mat_set, vec_get. rewrite Hrow. simpl.
  rewrite vec_set_fault by exact Hj. reflexivity.
Qed.

#[export] Hint Rewrite @vec_new_done @vec_new_fault using lia : pricing.
