(* ===== verification/Portfolio.v ===== *)
(** * Portfolio: the vectorised pricer

    [BlackScholesEngine::price_portfolio]
    ([src/cpp_engine/black_scholes.hpp], lines 122-142): a vector
    [prices] of [n = S_vec.size()] zeros, then for each [i < n] the write
    [prices[i] = is_call_vec[i] ? call_price(...) : put_price(...)] with
    every operand read by [operator[]], which checks nothing.  Here a read
    or a write past the end is the fault [OutOfBounds] (undefined behaviour
    in C++).

    Proved for every carrier of [double]: the result is the element-wise
    list [price_each] exactly when no input vector is shorter than [S_vec],
    and the fault otherwise; a vector that is longer is accepted and its
    tail ignored; and any order of the iterations gives the same result,
    which is what the [#pragma omp parallel for] on the loop relies on. *)

From Stdlib Require Import Reals.
From stdpp Require Import base list.
From S2P Require Import Prelude Numeric RealModel NormalDist BlackScholes Vectors.

(** ** The code *)

Section Code.
Context {F : Type} `{Double F}.
Local Open Scope outcome_scope.

(** The body of the loop, for the counter [i]. *)
Definition portfolio_body (S_vec K_vec T_vec r_vec sigma_vec : list F)
    (is_call_vec : list bool) (i : nat) (prices : list F) : outcome (list F) :=
  is_call <- vec_get is_call_vec i ;;
  S <- vec_get S_vec i ;;
  K <- vec_get K_vec i ;;
  T <- vec_get T_vec i ;;
  r <- vec_get r_vec i ;;
  sigma <- vec_get sigma_vec i ;;
  vec_set prices i (model_price S K T r is_call sigma).

Definition price_portfolio (S_vec K_vec T_vec r_vec sigma_vec : list F)
    (is_call_vec : list bool) : outcome (list F) :=
  let n := length S_vec in
  let prices := replicate n (of_int 0) in
  for_range_o 0 n
    (portfolio_body S_vec K_vec T_vec r_vec sigma_vec is_call_vec) prices.

(** ** The reference: element-wise pricing of six lists in step *)

Fixpoint price_each (S_vec K_vec T_vec r_vec sigma_vec : list F)
    (is_call_vec : list bool) : list F :=
  match S_vec, K_vec, T_vec, r_vec, sigma_vec, is_call_vec with
  | s :: Ss, k :: Ks, t :: Ts, r :: rs, sigma :: sigmas, is_call :: cs =>
      model_price s k t r is_call sigma :: price_each Ss Ks Ts rs sigmas cs
  | _, _, _, _, _, _ => []
  end.

(** The price of contract [i], when all six vectors have an element [i]. *)
Definition price_nth (S_vec K_vec T_vec r_vec sigma_vec : list F)
    (is_call_vec : list bool) (i : nat) : option F :=
  match is_call_vec !! i, S_vec !! i, K_vec !! i, T_vec !! i, r_vec !! i,
        sigma_vec !! i with
  | Some is_call, Some s, Some k, Some t, Some r, Some sigma =>
      Some (model_price s k t r is_call sigma)
  | _, _, _, _, _, _ => None
  end.

(** No vector is shorter than [S_vec]. *)
Definition lengths_cover (S_vec K_vec T_vec r_vec sigma_vec : list F)
    (is_call_vec : list bool) : bool :=
  bool_decide (length S_vec ≤ length K_vec ∧ length S_vec ≤ length T_vec ∧
               length S_vec ≤ length r_vec ∧ length S_vec ≤ length sigma_vec ∧
               length S_vec ≤ length is_call_vec).

End Code.

(** ** Lemmas *)

Section Lemmas.
Context {F : Type} `{Double F}.
Variables (S_vec K_vec T_vec r_vec sigma_vec : list F) (is_call_vec : list bool).

#[local] Abbreviation body :=
  (portfolio_body S_vec K_vec T_vec r_vec sigma_vec is_call_vec).
#[local] Abbreviation nth_price :=
  (price_nth S_vec K_vec T_vec r_vec sigma_vec is_call_vec).

(** What one iteration writes. *)
Definition write_nth (i : nat) (prices : list F) : list F :=
  match nth_price i with
  | Some v => <[i := v]> prices
  | None => prices
  end.

Lemma body_done (i : nat) (prices : list F) (v : F) :
  nth_price i = Some v -> i < length prices ->
  body i prices = Done (<[i := v]> prices).
Proof.
  unfold price_nth, portfolio_body, vec_get, vec_set. intros Hv Hi.
  destruct (is_call_vec !! i), (S_vec !! i), (K_vec !! i), (T_vec !! i),
    (r_vec !! i), (sigma_vec !! i); simplify_eq; simpl.
  rewrite decide_True by exact Hi. reflexivity.
Qed.

Lemma body_fault_read (i : nat) (prices : list F) :
  nth_price i = None -> body i prices = Fault OutOfBounds.
Proof.
  unfold price_nth, portfolio_body, vec_get. intros Hv.
  destruct (is_call_vec !! i), (S_vec !! i), (K_vec !! i), (T_vec !! i),
    (r_vec !! i), (sigma_vec !! i); simplify_eq; reflexivity.
Qed.

(** The only fault of the body is [OutOfBounds]. *)
Lemma body_one_fault (i : nat) (prices : list F) (f : fault) :
  body i prices = Fault f -> f = OutOfBounds.
Proof.
  unfold portfolio_body, vec_get, vec_set.
  destruct (is_call_vec !! i), (S_vec !! i), (K_vec !! i), (T_vec !! i),
    (r_vec !! i), (sigma_vec !! i); simpl; try congruence.
  case_decide; congruence.
Qed.

Lemma price_nth_is_Some (i : nat) :
  is_Some (nth_price i) <->
  i < length S_vec ∧ i < length K_vec ∧ i < length T_vec ∧ i < length r_vec ∧
  i < length sigma_vec ∧ i < length is_call_vec.
Proof.
  unfold price_nth. rewrite <- !lookup_lt_is_Some.
  destruct (is_call_vec !! i), (S_vec !! i), (K_vec !! i), (T_vec !! i),
    (r_vec !! i), (sigma_vec !! i); split; intros Hs;
    repeat match goal with
    | H : _ ∧ _ |- _ => destruct H
    | H : is_Some None |- _ => destruct H; discriminate
    | |- _ ∧ _ => split
    end; eauto.
Qed.

Lemma lengths_cover_spec :
  lengths_cover S_vec K_vec T_vec r_vec sigma_vec is_call_vec = true <->
  forall i, i < length S_vec -> is_Some (nth_price i).
Proof.
  unfold lengths_cover. rewrite bool_decide_eq_true. split.
  - intros Hl i Hi. apply price_nth_is_Some. lia.
  - intros Hall. destruct (length S_vec) as [| n] eqn:En; [lia |].
    specialize (Hall n ltac:(lia)). apply price_nth_is_Some in Hall. lia.
Qed.

(** The element [j] after the writes of a schedule [idx]: the price of
    contract [j] if the schedule visits [j], the old element if not. *)
Lemma writes_lookup_other (idx : list nat) (prices : list F) (j : nat) :
  ¬ In j idx ->
  fold_left (fun x i => write_nth i x) idx prices !! j = prices !! j.
Proof.
  revert prices. induction idx as [| i idx IH]; intros prices Hj; simpl; auto.
  rewrite IH by (intros Hin; apply Hj; right; exact Hin).
  unfold write_nth. destruct (nth_price i); auto.
  apply list_lookup_insert_ne. intros ->. apply Hj; left; reflexivity.
Qed.

Lemma writes_lookup_visited (idx : list nat) (prices : list F) (j : nat) (v : F) :
  In j idx -> j < length prices -> nth_price j = Some v ->
  fold_left (fun x i => write_nth i x) idx prices !! j = Some v.
Proof.
  revert prices. induction idx as [| i idx IH]; intros prices Hin Hj Hv; simpl.
  - destruct Hin.
  - destruct (in_dec Nat.eq_dec j idx) as [Hlater | Hnot].
    + apply IH; auto. unfold write_nth.
      destruct (nth_price i); rewrite ?length_insert; exact Hj.
    + destruct Hin as [-> | Hin]; [| contradiction].
      rewrite writes_lookup_other by exact Hnot.
      unfold write_nth. rewrite Hv. apply list_lookup_insert_eq; exact Hj.
Qed.

Lemma writes_length (idx : list nat) (prices : list F) :
  length (fold_left (fun x i => write_nth i x) idx prices) = length prices.
Proof.
  revert prices. induction idx as [| i idx IH]; intros prices; simpl; auto.
  rewrite IH. unfold write_nth. destruct (nth_price i); auto using length_insert.
Qed.

Lemma price_each_lookup (j : nat) :
  price_each S_vec K_vec T_vec r_vec sigma_vec is_call_vec !! j = nth_price j.
Proof.
  unfold price_nth. clear.
  revert j K_vec T_vec r_vec sigma_vec is_call_vec.
  induction S_vec as [| s Ss IH]; intros j Ks Ts rs sgs cs.
  - simpl. destruct (cs !! j); reflexivity.
  - destruct Ks as [| K Ks], Ts as [| T Ts], rs as [| r rs], sgs as [| sg sgs],
      cs as [| c cs]; simpl;
      try (destruct j; simpl; repeat case_match; reflexivity).
    destruct j as [| j]; simpl; [reflexivity | apply IH].
Qed.

(** A schedule that covers only priced contracts succeeds with the fold
    of the writes. *)
Lemma schedule_done (idx : list nat) (prices : list F) :
  (forall i, In i idx -> i < length prices ∧ is_Some (nth_price i)) ->
  foreach_o body idx prices = Done (fold_left (fun x i => write_nth i x) idx prices).
Proof.
  intros Hok.
  refine (proj1 (foreach_o_done (fun x => length x = length prices) body
                   write_nth idx prices eq_refl _)).
  intros i x Hin Hx. destruct (Hok i Hin) as [Hi [v Hv]].
  unfold write_nth. rewrite Hv. split.
  - apply body_done; [exact Hv | lia].
  - rewrite length_insert. exact Hx.
Qed.

(** A schedule that reaches a contract some vector lacks faults. *)
Lemma schedule_fault (idx : list nat) (prices : list F) (i : nat) :
  In i idx -> nth_price i = None ->
  foreach_o body idx prices = Fault OutOfBounds.
Proof.
  intros Hin Hnone. apply foreach_o_fault with (i := i); auto.
  - intros j x f. apply body_one_fault.
  - intros x. apply body_fault_read. exact Hnone.
Qed.

(** The writes of a full schedule over a vector of the right length give
    the element-wise prices. *)
Lemma writes_all (idx : list nat) (prices : list F) :
  (forall j, In j idx <-> j < length S_vec) ->
  length prices = length S_vec ->
  (forall i, i < length S_vec -> is_Some (nth_price i)) ->
  fold_left (fun x i => write_nth i x) idx prices =
  price_each S_vec K_vec T_vec r_vec sigma_vec is_call_vec.
Proof.
  intros Hidx Hlen Hall. apply list_eq. intros j.
  rewrite price_each_lookup.
  destruct (decide (j < length S_vec)) as [Hj | Hj].
  - destruct (Hall j Hj) as [v Hv]. rewrite Hv.
    apply writes_lookup_visited; [apply Hidx; exact Hj | lia | exact Hv].
  - rewrite writes_lookup_other by (rewrite Hidx; exact Hj).
    rewrite lookup_ge_None_2 by lia.
    symmetry. apply eq_None_not_Some. rewrite price_nth_is_Some. lia.
Qed.

(** Every schedule that visits exactly the counters below [n] ends the
    same way. *)
Lemma schedule_result (idx : list nat) :
  (forall j, In j idx <-> j < length S_vec) ->
  foreach_o body idx (replicate (length S_vec) (of_int 0)) =
  if lengths_cover S_vec K_vec T_vec r_vec sigma_vec is_call_vec
  then Done (price_each S_vec K_vec T_vec r_vec sigma_vec is_call_vec)
  else Fault OutOfBounds.
Proof.
  intros Hidx.
  destruct (lengths_cover _ _ _ _ _ _) eqn:Hc.
  - pose proof (proj1 lengths_cover_spec Hc) as Hall.
    rewrite schedule_done.
    + f_equal. apply writes_all; auto using length_replicate.
    + intros i Hi. apply Hidx in Hi. rewrite length_replicate. auto.
  - unfold lengths_cover in Hc. apply bool_decide_eq_false in Hc.
    apply schedule_fault with (i := pred (length S_vec)).
    + apply Hidx. lia.
    + apply eq_None_not_Some. rewrite price_nth_is_Some. lia.
Qed.

(** The program order is one such schedule. *)
Lemma price_portfolio_result :
  price_portfolio S_vec K_vec T_vec r_vec sigma_vec is_call_vec =
  if lengths_cover S_vec K_vec T_vec r_vec sigma_vec is_call_vec
  then Done (price_each S_vec K_vec T_vec r_vec sigma_vec is_call_vec)
  else Fault OutOfBounds.
Proof.
  unfold price_portfolio. rewrite for_range_o_foreach.
  apply schedule_result. intros j. rewrite in_seq. lia.
Qed.

Lemma price_each_length :
  lengths_cover S_vec K_vec T_vec r_vec sigma_vec is_call_vec = true ->
  length (price_each S_vec K_vec T_vec r_vec sigma_vec is_call_vec) = length S_vec.
Proof.
  intros Hc. pose proof (proj1 lengths_cover_spec Hc) as Hall.
  set (l := price_each _ _ _ _ _ _).
  destruct (Nat.lt_trichotomy (length l) (length S_vec)) as [Hlt | [Heq | Hgt]]; auto.
  - destruct (Hall _ Hlt) as [v Hv]. rewrite <- price_each_lookup in Hv.
    apply lookup_lt_Some in Hv. fold l in Hv. lia.
  - assert (Hs : is_Some (l !! length S_vec)) by (apply lookup_lt_is_Some; lia).
    unfold l in Hs. rewrite price_each_lookup, price_nth_is_Some in Hs. lia.
Qed.

End Lemmas.

(** ** Properties *)

Section Properties.
Context {F : Type} `{Double F}.
Variables (S_vec K_vec T_vec r_vec sigma_vec : list F) (is_call_vec : list bool).

(** C5. Equivalence with the element-wise reference, for every carrier of
    double: when no input vector is shorter than [S_vec], the loop returns
    exactly [price_each] of the six vectors: one price per element of
    [S_vec], in input order, each the call or put price of the elements at
    the same index. *)
Theorem price_portfolio_spec :
  lengths_cover S_vec K_vec T_vec r_vec sigma_vec is_call_vec = true ->
  price_portfolio S_vec K_vec T_vec r_vec sigma_vec is_call_vec =
    Done (price_each S_vec K_vec T_vec r_vec sigma_vec is_call_vec) /\
  length (price_each S_vec K_vec T_vec r_vec sigma_vec is_call_vec) = length S_vec /\
  forall i, price_each S_vec K_vec T_vec r_vec sigma_vec is_call_vec !! i =
            price_nth S_vec K_vec T_vec r_vec sigma_vec is_call_vec i.
Proof.
  intros Hc. rewrite price_portfolio_result, Hc.
  split; [reflexivity |]. split; [apply price_each_length; exact Hc |].
  apply price_each_lookup.
Qed.

(** C18. Mismatched lengths, short side: if any of the other five vectors is
    shorter than [S_vec] the loop reads past its end.  The source raises
    no error: in C++ the behaviour is undefined. *)
Theorem price_portfolio_short_vector :
  lengths_cover S_vec K_vec T_vec r_vec sigma_vec is_call_vec = false ->
  price_portfolio S_vec K_vec T_vec r_vec sigma_vec is_call_vec = Fault OutOfBounds.
Proof. intros Hc. rewrite price_portfolio_result, Hc. reflexivity. Qed.

(** Independence from the order of the iterations: running the loop
    body once for each counter, in any order, gives the result of the
    program order, fault included; the parallel loop of the source cannot
    change the result. *)
Theorem price_portfolio_schedule_independent (idx : list nat) :
  Permutation idx (seq 0 (length S_vec)) ->
  foreach_o (portfolio_body S_vec K_vec T_vec r_vec sigma_vec is_call_vec) idx
    (replicate (length S_vec) (of_int 0)) =
  price_portfolio S_vec K_vec T_vec r_vec sigma_vec is_call_vec.
Proof.
  intros Hp. rewrite price_portfolio_result.
  apply schedule_result. intros j.
  assert (Hseq : In j (seq 0 (length S_vec)) <-> j < length S_vec)
    by (rewrite in_seq; lia).
  rewrite <- Hseq.
  split; apply Permutation_in; [| symmetry]; exact Hp.
Qed.

End Properties.

(** ** Witnesses, over the reals *)

Section Witnesses.
Local Open Scope R_scope.

(** Two contracts; [K_vec] has a third element, which is accepted and
    ignored. *)
Lemma price_portfolio_spec_witness :
  price_portfolio [1; 1] [1; 1; 9] [1; 1] [0; 0] [1; 1] [true; false] =
    Done (price_each [1; 1] [1; 1; 9] [1; 1] [0; 0] [1; 1] [true; false]) /\
  length (price_each [1; 1] [1; 1; 9] [1; 1] [0; 0] [1; 1] [true; false])
  = length [1; 1] /\
  forall i, price_each [1; 1] [1; 1; 9] [1; 1] [0; 0] [1; 1] [true; false] !! i =
            price_nth [1; 1] [1; 1; 9] [1; 1] [0; 0] [1; 1] [true; false] i.
Proof.
  apply price_portfolio_spec.
  unfold lengths_cover. apply bool_decide_eq_true_2. simpl. lia.
Defined.

(** Two spots and one strike: the second iteration reads [K_vec[1]]. *)
Lemma price_portfolio_short_vector_witness :
  price_portfolio [1; 1] [1] [1; 1] [0; 0] [1; 1] [true; false]
  = Fault OutOfBounds.
Proof.
  apply price_portfolio_short_vector.
  unfold lengths_cover. apply bool_decide_eq_false_2. simpl. lia.
Defined.

(** The two iterations in reverse order. *)
Lemma price_portfolio_schedule_independent_witness :
  foreach_o (portfolio_body [1; 1] [1; 1] [1; 1] [0; 0] [1; 1] [true; false])
    [1; 0]%nat (replicate (length [1; 1]) (of_int 0)) =
  price_portfolio [1; 1] [1; 1] [1; 1] [0; 0] [1; 1] [true; false].
Proof.
  apply price_portfolio_schedule_independent. simpl. apply perm_swap.
Defined.

End Witnesses.
