(* ===== verification/RandomStream.v ===== *)
(** * RandomStream: the random source of the Monte Carlo engine

    [MonteCarloEngine] owns a [std::mt19937 rng], and every method
    constructs a local [std::normal_distribution<double> norm(0.0, 1.0)]
    and calls [norm(rng)] for each draw ([src/cpp_engine/monte_carlo.hpp],
    lines 15, 18, 23, 31).  Both objects carry state: the generator its
    624 words, the distribution whatever its algorithm caches between
    calls.  Neither is code of the repository, so they are an interface:
    class [Sampler] has a type of generator states, a type of distribution
    states, the seeding, the fresh distribution and [sample], which returns
    a draw and both new states.

    [draws n st] is the list of the next [n] draws from [st].  The two
    loop lemmas say that a loop taking one draw (or a block of [k] draws)
    per iteration computes a left fold over [draws]; the methods of the
    engine are instances.  [TapeSampler] replays a given list of draws; the
    witnesses use it. *)

From Stdlib Require Import List ZArith Lia.
From S2P Require Import Prelude Numeric.
Import ListNotations.

(** ** The interface *)

Class Sampler (F : Type) : Type := {
  engine : Type;                               (* std::mt19937 *)
  dist : Type;                                 (* std::normal_distribution<double> *)
  seed_engine : Z -> engine;                   (* rng(seed) *)
  dist_new : dist;                             (* norm(0.0, 1.0) *)
  sample : dist -> engine -> F * (dist * engine)  (* norm(rng) *)
}.

(** The state a method threads through its draws: its local distribution
    object and the engine's generator. *)
Abbreviation sampler_state := (dist * engine)%type.

Section Draws.
Context {F : Type} `{Sampler F}.

Definition draw (st : sampler_state) : F * sampler_state :=
  sample (fst st) (snd st).

(** The next [n] draws, in order, and the state after them. *)
Fixpoint draws (n : nat) (st : sampler_state) : list F * sampler_state :=
  match n with
  | O => ([], st)
  | S n' =>
      let (z, st1) := draw st in
      let (zs, st2) := draws n' st1 in
      (z :: zs, st2)
  end.

(** [st'] is [st] after exactly [k] draws. *)
Definition advanced (k : nat) (st st' : sampler_state) : Prop :=
  snd (draws k st) = st'.

(** Blocks of [k] consecutive elements of a list, [n] of them. *)
Fixpoint chunks {A} (k n : nat) (l : list A) : list (list A) :=
  match n with
  | O => []
  | S n' => firstn k l :: chunks k n' (skipn k l)
  end.

End Draws.

(** ** A sampler that replays a tape *)

(** The generator state is the list of draws still to come; when the tape
    is exhausted the draw is [z0].  The distribution keeps no state. *)
Definition TapeSampler {F : Type} (z0 : F) : Sampler F := {|
  engine := list F;
  dist := unit;
  seed_engine := fun _ => [];
  dist_new := tt;
  sample := fun d g =>
    match g with
    | [] => (z0, (d, []))
    | z :: g' => (z, (d, g'))
    end
|}.

(** ** Lemmas *)

Section Lemmas.
Context {F : Type} `{Sampler F}.

Lemma draws_length (n : nat) (st : sampler_state) : length (fst (draws n st)) = n.
Proof.
  revert st. induction n as [| n IH]; intros st; simpl; auto.
  destruct (draw st) as [z st1]. specialize (IH st1).
  destruct (draws n st1) as [zs st2]. simpl in *. lia.
Qed.

(** Drawing [n + m] is drawing [n] and then [m]. *)
Lemma draws_add (n m : nat) (st : sampler_state) :
  draws (n + m) st =
  (fst (draws n st) ++ fst (draws m (snd (draws n st))),
   snd (draws m (snd (draws n st)))).
Proof.
  revert st. induction n as [| n IH]; intros st; simpl.
  - destruct (draws m st); reflexivity.
  - destruct (draw st) as [z st1]. rewrite IH.
    destruct (draws n st1) as [zs st2]. simpl. reflexivity.
Qed.

(** The first draw and the others. *)
Lemma draws_cons (k : nat) (st : sampler_state) :
  draws (S k) st =
  (fst (draw st) :: fst (draws k (snd (draw st))), snd (draws k (snd (draw st)))).
Proof. simpl. destruct (draw st) as [z st1]. simpl. destruct (draws k st1). reflexivity. Qed.

(** The state after [k + 1] draws is the state [k] draws after the first. *)
Lemma draws_succ (k : nat) (st : sampler_state) :
  snd (draws (S k) st) = snd (draws k (snd (draw st))).
Proof. simpl. destruct (draw st) as [z st1]. simpl. destruct (draws k st1). reflexivity. Qed.

(** A property of the generator that every draw keeps is kept by any
    number of draws. *)
Lemma draws_keeps (P : engine -> Prop) (n : nat) (st : sampler_state) :
  (forall d g, P g -> P (snd (snd (sample d g)))) ->
  P (snd st) -> P (snd (snd (draws n st))).
Proof.
  intros Hkeep. revert st. induction n as [| n IH]; intros st Hst; [exact Hst |].
  rewrite draws_succ. apply IH. destruct st as [d g]. apply Hkeep, Hst.
Qed.

Lemma advanced_0 (st : sampler_state) : advanced 0 st st.
Proof. reflexivity. Qed.

Lemma advanced_add (n m : nat) (st st1 st2 : sampler_state) :
  advanced n st st1 -> advanced m st1 st2 -> advanced (n + m) st st2.
Proof.
  unfold advanced. intros <- <-. rewrite draws_add. reflexivity.
Qed.

Lemma advanced_1 (st : sampler_state) : advanced 1 st (snd (draw st)).
Proof. unfold advanced. simpl. destruct (draw st). reflexivity. Qed.

(** A loop that takes one draw per iteration and updates an accumulator
    with it computes the left fold of the update over the draws. *)
Lemma sampling_loop {A} (f : A -> F -> A) (n : nat) (a : A) (st : sampler_state) :
  repeat_loop n
    (fun s : A * sampler_state =>
       let (z, st') := draw (snd s) in (f (fst s) z, st'))
    (a, st)
  = (fold_left f (fst (draws n st)) a, snd (draws n st)).
Proof.
  revert a st. induction n as [| n IH]; intros a st.
  - reflexivity.
  - rewrite repeat_loop_S. simpl.
    destruct (draw st) as [z st1]. rewrite IH.
    destruct (draws n st1) as [zs st2]. reflexivity.
Qed.

Lemma chunks_length {A} (k n : nat) (l : list A) : length (chunks k n l) = n.
Proof. revert l. induction n as [| n IH]; intros l; simpl; auto. Qed.

Lemma skipn_draws (k m : nat) (st : sampler_state) :
  skipn k (fst (draws (k + m) st)) = fst (draws m (snd (draws k st))) /\
  firstn k (fst (draws (k + m) st)) = fst (draws k st).
Proof.
  rewrite draws_add. simpl. pose proof (draws_length k st) as Hl.
  split.
  - rewrite skipn_app, <- Hl at 1. rewrite skipn_all, Hl, Nat.sub_diag. reflexivity.
  - rewrite firstn_app, <- Hl at 1. rewrite firstn_all, Hl, Nat.sub_diag.
    simpl. apply app_nil_r.
Qed.

(** A loop that takes a block of [k] draws per iteration computes the left
    fold of its update over the blocks of the [n * k] draws. *)
Lemma block_sampling_loop {A} (f : A -> list F -> A) (k n : nat) (a : A)
    (st : sampler_state) :
  repeat_loop n
    (fun s : A * sampler_state =>
       let (zs, st') := draws k (snd s) in (f (fst s) zs, st'))
    (a, st)
  = (fold_left f (chunks k n (fst (draws (n * k) st))) a, snd (draws (n * k) st)).
Proof.
  revert a st. induction n as [| n IH]; intros a st.
  - reflexivity.
  - rewrite repeat_loop_S. simpl.
    destruct (skipn_draws k (n * k) st) as [Hs Hf]. rewrite Hs, Hf.
    rewrite (draws_add k (n * k) st). simpl.
    destruct (draws k st) as [zs st1]. simpl. rewrite IH. reflexivity.
Qed.

End Lemmas.

#[export] Hint Resolve advanced_0 advanced_1 : pricing.
