(* ===== verification/MersenneTwister.v ===== *)
(** * MersenneTwister: the generator behind [std::mt19937]

    The engine of [MonteCarloEngine] is a [std::mt19937]: the Mersenne
    Twister of Matsumoto and Nishimura with the parameters the C++
    standard fixes (32-bit words, a state of 624 words, output
    tempering).  The sources only construct it ([rng(seed)]) and draw from
    it through the distribution; the generator itself is code of the C++
    library, modelled here from its definition in the standard and its
    implementation in libstdc++ ([bits/random.tcc]): [seed], the in-place
    regeneration of the state [_M_gen_rand], and [operator()].

    A word is a [Z] in [0, 2^32).  The only arithmetic that can leave that
    range is the multiplication and addition of the seeding recurrence,
    which is reduced modulo [2^32] as the library does; the shifts to the
    left of the tempering are masked by constants below [2^32].  The state
    is the list of the 624 words and the position of the next word to
    use; regeneration updates the list in place, word by word, in the
    order of the library's three loops, since a word written early is
    read again later in the same pass.

    Proved: the state invariant [mt_ok] (624 words, each below [2^32],
    position at most 624) holds after seeding and is kept by every draw
    ([mt_seed_ok], [mt_next_ok]); every output is below [2^32]
    ([mt_next_word]); a draw advances the position by one and
    regenerates exactly when the state is used up ([mt_next_position]);
    the in-place regeneration computes the next 624 words of the
    recurrence by which the standard defines the generator
    ([gen_rand_sequence]), and the outputs are the tempered words of
    that sequence ([mt_outputs_window]).  The theorems on the engine
    that follow from these are in [NormalSampler.v]; the comparison
    with the outputs of the compiled library (the value the standard
    requires of the 10000th output of a default-constructed generator,
    the first outputs for seed 42) is in [CompiledRun.v]. *)

From stdpp Require Import base list.
From Stdlib Require Import ZArith Lia.
From S2P Require Import Prelude.

Local Open Scope Z_scope.

(** ** Parameters of [mt19937] *)

Definition state_size : nat := 624.       (* n *)
Definition shift_size : nat := 397.       (* m *)
Definition default_seed : Z := 5489.

(** [__detail::__mod<_UIntType, 2^w>]: reduction to a word. *)
Definition wrap32 (z : Z) : Z := z mod 2 ^ 32.

(** [(~_UIntType()) << r] and its complement, on words. *)
Definition upper_mask : Z := 0x80000000.
Definition lower_mask : Z := 0x7fffffff.

(** The state: [_M_x] and [_M_p]. *)
Record mt19937 : Type := { mt_x : list Z; mt_p : nat }.

(** [_M_x[k]] on the fixed-size array. *)
Definition word_at (x : list Z) (k : nat) : Z := default 0 (x !! k).

(** ** Seeding *)

(** One step of the loop of [seed]:
    [x ^= x >> (w - 2); x *= f; x += i mod n; _M_x[i] = x mod 2^w]. *)
Definition seed_word (prev : Z) (i : nat) : Z :=
  let x := Z.lxor prev (Z.shiftr prev 30) in
  let x := x * 1812433253 in
  let x := x + Z.of_nat (i mod state_size) in
  wrap32 x.

(** The words [i, i + 1, ...] of the seeded state, [k] of them, after
    the word [prev]. *)
Fixpoint seed_from (k i : nat) (prev : Z) : list Z :=
  match k with
  | O => []
  | S k' => let x := seed_word prev i in x :: seed_from k' (S i) x
  end.

(** [seed(sd)], which the constructor calls. *)
Definition mt_seed (sd : Z) : mt19937 :=
  let x0 := wrap32 sd in
  {| mt_x := x0 :: seed_from (state_size - 1) 1 x0; mt_p := state_size |}.

(** ** Regeneration *)

(** The new word from [_M_x[k]], [_M_x[k + 1]] and the word [m] places
    on:
    [y = (x_k & upper) | (x_k1 & lower); x_km ^ (y >> 1) ^ ((y & 1) ? a : 0)]. *)
Definition twist_word (xk xk1 xkm : Z) : Z :=
  let y := Z.lor (Z.land xk upper_mask) (Z.land xk1 lower_mask) in
  Z.lxor (Z.lxor xkm (Z.shiftr y 1)) (if Z.odd y then 0x9908b0df else 0).

(** The assignment to [_M_x[k]]. *)
Definition twist_at (k k1 km : nat) (x : list Z) : list Z :=
  <[k := twist_word (word_at x k) (word_at x k1) (word_at x km)]> x.

(** [_M_gen_rand]: the two loops and the last word.  In the second loop
    the index [k + (m - n)] is [k - (n - m)] in [size_t] arithmetic. *)
Definition gen_rand (s : mt19937) : mt19937 :=
  let n := state_size in
  let m := shift_size in
  let x := for_range 0 (n - m) (fun k => twist_at k (k + 1) (k + m)) (mt_x s) in
  let x := for_range (n - m) (m - 1) (fun k => twist_at k (k + 1) (k - (n - m))) x in
  let x := twist_at (n - 1) 0 (m - 1) x in
  {| mt_x := x; mt_p := 0 |}.

(** ** Output *)

(** The tempering of [operator()]. *)
Definition temper (z : Z) : Z :=
  let z := Z.lxor z (Z.land (Z.shiftr z 11) 0xffffffff) in
  let z := Z.lxor z (Z.land (Z.shiftl z 7) 0x9d2c5680) in
  let z := Z.lxor z (Z.land (Z.shiftl z 15) 0xefc60000) in
  Z.lxor z (Z.shiftr z 18).

(** The first statement of [operator()]:
    [if (_M_p >= state_size) _M_gen_rand();]. *)
Definition ready (s : mt19937) : mt19937 :=
  if decide (state_size ≤ mt_p s)%nat then gen_rand s else s.

(** [operator()]: regenerate when the state is used up, then temper the
    next word. *)
Definition mt_next (s : mt19937) : Z * mt19937 :=
  let s := ready s in
  (temper (word_at (mt_x s) (mt_p s)), {| mt_x := mt_x s; mt_p := S (mt_p s) |}).

(** The next [k] outputs and the state after them. *)
Fixpoint mt_outputs (k : nat) (s : mt19937) : list Z * mt19937 :=
  match k with
  | O => ([], s)
  | S k' =>
      let (z, s1) := mt_next s in
      let (zs, s2) := mt_outputs k' s1 in
      (z :: zs, s2)
  end.

(** ** The invariant *)

Definition is_word (z : Z) : Prop := 0 <= z < 2 ^ 32.

Record mt_ok (s : mt19937) : Prop := {
  ok_length : length (mt_x s) = state_size;
  ok_words : Forall is_word (mt_x s);
  ok_position : (mt_p s ≤ state_size)%nat
}.

(** ** The recurrence of the standard *)

(** The standard defines the generator by a sequence of words in which
    each word is computed from the words [n], [n - 1] and [n - m] places
    before it.  [extend] appends the next word of the sequence;
    [mt_sequence k x] is the sequence that starts with the words [x],
    [k] words further. *)
Definition extend (w : list Z) : list Z :=
  let i := (length w - state_size)%nat in
  w ++ [twist_word (word_at w i) (word_at w (i + 1)) (word_at w (i + shift_size))].

Definition mt_sequence (k : nat) (x : list Z) : list Z := Nat.iter k extend x.

(** What the loops of [_M_gen_rand] keep: the size of the array and the
    width of its words. *)
Definition array_ok (x : list Z) : Prop :=
  length x = state_size /\ Forall is_word x.

(** Where the word [k] of the array is in the sequence, when the
    words before [i] have been replaced. *)
Definition place (i k : nat) : nat :=
  if decide (k < i)%nat then (state_size + k)%nat else k.

(** The array after [i] assignments of [_M_gen_rand]. *)
Definition in_place (x0 : list Z) (i : nat) (x : list Z) : Prop :=
  length x = state_size /\
  forall k, (k < state_size)%nat ->
    word_at x k = word_at (mt_sequence i x0) (place i k).

(** The window of [k] words at [p] of the sequence computed to [j]. *)
Definition window (p k j : nat) (x : list Z) : list Z :=
  take k (drop p (mt_sequence j x)).

(** ** Words and the bit operations *)

Create HintDb word discriminated.

Lemma is_word_bits (z : Z) :
  is_word z <-> 0 <= z /\ forall l, 32 <= l -> Z.testbit z l = false.
Proof.
  unfold is_word. split.
  - intros Hz. split; [lia |]. by apply Z.bounded_iff_bits_nonneg'; [lia .. |].
  - intros [H0 Hb]. by apply Z.bounded_iff_bits_nonneg'; [lia .. |].
Qed.

(** A goal [is_word (op a b)] is a sign condition and a statement on
    the bits from 32 on. *)
Ltac word_bits :=
  repeat match goal with
         | H : is_word _ |- _ => apply is_word_bits in H; destruct H as [? H]
         end;
  apply is_word_bits; split;
  [ | intros l Hl ].

Lemma is_word_lxor (a b : Z) : is_word a -> is_word b -> is_word (Z.lxor a b).
Proof.
  intros Ha Hb. word_bits.
  - apply Z.lxor_nonneg; tauto.
  - rewrite Z.lxor_spec, Ha, Hb by done. done.
Qed.

Lemma is_word_lor (a b : Z) : is_word a -> is_word b -> is_word (Z.lor a b).
Proof.
  intros Ha Hb. word_bits.
  - apply Z.lor_nonneg; tauto.
  - rewrite Z.lor_spec, Ha, Hb by done. done.
Qed.

Lemma is_word_land_l (a b : Z) : is_word a -> is_word (Z.land a b).
Proof.
  intros Ha. word_bits.
  - apply Z.land_nonneg; tauto.
  - rewrite Z.land_spec, Ha by done. done.
Qed.

Lemma is_word_land_r (a b : Z) : is_word b -> is_word (Z.land a b).
Proof. rewrite Z.land_comm. apply is_word_land_l. Qed.

Lemma is_word_shiftr (a k : Z) : 0 <= k -> is_word a -> is_word (Z.shiftr a k).
Proof.
  intros Hk Ha. word_bits.
  - by apply Z.shiftr_nonneg.
  - rewrite Z.shiftr_spec by lia. apply Ha. lia.
Qed.

Lemma is_word_wrap32 (z : Z) : is_word (wrap32 z).
Proof. unfold is_word, wrap32. apply Z.mod_pos_bound. lia. Qed.

Lemma is_word_const (z : Z) : (0 <=? z) && (z <? 2 ^ 32) = true -> is_word z.
Proof. unfold is_word. lia. Qed.

#[export] Hint Resolve is_word_lxor is_word_lor is_word_land_l is_word_shiftr
  is_word_wrap32 : word.
#[export] Hint Extern 1 (is_word (Z.land _ ?c)) =>
  apply is_word_land_r, is_word_const; reflexivity : word.
#[export] Hint Extern 2 (is_word _) => apply is_word_const; reflexivity : word.
#[export] Hint Extern 1 (0 <= _) => lia : word.

Lemma is_word_temper (z : Z) : is_word z -> is_word (temper z).
Proof. intros Hz. unfold temper. auto 10 with word. Qed.

Lemma is_word_twist_word (xk xk1 xkm : Z) :
  is_word xk -> is_word xk1 -> is_word xkm -> is_word (twist_word xk xk1 xkm).
Proof. intros. unfold twist_word. case_match; auto 10 with word. Qed.

Lemma is_word_seed_word (prev : Z) (i : nat) : is_word (seed_word prev i).
Proof. apply is_word_wrap32. Qed.

Lemma is_word_word_at (x : list Z) (k : nat) :
  Forall is_word x -> is_word (word_at x k).
Proof.
  intros Hx. unfold word_at. destruct (x !! k) as [z |] eqn:Hk; simpl.
  - by eapply Forall_lookup_1.
  - by apply is_word_const.
Qed.

#[export] Hint Resolve is_word_temper is_word_twist_word is_word_word_at : word.

(** ** Reading and writing the state *)

Lemma word_at_insert (x : list Z) (k : nat) (v : Z) :
  (k < length x)%nat -> word_at (<[k := v]> x) k = v.
Proof. intros Hk. unfold word_at. by rewrite list_lookup_insert_eq. Qed.

Lemma word_at_insert_ne (x : list Z) (k j : nat) (v : Z) :
  k ≠ j -> word_at (<[k := v]> x) j = word_at x j.
Proof. intros Hk. unfold word_at. by rewrite list_lookup_insert_ne. Qed.

Lemma word_at_app_l (x y : list Z) (k : nat) :
  (k < length x)%nat -> word_at (x ++ y) k = word_at x k.
Proof. intros Hk. unfold word_at. by rewrite lookup_app_l. Qed.

Lemma word_at_app_length (x : list Z) (v : Z) :
  word_at (x ++ [v]) (length x) = v.
Proof. unfold word_at. by rewrite list_lookup_middle. Qed.

Lemma word_at_drop (x : list Z) (n k : nat) :
  word_at (drop n x) k = word_at x (n + k).
Proof. unfold word_at. by rewrite lookup_drop. Qed.

(** Two arrays of one length with the same words are equal. *)
Lemma word_at_ext (x y : list Z) :
  length x = length y ->
  (forall k, (k < length x)%nat -> word_at x k = word_at y k) ->
  x = y.
Proof.
  intros Hlen Hw. apply list_eq_same_length with (length x); [done .. |].
  intros k a b Hk Ha Hb. specialize (Hw k Hk). unfold word_at in Hw.
  rewrite Ha, Hb in Hw. exact Hw.
Qed.

Lemma twist_at_length (k k1 km : nat) (x : list Z) :
  length (twist_at k k1 km x) = length x.
Proof. unfold twist_at. apply length_insert. Qed.

Lemma twist_at_words (k k1 km : nat) (x : list Z) :
  Forall is_word x -> Forall is_word (twist_at k k1 km x).
Proof. intros Hx. unfold twist_at. apply Forall_insert; auto with word. Qed.

(** ** The invariant is established by seeding and kept by every draw *)

Lemma seed_from_length (k i : nat) (prev : Z) : length (seed_from k i prev) = k.
Proof. revert i prev. induction k as [| k IH]; intros; simpl; [done | by rewrite IH]. Qed.

Lemma seed_from_words (k i : nat) (prev : Z) : Forall is_word (seed_from k i prev).
Proof.
  revert i prev. induction k as [| k IH]; intros; simpl; constructor;
    [apply is_word_seed_word | apply IH].
Qed.

Lemma mt_seed_ok (sd : Z) : mt_ok (mt_seed sd).
Proof.
  split; unfold mt_seed; cbn [mt_x mt_p].
  - cbn [length]. by rewrite seed_from_length.
  - constructor; [auto with word | apply seed_from_words].
  - done.
Qed.

(** The seed is an [unsigned]: only its residue modulo [2^32] counts. *)
Lemma mt_seed_wrap (sd : Z) : mt_seed (wrap32 sd) = mt_seed sd.
Proof. unfold mt_seed, wrap32. by rewrite Z.mod_mod. Qed.

Lemma twist_at_array_ok (k k1 km : nat) (x : list Z) :
  array_ok x -> array_ok (twist_at k k1 km x).
Proof.
  intros [Hl Hw]. split; [by rewrite twist_at_length | by apply twist_at_words].
Qed.

Lemma twist_loop_array_ok (lo n : nat) (k1 km : nat -> nat) (x : list Z) :
  array_ok x ->
  array_ok (for_range lo n (fun k => twist_at k (k1 k) (km k)) x).
Proof.
  intros Hx.
  apply (for_range_inv (fun _ => array_ok)); [done |].
  intros i y _ Hy. by apply twist_at_array_ok.
Qed.

Lemma gen_rand_position (s : mt19937) : mt_p (gen_rand s) = 0%nat.
Proof. reflexivity. Qed.

Lemma gen_rand_ok (s : mt19937) : mt_ok s -> mt_ok (gen_rand s).
Proof.
  intros [Hl Hw _].
  assert (array_ok (mt_x (gen_rand s))) as [Hl' Hw'].
  { unfold gen_rand; cbn [mt_x].
    apply twist_at_array_ok.
    by do 2 apply twist_loop_array_ok. }
  split; [exact Hl' | exact Hw' | rewrite gen_rand_position; lia].
Qed.

Lemma mt_next_ready (s : mt19937) :
  mt_next s =
  (temper (word_at (mt_x (ready s)) (mt_p (ready s))),
   {| mt_x := mt_x (ready s); mt_p := S (mt_p (ready s)) |}).
Proof. reflexivity. Qed.

Lemma ready_ok (s : mt19937) :
  mt_ok s -> mt_ok (ready s) /\ (mt_p (ready s) < state_size)%nat.
Proof.
  intros Hs. unfold ready. case_decide as Hp.
  - split; [by apply gen_rand_ok | rewrite gen_rand_position; unfold state_size; lia].
  - split; [done | lia].
Qed.

Lemma mt_next_ok (s : mt19937) : mt_ok s -> mt_ok (snd (mt_next s)).
Proof.
  intros Hs. destruct (ready_ok s Hs) as [Hok Hp].
  rewrite mt_next_ready. cbn [snd].
  generalize dependent (ready s). intros r [Hl Hw _] Hp.
  split; cbn [mt_x mt_p]; [exact Hl | exact Hw | by apply Nat.le_succ_l].
Qed.

Lemma mt_next_word (s : mt19937) : mt_ok s -> is_word (fst (mt_next s)).
Proof.
  intros Hs. destruct (ready_ok s Hs) as [[_ Hw _] _].
  rewrite mt_next_ready. cbn [fst]. auto with word.
Qed.

Lemma mt_next_position (s : mt19937) :
  mt_p (snd (mt_next s)) =
  if decide (state_size ≤ mt_p s)%nat then 1%nat else S (mt_p s).
Proof. rewrite mt_next_ready. unfold ready. by case_decide. Qed.

(** A draw that does not regenerate leaves the array as it is. *)
Lemma mt_next_array (s : mt19937) :
  (mt_p s < state_size)%nat -> mt_x (snd (mt_next s)) = mt_x s.
Proof.
  intros Hp. rewrite mt_next_ready. unfold ready.
  case_decide; [lia | done].
Qed.

Lemma mt_outputs_S (k : nat) (s : mt19937) :
  mt_outputs (S k) s =
  (fst (mt_next s) :: fst (mt_outputs k (snd (mt_next s))),
   snd (mt_outputs k (snd (mt_next s)))).
Proof.
  change (mt_outputs (S k) s)
    with (let (z, s1) := mt_next s in
          let (zs, s2) := mt_outputs k s1 in (z :: zs, s2)).
  destruct (mt_next s) as [z s1]. cbn [fst snd].
  by destruct (mt_outputs k s1).
Qed.

Lemma mt_outputs_add (j k : nat) (s : mt19937) :
  snd (mt_outputs (j + k) s) = snd (mt_outputs k (snd (mt_outputs j s))).
Proof.
  revert s. induction j as [| j IH]; intros s; [done |].
  change (S j + k)%nat with (S (j + k)). rewrite !mt_outputs_S. cbn [snd].
  apply IH.
Qed.

Lemma mt_outputs_length (k : nat) (s : mt19937) :
  length (fst (mt_outputs k s)) = k.
Proof.
  revert s. induction k as [| k IH]; intros s; [done |].
  rewrite mt_outputs_S. cbn [fst length]. by rewrite IH.
Qed.

Lemma mt_outputs_ok (k : nat) (s : mt19937) :
  mt_ok s ->
  Forall is_word (fst (mt_outputs k s)) /\ mt_ok (snd (mt_outputs k s)).
Proof.
  revert s. induction k as [| k IH]; intros s Hs; [by split |].
  rewrite mt_outputs_S. cbn [fst snd].
  destruct (IH _ (mt_next_ok s Hs)) as [Hw Hok].
  split; [constructor; [by apply mt_next_word | done] | done].
Qed.

(** ** The in-place regeneration computes the recurrence *)

Lemma mt_sequence_S (k : nat) (x : list Z) :
  mt_sequence (S k) x = extend (mt_sequence k x).
Proof. reflexivity. Qed.

Lemma mt_sequence_length (k : nat) (x : list Z) :
  length (mt_sequence k x) = (length x + k)%nat.
Proof.
  induction k as [| k IH]; [simpl; lia |].
  rewrite mt_sequence_S. unfold extend. rewrite length_app, IH. simpl. lia.
Qed.

Lemma mt_sequence_old (k j : nat) (x : list Z) :
  (j < length x + k)%nat ->
  word_at (mt_sequence (S k) x) j = word_at (mt_sequence k x) j.
Proof.
  intros Hj. rewrite mt_sequence_S. unfold extend.
  apply word_at_app_l. by rewrite mt_sequence_length.
Qed.

Lemma mt_sequence_new (k : nat) (x : list Z) :
  length x = state_size ->
  word_at (mt_sequence (S k) x) (state_size + k) =
  twist_word (word_at (mt_sequence k x) k) (word_at (mt_sequence k x) (k + 1))
    (word_at (mt_sequence k x) (k + shift_size)).
Proof.
  intros Hx. rewrite mt_sequence_S. unfold extend.
  assert (length (mt_sequence k x) = (state_size + k)%nat) as Hl
    by (rewrite mt_sequence_length; lia).
  rewrite <- Hl at 1. rewrite word_at_app_length, Hl.
  by replace (state_size + k - state_size)%nat with k by lia.
Qed.

Section InPlace.
Variable x0 : list Z.
Hypothesis x0_length : length x0 = state_size.

Lemma in_place_start : in_place x0 0 x0.
Proof. split; [done |]. intros k _. unfold place. by case_decide; [lia |]. Qed.

(** One assignment, given that the two other words it reads are the
    words [i + 1] and [i + m] of the sequence. *)
Lemma in_place_step (i k1 km : nat) (x : list Z) :
  (i < state_size)%nat ->
  (k1 < state_size)%nat -> place i k1 = (i + 1)%nat ->
  (km < state_size)%nat -> place i km = (i + shift_size)%nat ->
  in_place x0 i x -> in_place x0 (S i) (twist_at i k1 km x).
Proof.
  intros Hi Hk1 Hp1 Hkm Hpm [Hl Hw]. split; [by rewrite twist_at_length |].
  intros k Hk. unfold twist_at. destruct (decide (i = k)) as [<- | Hne].
  - rewrite word_at_insert by lia.
    rewrite (Hw i Hi), (Hw k1 Hk1), (Hw km Hkm), Hp1, Hpm.
    unfold place. repeat case_decide; try lia.
    by rewrite mt_sequence_new.
  - rewrite word_at_insert_ne, (Hw k Hk) by done.
    assert (place (S i) k = place i k) as ->
      by (unfold place; repeat case_decide; lia).
    symmetry. apply mt_sequence_old. unfold place. case_decide; lia.
Qed.

Lemma in_place_end (x : list Z) :
  in_place x0 state_size x -> x = drop state_size (mt_sequence state_size x0).
Proof.
  intros [Hl Hw]. apply word_at_ext.
  - rewrite length_drop, mt_sequence_length. lia.
  - intros k Hk. rewrite word_at_drop, Hw by lia.
    unfold place. by case_decide; [| lia].
Qed.

Lemma gen_rand_in_place (p : nat) :
  in_place x0 state_size (mt_x (gen_rand {| mt_x := x0; mt_p := p |})).
Proof.
  unfold gen_rand; cbn [mt_x].
  apply (in_place_step (state_size - 1));
    [unfold place, state_size, shift_size; repeat case_decide; lia .. |].
  apply (for_range_inv (in_place x0)).
  - apply (for_range_inv (in_place x0)); [apply in_place_start |].
    intros i x Hi. apply in_place_step;
      unfold place, state_size, shift_size in *; repeat case_decide; lia.
  - intros i x Hi. apply in_place_step;
      unfold place, state_size, shift_size in *; repeat case_decide; lia.
Qed.
End InPlace.

Lemma gen_rand_sequence (s : mt19937) :
  length (mt_x s) = state_size ->
  mt_x (gen_rand s) = drop state_size (mt_sequence state_size (mt_x s)).
Proof.
  intros Hl. destruct s as [x p]. apply in_place_end; [done |].
  by apply gen_rand_in_place.
Qed.

(** ** The output stream is the tempered sequence *)

Lemma extend_drop (a : nat) (w : list Z) :
  (a + state_size ≤ length w)%nat -> extend (drop a w) = drop a (extend w).
Proof.
  intros Ha. unfold extend. rewrite drop_app_le, length_drop by lia.
  rewrite !word_at_drop.
  by replace (length w - a - state_size)%nat
    with (length w - state_size - a)%nat by lia;
    rewrite !Nat.add_assoc, (Nat.add_comm a), Nat.sub_add by lia.
Qed.

(** The sequence continued from its last [n] words is the sequence. *)
Lemma mt_sequence_shift (a b : nat) (x : list Z) :
  length x = state_size ->
  drop a (mt_sequence (a + b) x) = mt_sequence b (drop a (mt_sequence a x)).
Proof.
  intros Hx. induction b as [| b IH]; [by rewrite Nat.add_0_r |].
  rewrite Nat.add_succ_r, !mt_sequence_S, <- IH.
  symmetry. apply extend_drop. rewrite mt_sequence_length. lia.
Qed.

Lemma mt_sequence_prefix (a b : nat) (x : list Z) :
  take (length x + a) (mt_sequence (a + b) x) = mt_sequence a x.
Proof.
  induction b as [| b IH].
  - rewrite Nat.add_0_r, take_ge; [done | rewrite mt_sequence_length; lia].
  - rewrite Nat.add_succ_r, mt_sequence_S. unfold extend.
    rewrite take_app_le; [done | rewrite mt_sequence_length; lia].
Qed.

(** A window of the sequence does not depend on how far the sequence has
    been computed beyond it. *)
Lemma mt_sequence_window (p k a b : nat) (x : list Z) :
  (p + k ≤ length x + a)%nat -> (a ≤ b)%nat ->
  take k (drop p (mt_sequence b x)) = take k (drop p (mt_sequence a x)).
Proof.
  intros Hk Hab. replace b with (a + (b - a))%nat by lia.
  rewrite <- (mt_sequence_prefix a (b - a) x).
  rewrite !take_drop_commute, take_take. do 2 f_equal. lia.
Qed.

Lemma window_S (p k j : nat) (x : list Z) :
  (p < length x + j)%nat ->
  window p (S k) j x = word_at (mt_sequence j x) p :: window (S p) k j x.
Proof.
  intros Hp. unfold window, word_at.
  destruct (lookup_lt_is_Some_2 (mt_sequence j x) p) as [z Hz];
    [by rewrite mt_sequence_length |].
  by rewrite (drop_S _ _ _ Hz), Hz.
Qed.

Lemma mt_sequence_start (j p : nat) (x : list Z) :
  (p < length x)%nat -> word_at (mt_sequence j x) p = word_at x p.
Proof.
  intros Hp. induction j as [| j IH]; [done |].
  rewrite mt_sequence_old by lia. exact IH.
Qed.

Lemma window_regenerated (k j : nat) (x : list Z) :
  length x = state_size -> (state_size ≤ j)%nat ->
  window state_size k j x =
  window 0 k (j - state_size) (drop state_size (mt_sequence state_size x)).
Proof.
  intros Hx Hj. unfold window.
  rewrite <- mt_sequence_shift, drop_0 by done.
  by replace (state_size + (j - state_size))%nat with j by lia.
Qed.

(** Regeneration moves the window to the start of the new array. *)
Lemma ready_window (k j : nat) (s : mt19937) :
  mt_ok s -> (mt_p s + k ≤ state_size + j)%nat ->
  exists j',
    window (mt_p s) k j (mt_x s) = window (mt_p (ready s)) k j' (mt_x (ready s)) /\
    (mt_p (ready s) + k ≤ state_size + j')%nat.
Proof.
  intros [Hl Hw Hp] Hk. unfold ready. case_decide as Hfull.
  - exists (j `max` state_size - state_size)%nat.
    rewrite gen_rand_position, gen_rand_sequence by done.
    replace (mt_p s) with state_size in * by lia. split; [| lia].
    rewrite <- window_regenerated by (done || lia).
    unfold window. symmetry. apply mt_sequence_window; lia.
  - by exists j.
Qed.

Lemma mt_outputs_window (k j : nat) (s : mt19937) :
  mt_ok s -> (mt_p s + k ≤ state_size + j)%nat ->
  fst (mt_outputs k s) = map temper (window (mt_p s) k j (mt_x s)).
Proof.
  revert j s. induction k as [| k IH]; intros j s Hs Hk.
  - unfold window. by rewrite take_0.
  - destruct (ready_window (S k) j s Hs Hk) as (j' & -> & Hk').
    destruct (ready_ok s Hs) as [[Hl _ _] Hp].
    rewrite mt_outputs_S, (IH j' _ (mt_next_ok s Hs));
      rewrite mt_next_ready; cbn [fst snd mt_x mt_p]; [| lia].
    rewrite window_S, mt_sequence_start by lia. done.
Qed.
