(* ===== verification/MonteCarlo.v ===== *)
(** * MonteCarlo: the simulation engine

    [class MonteCarloEngine] ([src/cpp_engine/monte_carlo.hpp]): the
    member [rng], the constructor, and the methods [price_european],
    [price_asian], [price_barrier] and [simulate_paths].  A method is a
    function of its arguments and the engine, returning its result and the
    engine after the call.  Each method starts from a fresh distribution
    object ([dist_new]) and discards it when it returns; only the
    generator persists.

    Loops are in program order: the outer loops run [trip_count n_paths]
    times, the inner ones [trip_count n_steps] times; the inner loop of
    [price_barrier] is a recursion that stops at the first breach, as the
    [break] does.  [simulate_paths] allocates the matrix and writes it
    element by element with checked indices.

    Proved here, for every carrier and every sampler: each pricing method
    equals a pure estimator applied to the list of draws it takes
    ([european_estimate], [asian_estimate]); how many draws each method
    takes, at most in the case of [price_barrier]; the truncation of an
    odd [n_paths]; the degenerate path counts; the shape and contents of
    the path matrix and the faults of its construction; [price_asian]
    as a function of the matrix [simulate_paths] returns.

    Proved in the exact reading ([double] as the real numbers), for every
    sampler, the facts that hold path by path whatever the draws are:
    payoffs and prices are non-negative; the antithetic pair is symmetric
    in its draw; with zero volatility the European estimator is the
    discounted payoff of the forward price; a knock-out option whose
    barrier lies beyond the strike is worth nothing; the barrier is not
    tested at the initial price; [PathwiseFacts.v] continues with the
    parity of the estimators and the cap of a knock-out.  Statistical
    claims (convergence to the closed form, variance reduction) are
    about the distribution of the draws and are outside both
    readings. *)

From Stdlib Require Import Reals Lra.
From stdpp Require Import base list.
From Stdlib Require Import ZArith Lia.
From S2P Require Import Prelude Numeric RealModel Vectors RandomStream.

(** ** The code *)

Section Code.
Context {F : Type} `{Double F} `{Sampler F}.
Local Open Scope dbl_scope.

(** The class: one data member. *)
Record MonteCarloEngine : Type := { rng : engine }.

(** [MonteCarloEngine(unsigned seed = 42) : rng(seed) {}]. *)
Definition MonteCarloEngine_new (seed : Z) : MonteCarloEngine :=
  {| rng := seed_engine seed |}.

Definition MonteCarloEngine_default : MonteCarloEngine :=
  MonteCarloEngine_new 42.

(** [is_call ? std::max(0.0, x - K) : std::max(0.0, K - x)]. *)
Definition payoff (is_call : bool) (K x : F) : F :=
  if is_call then fmax (of_int 0) (x - K) else fmax (of_int 0) (K - x).

(** *** [price_european] *)

(** What one iteration adds to [sum_payoffs], given its draw [z]. *)
Definition antithetic_pair (S0 K drift diffusion : F) (is_call : bool) (z : F)
  : F :=
  let ST1 := S0 * fexp (drift + diffusion * z) in
  let payoff1 := payoff is_call K ST1 in
  let ST2 := S0 * fexp (drift - diffusion * z) in
  let payoff2 := payoff is_call K ST2 in
  (payoff1 + payoff2) / of_int 2.

(** The loop body, on the state ([sum_payoffs], sampler). *)
Definition european_body (S0 K drift diffusion : F) (is_call : bool)
    (s : F * sampler_state) : F * sampler_state :=
  let (z, st) := draw (snd s) in
  (fst s + antithetic_pair S0 K drift diffusion is_call z, st).

Definition price_european (S0 K T r sigma : F) (is_call : bool) (n_paths : Z)
    (e : MonteCarloEngine) : F * MonteCarloEngine :=
  let norm := dist_new in
  let drift := (r - dec 5 1 * sigma * sigma) * T in
  let diffusion := sigma * fsqrt T in
  let sum_payoffs := of_int 0 in
  let (sum_payoffs, st) :=
    repeat_loop (trip_count (n_paths ÷ 2))
      (european_body S0 K drift diffusion is_call) (sum_payoffs, (norm, rng e)) in
  (fexp (- r * T) * sum_payoffs / of_int (n_paths ÷ 2), {| rng := snd st |}).

(** *** [price_asian] *)

(** The inner loop body, on the state (([S], [sum_S]), sampler). *)
Definition asian_step (drift diffusion : F) (s : (F * F) * sampler_state)
  : (F * F) * sampler_state :=
  let (z, st) := draw (snd s) in
  let S := fst (fst s) * fexp (drift + diffusion * z) in
  let sum_S := snd (fst s) + S in
  ((S, sum_S), st).

(** The outer loop body, on the state ([sum_payoffs], sampler). *)
Definition asian_path (S0 K drift diffusion : F) (is_call : bool) (n_steps : Z)
    (s : F * sampler_state) : F * sampler_state :=
  let S := S0 in
  let sum_S := of_int 0 in
  let (p, st) :=
    repeat_loop (trip_count n_steps) (asian_step drift diffusion)
      ((S, sum_S), snd s) in
  let avg_price := snd p / of_int n_steps in
  let payoff := payoff is_call K avg_price in
  (fst s + payoff, st).

Definition price_asian (S0 K T r sigma : F) (is_call : bool) (n_steps n_paths : Z)
    (e : MonteCarloEngine) : F * MonteCarloEngine :=
  let norm := dist_new in
  let dt := T / of_int n_steps in
  let drift := (r - dec 5 1 * sigma * sigma) * dt in
  let diffusion := sigma * fsqrt dt in
  let sum_payoffs := of_int 0 in
  let (sum_payoffs, st) :=
    repeat_loop (trip_count n_paths)
      (asian_path S0 K drift diffusion is_call n_steps)
      (sum_payoffs, (norm, rng e)) in
  (fexp (- r * T) * sum_payoffs / of_int n_paths, {| rng := snd st |}).

(** *** [price_barrier] *)

(** The barrier test after a step:
    [is_down_and_out && S <= B] or [!is_down_and_out && S >= B]. *)
Definition breached (B : F) (is_down_and_out : bool) (S : F) : bool :=
  if is_down_and_out && (S <=? B) then true
  else if negb is_down_and_out && (S >=? B) then true
  else false.

(** The inner loop with [n] steps left: the price reached, whether the
    barrier was hit, the sampler after the steps actually taken. *)
Fixpoint barrier_walk (B drift diffusion : F) (is_down_and_out : bool)
    (n : nat) (S : F) (st : sampler_state) : F * bool * sampler_state :=
  match n with
  | O => (S, false, st)
  | Datatypes.S n' =>
      let (z, st) := draw st in
      let S := S * fexp (drift + diffusion * z) in
      if breached B is_down_and_out S then (S, true, st)
      else barrier_walk B drift diffusion is_down_and_out n' S st
  end.

(** The outer loop body. *)
Definition barrier_path (S0 K B drift diffusion : F)
    (is_call is_down_and_out : bool) (n_steps : Z) (s : F * sampler_state)
  : F * sampler_state :=
  let w :=
    barrier_walk B drift diffusion is_down_and_out (trip_count n_steps) S0 (snd s) in
  let S := fst (fst w) in
  let barrier_hit := snd (fst w) in
  let st := snd w in
  if negb barrier_hit then (fst s + payoff is_call K S, st) else (fst s, st).

Definition price_barrier (S0 K B T r sigma : F) (is_call is_down_and_out : bool)
    (n_steps n_paths : Z) (e : MonteCarloEngine) : F * MonteCarloEngine :=
  let norm := dist_new in
  let dt := T / of_int n_steps in
  let drift := (r - dec 5 1 * sigma * sigma) * dt in
  let diffusion := sigma * fsqrt dt in
  let sum_payoffs := of_int 0 in
  let (sum_payoffs, st) :=
    repeat_loop (trip_count n_paths)
      (barrier_path S0 K B drift diffusion is_call is_down_and_out n_steps)
      (sum_payoffs, (norm, rng e)) in
  (fexp (- r * T) * sum_payoffs / of_int n_paths, {| rng := snd st |}).

(** *** [simulate_paths] *)

Local Open Scope outcome_scope.

(** The inner loop body, for the counters [path] and [step], on the state
    (([paths], [S]), sampler). *)
Definition paths_step (drift diffusion : F) (path step : nat)
    (s : (list (list F) * F) * sampler_state)
  : outcome ((list (list F) * F) * sampler_state) :=
  let (z, st) := draw (snd s) in
  let S := (snd (fst s) * fexp (drift + diffusion * z))%dbl in
  paths <- mat_set (fst (fst s)) path step S ;;
  Done ((paths, S), st).

(** The outer loop body, for the counter [path]. *)
Definition paths_row (S0 drift diffusion : F) (n_steps : Z) (path : nat)
    (s : list (list F) * sampler_state)
  : outcome (list (list F) * sampler_state) :=
  paths <- mat_set (fst s) path 0 S0 ;;
  let S := S0 in
  r <- for_range_o 1 (trip_count n_steps) (paths_step drift diffusion path)
         ((paths, S), snd s) ;;
  Done (fst (fst r), snd r).

Definition simulate_paths (S0 mu sigma T : F) (n_steps n_paths : Z)
    (e : MonteCarloEngine) : outcome (list (list F) * MonteCarloEngine) :=
  let norm := dist_new in
  let dt := (T / of_int n_steps)%dbl in
  let drift := ((mu - dec 5 1 * sigma * sigma) * dt)%dbl in
  let diffusion := (sigma * fsqrt dt)%dbl in
  cols <- int_add n_steps 1 ;;
  row <- vec_new cols (of_int 0) ;;
  paths <- vec_new n_paths row ;;
  r <- for_range_o 0 (trip_count n_paths)
         (paths_row S0 drift diffusion n_steps) (paths, (norm, rng e)) ;;
  Done (fst r, {| rng := snd (snd r) |}).

(** ** The estimators: what each method computes from its draws *)

Definition european_estimate (S0 K T r sigma : F) (is_call : bool) (n_paths : Z)
    (zs : list F) : F :=
  let drift := ((r - dec 5 1 * sigma * sigma) * T)%dbl in
  let diffusion := (sigma * fsqrt T)%dbl in
  (fexp (- r * T)
   * fold_left (fun acc z => acc + antithetic_pair S0 K drift diffusion is_call z)
       zs (of_int 0)
   / of_int (n_paths ÷ 2))%dbl.

(** The prices along one path, after each step, from the draws of the
    path: the exact GBM update applied step by step. *)
Fixpoint gbm_path (drift diffusion : F) (S : F) (zs : list F) : list F :=
  match zs with
  | [] => []
  | z :: zs' =>
      let S' := (S * fexp (drift + diffusion * z))%dbl in
      S' :: gbm_path drift diffusion S' zs'
  end.

(** The running sum of a path, accumulated left to right from [0.0]. *)
Definition path_sum (xs : list F) : F :=
  fold_left (fun acc x => (acc + x)%dbl) xs (of_int 0).

Definition asian_estimate (S0 K T r sigma : F) (is_call : bool)
    (n_steps n_paths : Z) (zs : list F) : F :=
  let dt := (T / of_int n_steps)%dbl in
  let drift := ((r - dec 5 1 * sigma * sigma) * dt)%dbl in
  let diffusion := (sigma * fsqrt dt)%dbl in
  (fexp (- r * T)
   * fold_left
       (fun acc path_zs =>
          acc + payoff is_call K
                  (path_sum (gbm_path drift diffusion S0 path_zs) / of_int n_steps))
       (chunks (trip_count n_steps) (trip_count n_paths) zs) (of_int 0)
   / of_int n_paths)%dbl.

(** The matrix [simulate_paths] returns, from the draws it takes: one row
    per block of [n_steps] draws, [S0] followed by the prices of the path. *)
Definition paths_matrix (S0 mu sigma T : F) (n_steps n_paths : Z) (zs : list F)
  : list (list F) :=
  let dt := (T / of_int n_steps)%dbl in
  let drift := ((mu - dec 5 1 * sigma * sigma) * dt)%dbl in
  let diffusion := (sigma * fsqrt dt)%dbl in
  map (fun path_zs => S0 :: gbm_path drift diffusion S0 path_zs)
    (chunks (trip_count n_steps) (trip_count n_paths) zs).

(** What [price_asian] computes from a matrix of paths: the discounted
    mean of the payoffs of the row averages, each average taken over the
    row without its first entry. *)
Definition asian_on_paths (K T r : F) (is_call : bool) (n_steps n_paths : Z)
    (paths : list (list F)) : F :=
  (fexp (- r * T)
   * fold_left
       (fun acc row => acc + payoff is_call K (path_sum (tail row) / of_int n_steps))
       paths (of_int 0)
   / of_int n_paths)%dbl.

End Code.

(** ** A predicate of the exact reading *)

(** The barrier lies on the side of the strike where every surviving path
    is out of the money: an up-and-out call with [(B <= K)%R], or a
    down-and-out put with [(K <= B)%R]. *)
Definition barrier_beyond_strike (is_call is_down_and_out : bool) (K B : R)
  : Prop :=
  if is_down_and_out then is_call = false /\ (K <= B)%R
  else is_call = true /\ (B <= K)%R.

(** ** Lemmas *)

(** A fold over a mapped list. *)
Lemma fold_left_over_map {A B C : Type} (f : C -> B -> C) (g : A -> B)
    (l : list A) (c : C) :
  fold_left f (map g l) c = fold_left (fun acc x => f acc (g x)) l c.
Proof. revert c. induction l as [| x l IH]; intros c; simpl; auto. Qed.

(** The [i]-th block is the [k] elements from position [i * k]. *)
Lemma chunks_lookup {A} (k n i : nat) (l : list A) :
  i < n -> chunks k n l !! i = Some (take k (drop (i * k) l)).
Proof.
  revert i l. induction n as [| n IH]; intros i l Hi; [lia |].
  destruct i as [| i]; [reflexivity |]. simpl.
  rewrite IH, drop_drop by lia. reflexivity.
Qed.

(** Every block of a list that is long enough has [k] elements. *)
Lemma chunks_lengths {A} (k n : nat) (l : list A) :
  n * k ≤ length l -> Forall (fun c => length c = k) (chunks k n l).
Proof.
  revert l. induction n as [| n IH]; intros l Hl; simpl; constructor.
  - rewrite length_take. lia.
  - apply IH. rewrite length_drop. lia.
Qed.

Section Lemmas.
Context {F : Type} `{Double F} `{Sampler F}.

Lemma engine_eta (e : MonteCarloEngine) : {| rng := rng e |} = e.
Proof. destruct e; reflexivity. Qed.

(** *** The European loop *)

Lemma european_loop (S0 K drift diffusion : F) (is_call : bool) (n : nat)
    (a : F) (st : sampler_state) :
  repeat_loop n (european_body S0 K drift diffusion is_call) (a, st) =
  (fold_left (fun acc z => fadd acc (antithetic_pair S0 K drift diffusion is_call z))
     (fst (draws n st)) a,
   snd (draws n st)).
Proof.
  exact (sampling_loop
           (fun acc z => fadd acc (antithetic_pair S0 K drift diffusion is_call z))
           n a st).
Qed.

(** *** The Asian loops *)

(** The inner loop's state after the draws [zs]: the last price of the
    path and the running sum. *)
Lemma asian_fold (drift diffusion : F) (zs : list F) (S sum_S : F) :
  fold_left
    (fun (p : F * F) z =>
       (fmul (fst p) (fexp (fadd drift (fmul diffusion z))),
        fadd (snd p) (fmul (fst p) (fexp (fadd drift (fmul diffusion z))))))
    zs (S, sum_S)
  = (List.last (gbm_path drift diffusion S zs) S,
     fold_left (fun acc x => fadd acc x) (gbm_path drift diffusion S zs) sum_S).
Proof.
  revert S sum_S. induction zs as [| z zs IH]; intros S sum_S; simpl; auto.
  rewrite IH. f_equal. symmetry. apply last_cons_cons.
Qed.

Lemma asian_inner_loop (drift diffusion : F) (n : nat) (S sum_S : F)
    (st : sampler_state) :
  repeat_loop n (asian_step drift diffusion) ((S, sum_S), st) =
  ((List.last (gbm_path drift diffusion S (fst (draws n st))) S,
    fold_left (fun acc x => fadd acc x)
      (gbm_path drift diffusion S (fst (draws n st))) sum_S),
   snd (draws n st)).
Proof.
  rewrite <- asian_fold.
  exact (sampling_loop
           (fun (p : F * F) z =>
              (fmul (fst p) (fexp (fadd drift (fmul diffusion z))),
               fadd (snd p) (fmul (fst p) (fexp (fadd drift (fmul diffusion z))))))
           n (S, sum_S) st).
Qed.

(** One path of the outer loop takes a block of draws. *)
Lemma asian_path_block (S0 K drift diffusion : F) (is_call : bool) (n_steps : Z)
    (s : F * sampler_state) :
  asian_path S0 K drift diffusion is_call n_steps s =
  let (zs, st') := draws (trip_count n_steps) (snd s) in
  (fadd (fst s)
     (payoff is_call K
        (fdiv (path_sum (gbm_path drift diffusion S0 zs)) (of_int n_steps))),
   st').
Proof.
  unfold asian_path. rewrite asian_inner_loop.
  destruct (draws (trip_count n_steps) (snd s)) as [zs st']. reflexivity.
Qed.

Lemma asian_outer_loop (S0 K drift diffusion : F) (is_call : bool) (n_steps : Z)
    (n : nat) (a : F) (st : sampler_state) :
  repeat_loop n (asian_path S0 K drift diffusion is_call n_steps) (a, st) =
  (fold_left
     (fun acc zs =>
        fadd acc
          (payoff is_call K
             (fdiv (path_sum (gbm_path drift diffusion S0 zs)) (of_int n_steps))))
     (chunks (trip_count n_steps) n (fst (draws (n * trip_count n_steps) st))) a,
   snd (draws (n * trip_count n_steps) st)).
Proof.
  rewrite <- block_sampling_loop.
  apply repeat_loop_ext. intros s. apply asian_path_block.
Qed.

(** *** The barrier walk *)

(** The walk takes at most [n] draws, exactly [n] when the barrier is not
    hit. *)
Lemma barrier_walk_advanced (B drift diffusion : F) (dao : bool) (n : nat)
    (S : F) (st : sampler_state) :
  exists k, k ≤ n ∧
    advanced k st (snd (barrier_walk B drift diffusion dao n S st)) ∧
    (snd (fst (barrier_walk B drift diffusion dao n S st)) = false -> k = n).
Proof.
  revert S st. induction n as [| n IH]; intros S st; simpl.
  - exists 0. auto with pricing.
  - pose proof (advanced_1 st) as H1.
    destruct (draw st) as [z st1]. simpl in H1.
    destruct (breached B dao _) eqn:Eb; simpl.
    + exists 1. split; [lia |]. split; [exact H1 | discriminate].
    + destruct (IH (fmul S (fexp (fadd drift (fmul diffusion z)))) st1)
        as (k & Hk & Hadv & Hfull).
      exists (1 + k). split; [lia |]. split.
      * eapply advanced_add; eassumption.
      * intros Hh. rewrite (Hfull Hh). reflexivity.
Qed.

(** When the walk ends without a hit after at least one step, the price
    it returns passed the barrier test. *)
Lemma barrier_walk_survivor (B drift diffusion : F) (dao : bool) (n : nat)
    (S : F) (st : sampler_state) :
  0 < n ->
  snd (fst (barrier_walk B drift diffusion dao n S st)) = false ->
  breached B dao (fst (fst (barrier_walk B drift diffusion dao n S st))) = false.
Proof.
  revert S st. induction n as [| n IH]; intros S st Hn; [lia |]. simpl.
  destruct (draw st) as [z st1].
  destruct (breached B dao _) eqn:Eb; simpl; [discriminate |].
  destruct n as [| n]; [intros _; exact Eb | apply IH; lia].
Qed.

(** A path changes the sum only by the payoff of a survivor. *)
Lemma barrier_path_sum (S0 K B drift diffusion : F) (is_call dao : bool)
    (n_steps : Z) (s : F * sampler_state) :
  let w := barrier_walk B drift diffusion dao (trip_count n_steps) S0 (snd s) in
  fst (barrier_path S0 K B drift diffusion is_call dao n_steps s) =
  if snd (fst w) then fst s else fadd (fst s) (payoff is_call K (fst (fst w))).
Proof.
  unfold barrier_path. simpl.
  destruct (snd (fst (barrier_walk _ _ _ _ _ _ _))); reflexivity.
Qed.

Lemma barrier_path_advanced (S0 K B drift diffusion : F) (is_call dao : bool)
    (n_steps : Z) (s : F * sampler_state) :
  exists k, k ≤ trip_count n_steps ∧
    advanced k (snd s)
      (snd (barrier_path S0 K B drift diffusion is_call dao n_steps s)).
Proof.
  destruct (barrier_walk_advanced B drift diffusion dao (trip_count n_steps) S0 (snd s))
    as (k & Hk & Hadv & _).
  exists k. split; [exact Hk |].
  unfold barrier_path.
  destruct (snd (fst (barrier_walk _ _ _ _ _ _ _))); exact Hadv.
Qed.

Lemma barrier_loop_advanced (S0 K B drift diffusion : F) (is_call dao : bool)
    (n_steps : Z) (n : nat) (a : F) (st : sampler_state) :
  exists k, k ≤ n * trip_count n_steps ∧
    advanced k st
      (snd (repeat_loop n
              (barrier_path S0 K B drift diffusion is_call dao n_steps) (a, st))).
Proof.
  apply (repeat_loop_count_inv
           (fun i s => exists k, k ≤ i * trip_count n_steps ∧ advanced k st (snd s))).
  - exists 0. auto with pricing.
  - intros i s _ (k & Hk & Hadv).
    destruct (barrier_path_advanced S0 K B drift diffusion is_call dao n_steps s)
      as (j & Hj & Hadv').
    exists (k + j). split; [lia | eapply advanced_add; eassumption].
Qed.

(** *** The path matrix *)

Lemma gbm_path_length (drift diffusion S : F) (zs : list F) :
  length (gbm_path drift diffusion S zs) = length zs.
Proof. revert S. induction zs as [| z zs IH]; intros S; simpl; auto. Qed.

(** The inner loop over the columns [lo .. lo + n - 1] of row [path]
    overwrites exactly those columns with the path driven by the next [n]
    draws, and leaves [S] at the last price. *)
Lemma paths_inner_loop (drift diffusion : F) (path n lo : nat)
    (paths : list (list F)) (row : list F) (S : F) (st : sampler_state) :
  paths !! path = Some row -> lo + n ≤ length row ->
  for_range_o lo n (paths_step drift diffusion path) ((paths, S), st) =
  Done ((<[path := take lo row ++ gbm_path drift diffusion S (fst (draws n st))
                   ++ drop (lo + n) row]> paths,
         List.last (gbm_path drift diffusion S (fst (draws n st))) S),
        snd (draws n st)).
Proof.
  revert lo paths row S st.
  induction n as [| n IH]; intros lo paths row S st Hrow Hlen; simpl.
  - rewrite Nat.add_0_r, take_drop, list_insert_id by exact Hrow. reflexivity.
  - unfold paths_step at 1. simpl. destruct (draw st) as [z st1].
    rewrite (mat_set_done _ _ _ _ row) by (exact Hrow || lia). simpl.
    set (S' := fmul S (fexp (fadd drift (fmul diffusion z)))).
    rewrite (IH (Datatypes.S lo) _ (<[lo := S']> row) S' st1).
    + destruct (draws n st1) as [zs st2]. cbn [fst snd gbm_path]. fold S'.
      rewrite list_insert_insert_eq, last_cons_cons.
      rewrite (take_S_r _ _ S'), take_insert_ge, drop_insert_lt by
        (lia || (apply list_lookup_insert_eq; lia)).
      rewrite <- app_assoc, Nat.add_succ_r. reflexivity.
    + apply list_lookup_insert_eq. eapply lookup_lt_Some; exact Hrow.
    + rewrite length_insert. lia.
Qed.

(** One iteration of the outer loop fills row [path]. *)
Lemma paths_row_done (S0 drift diffusion : F) (n_steps : Z) (path : nat)
    (paths : list (list F)) (row : list F) (st : sampler_state) :
  paths !! path = Some row ->
  length row = Datatypes.S (trip_count n_steps) ->
  paths_row S0 drift diffusion n_steps path (paths, st) =
  Done (<[path := S0 :: gbm_path drift diffusion S0
                          (fst (draws (trip_count n_steps) st))]> paths,
        snd (draws (trip_count n_steps) st)).
Proof.
  intros Hrow Hlen. unfold paths_row. simpl.
  rewrite (mat_set_done _ _ _ _ row) by (exact Hrow || lia). simpl.
  rewrite (paths_inner_loop _ _ _ _ _ _ (<[0 := S0]> row)).
  - simpl. rewrite list_insert_insert_eq.
    destruct row as [| x row]; [discriminate |]. simpl.
    rewrite drop_ge by (simpl in Hlen; lia). rewrite app_nil_r. reflexivity.
  - apply list_lookup_insert_eq. eapply lookup_lt_Some; exact Hrow.
  - rewrite length_insert. lia.
Qed.

(** The outer loop over the rows after [done] fills them with the paths of
    consecutive blocks of draws. *)
Lemma paths_outer_loop (S0 drift diffusion : F) (n_steps : Z) (row0 : list F)
    (n : nat) (done : list (list F)) (st : sampler_state) :
  length row0 = Datatypes.S (trip_count n_steps) ->
  for_range_o (length done) n (paths_row S0 drift diffusion n_steps)
    (done ++ replicate n row0, st) =
  Done (done ++ map (fun zs => S0 :: gbm_path drift diffusion S0 zs)
                  (chunks (trip_count n_steps) n
                     (fst (draws (n * trip_count n_steps) st))),
        snd (draws (n * trip_count n_steps) st)).
Proof.
  intros Hlen. revert done st.
  induction n as [| n IH]; intros done st; [reflexivity |].
  cbn [for_range_o].
  rewrite (paths_row_done _ _ _ _ _ _ row0) by
    (exact Hlen || (rewrite lookup_app_r, Nat.sub_diag by lia; reflexivity)).
  cbn [obind].
  rewrite insert_app_r_alt, Nat.sub_diag by lia. cbn [replicate]. simpl (<[0:=_]> _).
  rewrite (cons_middle _ done), app_assoc.
  replace (Datatypes.S (length done)) with (length (done ++ [S0 ::
    gbm_path drift diffusion S0 (fst (draws (trip_count n_steps) st))]))
    by (rewrite length_app; simpl; lia).
  rewrite IH, <- app_assoc. cbn [chunks map Nat.mul].
  destruct (skipn_draws (trip_count n_steps) (n * trip_count n_steps) st) as [-> ->].
  rewrite draws_add. reflexivity.
Qed.

(** *** [simulate_paths] as a whole *)

(** With meaningful sizes the call returns [paths_matrix] of its draws. *)
Lemma simulate_paths_result (S0 mu sigma T : F) (n_steps n_paths : Z)
    (e : MonteCarloEngine) :
  (0 <= n_steps < INT_MAX)%Z -> (0 <= n_paths)%Z ->
  simulate_paths S0 mu sigma T n_steps n_paths e =
  Done (paths_matrix S0 mu sigma T n_steps n_paths
          (fst (draws (trip_count n_paths * trip_count n_steps) (dist_new, rng e))),
        {| rng := snd (snd (draws (trip_count n_paths * trip_count n_steps)
                              (dist_new, rng e))) |}).
Proof.
  intros Hs Hp. unfold simulate_paths, paths_matrix. cbv zeta.
  rewrite int_add_done by (unfold int_range, INT_MIN, INT_MAX in *; lia).
  cbn [obind]. rewrite vec_new_done by lia. cbn [obind].
  rewrite vec_new_done by lia. cbn [obind].
  match goal with
  | |- context [for_range_o 0 ?n (paths_row ?s ?dr ?di ?ns) (replicate _ ?row, ?st)] =>
      pose proof (paths_outer_loop s dr di ns row n [] st) as Hloop
  end.
  simpl in Hloop. unfold trip_count in *. rewrite Hloop; [reflexivity |].
  rewrite length_replicate. lia.
Qed.

(** A negative size of either vector is a [std::length_error]. *)
Lemma simulate_paths_length_error (S0 mu sigma T : F) (n_steps n_paths : Z)
    (e : MonteCarloEngine) :
  (INT_MIN <= n_steps < INT_MAX)%Z -> (n_steps < -1 \/ n_paths < 0)%Z ->
  simulate_paths S0 mu sigma T n_steps n_paths e = Fault LengthError.
Proof.
  intros Hs Hneg. unfold simulate_paths. cbv zeta.
  rewrite int_add_done by (unfold int_range, INT_MIN, INT_MAX in *; lia).
  cbn [obind]. destruct (Z_lt_dec (n_steps + 1) 0) as [Hc | Hc].
  - rewrite vec_new_fault by exact Hc. reflexivity.
  - rewrite vec_new_done by lia. cbn [obind].
    rewrite vec_new_fault by lia. reflexivity.
Qed.

(** With [n_steps = -1] the rows are empty, and the first write of
    [paths[path][0]] is out of bounds. *)
Lemma simulate_paths_out_of_bounds (S0 mu sigma T : F) (n_paths : Z)
    (e : MonteCarloEngine) :
  (1 <= n_paths)%Z ->
  simulate_paths S0 mu sigma T (-1) n_paths e = Fault OutOfBounds.
Proof.
  intros Hp. unfold simulate_paths. cbv zeta.
  rewrite int_add_done by (unfold int_range, INT_MIN, INT_MAX; lia).
  cbn [obind]. rewrite vec_new_done by lia. cbn [obind].
  rewrite vec_new_done by lia. cbn [obind].
  destruct (trip_count n_paths) as [| n] eqn:En; [unfold trip_count in En; lia |].
  replace (Z.to_nat n_paths) with (Datatypes.S n) by (unfold trip_count in En; lia).
  cbn [for_range_o]. unfold paths_row at 1.
  rewrite (mat_set_fault_col _ _ _ _ []) by (reflexivity || (simpl; lia)).
  reflexivity.
Qed.

(** [n_steps + 1] overflows at [INT_MAX]. *)
Lemma simulate_paths_overflow (S0 mu sigma T : F) (n_paths : Z)
    (e : MonteCarloEngine) :
  simulate_paths S0 mu sigma T INT_MAX n_paths e = Fault SignedOverflow.
Proof.
  unfold simulate_paths. cbv zeta. rewrite int_add_overflow by lia. reflexivity.
Qed.

(** No rows and no columns: the empty matrix, the generator untouched. *)
Lemma simulate_paths_empty (S0 mu sigma T : F) (e : MonteCarloEngine) :
  simulate_paths S0 mu sigma T (-1) 0 e = Done ([], e).
Proof. unfold simulate_paths. simpl. rewrite engine_eta. reflexivity. Qed.

(** Every way a call of [simulate_paths] with an [int] step count can
    end, by its sizes. *)
Lemma simulate_paths_cases (S0 mu sigma T : F) (n_steps n_paths : Z)
    (e : MonteCarloEngine) :
  int_range n_steps ->
  let call := simulate_paths S0 mu sigma T n_steps n_paths e in
  let k := trip_count n_paths * trip_count n_steps in
  (call = Fault SignedOverflow ∧ n_steps = INT_MAX) ∨
  (call = Fault LengthError ∧ (n_steps < -1 ∨ (n_steps < INT_MAX ∧ n_paths < 0))%Z) ∨
  (call = Fault OutOfBounds ∧ n_steps = (-1)%Z ∧ (1 <= n_paths)%Z) ∨
  (call = Done ([], e) ∧ n_steps = (-1)%Z ∧ n_paths = 0%Z) ∨
  (call = Done (paths_matrix S0 mu sigma T n_steps n_paths
                  (fst (draws k (dist_new, rng e))),
                {| rng := snd (snd (draws k (dist_new, rng e))) |}) ∧
   (0 <= n_steps < INT_MAX)%Z ∧ (0 <= n_paths)%Z).
Proof.
  unfold int_range. intros Hr. cbv zeta.
  destruct (Z.eq_dec n_steps INT_MAX) as [-> | Hmax];
    [left; split; [apply simulate_paths_overflow | reflexivity] | right].
  destruct (Z_lt_dec n_steps (-1)) as [Hlow | Hlow];
    [| destruct (Z_lt_dec n_paths 0) as [Hneg | Hneg]].
  1, 2: left; split; [apply simulate_paths_length_error |]; lia.
  right. destruct (Z.eq_dec n_steps (-1)) as [-> | Hm1].
  - destruct (Z.eq_dec n_paths 0) as [-> | Hp0].
    + right; left. split; [apply simulate_paths_empty | split; reflexivity].
    + left. split; [apply simulate_paths_out_of_bounds |]; lia.
  - right; right. split; [apply simulate_paths_result |]; lia.
Qed.

(** The matrix built from the draws of a call has [n_paths] rows of
    [n_steps + 1] entries, each starting at [S0]. *)
Lemma paths_matrix_shape (S0 mu sigma T : F) (n_steps n_paths : Z)
    (st : dist * engine) :
  let paths := paths_matrix S0 mu sigma T n_steps n_paths
                 (fst (draws (trip_count n_paths * trip_count n_steps) st)) in
  length paths = trip_count n_paths ∧
  Forall (fun row => length row = Datatypes.S (trip_count n_steps) ∧
                     row !! 0 = Some S0) paths.
Proof.
  unfold paths_matrix. cbv zeta. rewrite length_map, chunks_length.
  split; [reflexivity |]. apply Forall_map. eapply Forall_impl.
  - apply chunks_lengths. rewrite draws_length. lia.
  - intros zs Hzs. simpl. rewrite gbm_path_length, Hzs. auto.
Qed.

End Lemmas.

(** ** Properties of the pricing methods *)

Section Properties.
Context {F : Type} `{Double F} `{Sampler F}.
Variables (S0 K T r sigma : F) (is_call : bool).

(** C6. [price_european] is the antithetic estimator over the draws it
    takes, for every carrier and sampler: with [m = n_paths / 2] (integer
    division), it returns [european_estimate] of the next [m] draws of a
    fresh distribution on the engine's generator, and leaves the generator
    where those [m] draws leave it. *)
Theorem price_european_estimate (n_paths : Z) (e : MonteCarloEngine) :
  let m := trip_count (n_paths ÷ 2) in
  let st0 : sampler_state := (dist_new, rng e) in
  price_european S0 K T r sigma is_call n_paths e =
  (european_estimate S0 K T r sigma is_call n_paths (fst (draws m st0)),
   {| rng := snd (snd (draws m st0)) |}).
Proof.
  unfold price_european, european_estimate. cbv zeta.
  rewrite european_loop. reflexivity.
Qed.

(** Truncation of an odd path count: [2k + 1] paths give exactly the
    result and the generator state of [2k] paths; the odd path is never
    simulated. *)
Theorem price_european_odd_truncates (k : Z) (e : MonteCarloEngine) :
  (0 <= k)%Z ->
  price_european S0 K T r sigma is_call (2 * k + 1) e =
  price_european S0 K T r sigma is_call (2 * k) e.
Proof.
  intros Hk. unfold price_european.
  rewrite quot2_odd, quot2_even by exact Hk. reflexivity.
Qed.

(** With [n_paths] in [{-1, 0, 1}] no pair is simulated: the generator
    is untouched and the result is [exp(-rT) * 0.0 / 0], a division of
    zero by zero; the source raises no error. *)
Theorem price_european_no_pairs (n_paths : Z) (e : MonteCarloEngine) :
  (-1 <= n_paths <= 1)%Z ->
  price_european S0 K T r sigma is_call n_paths e =
  (fdiv (fmul (fexp (fmul (fneg r) T)) (of_int 0)) (of_int 0), e).
Proof.
  intros Hn. unfold price_european.
  rewrite quot2_small by exact Hn. simpl. rewrite engine_eta. reflexivity.
Qed.

(** C10. [price_asian] is the arithmetic-average estimator over the draws it
    takes, for every carrier and sampler: the [n_paths * n_steps] draws
    are cut into blocks of [n_steps], each block drives one path by the
    exact GBM update, the path's average excludes [S0] and divides by
    [n_steps], and the generator is left after all the draws. *)
Theorem price_asian_estimate (n_steps n_paths : Z) (e : MonteCarloEngine) :
  let k := (trip_count n_paths * trip_count n_steps)%nat in
  let st0 : sampler_state := (dist_new, rng e) in
  price_asian S0 K T r sigma is_call n_steps n_paths e =
  (asian_estimate S0 K T r sigma is_call n_steps n_paths (fst (draws k st0)),
   {| rng := snd (snd (draws k st0)) |}).
Proof.
  unfold price_asian, asian_estimate. cbv zeta.
  rewrite asian_outer_loop. reflexivity.
Qed.

(** C11. The two path methods agree, for every carrier and sampler: on
    the same engine state, [price_asian] returns the discounted mean
    payoff of the row averages of the matrix that [simulate_paths]
    returns for the drift [mu = r], and leaves the engine as
    [simulate_paths] does; the Asian price is a function of the
    simulated paths. *)
Theorem price_asian_on_paths (n_steps n_paths : Z) (e : MonteCarloEngine) :
  (0 <= n_steps < INT_MAX)%Z -> (0 <= n_paths)%Z ->
  exists paths e',
    simulate_paths S0 r sigma T n_steps n_paths e = Done (paths, e') ∧
    price_asian S0 K T r sigma is_call n_steps n_paths e =
    (asian_on_paths K T r is_call n_steps n_paths paths, e').
Proof.
  intros Hs Hp. eexists _, _.
  split; [apply simulate_paths_result; assumption |].
  unfold price_asian, asian_on_paths, paths_matrix. cbv zeta.
  rewrite asian_outer_loop, fold_left_over_map. reflexivity.
Qed.

(** [price_barrier] takes at most [n_paths * n_steps] draws: the
    generator it leaves is the one reached after some [k] draws, with
    [k] at most the product of the two loop counts. *)
Theorem price_barrier_draws (B : F) (is_down_and_out : bool)
    (n_steps n_paths : Z) (e : MonteCarloEngine) :
  exists (k : nat) (d : dist),
    k ≤ trip_count n_paths * trip_count n_steps ∧
    snd (draws k (dist_new, rng e)) =
    (d, rng (snd (price_barrier S0 K B T r sigma is_call is_down_and_out
                    n_steps n_paths e))).
Proof.
  unfold price_barrier. cbv zeta.
  match goal with
  | |- context [repeat_loop ?n ?body (?a, ?st)] =>
      destruct (barrier_loop_advanced S0 K B
                  (fmul (fsub r (fmul (fmul (dec 5 1) sigma) sigma))
                     (fdiv T (of_int n_steps)))
                  (fmul sigma (fsqrt (fdiv T (of_int n_steps))))
                  is_call is_down_and_out n_steps n a st) as (k & Hk & Hadv);
      destruct (repeat_loop n body (a, st)) as [sum st'] eqn:E
  end.
  exists k, (fst st'). split; [exact Hk |].
  unfold advanced in Hadv. simpl in *. rewrite Hadv. destruct st'; reflexivity.
Qed.

End Properties.

(** ** Properties of [simulate_paths] *)

Section PathProperties.
Context {F : Type} `{Double F} `{Sampler F}.
Variables (S0 mu sigma T : F).

(** C7. Shape of the path matrix: for [0 <= n_steps < INT_MAX] and
    [0 <= n_paths], [simulate_paths] returns a matrix of [n_paths] rows,
    each of [n_steps + 1] entries with [S0] in column 0, and leaves the
    generator after exactly [n_paths * n_steps] draws. *)
Theorem simulate_paths_shape (n_steps n_paths : Z) (e : MonteCarloEngine) :
  (0 <= n_steps < INT_MAX)%Z -> (0 <= n_paths)%Z ->
  exists paths e',
    simulate_paths S0 mu sigma T n_steps n_paths e = Done (paths, e') ∧
    length paths = trip_count n_paths ∧
    Forall (fun row => length row = Datatypes.S (trip_count n_steps) ∧
                       row !! 0 = Some S0) paths ∧
    rng e' = snd (snd (draws (trip_count n_paths * trip_count n_steps)
                         (dist_new, rng e))).
Proof.
  intros Hs Hp. eexists _, _. split; [apply simulate_paths_result; assumption |].
  pose proof (paths_matrix_shape S0 mu sigma T n_steps n_paths (dist_new, rng e))
    as [Hrows Hcols].
  auto.
Qed.

(** C38. Contents of the path matrix: row [i] is [S0] followed by the path
    driven by the draws [i * n_steps, ..., (i + 1) * n_steps - 1] of the
    call, each price the previous one times
    [exp(drift + diffusion * z)]: the paths are filled in program order
    from one stream of draws. *)
Theorem simulate_paths_rows (n_steps n_paths : Z) (e : MonteCarloEngine) (i : nat) :
  (0 <= n_steps < INT_MAX)%Z -> (0 <= n_paths)%Z -> i < trip_count n_paths ->
  let dt := fdiv T (of_int n_steps) in
  let drift := fmul (fsub mu (fmul (fmul (dec 5 1) sigma) sigma)) dt in
  let diffusion := fmul sigma (fsqrt dt) in
  let zs := fst (draws (trip_count n_paths * trip_count n_steps) (dist_new, rng e)) in
  exists paths e',
    simulate_paths S0 mu sigma T n_steps n_paths e = Done (paths, e') ∧
    paths !! i =
    Some (S0 :: gbm_path drift diffusion S0
                  (take (trip_count n_steps) (drop (i * trip_count n_steps) zs))).
Proof.
  intros Hs Hp Hi. cbv zeta.
  eexists _, _. split; [apply simulate_paths_result; assumption |].
  unfold paths_matrix. cbv zeta.
  rewrite list_lookup_fmap, chunks_lookup by exact Hi. reflexivity.
Qed.

(** C39. When [simulate_paths] is defined: for an [int] [n_steps], the call
    returns a matrix exactly when [0 <= n_steps < INT_MAX] and
    [0 <= n_paths], or when [n_steps = -1] and [n_paths = 0]; in every
    other case it overflows [n_steps + 1], constructs a vector of negative
    size, or writes column 0 of an empty row. *)
Theorem simulate_paths_defined (n_steps n_paths : Z) (e : MonteCarloEngine) :
  int_range n_steps ->
  is_done (simulate_paths S0 mu sigma T n_steps n_paths e) = true <->
  ((0 <= n_steps < INT_MAX ∧ 0 <= n_paths) ∨ (n_steps = -1 ∧ n_paths = 0))%Z.
Proof.
  intros Hr.
  destruct (simulate_paths_cases S0 mu sigma T n_steps n_paths e Hr)
    as [[-> ?] | [[-> ?] | [[-> ?] | [[-> ?] | [-> ?]]]]];
    unfold INT_MAX in *; simpl; (split; [try discriminate | try reflexivity]); lia.
Qed.

End PathProperties.

(** ** The exact reading: lemmas *)

Section ExactLemmas.
Context `{Sampler R}.
Local Open Scope R_scope.

Lemma payoff_nonneg (is_call : bool) (K x : R) : 0 <= payoff is_call K x.
Proof. unfold payoff. destruct is_call; real_unfold; cases_cmp; lra. Qed.

Lemma payoff_call_zero (K x : R) : x <= K -> payoff true K x = 0.
Proof. intros Hx. unfold payoff. real_unfold. cases_cmp; lra. Qed.

Lemma payoff_put_zero (K x : R) : K <= x -> payoff false K x = 0.
Proof. intros Hx. unfold payoff. real_unfold. cases_cmp; lra. Qed.

Lemma antithetic_pair_nonneg (S0 K drift diffusion : R) (is_call : bool) (z : R) :
  0 <= antithetic_pair S0 K drift diffusion is_call z.
Proof.
  unfold antithetic_pair. cbv zeta.
  pose proof (payoff_nonneg is_call K (S0 * exp (drift + diffusion * z))).
  pose proof (payoff_nonneg is_call K (S0 * exp (drift - diffusion * z))).
  real_unfold. lra.
Qed.

Lemma antithetic_pair_sym (S0 K drift diffusion : R) (is_call : bool) (z : R) :
  antithetic_pair S0 K drift diffusion is_call (- z) =
  antithetic_pair S0 K drift diffusion is_call z.
Proof.
  unfold antithetic_pair. cbv zeta. real_unfold.
  replace (drift + diffusion * - z) with (drift - diffusion * z) by lra.
  replace (drift - diffusion * - z) with (drift + diffusion * z) by lra.
  lra.
Qed.

(** The discounted mean of a non-negative sum over a positive count. *)
Lemma discounted_mean_nonneg (r T s : R) (n : Z) :
  0 <= s -> (1 <= n)%Z -> 0 <= exp (- r * T) * s / IZR n.
Proof.
  intros Hs Hn. apply IZR_le in Hn.
  apply Rmult_le_pos; [apply Rmult_le_pos; [left; apply exp_pos | exact Hs] |].
  left. apply Rinv_0_lt_compat. lra.
Qed.

(** Adding the same term [n] times. *)
Lemma fold_add_const (c : R) (zs : list R) (f : R -> R) (a : R) :
  (forall z, f z = c) ->
  fold_left (fun acc z => acc + f z) zs a = a + INR (length zs) * c.
Proof.
  intros Hf. revert a. induction zs as [| z zs IH]; intros a.
  - simpl. lra.
  - cbn [fold_left]. rewrite IH, Hf. rewrite length_cons, S_INR. lra.
Qed.

Lemma fold_add_map (g : R -> R) (f : R -> R) (zs : list R) (a : R) :
  (forall z, f (g z) = f z) ->
  fold_left (fun acc z => acc + f z) (map g zs) a =
  fold_left (fun acc z => acc + f z) zs a.
Proof.
  intros Hf. revert a. induction zs as [| z zs IH]; intros a; simpl; auto.
  rewrite Hf. apply IH.
Qed.

Lemma INR_trip_count (n : Z) : (0 <= n)%Z -> INR (trip_count n) = IZR n.
Proof. intros Hn. rewrite INR_IZR_INZ, trip_count_pos by exact Hn. reflexivity. Qed.

(** *** The sums the loops accumulate are non-negative *)

Lemma european_sum_nonneg (S0 K drift diffusion : R) (is_call : bool) (n : nat)
    (st : sampler_state) :
  0 <= fst (repeat_loop n (european_body S0 K drift diffusion is_call) (of_int 0, st)).
Proof.
  apply (repeat_loop_inv (fun s : R * sampler_state => 0 <= fst s)).
  - simpl. lra.
  - intros [a st'] Ha. unfold european_body. cbn [fst snd] in *.
    destruct (draw st') as [z st'']. cbn [fst].
    pose proof (antithetic_pair_nonneg S0 K drift diffusion is_call z).
    real_unfold. lra.
Qed.

Lemma asian_sum_nonneg (S0 K drift diffusion : R) (is_call : bool) (n_steps : Z)
    (n : nat) (st : sampler_state) :
  0 <= fst (repeat_loop n (asian_path S0 K drift diffusion is_call n_steps)
              (of_int 0, st)).
Proof.
  apply (repeat_loop_inv (fun s : R * sampler_state => 0 <= fst s)).
  - simpl. lra.
  - intros s Hs. rewrite asian_path_block.
    destruct (draws (trip_count n_steps) (snd s)) as [zs st']. cbn [fst].
    match goal with |- context [payoff ?c ?k ?x] =>
      pose proof (payoff_nonneg c k x) end.
    real_unfold. lra.
Qed.

Lemma barrier_sum_nonneg (S0 K B drift diffusion : R) (is_call dao : bool)
    (n_steps : Z) (n : nat) (st : sampler_state) :
  0 <= fst (repeat_loop n (barrier_path S0 K B drift diffusion is_call dao n_steps)
              (of_int 0, st)).
Proof.
  apply (repeat_loop_inv (fun s : R * sampler_state => 0 <= fst s)).
  - simpl. lra.
  - intros s Hs. rewrite barrier_path_sum. cbv zeta.
    destruct (snd (fst (barrier_walk _ _ _ _ _ _ _))); [exact Hs |].
    match goal with |- context [payoff ?c ?k ?x] =>
      pose proof (payoff_nonneg c k x) end.
    real_unfold. lra.
Qed.

(** *** Knock-out beyond the strike *)

Lemma survivor_payoff_zero (is_call dao : bool) (K B S : R) :
  barrier_beyond_strike is_call dao K B ->
  breached B dao S = false -> payoff is_call K S = 0.
Proof.
  unfold barrier_beyond_strike, breached.
  destruct dao; intros [-> HB]; cbn [andb negb]; real_unfold; cases_cmp;
    try discriminate; intros _.
  - apply payoff_put_zero. lra.
  - apply payoff_call_zero. lra.
Qed.

Lemma barrier_sum_zero (S0 K B drift diffusion : R) (is_call dao : bool)
    (n_steps : Z) (n : nat) (st : sampler_state) :
  barrier_beyond_strike is_call dao K B -> (1 <= n_steps)%Z ->
  fst (repeat_loop n (barrier_path S0 K B drift diffusion is_call dao n_steps)
         (of_int 0, st)) = 0.
Proof.
  intros Hb Hn.
  apply (repeat_loop_inv (fun s : R * sampler_state => fst s = 0)); [reflexivity |].
  intros s Hs. rewrite barrier_path_sum. cbv zeta.
  destruct (snd (fst (barrier_walk _ _ _ _ _ _ _))) eqn:Ehit; [exact Hs |].
  rewrite (survivor_payoff_zero is_call dao K B), Hs.
  - real_unfold. lra.
  - exact Hb.
  - apply barrier_walk_survivor; [unfold trip_count; lia | exact Ehit].
Qed.

(** *** Zero volatility *)

Lemma antithetic_pair_flat (S0 K r T : R) (is_call : bool) (z : R) :
  antithetic_pair S0 K ((r - dec 5 1 * 0 * 0) * T)%dbl (0 * fsqrt T)%dbl is_call z
  = payoff is_call K (S0 * exp (r * T)).
Proof.
  unfold antithetic_pair. cbv zeta. real_unfold.
  replace ((r - 5 / 10 * 0 * 0) * T + 0 * sqrt T * z) with (r * T) by lra.
  replace ((r - 5 / 10 * 0 * 0) * T - 0 * sqrt T * z) with (r * T) by lra.
  lra.
Qed.

End ExactLemmas.

(** ** The exact reading: properties *)

Section ExactProperties.
Context `{Sampler R}.
Local Open Scope R_scope.
Variables (S0 K T r sigma : R) (is_call : bool).

(** [price_european] is non-negative: with at least two paths (one
    antithetic pair), the discounted mean of the pair payoffs is at least
    zero, whatever the draws are. *)
Theorem price_european_nonneg (n_paths : Z) (e : MonteCarloEngine) :
  (2 <= n_paths)%Z ->
  0 <= fst (price_european S0 K T r sigma is_call n_paths e).
Proof.
  intros Hn. unfold price_european. cbv zeta.
  match goal with |- context [repeat_loop ?n (european_body _ _ ?dr ?di _) (_, ?st)] =>
    pose proof (european_sum_nonneg S0 K dr di is_call n st) as Hs;
    destruct (repeat_loop n (european_body S0 K dr di is_call) (of_int 0, st))
      as [sum st'] end.
  cbn [fst] in *.
  apply (discounted_mean_nonneg r T sum); [exact Hs | apply quot2_pos, Hn].
Qed.

(** [price_asian] is non-negative for at least one path. *)
Theorem price_asian_nonneg (n_steps n_paths : Z) (e : MonteCarloEngine) :
  (1 <= n_paths)%Z ->
  0 <= fst (price_asian S0 K T r sigma is_call n_steps n_paths e).
Proof.
  intros Hn. unfold price_asian. cbv zeta.
  match goal with |- context [repeat_loop ?n (asian_path _ _ ?dr ?di _ _) (_, ?st)] =>
    pose proof (asian_sum_nonneg S0 K dr di is_call n_steps n st) as Hs;
    destruct (repeat_loop n (asian_path S0 K dr di is_call n_steps) (of_int 0, st))
      as [sum st'] end.
  cbn [fst] in *. apply (discounted_mean_nonneg r T sum); assumption.
Qed.

(** [price_barrier] is non-negative for at least one path. *)
Theorem price_barrier_nonneg (B : R) (is_down_and_out : bool)
    (n_steps n_paths : Z) (e : MonteCarloEngine) :
  (1 <= n_paths)%Z ->
  0 <= fst (price_barrier S0 K B T r sigma is_call is_down_and_out
              n_steps n_paths e).
Proof.
  intros Hn. unfold price_barrier. cbv zeta.
  match goal with
  | |- context [repeat_loop ?n (barrier_path _ _ _ ?dr ?di _ _ _) (_, ?st)] =>
    pose proof (barrier_sum_nonneg S0 K B dr di is_call is_down_and_out n_steps n st)
      as Hs;
    destruct (repeat_loop n
                (barrier_path S0 K B dr di is_call is_down_and_out n_steps)
                (of_int 0, st)) as [sum st'] end.
  cbn [fst] in *. apply (discounted_mean_nonneg r T sum); assumption.
Qed.

(** The Monte Carlo prices are non-negative.  With at least two paths
    (one antithetic pair for [price_european]), the European, Asian and
    barrier prices are at least zero, whatever the draws, the rate and
    the other inputs are: each is a discount factor times a mean of
    payoffs [max(0, .)]. *)
Theorem monte_carlo_prices_nonneg (B : R) (is_down_and_out : bool)
    (n_steps n_paths : Z) (e : MonteCarloEngine) :
  (2 <= n_paths)%Z ->
  0 <= fst (price_european S0 K T r sigma is_call n_paths e) /\
  0 <= fst (price_asian S0 K T r sigma is_call n_steps n_paths e) /\
  0 <= fst (price_barrier S0 K B T r sigma is_call is_down_and_out
              n_steps n_paths e).
Proof.
  intros Hn. split; [apply price_european_nonneg; lia |].
  split; [apply price_asian_nonneg; lia | apply price_barrier_nonneg; lia].
Qed.

(** A knock-out beyond the strike is worth nothing: for an up-and-out
    call with [B <= K], or a down-and-out put with [K <= B], with at least
    one step and one path, [price_barrier] returns exactly zero for every
    sequence of draws, since a path that survives the barrier test at its
    last step ends out of the money. *)
Theorem price_barrier_worthless (B : R) (is_down_and_out : bool)
    (n_steps n_paths : Z) (e : MonteCarloEngine) :
  barrier_beyond_strike is_call is_down_and_out K B ->
  (1 <= n_steps)%Z -> (1 <= n_paths)%Z ->
  fst (price_barrier S0 K B T r sigma is_call is_down_and_out n_steps n_paths e) = 0.
Proof.
  intros Hb Hs Hn. unfold price_barrier. cbv zeta.
  match goal with
  | |- context [repeat_loop ?n (barrier_path _ _ _ ?dr ?di _ _ _) (_, ?st)] =>
    pose proof (barrier_sum_zero S0 K B dr di is_call is_down_and_out n_steps n st
                  Hb Hs) as Hz;
    destruct (repeat_loop n
                (barrier_path S0 K B dr di is_call is_down_and_out n_steps)
                (of_int 0, st)) as [sum st'] end.
  cbn [fst] in *. subst sum. real_unfold. unfold Rdiv. ring.
Qed.

(** With zero volatility and at least two paths, [price_european] is
    the discounted payoff of the forward price [S0 * exp(r T)], for every
    sequence of draws: the estimator divides the sum of [n_paths / 2] pair
    payoffs by [n_paths / 2]. *)
Theorem price_european_zero_vol (n_paths : Z) (e : MonteCarloEngine) :
  (2 <= n_paths)%Z ->
  fst (price_european S0 K T r 0 is_call n_paths e) =
  exp (- r * T) * payoff is_call K (S0 * exp (r * T)).
Proof.
  intros Hn. pose proof (quot2_pos n_paths Hn) as Hq.
  unfold price_european. cbv zeta. rewrite european_loop. cbn [fst].
  rewrite (fold_add_const (payoff is_call K (S0 * exp (r * T)))) by
    (intros z; apply antithetic_pair_flat).
  rewrite draws_length, INR_trip_count by lia.
  apply IZR_le in Hq. real_unfold. field. lra.
Qed.

(** The antithetic estimator is symmetric: negating every draw leaves
    [european_estimate] unchanged, because each iteration prices the path
    of [z] and the path of [-z]. *)
Theorem european_estimate_antithetic (n_paths : Z) (zs : list R) :
  european_estimate S0 K T r sigma is_call n_paths (map Ropp zs) =
  european_estimate S0 K T r sigma is_call n_paths zs.
Proof.
  unfold european_estimate. cbv zeta.
  rewrite (fold_add_map Ropp
             (antithetic_pair S0 K _ _ is_call)) by
    (intros z; apply antithetic_pair_sym).
  reflexivity.
Qed.

End ExactProperties.

(** ** Witnesses

    The theorems above at the exact reading of [double], with a sampler
    that replays a tape of draws, and an example of a barrier option that
    starts on its barrier. *)

Section Witnesses.
Local Open Scope R_scope.

(** The engine whose generator replays the tape [l]. *)
#[local] Abbreviation on_tape l := (@Build_MonteCarloEngine R (TapeSampler 0) l).

(** Three paths requested: one pair simulated, as with two. *)
Lemma price_european_odd_truncates_witness :
  @price_european R RealDouble (TapeSampler 0) 100 100 1 (dec 5 2) (dec 2 1) true
    (2 * 1 + 1) (on_tape [1; -1]) =
  @price_european R RealDouble (TapeSampler 0) 100 100 1 (dec 5 2) (dec 2 1) true
    (2 * 1) (on_tape [1; -1]).
Proof. apply price_european_odd_truncates. lia. Defined.

(** One path requested: nothing is drawn, and the result is [0 / 0]. *)
Lemma price_european_no_pairs_witness :
  @price_european R RealDouble (TapeSampler 0) 100 100 1 (dec 5 2) (dec 2 1) true
    1 (on_tape [1; -1]) =
  (fdiv (fmul (fexp (fmul (fneg (dec 5 2)) 1)) (of_int 0)) (of_int 0),
   (on_tape [1; -1])).
Proof. apply price_european_no_pairs. lia. Defined.

(** Two paths of three steps priced from the matrix of the same tape. *)
Lemma price_asian_on_paths_witness :
  exists paths e',
    @simulate_paths R RealDouble (TapeSampler 0) 100 (dec 5 2) (dec 2 1) 1 3 2
      (on_tape [1; 0; -1; 0; 1; 0]) = Done (paths, e') ∧
    @price_asian R RealDouble (TapeSampler 0) 100 100 1 (dec 5 2) (dec 2 1) true 3 2
      (on_tape [1; 0; -1; 0; 1; 0]) =
    (asian_on_paths 100 1 (dec 5 2) true 3 2 paths, e').
Proof.
  apply (@price_asian_on_paths R RealDouble (TapeSampler 0));
    unfold INT_MAX; lia.
Defined.

(** Two paths of three steps from a tape of six draws. *)
Lemma simulate_paths_shape_witness :
  exists paths e',
    @simulate_paths R RealDouble (TapeSampler 0) 100 (dec 5 2) (dec 2 1) 1 3 2
      (on_tape [1; 0; -1; 0; 1; 0]) = Done (paths, e') ∧
    length paths = trip_count 2 ∧
    Forall (fun row => length row = Datatypes.S (trip_count 3) ∧
                       row !! 0%nat = Some 100) paths ∧
    rng e' = snd (snd (draws (trip_count 2 * trip_count 3)
                         (dist_new, rng (on_tape [1; 0; -1; 0; 1; 0])))).
Proof.
  apply (@simulate_paths_shape R RealDouble (TapeSampler 0));
    unfold INT_MAX; lia.
Defined.

(** The second of the two paths uses the draws 3, 4 and 5. *)
Lemma simulate_paths_rows_witness :
  exists paths e',
    @simulate_paths R RealDouble (TapeSampler 0) 100 (dec 5 2) (dec 2 1) 1 3 2
      (on_tape [1; 0; -1; 0; 1; 0]) = Done (paths, e') ∧
    paths !! 1%nat =
    Some (100 :: gbm_path
                   (fmul (fsub (dec 5 2) (fmul (fmul (dec 5 1) (dec 2 1)) (dec 2 1)))
                      (fdiv 1 (of_int 3)))
                   (fmul (dec 2 1) (fsqrt (fdiv 1 (of_int 3)))) 100
                   (take (trip_count 3)
                      (drop (1 * trip_count 3)
                         (fst (draws (trip_count 2 * trip_count 3)
                                 (dist_new, rng (on_tape [1; 0; -1; 0; 1; 0]))))))).
Proof.
  apply (@simulate_paths_rows R RealDouble (TapeSampler 0));
    unfold INT_MAX, trip_count; lia.
Defined.

(** [n_steps = -1] with two paths: not defined. *)
Lemma simulate_paths_defined_witness :
  is_done (@simulate_paths R RealDouble (TapeSampler 0) 100 (dec 5 2) (dec 2 1) 1
             (-1) 2 (on_tape [])) = true <->
  ((0 <= -1 < INT_MAX ∧ 0 <= 2) ∨ (-1 = -1 ∧ 2 = 0))%Z.
Proof.
  apply simulate_paths_defined. unfold int_range, INT_MIN, INT_MAX. lia.
Defined.

Lemma price_european_nonneg_witness :
  0 <= fst (@price_european R RealDouble (TapeSampler 0) 100 100 1 (dec 5 2)
              (dec 2 1) true 2 (on_tape [1])).
Proof. apply price_european_nonneg. lia. Defined.

Lemma price_asian_nonneg_witness :
  0 <= fst (@price_asian R RealDouble (TapeSampler 0) 100 100 1 (dec 5 2)
              (dec 2 1) true 2 1 (on_tape [1; -1])).
Proof. apply price_asian_nonneg. lia. Defined.

Lemma price_barrier_nonneg_witness :
  0 <= fst (@price_barrier R RealDouble (TapeSampler 0) 100 100 80 1 (dec 5 2)
              (dec 2 1) true true 2 1 (on_tape [1; -1])).
Proof. apply price_barrier_nonneg. lia. Defined.

Lemma monte_carlo_prices_nonneg_witness :
  0 <= fst (@price_european R RealDouble (TapeSampler 0) 100 100 1 (dec 5 2)
              (dec 2 1) true 2 (on_tape [1])) /\
  0 <= fst (@price_asian R RealDouble (TapeSampler 0) 100 100 1 (dec 5 2)
              (dec 2 1) true 2 2 (on_tape [1])) /\
  0 <= fst (@price_barrier R RealDouble (TapeSampler 0) 100 100 80 1 (dec 5 2)
              (dec 2 1) true true 2 2 (on_tape [1])).
Proof. apply monte_carlo_prices_nonneg. lia. Defined.

(** An up-and-out call struck at 100 with the barrier at 90. *)
Lemma price_barrier_worthless_witness :
  fst (@price_barrier R RealDouble (TapeSampler 0) 80 100 90 1 (dec 5 2)
         (dec 2 1) true false 2 1 (on_tape [1; -1])) = 0.
Proof.
  apply price_barrier_worthless; [| lia | lia].
  unfold barrier_beyond_strike. split; [reflexivity | lra].
Defined.

Lemma price_european_zero_vol_witness :
  fst (@price_european R RealDouble (TapeSampler 0) 100 90 1 (dec 5 2) 0 true 4
         (on_tape [1; -1])) =
  exp (- dec 5 2 * 1) * payoff true 90 (100 * exp (dec 5 2 * 1)).
Proof. apply price_european_zero_vol. lia. Defined.

(** The barrier is not tested at the initial price: an up-and-out put
    that starts on its barrier ([S0 = B = 100]) and whose single step goes
    down survives and is paid; [price_barrier] returns a positive price
    for an option that is knocked out from the start. *)
Example price_barrier_ignores_start :
  0 < fst (@price_barrier R RealDouble (TapeSampler 0) 100 100 100 1 (dec 5 1) 1
             false false 1 1 (on_tape [-1])).
Proof.
  assert (He : exp (-1) < 1) by (rewrite <- exp_0; apply exp_increasing; lra).
  pose proof (exp_pos (-1)) as Hp. pose proof (exp_pos (- (5 / 10) * 1)) as Hd.
  unfold price_barrier, repeat_loop, barrier_path, trip_count. cbv zeta.
  change (Z.to_nat 1) with 1%nat.
  cbn [for_range barrier_walk draw sample TapeSampler dist_new rng fst snd].
  unfold breached, payoff. cbn [andb negb]. real_unfold.
  replace (1 / 1) with 1 by lra. rewrite sqrt_1.
  replace ((5 / 10 - 5 / 10 * 1 * 1) * 1 + 1 * 1 * -1) with (-1) by lra.
  cases_cmp; cbn [fst snd negb]; cases_cmp; cbn [fst snd] in *; try lra.
  unfold Rdiv. rewrite Rinv_1, Rmult_1_r. apply Rmult_lt_0_compat; lra.
Qed.

End Witnesses.
