(* ===== verification/PathwiseFacts.v ===== *)
(** * PathwiseFacts: what the simulated prices satisfy whatever the draws

    The Monte Carlo methods of [MonteCarlo.v] in the exact reading
    ([double] as the real numbers), for every sampler and every engine
    state: facts that hold path by path, and therefore for the estimate,
    without any assumption on the distribution of the draws.

    - Parity of the estimators ([monte_carlo_parity]).  On the same
      engine state a call and a put of [price_european] see the same
      draws, and their payoffs differ by [S_T - K] on every path; so the
      two estimates differ by the discounted forward the draws estimate,
      [exp (- r T) (S0 exp ((r - sigma^2 / 2) T) mean (cosh (sigma sqrt T
      z)) - K)], the counterpart of the put-call parity of the closed
      form.  The same holds for [price_asian] with the mean of the path
      averages.
    - Bounds of the estimates ([monte_carlo_bounds]).  A put pays at
      most the strike on a non-negative price; with the parity, the
      European estimates keep the no-arbitrage bounds of the closed form
      around the forward their draws estimate ([forward_estimate]).
    - The cap of a knock-out ([price_barrier_capped]).  A path that
      survives an up-and-out barrier ends below [B], one that survives a
      down-and-out barrier above it; so an up-and-out call is worth at
      most [exp (- r T) max (0, B - K)] and a down-and-out put at most
      [exp (- r T) max (0, K - B)].
    - The simulated prices are positive ([simulate_paths_positive]):
      every entry of the matrix of [simulate_paths] is, when [S0] is.

    [sum_of], [mean_of], [forward_estimate], [knock_out_cap] and
    [positive_paths] are the vocabulary of these statements; they model
    no code. *)

From Stdlib Require Import Reals Lra.
From stdpp Require Import base list.
From Stdlib Require Import ZArith Lia.
From S2P Require Import Prelude Numeric RealModel Vectors RandomStream MonteCarlo.

Local Open Scope R_scope.

(** ** Definitions *)

(** The sum of [h] over a list, accumulated from the left as the loops
    of the engine do, and its mean. *)
Definition sum_of {A : Type} (h : A -> R) (xs : list A) : R :=
  fold_left (fun acc x => acc + h x) xs 0.

Definition mean_of {A : Type} (h : A -> R) (xs : list A) : R :=
  sum_of h xs / INR (length xs).

(** The forward price that the draws [zs] of [price_european] estimate,
    discounted: [S0 exp (- sigma^2 T / 2)] times the mean of
    [cosh (sigma sqrt T z)]. *)
Definition forward_estimate (S0 T sigma : R) (zs : list R) : R :=
  S0 * exp (- (5 / 10 * sigma * sigma * T))
  * mean_of (fun z => cosh (sigma * sqrt T * z)) zs.

(** The largest payoff a path can have and survive: an up-and-out call
    ends below [B], a down-and-out put above it. *)
Definition knock_out_cap (is_call : bool) (K B : R) : R :=
  Rmax 0 (if is_call then B - K else K - B).

(** Every entry of every row is positive. *)
Definition positive_paths (paths : list (list R)) : Prop :=
  Forall (Forall (fun x => 0 < x)) paths.

(** ** Sums *)

Lemma fold_add_sum_of {A : Type} (h : A -> R) (xs : list A) (a : R) :
  fold_left (fun acc x => acc + h x) xs a = a + sum_of h xs.
Proof.
  unfold sum_of. revert a. induction xs as [| x xs IH]; intros a; cbn [fold_left].
  - lra.
  - rewrite IH, (IH (0 + h x)). lra.
Qed.

Lemma sum_of_cons {A : Type} (h : A -> R) (x : A) (xs : list A) :
  sum_of h (x :: xs) = h x + sum_of h xs.
Proof. unfold sum_of at 1. cbn [fold_left]. rewrite fold_add_sum_of. lra. Qed.

(** The sum of [c * h x - k] over a list. *)
Lemma sum_of_affine {A : Type} (f h : A -> R) (c k : R) (xs : list A) :
  (forall x, f x = c * h x - k) ->
  sum_of f xs = c * sum_of h xs - INR (length xs) * k.
Proof.
  intros Hf. induction xs as [| x xs IH].
  - unfold sum_of. simpl. lra.
  - rewrite !sum_of_cons, IH, Hf, length_cons, S_INR. lra.
Qed.

Lemma sum_of_sub {A : Type} (f g : A -> R) (xs : list A) :
  sum_of f xs - sum_of g xs = sum_of (fun x => f x - g x) xs.
Proof.
  induction xs as [| x xs IH]; [unfold sum_of; simpl; lra |].
  rewrite !sum_of_cons, <- IH. lra.
Qed.

Lemma sum_of_le {A : Type} (f : A -> R) (c : R) (xs : list A) :
  (forall x, f x <= c) -> sum_of f xs <= INR (length xs) * c.
Proof.
  intros Hf. induction xs as [| x xs IH].
  - unfold sum_of. simpl. lra.
  - rewrite sum_of_cons, length_cons, S_INR. specialize (Hf x). lra.
Qed.

(** The difference of two discounted means whose terms differ by
    [c * h x - k]. *)
Lemma discounted_parity {A : Type} (f g h : A -> R) (c k d : R) (n : Z)
    (xs : list A) :
  (forall x, f x - g x = c * h x - k) -> (1 <= n)%Z -> INR (length xs) = IZR n ->
  d * sum_of f xs / IZR n - d * sum_of g xs / IZR n = d * (c * mean_of h xs - k).
Proof.
  intros Hfg Hn Hl. apply IZR_le in Hn.
  pose proof (sum_of_sub f g xs) as Hs.
  rewrite (sum_of_affine _ h c k xs Hfg), Hl in Hs.
  unfold mean_of. rewrite Hl. field_simplify_eq; [| lra].
  replace (sum_of f xs) with (sum_of g xs + (c * sum_of h xs - IZR n * k)) by lra.
  ring.
Qed.

(** The discounted mean of a sum of at most [n] terms of at most [c]. *)
Lemma discounted_mean_le (r T s c : R) (n : Z) :
  s <= IZR n * c -> (1 <= n)%Z -> exp (- r * T) * s / IZR n <= exp (- r * T) * c.
Proof.
  intros Hs Hn. apply IZR_le in Hn. pose proof (exp_pos (- r * T)) as He.
  unfold Rdiv. rewrite Rmult_assoc. apply Rmult_le_compat_l; [lra |].
  apply Rmult_le_reg_r with (IZR n); [lra |].
  rewrite Rmult_assoc, Rinv_l by lra. lra.
Qed.

(** ** Path by path *)

Section Pathwise.
Context `{Sampler R}.

(** A call pays [x - K] more than the put on the same price. *)
Lemma payoff_parity (K x : R) : payoff true K x - payoff false K x = x - K.
Proof. unfold payoff. real_unfold. cases_cmp; lra. Qed.

Lemma antithetic_pair_parity (S0 K drift diffusion z : R) :
  antithetic_pair S0 K drift diffusion true z
  - antithetic_pair S0 K drift diffusion false z
  = S0 * exp drift * cosh (diffusion * z) - K.
Proof.
  unfold antithetic_pair. cbv zeta.
  pose proof (payoff_parity K (S0 * exp (drift + diffusion * z))) as H1.
  pose proof (payoff_parity K (S0 * exp (drift - diffusion * z))) as H2.
  real_unfold. unfold cosh, Rminus in *. rewrite !exp_plus in *.
  replace (- (diffusion * z)) with (- diffusion * z) in * by ring. lra.
Qed.

(** A put on a non-negative price pays at most the strike. *)
Lemma payoff_put_le (K x : R) : 0 <= K -> 0 <= x -> payoff false K x <= K.
Proof. intros HK Hx. unfold payoff. real_unfold. cases_cmp; lra. Qed.

Lemma antithetic_pair_put_le (S0 K drift diffusion z : R) :
  0 <= K -> 0 <= S0 -> antithetic_pair S0 K drift diffusion false z <= K.
Proof.
  intros HK HS. unfold antithetic_pair. cbv zeta.
  pose proof (exp_pos (drift + diffusion * z)). pose proof (exp_pos (drift - diffusion * z)).
  pose proof (payoff_put_le K (S0 * exp (drift + diffusion * z)) HK ltac:(nra)).
  pose proof (payoff_put_le K (S0 * exp (drift - diffusion * z)) HK ltac:(nra)).
  real_unfold. lra.
Qed.

Lemma knock_out_cap_nonneg (is_call : bool) (K B : R) :
  0 <= knock_out_cap is_call K B.
Proof. apply Rmax_l. Qed.

(** The payoff of a price that passed the barrier test. *)
Lemma survivor_payoff_le (is_call dao : bool) (K B S : R) :
  is_call = negb dao -> breached B dao S = false ->
  payoff is_call K S <= knock_out_cap is_call K B.
Proof.
  unfold breached, knock_out_cap, payoff, Rmax.
  destruct dao; intros ->; cbn [andb negb]; real_unfold; cases_cmp;
    try discriminate; intros _; destruct (Rle_dec _ _); lra.
Qed.

(** After [n] paths the sum of the payoffs is at most [n] caps. *)
Lemma barrier_sum_le (S0 K B drift diffusion : R) (is_call dao : bool)
    (n_steps : Z) (n : nat) (st : sampler_state) :
  is_call = negb dao -> (1 <= n_steps)%Z ->
  fst (repeat_loop n (barrier_path S0 K B drift diffusion is_call dao n_steps)
         (of_int 0, st)) <= INR n * knock_out_cap is_call K B.
Proof.
  intros Hc Hn.
  apply (repeat_loop_count_inv
           (fun i (s : R * sampler_state) => fst s <= INR i * knock_out_cap is_call K B)).
  - simpl. lra.
  - intros i s _ Hs. rewrite barrier_path_sum, S_INR. cbv zeta.
    pose proof (knock_out_cap_nonneg is_call K B).
    destruct (snd (fst (barrier_walk _ _ _ _ _ _ _))) eqn:Ehit; [lra |].
    pose proof (survivor_payoff_le is_call dao K B _ Hc
                  (barrier_walk_survivor B drift diffusion dao (trip_count n_steps) S0
                     (snd s) ltac:(unfold trip_count; lia) Ehit)).
    real_unfold. lra.
Qed.

(** The prices of a path that starts positive are positive. *)
Lemma gbm_path_positive (drift diffusion S : R) (zs : list R) :
  0 < S -> Forall (fun x => 0 < x) (gbm_path drift diffusion S zs).
Proof.
  revert S. induction zs as [| z zs IH]; intros S HS; cbn [gbm_path]; constructor.
  - real_unfold. apply Rmult_lt_0_compat; [exact HS | apply exp_pos].
  - apply IH. real_unfold. apply Rmult_lt_0_compat; [exact HS | apply exp_pos].
Qed.

Lemma paths_matrix_positive (S0 mu sigma T : R) (n_steps n_paths : Z) (zs : list R) :
  0 < S0 -> positive_paths (paths_matrix S0 mu sigma T n_steps n_paths zs).
Proof.
  intros HS. unfold positive_paths, paths_matrix. cbv zeta.
  apply Forall_map, Forall_forall. intros path_zs _.
  constructor; [exact HS | apply gbm_path_positive, HS].
Qed.

End Pathwise.

(** ** The estimates *)

Section Estimates.
Context `{Sampler R}.
Variables (S0 K T r sigma : R).

(** Parity of the European estimator. *)
Lemma price_european_parity (n_paths : Z) (e : MonteCarloEngine) :
  (2 <= n_paths)%Z ->
  let zs := fst (draws (trip_count (n_paths ÷ 2)) (dist_new, rng e)) in
  fst (price_european S0 K T r sigma true n_paths e)
  - fst (price_european S0 K T r sigma false n_paths e)
  = exp (- r * T)
    * (S0 * exp ((r - 5 / 10 * sigma * sigma) * T)
       * mean_of (fun z => cosh (sigma * sqrt T * z)) zs - K).
Proof.
  intros Hn zs. unfold price_european. cbv zeta. rewrite !european_loop.
  cbn [fst]. rewrite !fold_add_sum_of. real_unfold. rewrite !Rplus_0_l.
  apply discounted_parity.
  - intros z. apply antithetic_pair_parity.
  - apply quot2_pos, Hn.
  - unfold zs. rewrite draws_length. apply INR_trip_count.
    pose proof (quot2_pos _ Hn). lia.
Qed.

(** Parity of the Asian estimator. *)
Lemma price_asian_parity (n_steps n_paths : Z) (e : MonteCarloEngine) :
  (1 <= n_paths)%Z ->
  let dt := T / IZR n_steps in
  let drift := (r - 5 / 10 * sigma * sigma) * dt in
  let diffusion := sigma * sqrt dt in
  let zs := fst (draws (trip_count n_paths * trip_count n_steps) (dist_new, rng e)) in
  fst (price_asian S0 K T r sigma true n_steps n_paths e)
  - fst (price_asian S0 K T r sigma false n_steps n_paths e)
  = exp (- r * T)
    * (mean_of (fun path_zs =>
                  path_sum (gbm_path drift diffusion S0 path_zs) / IZR n_steps)
         (chunks (trip_count n_steps) (trip_count n_paths) zs) - K).
Proof.
  intros Hn dt drift diffusion zs. unfold price_asian. cbv zeta.
  rewrite !asian_outer_loop. cbn [fst]. rewrite !fold_add_sum_of.
  real_unfold. rewrite !Rplus_0_l, <- (Rmult_1_l (mean_of _ _)).
  apply discounted_parity.
  - intros z. rewrite payoff_parity. unfold drift, diffusion, dt. lra.
  - exact Hn.
  - rewrite chunks_length. apply INR_trip_count. lia.
Qed.

(** The European put is worth at most the discounted strike. *)
Lemma price_european_put_le (n_paths : Z) (e : MonteCarloEngine) :
  0 <= K -> 0 <= S0 -> (2 <= n_paths)%Z ->
  fst (price_european S0 K T r sigma false n_paths e) <= K * exp (- r * T).
Proof.
  intros HK HS Hn. pose proof (quot2_pos _ Hn) as Hm.
  unfold price_european. cbv zeta. rewrite european_loop. cbn [fst].
  rewrite fold_add_sum_of. real_unfold. rewrite Rplus_0_l, (Rmult_comm K).
  apply discounted_mean_le; [| exact Hm].
  match goal with |- sum_of ?f ?zs <= _ =>
    pose proof (sum_of_le f K zs
                  (fun z => antithetic_pair_put_le _ _ _ _ z HK HS)) as Hs end.
  rewrite draws_length, INR_trip_count in Hs by lia. exact Hs.
Qed.

(** The parity of the European estimator with the forward written as
    [forward_estimate]. *)
Lemma price_european_forward (n_paths : Z) (e : MonteCarloEngine) :
  (2 <= n_paths)%Z ->
  fst (price_european S0 K T r sigma true n_paths e)
  - fst (price_european S0 K T r sigma false n_paths e)
  = forward_estimate S0 T sigma
      (fst (draws (trip_count (n_paths ÷ 2)) (dist_new, rng e)))
    - K * exp (- r * T).
Proof.
  intros Hn. rewrite (price_european_parity n_paths e Hn). cbv zeta.
  unfold forward_estimate.
  replace ((r - 5 / 10 * sigma * sigma) * T)
    with (r * T + - (5 / 10 * sigma * sigma * T)) by ring.
  replace (- r * T) with (- (r * T)) by ring.
  rewrite exp_plus, (exp_Ropp (r * T)). pose proof (exp_pos (r * T)). field. lra.
Qed.

(** C13. Parity of the Monte Carlo estimators, in exact arithmetic and for
    every sampler: on the same engine state, the estimate of a call
    minus the estimate of a put is the discounted forward that the same
    draws estimate, minus the discounted strike.  For [price_european]
    the forward is [S0 exp ((r - sigma^2 / 2) T)] times the mean of
    [cosh (sigma sqrt T z)] over the draws; for [price_asian] it is the
    mean of the path averages. *)
Theorem monte_carlo_parity (n_steps n_paths : Z) (e : MonteCarloEngine) :
  (2 <= n_paths)%Z ->
  let dt := T / IZR n_steps in
  let drift := (r - 5 / 10 * sigma * sigma) * dt in
  let diffusion := sigma * sqrt dt in
  let m := trip_count (n_paths ÷ 2) in
  let k := (trip_count n_paths * trip_count n_steps)%nat in
  fst (price_european S0 K T r sigma true n_paths e)
  - fst (price_european S0 K T r sigma false n_paths e)
  = exp (- r * T)
    * (S0 * exp ((r - 5 / 10 * sigma * sigma) * T)
       * mean_of (fun z => cosh (sigma * sqrt T * z))
           (fst (draws m (dist_new, rng e))) - K) /\
  fst (price_asian S0 K T r sigma true n_steps n_paths e)
  - fst (price_asian S0 K T r sigma false n_steps n_paths e)
  = exp (- r * T)
    * (mean_of (fun path_zs =>
                  path_sum (gbm_path drift diffusion S0 path_zs) / IZR n_steps)
         (chunks (trip_count n_steps) (trip_count n_paths)
            (fst (draws k (dist_new, rng e)))) - K).
Proof.
  intros Hn. cbv zeta.
  split; [apply price_european_parity; exact Hn | apply price_asian_parity; lia].
Qed.

(** C37. The cap of a knock-out, in exact arithmetic and for every sampler:
    with at least one step and one path, an up-and-out call is worth at
    most [exp (- r T) max (0, B - K)] and a down-and-out put at most
    [exp (- r T) max (0, K - B)], and neither is negative, whatever the
    draws are; with the barrier beyond the strike the cap is zero. *)
Theorem price_barrier_capped (B : R) (is_call is_down_and_out : bool)
    (n_steps n_paths : Z) (e : MonteCarloEngine) :
  is_call = negb is_down_and_out -> (1 <= n_steps)%Z -> (1 <= n_paths)%Z ->
  0 <= fst (price_barrier S0 K B T r sigma is_call is_down_and_out n_steps n_paths e)
    <= exp (- r * T) * knock_out_cap is_call K B.
Proof.
  intros Hc Hs Hn. split; [apply price_barrier_nonneg; exact Hn |].
  unfold price_barrier. cbv zeta.
  match goal with
  | |- context [repeat_loop ?n (barrier_path _ _ _ ?dr ?di _ _ _) (_, ?st)] =>
    pose proof (barrier_sum_le S0 K B dr di is_call is_down_and_out n_steps n st
                  Hc Hs) as Hz;
    destruct (repeat_loop n
                (barrier_path S0 K B dr di is_call is_down_and_out n_steps)
                (of_int 0, st)) as [sum st'] end.
  cbn [fst] in *. rewrite INR_trip_count in Hz by lia.
  apply (discounted_mean_le r T sum); assumption.
Qed.

(** C14. Bounds of the estimates, in exact arithmetic and for every
    sampler, whatever the draws are.  With positive spot and strike and
    at least two paths, the European estimates keep the no-arbitrage
    bounds of the closed form around the forward [F] that their own
    draws estimate: the call lies between [max (0, F - K exp (- r T))]
    and [F], the put between [max (0, K exp (- r T) - F)] and
    [K exp (- r T)]; the Asian and the barrier estimates are not
    negative. *)
Theorem monte_carlo_bounds (B : R) (is_call is_down_and_out : bool)
    (n_steps n_paths : Z) (e : MonteCarloEngine) :
  0 < K -> 0 < S0 -> (2 <= n_paths)%Z ->
  let F := forward_estimate S0 T sigma
             (fst (draws (trip_count (n_paths ÷ 2)) (dist_new, rng e))) in
  let D := K * exp (- r * T) in
  Rmax 0 (F - D) <= fst (price_european S0 K T r sigma true n_paths e) <= F /\
  Rmax 0 (D - F) <= fst (price_european S0 K T r sigma false n_paths e) <= D /\
  0 <= fst (price_asian S0 K T r sigma is_call n_steps n_paths e) /\
  0 <= fst (price_barrier S0 K B T r sigma is_call is_down_and_out n_steps n_paths e).
Proof.
  intros HK HS Hn F D.
  pose proof (price_european_forward n_paths e Hn) as Hp. fold F D in Hp.
  pose proof (price_european_nonneg S0 K T r sigma true n_paths e Hn).
  pose proof (price_european_nonneg S0 K T r sigma false n_paths e Hn).
  pose proof (price_european_put_le n_paths e (Rlt_le _ _ HK) (Rlt_le _ _ HS) Hn) as Hd.
  fold D in Hd.
  split; [split; [apply Rmax_lub |]; lra |].
  split; [split; [apply Rmax_lub |]; lra |].
  split; [apply price_asian_nonneg | apply price_barrier_nonneg]; lia.
Qed.

(** With sizes for which it returns, [simulate_paths] returns a matrix
    of positive prices when [S0] is positive. *)
Theorem simulate_paths_positive (mu : R) (n_steps n_paths : Z)
    (e : MonteCarloEngine) :
  0 < S0 -> (0 <= n_steps < INT_MAX)%Z -> (0 <= n_paths)%Z ->
  exists paths e',
    simulate_paths S0 mu sigma T n_steps n_paths e = Done (paths, e') /\
    positive_paths paths.
Proof.
  intros HS Hs Hp. eexists _, _.
  split; [apply simulate_paths_result; assumption |].
  apply paths_matrix_positive, HS.
Qed.

End Estimates.

(** ** Witnesses *)

Section Witnesses.

(** The engine whose generator replays the tape [l]. *)
#[local] Abbreviation on_tape l := (@Build_MonteCarloEngine R (TapeSampler 0) l).

(** Four paths of two steps on a tape of four draws. *)
Lemma monte_carlo_parity_witness :
  fst (@price_european R RealDouble (TapeSampler 0) 100 100 1 (5 / 100) (2 / 10)
         true 4 (on_tape [1; -1; 0; 2]))
  - fst (@price_european R RealDouble (TapeSampler 0) 100 100 1 (5 / 100) (2 / 10)
           false 4 (on_tape [1; -1; 0; 2]))
  = exp (- (5 / 100) * 1)
    * (100 * exp ((5 / 100 - 5 / 10 * (2 / 10) * (2 / 10)) * 1)
       * mean_of (fun z => cosh (2 / 10 * sqrt 1 * z))
           (fst (draws (trip_count (4 ÷ 2))
                   (@dist_new R (TapeSampler 0), rng (on_tape [1; -1; 0; 2]))))
       - 100) /\
  fst (@price_asian R RealDouble (TapeSampler 0) 100 100 1 (5 / 100) (2 / 10)
         true 2 4 (on_tape [1; -1; 0; 2]))
  - fst (@price_asian R RealDouble (TapeSampler 0) 100 100 1 (5 / 100) (2 / 10)
           false 2 4 (on_tape [1; -1; 0; 2]))
  = exp (- (5 / 100) * 1)
    * (mean_of
         (fun path_zs =>
            path_sum (gbm_path ((5 / 100 - 5 / 10 * (2 / 10) * (2 / 10)) * (1 / IZR 2))
                        (2 / 10 * sqrt (1 / IZR 2)) 100 path_zs) / IZR 2)
         (chunks (trip_count 2) (trip_count 4)
            (fst (draws (trip_count 4 * trip_count 2)
                    (@dist_new R (TapeSampler 0), rng (on_tape [1; -1; 0; 2])))))
       - 100).
Proof.
  apply (@monte_carlo_parity (TapeSampler 0) 100 100 1 (5 / 100) (2 / 10) 2 4). lia.
Defined.

(** Four European paths, and two Asian and barrier paths of two steps. *)
Lemma monte_carlo_bounds_witness :
  let F := forward_estimate 100 1 (2 / 10)
             (fst (draws (trip_count (4 ÷ 2))
                     (@dist_new R (TapeSampler 0), rng (on_tape [1; -1; 0; 2])))) in
  let D := 100 * exp (- (5 / 100) * 1) in
  Rmax 0 (F - D)
    <= fst (@price_european R RealDouble (TapeSampler 0) 100 100 1 (5 / 100) (2 / 10)
              true 4 (on_tape [1; -1; 0; 2])) <= F /\
  Rmax 0 (D - F)
    <= fst (@price_european R RealDouble (TapeSampler 0) 100 100 1 (5 / 100) (2 / 10)
              false 4 (on_tape [1; -1; 0; 2])) <= D /\
  0 <= fst (@price_asian R RealDouble (TapeSampler 0) 100 100 1 (5 / 100) (2 / 10)
              true 2 4 (on_tape [1; -1; 0; 2])) /\
  0 <= fst (@price_barrier R RealDouble (TapeSampler 0) 100 100 80 1 (5 / 100)
              (2 / 10) true true 2 4 (on_tape [1; -1; 0; 2])).
Proof.
  apply (@monte_carlo_bounds (TapeSampler 0) 100 100 1 (5 / 100) (2 / 10) 80 true true 2 4);
    [lra | lra | lia].
Defined.

(** An up-and-out call struck at 100 with the barrier at 120. *)
Lemma price_barrier_capped_witness :
  0 <= fst (@price_barrier R RealDouble (TapeSampler 0) 100 100 120 1 (5 / 100)
              (2 / 10) true false 2 2 (on_tape [1; -1]))
    <= exp (- (5 / 100) * 1) * knock_out_cap true 100 120.
Proof. apply price_barrier_capped; [reflexivity | lia | lia]. Defined.

Lemma simulate_paths_positive_witness :
  exists paths e',
    @simulate_paths R RealDouble (TapeSampler 0) 100 (5 / 100) (2 / 10) 1 3 2
      (on_tape [1; 0; -1; 0; 1; 0]) = Done (paths, e') /\
    positive_paths paths.
Proof.
  apply (@simulate_paths_positive (TapeSampler 0)); [lra | unfold INT_MAX; lia | lia].
Defined.

End Witnesses.
