(* ===== verification/ParallelPaths.v ===== *)
(** * ParallelPaths: the path loop of [simulate_paths] under a schedule

    The path loop of [simulate_paths] carries [#pragma omp parallel for]
    ([src/cpp_engine/monte_carlo.hpp], line 125): when the source is
    compiled with OpenMP, its iterations are distributed over threads
    and no longer run in the order of the counter.  Every iteration
    draws from the one generator of the engine through the one
    distribution object of the call, so the iterations are not
    independent, and concurrent draws are a data race.

    This file models the most benign executions that the pragma admits:
    the iterations run one at a time, each as a whole, in some order
    [idx] of the counters (a schedule).  [MonteCarlo.v] is the schedule
    [0, 1, ..., n_paths - 1].  Under a schedule the rows are filled with
    the paths of the blocks of draws in the order of the schedule:
    row [idx !! j] is the path of block [j].  The matrix is therefore
    the matrix of the program order with its rows permuted, and two
    schedules return different matrices from the same engine, which is
    shown on a tape of two draws.  For [price_portfolio], whose
    iterations share nothing, [Portfolio.v] proves the opposite: every
    schedule returns the same vector.

    Executions that interleave the draws of different iterations, or
    that race on the state of the generator, are not modelled: the
    language gives them no meaning. *)

From Stdlib Require Import Reals Lra.
From stdpp Require Import base list.
From Stdlib Require Import ZArith Lia.
From S2P Require Import Prelude Numeric RealModel Vectors RandomStream MonteCarlo.

Section Schedule.
Context {F : Type} `{Double F} `{Sampler F}.
Local Open Scope outcome_scope.

(** The path loop with its iterations in the order [idx]. *)
Definition paths_scheduled (S0 drift diffusion : F) (n_steps : Z) (idx : list nat)
    (s : list (list F) * sampler_state) : outcome (list (list F) * sampler_state) :=
  foreach_o (paths_row S0 drift diffusion n_steps) idx s.

(** [simulate_paths] with the path loop under the schedule [idx]. *)
Definition simulate_paths_scheduled (idx : list nat) (S0 mu sigma T : F)
    (n_steps n_paths : Z) (e : MonteCarloEngine)
  : outcome (list (list F) * MonteCarloEngine) :=
  let norm := dist_new in
  let dt := (T / of_int n_steps)%dbl in
  let drift := ((mu - dec 5 1 * sigma * sigma) * dt)%dbl in
  let diffusion := (sigma * fsqrt dt)%dbl in
  cols <- int_add n_steps 1 ;;
  row <- vec_new cols (of_int 0) ;;
  paths <- vec_new n_paths row ;;
  r <- paths_scheduled S0 drift diffusion n_steps idx (paths, (norm, rng e)) ;;
  Done (fst r, {| rng := snd (snd r) |}).

(** The rows a schedule writes: block [j] of the draws to row
    [idx !! j], in the order of the schedule. *)
Definition assign_rows (S0 drift diffusion : F) (idx : list nat)
    (blocks : list (list F)) (paths : list (list F)) : list (list F) :=
  fold_left (fun ps ib => <[fst ib := S0 :: gbm_path drift diffusion S0 (snd ib)]> ps)
    (zip idx blocks) paths.

(** The rows all have the length of a path. *)
Definition rows_sized (n_steps : Z) (paths : list (list F)) : Prop :=
  Forall (fun row => length row = S (trip_count n_steps)) paths.

End Schedule.

(** ** Lemmas *)

Section Lemmas.
Context {F : Type} `{Double F} `{Sampler F}.
Variables (S0 drift diffusion : F) (n_steps : Z).
Local Open Scope outcome_scope.

Lemma rows_sized_insert (paths : list (list F)) (i : nat) (zs : list F) :
  rows_sized n_steps paths -> length zs = trip_count n_steps ->
  rows_sized n_steps (<[i := S0 :: gbm_path drift diffusion S0 zs]> paths).
Proof.
  intros Hp Hz. apply Forall_insert; [exact Hp |].
  cbn [length]. by rewrite gbm_path_length, Hz.
Qed.

(** The program order is a schedule. *)
Lemma paths_scheduled_seq (n : nat) (s : list (list F) * sampler_state) :
  paths_scheduled S0 drift diffusion n_steps (seq 0 n) s =
  for_range_o 0 n (paths_row S0 drift diffusion n_steps) s.
Proof. unfold paths_scheduled. by rewrite for_range_o_foreach. Qed.

(** A schedule over rows that exist returns, with the rows assigned in
    its order and the generator after one block of draws for each
    iteration. *)
Lemma paths_scheduled_done (idx : list nat) (paths : list (list F))
    (st : sampler_state) :
  Forall (fun i => i < length paths) idx -> rows_sized n_steps paths ->
  let k := trip_count n_steps in
  paths_scheduled S0 drift diffusion n_steps idx (paths, st) =
  Done (assign_rows S0 drift diffusion idx
          (chunks k (length idx) (fst (draws (length idx * k) st))) paths,
        snd (draws (length idx * k) st)).
Proof.
  intros Hidx. revert paths st Hidx.
  induction idx as [| i idx IH]; intros paths st Hidx Hrows k; [done |].
  apply Forall_cons in Hidx as [Hi Hidx].
  destruct (lookup_lt_is_Some_2 paths i Hi) as [row Hrow].
  unfold paths_scheduled in *. cbn [foreach_o].
  rewrite (paths_row_done _ _ _ _ _ _ row _ Hrow) by
    exact (proj1 (Forall_lookup _ _) Hrows i row Hrow).
  cbn [obind]. fold k. rewrite IH.
  - cbn [length chunks zip zip_with assign_rows fold_left fst snd Nat.mul].
    destruct (skipn_draws k (length idx * k) st) as [-> ->].
    by rewrite draws_add.
  - by rewrite length_insert.
  - apply rows_sized_insert; [done | apply draws_length].
Qed.

(** A row that the rest of a schedule does not visit keeps what it
    holds. *)
Lemma assign_rows_other (idx : list nat) (blocks paths : list (list F)) (i : nat) :
  i ∉ idx -> assign_rows S0 drift diffusion idx blocks paths !! i = paths !! i.
Proof.
  unfold assign_rows. revert blocks paths.
  induction idx as [| i' idx IH]; intros blocks paths Hi; [done |].
  destruct blocks as [| b blocks]; [done |]. cbn [zip zip_with fold_left fst snd].
  apply not_elem_of_cons in Hi as [Hne Hi].
  rewrite IH by done. by rewrite list_lookup_insert_ne.
Qed.

(** The row that step [j] of a schedule without repetition visits holds
    the path of block [j]. *)
Lemma assign_rows_lookup (idx : list nat) (blocks paths : list (list F))
    (j i : nat) (zs : list F) :
  NoDup idx -> Forall (fun i => i < length paths) idx ->
  idx !! j = Some i -> blocks !! j = Some zs ->
  assign_rows S0 drift diffusion idx blocks paths !! i
  = Some (S0 :: gbm_path drift diffusion S0 zs).
Proof.
  revert blocks paths j.
  induction idx as [| i' idx IH]; intros blocks paths j Hnd Hlt Hj Hz; [done |].
  destruct blocks as [| b blocks]; [by destruct j |].
  apply NoDup_cons in Hnd as [Hnew Hnd]. apply Forall_cons in Hlt as [Hi' Hlt].
  destruct j as [| j]; cbn [lookup list_lookup] in Hj, Hz.
  - injection Hj as ->. injection Hz as ->.
    change (assign_rows S0 drift diffusion (i :: idx) (zs :: blocks) paths)
      with (assign_rows S0 drift diffusion idx blocks
              (<[i := S0 :: gbm_path drift diffusion S0 zs]> paths)).
    rewrite assign_rows_other by done. by apply list_lookup_insert_eq.
  - change (assign_rows S0 drift diffusion (i' :: idx) (b :: blocks) paths)
      with (assign_rows S0 drift diffusion idx blocks
              (<[i' := S0 :: gbm_path drift diffusion S0 b]> paths)).
    apply (IH _ _ j); [done | | done | done].
    by rewrite length_insert.
Qed.

Lemma assign_rows_length (idx : list nat) (blocks paths : list (list F)) :
  length (assign_rows S0 drift diffusion idx blocks paths) = length paths.
Proof.
  unfold assign_rows. revert blocks paths.
  induction idx as [| i idx IH]; intros blocks paths; [done |].
  destruct blocks as [| b blocks]; [done |]. cbn [zip zip_with fold_left].
  by rewrite IH, length_insert.
Qed.

End Lemmas.

(** ** Properties *)

Section Properties.
Context {F : Type} `{Double F} `{Sampler F}.
Variables (S0 mu sigma T : F).
Local Open Scope outcome_scope.

(** The program order is one schedule. *)
Lemma simulate_paths_program_order (n_steps n_paths : Z) (e : MonteCarloEngine) :
  simulate_paths_scheduled (seq 0 (trip_count n_paths)) S0 mu sigma T n_steps n_paths e
  = simulate_paths S0 mu sigma T n_steps n_paths e.
Proof.
  unfold simulate_paths_scheduled, simulate_paths. cbv zeta.
  destruct (int_add n_steps 1) as [cols | f]; [| done]. cbn [obind].
  destruct (vec_new cols (of_int 0)) as [row | f]; [| done]. cbn [obind].
  destruct (vec_new n_paths row) as [paths | f]; [| done]. cbn [obind].
  by rewrite paths_scheduled_seq.
Qed.

(** What a schedule returns, for the sizes that make the call
    meaningful. *)
Lemma simulate_paths_scheduled_result (idx : list nat) (n_steps n_paths : Z)
    (e : MonteCarloEngine) :
  (0 <= n_steps < INT_MAX)%Z -> (0 <= n_paths)%Z ->
  Forall (fun i => i < trip_count n_paths) idx ->
  let k := trip_count n_steps in
  let dt := (T / of_int n_steps)%dbl in
  let drift := ((mu - dec 5 1 * sigma * sigma) * dt)%dbl in
  let st := (dist_new, rng e) in
  simulate_paths_scheduled idx S0 mu sigma T n_steps n_paths e =
  Done (assign_rows S0 drift (sigma * fsqrt dt)%dbl idx
          (chunks k (length idx) (fst (draws (length idx * k) st)))
          (replicate (trip_count n_paths) (replicate (S k) (of_int 0))),
        {| rng := snd (snd (draws (length idx * k) st)) |}).
Proof.
  intros Hs Hp Hidx k dt drift st. unfold simulate_paths_scheduled. cbv zeta.
  rewrite int_add_done by (unfold int_range, INT_MIN, INT_MAX in *; lia).
  cbn [obind]. rewrite vec_new_done by lia. cbn [obind].
  rewrite vec_new_done by lia. cbn [obind].
  replace (Z.to_nat (n_steps + 1)) with (S k) by (unfold k, trip_count; lia).
  fold (trip_count n_paths).
  rewrite paths_scheduled_done; [done | by rewrite length_replicate |].
  apply Forall_replicate. by rewrite length_replicate.
Qed.

(** C24. Under a schedule that runs every iteration once,
    [simulate_paths] returns the rows of the program order permuted by
    the schedule: the iteration that runs in place [j] writes its row
    [idx !! j] with the path of block [j] of the draws, which the
    program order writes to row [j].  The generator is left as the
    program order leaves it. *)
Theorem simulate_paths_schedule (idx : list nat) (n_steps n_paths : Z)
    (e : MonteCarloEngine) :
  (0 <= n_steps < INT_MAX)%Z -> (0 <= n_paths)%Z ->
  idx ≡ₚ seq 0 (trip_count n_paths) ->
  let k := (trip_count n_paths * trip_count n_steps)%nat in
  let st := (dist_new, rng e) in
  exists m,
    simulate_paths_scheduled idx S0 mu sigma T n_steps n_paths e
      = Done (m, {| rng := snd (snd (draws k st)) |}) /\
    length m = trip_count n_paths /\
    forall j i, idx !! j = Some i ->
      m !! i = paths_matrix S0 mu sigma T n_steps n_paths (fst (draws k st)) !! j.
Proof.
  intros Hs Hp Hperm k st.
  assert (length idx = trip_count n_paths) as Hlen
    by (by rewrite Hperm, length_seq).
  assert (Forall (fun i => i < trip_count n_paths) idx) as Hlt.
  { rewrite Hperm. apply Forall_forall. intros i Hi%elem_of_seq. lia. }
  eexists. split; [| split].
  - rewrite (simulate_paths_scheduled_result idx n_steps n_paths e Hs Hp Hlt).
    by rewrite Hlen.
  - by rewrite assign_rows_length, length_replicate.
  - intros j i Hj. pose proof (lookup_lt_Some _ _ _ Hj) as Hjn. rewrite Hlen in Hjn.
    unfold paths_matrix. cbv zeta. rewrite list_lookup_fmap, chunks_lookup by done.
    apply (assign_rows_lookup _ _ _ _ _ _ j); [| | done | by rewrite chunks_lookup].
    + rewrite Hperm. apply NoDup_seq.
    + by rewrite length_replicate.
Qed.

End Properties.

(** ** Two schedules, two results *)

Section Witnesses.
Local Open Scope R_scope.

(** The engine whose generator replays the tape [l]. *)
#[local] Abbreviation on_tape l := (@Build_MonteCarloEngine R (TapeSampler 0) l).

Lemma simulate_paths_schedule_witness :
  let e := on_tape [1; -1] in
  let st := (@dist_new R (TapeSampler 0), rng e) in
  exists m,
    @simulate_paths_scheduled R RealDouble (TapeSampler 0) [1; 0]%nat
      1 (dec 5 1) 1 1 1 2 e
      = Done (m, {| rng := snd (snd (draws 2 st)) |}) /\
    length m = 2%nat /\
    forall j i, [1; 0]%nat !! j = Some i ->
      m !! i = paths_matrix 1 (dec 5 1) 1 1 1 2 (fst (draws 2 st)) !! j.
Proof.
  apply (@simulate_paths_schedule R RealDouble (TapeSampler 0));
    [unfold INT_MAX; lia | lia |].
  apply perm_swap.
Defined.

(** Two paths of one step on the draws [1] and [-1]: the program order
    puts the path that rises into row [0], the schedule that runs
    iteration [1] first puts it into row [1]. *)
Example schedules_differ :
  let e := on_tape [1; -1] in
  omap fst (@simulate_paths_scheduled R RealDouble (TapeSampler 0) [1; 0]%nat
              1 (dec 5 1) 1 1 1 2 e)
  <> omap fst (@simulate_paths R RealDouble (TapeSampler 0) 1 (dec 5 1) 1 1 1 2 e).
Proof.
  intros e.
  rewrite <- (@simulate_paths_program_order R RealDouble (TapeSampler 0)).
  rewrite !(@simulate_paths_scheduled_result R RealDouble (TapeSampler 0)) by
    (unfold INT_MAX; lia || (repeat constructor; cbn; lia)).
  cbn. real_unfold. intros [= E _].
  apply Rmult_eq_reg_l in E; [| lra]. apply exp_inv in E.
  replace (1 / 1) with 1 in E by lra. rewrite sqrt_1 in E. lra.
Qed.

End Witnesses.
