(* ===== verification/BarrierEstimate.v ===== *)
(** * BarrierEstimate: what [price_barrier] computes from its draws

    [price_barrier] is the one method whose number of draws depends on
    the draws: a path stops at the first price that breaches the
    barrier, and the next path starts at the draw after it.  This file
    gives the pure reading.  [knock_out] says where a path over given
    prices stops: at the first one that [breached] accepts.
    [barrier_sum] walks [n] paths over one list of draws, each path over
    at most [k] of them, and returns the sum of the survivors' payoffs
    with the number of draws used.  [price_barrier_estimate] states that
    the method returns the discounted mean of that sum and leaves the
    generator after exactly the draws used. *)

From stdpp Require Import base list.
From Stdlib Require Import ZArith Lia.
From S2P Require Import Prelude Numeric Vectors RandomStream MonteCarlo.

Section Estimator.
Context {F : Type} `{Double F}.
Variables (K B drift diffusion : F) (is_call dao : bool).

(** Where a path with the prices [xs] stops: at the first price beyond
    the barrier, knocked out, after the draws up to it; else at its last
    price, after all the draws.  [S] is the price before the first
    step. *)
Definition knock_out (S : F) (xs : list F) : F * bool * nat :=
  match list_find (fun x => breached B dao x = true) xs with
  | Some (i, x) => (x, true, Datatypes.S i)
  | None => (default S (last xs), false, length xs)
  end.

(** [n] paths of at most [k] steps from [S0] over the draws [zs], each
    starting at the draw after the last one of the path before: the sum
    of the payoffs of the paths that survive, added to [acc] in path
    order, and the number of draws used. *)
Fixpoint barrier_sum (S0 : F) (k n : nat) (zs : list F) (acc : F) : F * nat :=
  match n with
  | O => (acc, 0)
  | Datatypes.S n' =>
      let w := knock_out S0 (gbm_path drift diffusion S0 (take k zs)) in
      let acc' :=
        if snd (fst w) then acc else (acc + payoff is_call K (fst (fst w)))%dbl in
      let rest := barrier_sum S0 k n' (drop (snd w) zs) acc' in
      (fst rest, snd w + snd rest)
  end.

End Estimator.

(** The estimator of [price_barrier] over the draws [zs]: the price and
    the number of draws used. *)
Definition barrier_estimate {F : Type} `{Double F} (S0 K B T r sigma : F)
    (is_call is_down_and_out : bool) (n_steps n_paths : Z) (zs : list F) : F * nat :=
  let dt := (T / of_int n_steps)%dbl in
  let drift := ((r - dec 5 1 * sigma * sigma) * dt)%dbl in
  let diffusion := (sigma * fsqrt dt)%dbl in
  let s := barrier_sum K B drift diffusion is_call is_down_and_out S0
             (trip_count n_steps) (trip_count n_paths) zs (of_int 0) in
  ((fexp (- r * T) * fst s / of_int n_paths)%dbl, snd s).

(** ** Lemmas *)

Section Lemmas.
Context {F : Type} `{Double F} `{Sampler F}.
Variables (K B drift diffusion : F) (is_call dao : bool).

Lemma knock_out_nil (S : F) : knock_out B dao S [] = (S, false, 0).
Proof. reflexivity. Qed.

Lemma knock_out_hit (S x : F) (xs : list F) :
  breached B dao x = true -> knock_out B dao S (x :: xs) = (x, true, 1).
Proof. intros Hx. unfold knock_out. cbn. rewrite decide_True by exact Hx. reflexivity. Qed.

Lemma knock_out_pass (S x : F) (xs : list F) :
  breached B dao x = false ->
  knock_out B dao S (x :: xs) =
  (fst (fst (knock_out B dao x xs)), snd (fst (knock_out B dao x xs)),
   Datatypes.S (snd (knock_out B dao x xs))).
Proof.
  intros Hx. unfold knock_out. cbn.
  rewrite decide_False by (rewrite Hx; discriminate).
  destruct (list_find _ xs) as [[i y] |] eqn:E; cbn; [reflexivity |].
  destruct xs as [| x' xs]; [reflexivity |].
  rewrite !last_cons. destruct (last xs); reflexivity.
Qed.

(** A path uses at most the draws it is given, all of them when it
    survives, and a path that is knocked out stops beyond the barrier. *)
Lemma knock_out_used (S : F) (xs : list F) :
  snd (knock_out B dao S xs) ≤ length xs ∧
  (snd (fst (knock_out B dao S xs)) = false -> snd (knock_out B dao S xs) = length xs) ∧
  (snd (fst (knock_out B dao S xs)) = true ->
   breached B dao (fst (fst (knock_out B dao S xs))) = true).
Proof.
  unfold knock_out. destruct (list_find _ xs) as [[i x] |] eqn:E; cbn.
  - apply list_find_Some in E as (Hi & Hx & _).
    apply lookup_lt_Some in Hi. repeat split; [lia | discriminate | auto].
  - repeat split; [lia | discriminate].
Qed.

(** A path that is knocked out stops at the first of its prices beyond
    the barrier: no earlier price is. *)
Lemma knock_out_first (S : F) (xs : list F) :
  snd (fst (knock_out B dao S xs)) = true ->
  exists i, snd (knock_out B dao S xs) = Datatypes.S i ∧
            xs !! i = Some (fst (fst (knock_out B dao S xs))) ∧
            forall j y, xs !! j = Some y -> j < i -> breached B dao y = false.
Proof.
  unfold knock_out. destruct (list_find _ xs) as [[i x] |] eqn:E; cbn; [| discriminate].
  intros _. apply list_find_Some in E as (Hi & _ & Hfirst).
  exists i. repeat split; [exact Hi |].
  intros j y Hj Hlt. apply not_true_is_false. exact (Hfirst j y Hj Hlt).
Qed.

(** The step loop of the source is [knock_out] on the path of its
    draws, and stops the generator after the draws used. *)
Lemma barrier_walk_knock_out (n : nat) (S : F) (st : sampler_state) :
  let w := knock_out B dao S (gbm_path drift diffusion S (fst (draws n st))) in
  barrier_walk B drift diffusion dao n S st =
  (fst (fst w), snd (fst w), snd (draws (snd w) st)).
Proof.
  revert S st. induction n as [| n IH]; intros S st; [reflexivity |].
  cbn [barrier_walk draws]. destruct (draw st) as [z st1] eqn:Ez.
  specialize (IH (S * fexp (drift + diffusion * z))%dbl st1). cbv zeta in IH.
  destruct (draws n st1) as [zs st2] eqn:Ezs. cbn [fst snd gbm_path] in *.
  destruct (breached B dao _) eqn:Eb.
  - rewrite knock_out_hit by exact Eb. cbn [fst snd]. rewrite draws_succ, Ez.
    reflexivity.
  - rewrite knock_out_pass by exact Eb. rewrite IH. cbn [fst snd].
    rewrite draws_succ, Ez. reflexivity.
Qed.

(** A prefix and a suffix of the next [N] draws. *)
Lemma draws_take (k N : nat) (st : sampler_state) :
  k ≤ N -> take k (fst (draws N st)) = fst (draws k st).
Proof.
  intros Hk. replace N with (k + (N - k)) by lia. apply skipn_draws.
Qed.

Lemma draws_drop (j N : nat) (st : sampler_state) :
  j ≤ N -> drop j (fst (draws N st)) = fst (draws (N - j) (snd (draws j st))).
Proof.
  intros Hj. replace N with (j + (N - j)) at 1 by lia. apply skipn_draws.
Qed.

(** What one path uses of the draws of the call. *)
Lemma knock_out_draws (S0 : F) (k : nat) (st : sampler_state) :
  snd (knock_out B dao S0 (gbm_path drift diffusion S0 (fst (draws k st)))) ≤ k.
Proof.
  pose proof (knock_out_used S0 (gbm_path drift diffusion S0 (fst (draws k st))))
    as [Hle _].
  rewrite gbm_path_length, draws_length in Hle. exact Hle.
Qed.

(** The path loop of the source is [barrier_sum] on the draws of the
    call, of which [N] are enough when [n * k <= N]. *)
Lemma barrier_loop_estimate (S0 : F) (n_steps : Z) (n N : nat) (acc : F)
    (st : sampler_state) :
  n * trip_count n_steps ≤ N ->
  let s := barrier_sum K B drift diffusion is_call dao S0 (trip_count n_steps) n
             (fst (draws N st)) acc in
  repeat_loop n (barrier_path S0 K B drift diffusion is_call dao n_steps) (acc, st) =
  (fst s, snd (draws (snd s) st)).
Proof.
  cbv zeta. revert N acc st. induction n as [| n IH]; intros N acc st HN; [reflexivity |].
  rewrite repeat_loop_S. unfold barrier_path at 2. cbn [fst snd barrier_sum].
  rewrite barrier_walk_knock_out. cbv zeta. cbn [fst snd].
  rewrite draws_take by lia.
  pose proof (knock_out_draws S0 (trip_count n_steps) st) as Hj.
  set (w := knock_out B dao S0 _) in *.
  rewrite draws_drop by lia.
  rewrite (draws_add (snd w)). cbn [snd].
  destruct (snd (fst w)); cbn [negb];
    rewrite (IH (N - snd w)) by lia; reflexivity.
Qed.

End Lemmas.

(** ** The estimator theorem *)

Section Properties.
Context {F : Type} `{Double F} `{Sampler F}.
Variables (S0 K B T r sigma : F) (is_call is_down_and_out : bool).

(** C12. [price_barrier] is the knock-out estimator over its draws.  For
    every carrier and sampler, with [zs] the next
    [n_paths * n_steps] draws of the generator: the method returns
    [barrier_estimate] of [zs], that is the discounted mean of the
    payoffs of the paths that never reach the barrier, each path
    stopping at its first price beyond the barrier and the next path
    starting at the draw after it; and it leaves the generator after
    exactly the draws that estimate used. *)
Theorem price_barrier_estimate (n_steps n_paths : Z) (e : MonteCarloEngine) :
  let st := (dist_new, rng e) in
  let est := barrier_estimate S0 K B T r sigma is_call is_down_and_out n_steps n_paths
               (fst (draws (trip_count n_paths * trip_count n_steps) st)) in
  price_barrier S0 K B T r sigma is_call is_down_and_out n_steps n_paths e =
  (fst est, {| rng := snd (snd (draws (snd est) st)) |}).
Proof.
  cbv zeta. unfold price_barrier, barrier_estimate. cbv zeta.
  rewrite (barrier_loop_estimate _ _ _ _ _ _ _ _ _
             (trip_count n_paths * trip_count n_steps)) by lia.
  reflexivity.
Qed.

(** The generator [price_barrier] leaves. *)
Lemma price_barrier_engine (n_steps n_paths : Z) (e : MonteCarloEngine) :
  let st := (dist_new, rng e) in
  rng (snd (price_barrier S0 K B T r sigma is_call is_down_and_out n_steps n_paths e)) =
  snd (snd (draws
              (snd (barrier_estimate S0 K B T r sigma is_call is_down_and_out
                      n_steps n_paths
                      (fst (draws (trip_count n_paths * trip_count n_steps) st))))
              st)).
Proof.
  cbv zeta. unfold price_barrier, barrier_estimate. cbv zeta.
  rewrite (barrier_loop_estimate _ _ _ _ _ _ _ _ _
             (trip_count n_paths * trip_count n_steps)) by lia.
  reflexivity.
Qed.

(** The draws used are at most [n_paths * n_steps]. *)
Lemma barrier_sum_used (drift diffusion : F) (k n : nat) (zs : list F) (acc : F) :
  snd (barrier_sum K B drift diffusion is_call is_down_and_out S0 k n zs acc) ≤ n * k.
Proof.
  revert zs acc. induction n as [| n IH]; intros zs acc; cbn [barrier_sum fst snd]; [lia |].
  pose proof (knock_out_used B is_down_and_out S0 (gbm_path drift diffusion S0 (take k zs)))
    as [Hle _].
  rewrite gbm_path_length, length_take in Hle.
  match goal with |- _ + snd (barrier_sum _ _ _ _ _ _ _ _ _ ?zs' ?acc') ≤ _ =>
    specialize (IH zs' acc') end.
  lia.
Qed.

End Properties.
