(* ===== verification/Session.v ===== *)
(** * Session: sequences of calls on one engine

    A [MonteCarloEngine] is made once and then used: the generator it
    holds is the only state that a call leaves behind, and every later
    result depends on it.  This file models what a client does with an
    engine, a list of calls of its four methods performed in order, and
    proves what the engine's state can be after it.

    A [call] is a method with its arguments; [perform] runs it on an
    engine and returns the reply and the engine after it, or the fault of
    [simulate_paths]; [run] performs a list of calls, stopping at the
    first fault.  [draws_taken] is the number of draws a call takes
    from a generator, [draws_bound] what it can take at most, and
    [generator_after] the generator after a list of calls, each one
    drawn through a distribution object of its own.  The theorems: a
    session composes ([run_app]); the generator after a session is
    [generator_after] ([run_generator]). *)

From Stdlib Require Import Reals.
From stdpp Require Import base list.
From Stdlib Require Import ZArith Lia.
From S2P Require Import Prelude Numeric RealModel Vectors RandomStream MonteCarlo.
From S2P Require Import BarrierEstimate.

(** The calls a client can make, and what they return. *)
Inductive call {F : Type} : Type :=
| European (S0 K T r sigma : F) (is_call : bool) (n_paths : Z)
| Asian (S0 K T r sigma : F) (is_call : bool) (n_steps n_paths : Z)
| Barrier (S0 K B T r sigma : F) (is_call is_down_and_out : bool) (n_steps n_paths : Z)
| Paths (S0 mu sigma T : F) (n_steps n_paths : Z).
Arguments call F : clear implicits.

Inductive reply {F : Type} : Type :=
| Price (x : F)
| Matrix (m : list (list F)).
Arguments reply F : clear implicits.

Section Session.
Context {F : Type} `{Double F} `{Sampler F}.
Local Open Scope outcome_scope.

(** One call on an engine. *)
Definition perform (c : call F) (e : MonteCarloEngine)
  : outcome (reply F * MonteCarloEngine) :=
  match c with
  | European S0 K T r sigma is_call n_paths =>
      let p := price_european S0 K T r sigma is_call n_paths e in
      Done (Price (fst p), snd p)
  | Asian S0 K T r sigma is_call n_steps n_paths =>
      let p := price_asian S0 K T r sigma is_call n_steps n_paths e in
      Done (Price (fst p), snd p)
  | Barrier S0 K B T r sigma is_call dao n_steps n_paths =>
      let p := price_barrier S0 K B T r sigma is_call dao n_steps n_paths e in
      Done (Price (fst p), snd p)
  | Paths S0 mu sigma T n_steps n_paths =>
      omap (fun p => (Matrix (fst p), snd p))
        (simulate_paths S0 mu sigma T n_steps n_paths e)
  end.

(** The calls of a list in order, until one faults. *)
Fixpoint run (cs : list (call F)) (e : MonteCarloEngine)
  : outcome (list (reply F) * MonteCarloEngine) :=
  match cs with
  | [] => Done ([], e)
  | c :: cs' =>
      p <- perform c e ;;
      q <- run cs' (snd p) ;;
      Done (fst p :: fst q, snd q)
  end.

(** The draws a call takes at most. *)
Definition draws_bound (c : call F) : nat :=
  match c with
  | European _ _ _ _ _ _ n_paths => trip_count (n_paths ÷ 2)
  | Asian _ _ _ _ _ _ n_steps n_paths
  | Barrier _ _ _ _ _ _ _ _ n_steps n_paths
  | Paths _ _ _ _ n_steps n_paths => trip_count n_paths * trip_count n_steps
  end.

(** The draws a call takes from the generator [g]: its bound, except
    for a barrier option, whose paths stop where they are knocked
    out. *)
Definition draws_taken (c : call F) (g : engine) : nat :=
  match c with
  | Barrier S0 K B T r sigma is_call dao n_steps n_paths =>
      snd (barrier_estimate S0 K B T r sigma is_call dao n_steps n_paths
             (fst (draws (trip_count n_paths * trip_count n_steps) (dist_new, g))))
  | _ => draws_bound c
  end.

(** The generator after one call. *)
Definition generator_step (c : call F) (g : engine) : engine :=
  snd (snd (draws (draws_taken c g) (dist_new, g))).

(** The generator after a list of calls. *)
Definition generator_after (cs : list (call F)) (g : engine) : engine :=
  fold_left (fun g c => generator_step c g) cs g.

(** How [simulate_paths] ends for its sizes, with the matrix it returns
    when it does. *)
Definition paths_outcome (n_steps n_paths : Z) (m : list (list F))
  : outcome (reply F) :=
  if decide (n_steps = INT_MAX) then Fault SignedOverflow
  else if decide (n_steps < -1 ∨ n_paths < 0)%Z then Fault LengthError
  else if decide (n_steps = -1)%Z then
    if decide (n_paths = 0)%Z then Done (Matrix []) else Fault OutOfBounds
  else Done (Matrix m).

(** What a call returns, as a function of the draws it may take. *)
Definition reply_of_draws (c : call F) (zs : list F) : outcome (reply F) :=
  match c with
  | European S0 K T r sigma is_call n_paths =>
      Done (Price (european_estimate S0 K T r sigma is_call n_paths zs))
  | Asian S0 K T r sigma is_call n_steps n_paths =>
      Done (Price (asian_estimate S0 K T r sigma is_call n_steps n_paths zs))
  | Barrier S0 K B T r sigma is_call dao n_steps n_paths =>
      Done (Price (fst (barrier_estimate S0 K B T r sigma is_call dao
                          n_steps n_paths zs)))
  | Paths S0 mu sigma T n_steps n_paths =>
      paths_outcome n_steps n_paths (paths_matrix S0 mu sigma T n_steps n_paths zs)
  end.

(** The draws it takes, as a function of the draws it may take. *)
Definition draws_used (c : call F) (zs : list F) : nat :=
  match c with
  | Barrier S0 K B T r sigma is_call dao n_steps n_paths =>
      snd (barrier_estimate S0 K B T r sigma is_call dao n_steps n_paths zs)
  | _ => draws_bound c
  end.

(** The [int] arguments that the model checks are in the range of
    [int]. *)
Definition int_arguments (c : call F) : Prop :=
  match c with
  | Paths _ _ _ _ n_steps _ => int_range n_steps
  | _ => True
  end.

End Session.

(** ** Lemmas *)

Section Lemmas.
Context {F : Type} `{Double F} `{Sampler F}.
Implicit Types (c : call F) (e : MonteCarloEngine) (cs : list (call F)).
Local Open Scope outcome_scope.

(** A call that returns leaves the generator of its engine after the
    draws it takes. *)
Lemma perform_generator c e (r : reply F) e' :
  int_arguments c -> perform c e = Done (r, e') ->
  rng e' = generator_step c (rng e).
Proof.
  unfold generator_step.
  destruct c as [S0 K T r0 sigma b n | S0 K T r0 sigma b ns n
                | S0 K B T r0 sigma b dao ns n | S0 mu sigma T ns n];
    cbn [perform draws_taken draws_bound int_arguments]; intros Hint Hdone.
  - injection Hdone as _ <-. unfold price_european. cbv zeta.
    rewrite european_loop. reflexivity.
  - injection Hdone as _ <-. unfold price_asian. cbv zeta.
    rewrite asian_outer_loop. reflexivity.
  - injection Hdone as _ <-. rewrite price_barrier_engine. reflexivity.
  - destruct (simulate_paths_cases S0 mu sigma T ns n e Hint)
      as [[E ?] | [[E ?] | [[E ?] | [[E [-> ->]] | [E ?]]]]];
      rewrite E in Hdone; try discriminate Hdone; injection Hdone as _ <-;
      reflexivity.
Qed.

(** A call takes at most its bound. *)
Lemma draws_taken_used c (g : engine) :
  draws_taken c g = draws_used c (fst (draws (draws_bound c) (dist_new, g))).
Proof. by destruct c. Qed.

(** The reply of a call is a function of the draws the call may take:
    the estimator of the method over them, or the fault that the sizes
    of [simulate_paths] cause. *)
Lemma perform_reply c e :
  int_arguments c ->
  omap fst (perform c e) =
  reply_of_draws c (fst (draws (draws_bound c) (dist_new, rng e))).
Proof.
  destruct c as [S0 K T r0 sigma b n | S0 K T r0 sigma b ns n
                | S0 K B T r0 sigma b dao ns n | S0 mu sigma T ns n];
    cbn [perform draws_bound reply_of_draws int_arguments omap fst]; intros Hint.
  - unfold price_european, european_estimate. cbv zeta.
    by rewrite european_loop.
  - unfold price_asian, asian_estimate. cbv zeta.
    by rewrite asian_outer_loop.
  - unfold price_barrier, barrier_estimate. cbv zeta.
    by rewrite (barrier_loop_estimate _ _ _ _ _ _ _ _ _
                  (trip_count n * trip_count ns)) by lia.
  - unfold paths_outcome.
    destruct (simulate_paths_cases S0 mu sigma T ns n e Hint)
      as [[-> ?] | [[-> ?] | [[-> ?] | [[-> [-> ->]] | [-> ?]]]]];
      repeat case_decide; try done; unfold INT_MAX in *; lia.
Qed.

Lemma draws_taken_bound c (g : engine) : draws_taken c g ≤ draws_bound c.
Proof.
  destruct c; cbn [draws_taken draws_bound]; try lia.
  unfold barrier_estimate. cbn [snd]. apply barrier_sum_used.
Qed.

(** Only [simulate_paths] can fault. *)
Lemma perform_fault c e (f : fault) :
  perform c e = Fault f ->
  exists S0 mu sigma T n_steps n_paths, c = Paths S0 mu sigma T n_steps n_paths.
Proof.
  destruct c; cbn [perform]; try discriminate. intros _. eauto 10.
Qed.

Lemma run_cons c cs e :
  run (c :: cs) e =
  (p <- perform c e ;; q <- run cs (snd p) ;; Done (fst p :: fst q, snd q)).
Proof. reflexivity. Qed.

Lemma generator_after_cons c cs (g : engine) :
  generator_after (c :: cs) g = generator_after cs (generator_step c g).
Proof. reflexivity. Qed.

End Lemmas.


(** ** Properties of sessions *)

Section Properties.
Context {F : Type} `{Double F} `{Sampler F}.
Implicit Types (c : call F) (e : MonteCarloEngine) (cs : list (call F)).
Local Open Scope outcome_scope.

(** Sessions compose: running two lists of calls one after the other is
    running their concatenation. *)
Lemma run_app cs1 cs2 e :
  run (cs1 ++ cs2) e =
  (p <- run cs1 e ;; q <- run cs2 (snd p) ;; Done (fst p ++ fst q, snd q)).
Proof.
  revert e. induction cs1 as [| c cs1 IH]; intros e.
  - cbn [app run obind fst snd]. destruct (run cs2 e) as [[rs e'] |]; reflexivity.
  - cbn [app]. rewrite !run_cons. destruct (perform c e) as [[r e1] |]; [| reflexivity].
    cbn [obind fst snd]. rewrite IH.
    destruct (run cs1 e1) as [[rs1 e2] |]; [| reflexivity].
    cbn [obind fst snd]. destruct (run cs2 e2) as [[rs2 e3] |]; reflexivity.
Qed.

(** A property of the generator that every draw keeps holds after every
    call that returns, and after every session. *)
Lemma perform_keeps (P : engine -> Prop) c e (r : reply F) e' :
  (forall d g, P g -> P (snd (snd (sample d g)))) ->
  int_arguments c -> perform c e = Done (r, e') -> P (rng e) -> P (rng e').
Proof.
  intros Hkeep Hc Hr He. rewrite (perform_generator c e r e' Hc Hr).
  unfold generator_step. by apply draws_keeps.
Qed.

Lemma run_keeps (P : engine -> Prop) cs e (rs : list (reply F)) e' :
  (forall d g, P g -> P (snd (snd (sample d g)))) ->
  Forall int_arguments cs -> run cs e = Done (rs, e') -> P (rng e) -> P (rng e').
Proof.
  intros Hkeep Hcs. revert e rs. induction Hcs as [| c cs Hc Hcs IH]; intros e rs.
  { cbn [run]. by intros [= _ <-]. }
  rewrite run_cons. destruct (perform c e) as [[r e1] | f] eqn:Ec; [| done].
  cbn [obind fst snd]. destruct (run cs e1) as [[rs1 e2] | f] eqn:Er; [| done].
  cbn [obind fst snd]. intros [= _ <-] He.
  eapply IH; [exact Er |]. by eapply perform_keeps.
Qed.

(** Every call is a function of the draws it may take: its reply is the
    estimator of its method over the next [draws_bound] draws of a fresh
    distribution on the generator of the engine, or the fault that the
    sizes of [simulate_paths] cause, and when it returns the generator
    is left after the [draws_used] draws that the call took. *)
Theorem perform_determined c e :
  int_arguments c ->
  let zs := fst (draws (draws_bound c) (dist_new, rng e)) in
  match perform c e with
  | Done (r, e') =>
      reply_of_draws c zs = Done r ∧
      rng e' = snd (snd (draws (draws_used c zs) (dist_new, rng e)))
  | Fault f => reply_of_draws c zs = Fault f
  end.
Proof.
  intros Hc zs. pose proof (perform_reply c e Hc) as Hr. fold zs in Hr.
  destruct (perform c e) as [[r e'] | f] eqn:Hp; [| done].
  split; [done |]. rewrite (perform_generator c e r e' Hc Hp).
  unfold generator_step. by rewrite draws_taken_used.
Qed.

(** C28. The state of an engine after a session.  For calls whose [int]
    arguments are [int]s: if the session returns, it returns one reply
    per call, and the generator of the engine is [generator_after]: the
    one it started with moved forward call by call, each call by the
    draws it takes (its bound, or for a barrier option the draws up to
    each knock-out) and through a distribution object that is new for
    each call; if it does not return, one of its calls is
    [simulate_paths]: the three pricing methods never fail, whatever
    their arguments. *)
Theorem run_generator cs e :
  Forall int_arguments cs ->
  match run cs e with
  | Done (rs, e') =>
      length rs = length cs ∧ rng e' = generator_after cs (rng e)
  | Fault _ =>
      exists S0 mu sigma T n_steps n_paths, Paths S0 mu sigma T n_steps n_paths ∈ cs
  end.
Proof.
  intros Hcs. revert e. induction Hcs as [| c cs Hc Hcs IH]; intros e.
  { cbn [run]. split; reflexivity. }
  rewrite run_cons. destruct (perform c e) as [[r e1] | f] eqn:Ec; cbn [obind fst snd].
  - specialize (IH e1). destruct (run cs e1) as [[rs e2] | f]; cbn [obind fst snd].
    + destruct IH as (Hlen & Hrng).
      split; [cbn; lia |].
      rewrite generator_after_cons, <- (perform_generator c e r e1 Hc Ec). exact Hrng.
    + destruct IH as (S0 & mu & sigma & T & ns & n & Hin).
      exists S0, mu, sigma, T, ns, n. apply list_elem_of_further, Hin.
  - destruct (perform_fault c e f Ec) as (S0 & mu & sigma & T & ns & n & ->).
    exists S0, mu, sigma, T, ns, n. apply list_elem_of_here.
Qed.

End Properties.

(** ** Example: a pricing call and a path simulation on one engine *)

Section Witnesses.

Lemma run_generator_witness :
  let cs : list (call R) :=
    [European 100%R 100%R 1%R (dec 5 2) (dec 2 1) true 4;
     Paths 100%R (dec 5 2) (dec 2 1) 1%R 3 2] in
  let e := @MonteCarloEngine_new R (TapeSampler 0%R) 42 in
  match @run R RealDouble (TapeSampler 0%R) cs e with
  | Done (rs, e') =>
      length rs = length cs ∧ rng e' = generator_after cs (rng e)
  | Fault _ =>
      exists S0 mu sigma T n_steps n_paths, Paths S0 mu sigma T n_steps n_paths ∈ cs
  end.
Proof.
  apply run_generator.
  repeat apply List.Forall_cons; [exact I | unfold int_arguments, int_range, INT_MIN, INT_MAX; lia |].
  apply List.Forall_nil.
Defined.

Lemma perform_determined_witness :
  let c : call R := Barrier 100%R 100%R 95%R 1%R (dec 5 2) (dec 2 1) true true 2 2 in
  let e := @Build_MonteCarloEngine R (TapeSampler 0%R) [-1; 1; 0; 0]%R in
  let zs := fst (draws (draws_bound c) (dist_new, rng e)) in
  match @perform R RealDouble (TapeSampler 0%R) c e with
  | Done (r, e') =>
      reply_of_draws c zs = Done r ∧
      rng e' = snd (snd (draws (draws_used c zs) (dist_new, rng e)))
  | Fault f => reply_of_draws c zs = Fault f
  end.
Proof. apply perform_determined. exact I. Defined.

End Witnesses.
