(* ===== verification/Bindings.v ===== *)
(** * Bindings: the Python interface of the two engines

    [src/cpp_engine/bindings.cpp] registers the public functions of
    [BlackScholesEngine] and [MonteCarloEngine] with pybind11.  The file
    holds no computation, but it decides how the engines can be called:
    which functions exist on the Python side, which accept keyword
    arguments, and which default arguments survive.

    The registration is data here: one [binding] per [.def], with the
    Python name, the member it points to and its [py::arg] annotations.
    A call goes through the steps pybind11 takes for a function with one
    overload: find the name; match positional and keyword arguments
    against the parameters (a binding without annotations takes positional
    arguments only, all of them: the default arguments of the C++
    declaration are not visible to it); convert each argument to the C++
    type of its parameter; call the function.  The conversion of a Python
    object to a C++ type is the job of pybind11's type casters, which are
    not code of the repository: it is the interface [Casters], and the
    theorems hold for every instance.  A C++ fault becomes what pybind11
    makes of it: [std::length_error] is raised as [ValueError], undefined
    behaviour stays undefined. *)

From Stdlib Require Import Reals.
From stdpp Require Import base strings list.
From Stdlib Require Import ZArith Lia.
From S2P Require Import Prelude Numeric RealModel NormalDist BlackScholes ImpliedVol.
From S2P Require Import Vectors Portfolio RandomStream MonteCarlo Session.

(** ** The C++ side: members, their types *)

Inductive cxx_type : Type :=
| TDouble | TBool | TInt | TUnsigned | TVecDouble | TVecBool.

#[export] Instance cxx_type_eq_dec : EqDecision cxx_type.
Proof. solve_decision. Defined.

(** The members the file registers: the public static functions of
    [BlackScholesEngine], the constructor and the methods of
    [MonteCarloEngine]. *)
Inductive member : Type :=
| call_price_m | put_price_m | delta_m | gamma_m | vega_m | theta_call_m
| rho_call_m | implied_volatility_m | price_portfolio_m
| constructor_m | price_european_m | price_asian_m | price_barrier_m
| simulate_paths_m.

#[export] Instance member_eq_dec : EqDecision member.
Proof. solve_decision. Defined.

(** The parameter types of each member, from its declaration. *)
Definition parameters (m : member) : list cxx_type :=
  match m with
  | call_price_m | put_price_m | gamma_m | vega_m | theta_call_m
  | rho_call_m => replicate 5 TDouble
  | delta_m => replicate 5 TDouble ++ [TBool]
  | implied_volatility_m => replicate 5 TDouble ++ [TBool; TDouble]
  | price_portfolio_m => replicate 5 TVecDouble ++ [TVecBool]
  | constructor_m => [TUnsigned]
  | price_european_m => replicate 5 TDouble ++ [TBool; TInt]
  | price_asian_m => replicate 5 TDouble ++ [TBool; TInt; TInt]
  | price_barrier_m => replicate 6 TDouble ++ [TBool; TBool; TInt; TInt]
  | simulate_paths_m => replicate 4 TDouble ++ [TInt; TInt]
  end.

(** A C++ argument or default value. *)
Inductive cxx_value {F : Type} : Type :=
| VDouble (x : F) | VBool (b : bool) | VInt (z : Z) | VUnsigned (z : Z)
| VVecDouble (l : list F) | VVecBool (l : list bool).
Arguments cxx_value F : clear implicits.

Definition type_of {F} (v : cxx_value F) : cxx_type :=
  match v with
  | VDouble _ => TDouble | VBool _ => TBool | VInt _ => TInt
  | VUnsigned _ => TUnsigned | VVecDouble _ => TVecDouble | VVecBool _ => TVecBool
  end.

(** ** The registration *)

(** One [.def] or [.def_static]: the name, the member, and the [py::arg]
    annotations in order, each with its default if it has one. *)
Record binding : Type := {
  py_name : string;
  target : member;
  annotations : list (string * option Z)
}.

Local Open Scope string_scope.

(** [py::class_<BlackScholesEngine>(m, "BlackScholesEngine")...]. *)
Definition black_scholes_bindings : list binding := [
  {| py_name := "call_price"; target := call_price_m;
     annotations := [("S", None); ("K", None); ("T", None); ("r", None);
                     ("sigma", None)] |};
  {| py_name := "put_price"; target := put_price_m; annotations := [] |};
  {| py_name := "delta"; target := delta_m; annotations := [] |};
  {| py_name := "gamma"; target := gamma_m; annotations := [] |};
  {| py_name := "vega"; target := vega_m; annotations := [] |};
  {| py_name := "theta_call"; target := theta_call_m; annotations := [] |};
  {| py_name := "rho_call"; target := rho_call_m; annotations := [] |};
  {| py_name := "implied_volatility"; target := implied_volatility_m;
     annotations := [] |};
  {| py_name := "price_portfolio"; target := price_portfolio_m;
     annotations := [] |}
].

(** [py::class_<MonteCarloEngine>(m, "MonteCarloEngine")...]; the
    constructor is Python's [__init__]. *)
Definition monte_carlo_bindings : list binding := [
  {| py_name := "__init__"; target := constructor_m;
     annotations := [("seed", Some 42%Z)] |};
  {| py_name := "price_european"; target := price_european_m; annotations := [] |};
  {| py_name := "price_asian"; target := price_asian_m; annotations := [] |};
  {| py_name := "price_barrier"; target := price_barrier_m; annotations := [] |};
  {| py_name := "simulate_paths"; target := simulate_paths_m; annotations := [] |}
].

(** A class of the module: [py::class_<C>(m, name)] and what is
    registered on it. *)
Record py_class : Type := {
  class_name : string;
  class_members : list binding
}.

(** A module: its name, [m.doc()] and its classes. *)
Record py_module : Type := {
  module_name : string;
  module_doc : string;
  module_classes : list py_class
}.

(** [PYBIND11_MODULE(cpp_quant_engine, m) { ... }]. *)
Definition cpp_quant_engine : py_module := {|
  module_name := "cpp_quant_engine";
  module_doc := "High-performance quantitative finance engine in C++";
  module_classes := [
    {| class_name := "BlackScholesEngine"; class_members := black_scholes_bindings |};
    {| class_name := "MonteCarloEngine"; class_members := monte_carlo_bindings |}
  ]
|}.

Local Close Scope string_scope.

Definition find_binding (bs : list binding) (name : string) : option binding :=
  List.find (fun b => bool_decide (py_name b = name)) bs.

(** The attribute [module.cls.name] of Python. *)
Definition module_attribute (m : py_module) (cls name : string) : option binding :=
  c ← List.find (fun c => bool_decide (class_name c = cls)) (module_classes m);
  find_binding (class_members c) name.

(** Where a member is registered: its class and its Python name. *)
Definition registered_as (m : py_module) (x : member) : list (string * string) :=
  c ← module_classes m;
  b ← class_members c;
  if decide (target b = x) then [(class_name c, py_name b)] else [].

(** ** A call from Python *)

Inductive py_exception : Type := TypeError | AttributeError | ValueError.

(** How a call ends on the Python side. *)
Inductive py_outcome (A : Type) : Type :=
| Returns (a : A)
| Raises (e : py_exception)
| Undefined.
Arguments Returns {A} a.
Arguments Raises {A} e.
Arguments Undefined {A}.

(** What pybind11 makes of a C++ fault. *)
Definition of_outcome {A} (c : outcome A) : py_outcome A :=
  match c with
  | Done a => Returns a
  | Fault LengthError => Raises ValueError
  | Fault OutOfBounds | Fault SignedOverflow => Undefined
  end.

(** The type casters: a Python object of type [V] to a C++ value of a
    given type, or no conversion. *)
Class Casters (V F : Type) : Type := {
  cast : cxx_type -> V -> option (cxx_value F);
  cast_typed : forall t v a, cast t v = Some a -> type_of a = t
}.

Section Call.
Context {V F : Type} `{Casters V F}.

(** The value a default of the registration stands for. *)
Definition default_value (t : cxx_type) (d : Z) : option (cxx_value F) :=
  match t with
  | TInt => Some (VInt d)
  | TUnsigned => Some (VUnsigned d)
  | _ => None
  end.

(** One parameter that positional arguments did not fill: the keyword
    argument of its name, else its default. *)
Definition fill_parameter (kwargs : list (string * V)) (t : cxx_type)
    (a : string * option Z) : option (cxx_value F) :=
  match List.find (fun kv => bool_decide (fst kv = fst a)) kwargs with
  | Some kv => cast t (snd kv)
  | None => d ← snd a; default_value t d
  end.

(** The arguments of a call, as C++ values in parameter order.  A
    binding without annotations takes exactly its parameters,
    positionally. *)
Definition bind_arguments (b : binding) (args : list V)
    (kwargs : list (string * V)) : option (list (cxx_value F)) :=
  let ts := parameters (target b) in
  match annotations b with
  | [] =>
      if bool_decide (kwargs = [] ∧ length args = length ts)
      then mapM (fun p => cast (fst p) (snd p)) (zip ts args)
      else None
  | anns =>
      let k := length args in
      let rest := drop k anns in
      if bool_decide (k ≤ length ts ∧
                      Forall (fun kv => fst kv ∈ map fst rest) kwargs ∧
                      NoDup (map fst kwargs))
      then
        front ← mapM (fun p => cast (fst p) (snd p)) (zip ts args);
        back ← mapM (fun p => fill_parameter kwargs (fst p) (snd p))
                 (zip (drop k ts) rest);
        Some (front ++ back)
      else None
  end.

End Call.

(** ** Calling the engines *)

Section Invoke.
Context {V F : Type} `{Double F} `{Sampler F} `{Casters V F}.

(** What a bound function returns to Python. *)
Inductive py_result : Type :=
| RDouble (x : F)
| RVector (l : list F)
| RMatrix (m : list (list F))
| RObject (e : MonteCarloEngine).

Definition as_double (o : option (cxx_value F)) : option F :=
  match o with Some (VDouble x) => Some x | _ => None end.

Definition as_bool (o : option (cxx_value F)) : option bool :=
  match o with Some (VBool b) => Some b | _ => None end.

Definition as_int (o : option (cxx_value F)) : option Z :=
  match o with Some (VInt z) => Some z | _ => None end.

Definition as_unsigned (o : option (cxx_value F)) : option Z :=
  match o with Some (VUnsigned z) => Some z | _ => None end.

Definition as_doubles (o : option (cxx_value F)) : option (list F) :=
  match o with Some (VVecDouble l) => Some l | _ => None end.

Definition as_bools (o : option (cxx_value F)) : option (list bool) :=
  match o with Some (VVecBool l) => Some l | _ => None end.

(** The five leading [double] parameters that every pricing function
    starts with, applied to a function of them. *)
Definition with_doubles5 {A} (vs : list (cxx_value F))
    (f : F -> F -> F -> F -> F -> A) : option A :=
  a ← as_double (vs !! 0); b ← as_double (vs !! 1); c ← as_double (vs !! 2);
  d ← as_double (vs !! 3); e ← as_double (vs !! 4);
  Some (f a b c d e).

(** The static functions of [BlackScholesEngine] and the constructor of
    [MonteCarloEngine], on converted arguments. *)
Definition invoke_static (m : member) (vs : list (cxx_value F))
  : option (outcome py_result) :=
  match m with
  | call_price_m => with_doubles5 vs (fun s k t r v => Done (RDouble (call_price s k t r v)))
  | put_price_m => with_doubles5 vs (fun s k t r v => Done (RDouble (put_price s k t r v)))
  | gamma_m => with_doubles5 vs (fun s k t r v => Done (RDouble (gamma s k t r v)))
  | vega_m => with_doubles5 vs (fun s k t r v => Done (RDouble (vega s k t r v)))
  | theta_call_m =>
      with_doubles5 vs (fun s k t r v => Done (RDouble (theta_call s k t r v)))
  | rho_call_m => with_doubles5 vs (fun s k t r v => Done (RDouble (rho_call s k t r v)))
  | delta_m =>
      c ← as_bool (vs !! 5);
      with_doubles5 vs (fun s k t r v => Done (RDouble (delta s k t r v c)))
  | implied_volatility_m =>
      c ← as_bool (vs !! 5); g ← as_double (vs !! 6);
      with_doubles5 vs
        (fun p s k t r => Done (RDouble (implied_volatility p s k t r c g)))
  | price_portfolio_m =>
      ss ← as_doubles (vs !! 0); ks ← as_doubles (vs !! 1);
      ts ← as_doubles (vs !! 2); rs ← as_doubles (vs !! 3);
      vols ← as_doubles (vs !! 4); cs ← as_bools (vs !! 5);
      Some (omap RVector (price_portfolio ss ks ts rs vols cs))
  | constructor_m =>
      seed ← as_unsigned (vs !! 0);
      Some (Done (RObject (MonteCarloEngine_new seed)))
  | _ => None
  end.

(** The method call that converted arguments stand for. *)
Definition decode_call (m : member) (vs : list (cxx_value F)) : option (call F) :=
  match m with
  | price_european_m =>
      c ← as_bool (vs !! 5); n ← as_int (vs !! 6);
      with_doubles5 vs (fun s k t r v => European s k t r v c n)
  | price_asian_m =>
      c ← as_bool (vs !! 5); ns ← as_int (vs !! 6); n ← as_int (vs !! 7);
      with_doubles5 vs (fun s k t r v => Asian s k t r v c ns n)
  | price_barrier_m =>
      v ← as_double (vs !! 5); c ← as_bool (vs !! 6); dao ← as_bool (vs !! 7);
      ns ← as_int (vs !! 8); n ← as_int (vs !! 9);
      with_doubles5 vs (fun s k b t r => Barrier s k b t r v c dao ns n)
  | simulate_paths_m =>
      s ← as_double (vs !! 0); mu ← as_double (vs !! 1); v ← as_double (vs !! 2);
      t ← as_double (vs !! 3); ns ← as_int (vs !! 4); n ← as_int (vs !! 5);
      Some (Paths s mu v t ns n)
  | _ => None
  end.

(** A reply of the engine as a Python value. *)
Definition to_python (r : reply F) : py_result :=
  match r with
  | Price x => RDouble x
  | Matrix m => RMatrix m
  end.

(** The methods of [MonteCarloEngine], on an engine and converted
    arguments: the call they stand for, performed on the engine. *)
Definition invoke_method (m : member) (self : MonteCarloEngine)
    (vs : list (cxx_value F)) : option (outcome (py_result * MonteCarloEngine)) :=
  c ← decode_call m vs;
  Some (omap (fun p => (to_python (fst p), snd p)) (perform c self)).

(** A call of [cpp_quant_engine.BlackScholesEngine.<name>(...)]. *)
Definition py_call_static (name : string) (args : list V)
    (kwargs : list (string * V)) : py_outcome py_result :=
  match find_binding black_scholes_bindings name with
  | None => Raises AttributeError
  | Some b =>
      match bind_arguments b args kwargs with
      | None => Raises TypeError
      | Some vs =>
          match invoke_static (target b) vs with
          | Some c => of_outcome c
          | None => Raises TypeError
          end
      end
  end.

(** [cpp_quant_engine.MonteCarloEngine(...)]. *)
Definition py_construct (args : list V) (kwargs : list (string * V))
  : py_outcome py_result :=
  match find_binding monte_carlo_bindings "__init__" with
  | None => Raises AttributeError
  | Some b =>
      match bind_arguments b args kwargs with
      | None => Raises TypeError
      | Some vs =>
          match invoke_static (target b) vs with
          | Some c => of_outcome c
          | None => Raises TypeError
          end
      end
  end.

(** A call of [engine.<name>(...)] on an instance. *)
Definition py_call_method (self : MonteCarloEngine) (name : string)
    (args : list V) (kwargs : list (string * V))
  : py_outcome (py_result * MonteCarloEngine) :=
  match find_binding monte_carlo_bindings name with
  | None => Raises AttributeError
  | Some b =>
      match bind_arguments b args kwargs with
      | None => Raises TypeError
      | Some vs =>
          match invoke_method (target b) self vs with
          | Some c => of_outcome c
          | None => Raises TypeError
          end
      end
  end.

End Invoke.

(** The strictest casters: a Python value is a C++ value already and
    converts to its own type only.  They run the examples; the theorems
    hold for every instance of [Casters]. *)
Definition exact_cast {F} (t : cxx_type) (v : cxx_value F) : option (cxx_value F) :=
  if decide (type_of v = t) then Some v else None.

Lemma exact_cast_typed {F} (t : cxx_type) (v a : cxx_value F) :
  exact_cast t v = Some a -> type_of a = t.
Proof. unfold exact_cast. case_decide; congruence. Qed.

Definition ExactCasters (F : Type) : Casters (cxx_value F) F :=
  {| cast := exact_cast; cast_typed := exact_cast_typed |}.

(** ** Lemmas on argument binding *)


Section CallLemmas.
Context {V F : Type} `{Casters V F}.
Implicit Types (b : binding) (args : list V) (kwargs : list (string * V)).
Implicit Types (vs : list (cxx_value F)) (ts : list cxx_type).

Lemma mapM_cast_typed ts args vs :
  mapM (fun p => cast (fst p) (snd p)) (zip ts args) = Some vs ->
  map type_of vs = take (length args) ts.
Proof.
  rewrite mapM_Some. revert args vs.
  induction ts as [| t ts IH]; intros [| a args] vs Hvs;
    simpl in *; inversion Hvs; subst; simpl; try reflexivity.
  f_equal; [eapply cast_typed; eassumption | apply IH; assumption].
Qed.




(** A binding without [py::arg] takes positional arguments only, and as
    many as the function has parameters. *)
Lemma bind_unannotated b args kwargs vs :
  annotations b = [] ->
  bind_arguments b args kwargs = Some vs ->
  kwargs = [] ∧ length args = length (parameters (target b)) ∧
  map type_of vs = parameters (target b).
Proof.
  unfold bind_arguments. intros ->. case_bool_decide as Hc; [| discriminate].
  destruct Hc as [-> Hl]. intros Hvs. apply mapM_cast_typed in Hvs.
  rewrite Hl, firstn_all in Hvs. auto.
Qed.

Lemma bind_unannotated_arity b args kwargs :
  annotations b = [] -> length args ≠ length (parameters (target b)) ->
  bind_arguments b args kwargs = None.
Proof.
  intros Ha Hl. destruct (bind_arguments b args kwargs) eqn:E; [| reflexivity].
  apply bind_unannotated in E as (_ & ? & _); [contradiction | assumption].
Qed.

Lemma bind_unannotated_keywords b args kwargs :
  annotations b = [] -> kwargs ≠ [] -> bind_arguments b args kwargs = None.
Proof.
  intros Ha Hk. destruct (bind_arguments b args kwargs) eqn:E; [| reflexivity].
  apply bind_unannotated in E as (? & _); [contradiction | assumption].
Qed.


(** A keyword that occurs once is found with its value. *)
Lemma find_keyword kwargs (k : string) (a : V) :
  NoDup (map fst kwargs) -> (k, a) ∈ kwargs ->
  List.find (fun kv => bool_decide (fst kv = k)) kwargs = Some (k, a).
Proof.
  induction kwargs as [| [k' a'] kwargs IH]; simpl; intros Hn Hin.
  { inversion Hin. }
  apply NoDup_cons in Hn as [Hk' Hn]. case_bool_decide as Hk; simpl in Hk.
  - subst k'. apply elem_of_cons in Hin as [Heq | Hin]; [congruence |].
    exfalso. apply Hk'. apply (list_elem_of_fmap_2 fst) in Hin. exact Hin.
  - apply elem_of_cons in Hin as [Heq | Hin]; [congruence | auto].
Qed.

End CallLemmas.

(** ** Properties of the interface *)

Section InvokeLemmas.
Context {V F : Type} `{Double F} `{Sampler F} `{Casters V F}.



End InvokeLemmas.

(** Every member of the two engines is an attribute of the module under
    exactly one class and name, and the attribute is bound to it. *)
Lemma module_attribute_member (x : member) :
  exists cls name,
    registered_as cpp_quant_engine x = [(cls, name)] ∧
    target <$> module_attribute cpp_quant_engine cls name = Some x.
Proof. destruct x; eexists _, _; split; reflexivity. Qed.

(** An attribute of the module is a registered member of the class it
    is looked up in. *)
Lemma module_attribute_registered (cls name : string) (b : binding) :
  module_attribute cpp_quant_engine cls name = Some b ->
  (cls, name) ∈ registered_as cpp_quant_engine (target b).
Proof.
  unfold module_attribute. cbn [module_classes cpp_quant_engine List.find class_name].
  repeat case_bool_decide; subst; cbn [mbind option_bind class_members]; [| | done];
    unfold find_binding;
    cbn [List.find black_scholes_bindings monte_carlo_bindings py_name];
    repeat (case_bool_decide; [intros [= <-]; subst; vm_compute; left |]); done.
Qed.

Section CallProperties.
Context {V F : Type} `{Double F} `{Sampler F} `{Casters V F}.
Implicit Types (b : binding) (args : list V) (kwargs : list (string * V)).

(** A call whose arguments do not bind raises [TypeError], whatever the
    function. *)
Lemma py_call_static_unbound (name : string) b args kwargs :
  find_binding black_scholes_bindings name = Some b ->
  bind_arguments b args kwargs = None ->
  py_call_static name args kwargs = Raises TypeError.
Proof. unfold py_call_static. intros -> ->. reflexivity. Qed.

Lemma py_call_method_unbound (self : MonteCarloEngine) (name : string) b args kwargs :
  find_binding monte_carlo_bindings name = Some b ->
  bind_arguments b args kwargs = None ->
  py_call_method self name args kwargs = Raises TypeError.
Proof. unfold py_call_method. intros -> ->. reflexivity. Qed.

(** A call whose arguments bind returns what the member returns. *)
Lemma py_call_static_bound (name : string) b args kwargs vs c :
  find_binding black_scholes_bindings name = Some b ->
  bind_arguments b args kwargs = Some vs ->
  invoke_static (target b) vs = Some c ->
  py_call_static name args kwargs = of_outcome c.
Proof. unfold py_call_static. intros -> -> ->. reflexivity. Qed.

Lemma py_call_method_bound (self : MonteCarloEngine) (name : string) b args kwargs
    vs c :
  find_binding monte_carlo_bindings name = Some b ->
  bind_arguments b args kwargs = Some vs ->
  invoke_method (target b) self vs = Some c ->
  py_call_method self name args kwargs = of_outcome c.
Proof. unfold py_call_method. intros -> -> ->. reflexivity. Qed.

(** Positional arguments that convert one by one bind to their values,
    for a binding without annotations. *)
Lemma bind_positional b args (vs : list (cxx_value F)) :
  annotations b = [] ->
  Forall2 (fun p a => cast (fst p) (snd p) = Some a)
          (zip (parameters (target b)) args) vs ->
  length args = length (parameters (target b)) ->
  bind_arguments b args [] = Some vs.
Proof.
  intros Ha Hvs Hl. unfold bind_arguments. rewrite Ha.
  rewrite bool_decide_eq_true_2 by auto. apply mapM_Some. exact Hvs.
Qed.


(** C34. The default arguments of the C++ declarations do not reach
    Python.  [implied_volatility] (whose [initial_guess] defaults to 0.3
    in C++) and [price_european] (whose [n_paths] defaults to 100000)
    raise [TypeError] when called with six arguments, whatever the
    arguments; a function registered without [py::arg] rejects every
    keyword argument; only the constructor, registered with
    [py::arg("seed") = 42], keeps its default. *)
Theorem python_defaults_lost (a1 a2 a3 a4 a5 a6 : V) (kw : string * V) args kwargs
    (self : MonteCarloEngine) :
  py_call_static "implied_volatility" [a1; a2; a3; a4; a5; a6] kwargs
    = Raises TypeError ∧
  py_call_method self "price_european" [a1; a2; a3; a4; a5; a6] kwargs
    = Raises TypeError ∧
  py_call_static "put_price" args (kw :: kwargs) = Raises TypeError ∧
  py_construct [] [] = Returns (RObject MonteCarloEngine_default).
Proof.
  split; [| split; [| split]].
  - eapply py_call_static_unbound; [reflexivity |].
    apply bind_unannotated_arity; [reflexivity | discriminate].
  - eapply py_call_method_unbound; [reflexivity |].
    apply bind_unannotated_arity; [reflexivity | discriminate].
  - eapply py_call_static_unbound; [reflexivity |].
    apply bind_unannotated_keywords; [reflexivity | discriminate].
  - reflexivity.
Qed.

End CallProperties.

Section Composition.
Context {V F : Type} `{Double F} `{Sampler F} `{Casters V F}.
Local Open Scope Z_scope.

(** A method call whose arguments bind is the call they stand for,
    performed on the engine, with its fault translated. *)
Lemma py_call_method_perform (self : MonteCarloEngine) (name : string) (b : binding)
    (args : list V) (kwargs : list (string * V)) (vs : list (cxx_value F)) (c : call F) :
  find_binding monte_carlo_bindings name = Some b ->
  bind_arguments b args kwargs = Some vs ->
  decode_call (target b) vs = Some c ->
  py_call_method self name args kwargs =
  of_outcome (omap (fun p => (to_python (fst p), snd p)) (perform c self)).
Proof.
  intros Hb Hvs Hc. eapply py_call_method_bound; [exact Hb | exact Hvs |].
  unfold invoke_method. rewrite Hc. reflexivity.
Qed.

(** [engine.simulate_paths(...)] with six arguments that convert is the
    C++ call, its fault translated. *)
Lemma py_simulate_paths_call (self : MonteCarloEngine) (a1 a2 a3 a4 a5 a6 : V)
    (s mu v t : F) (ns n : Z) :
  cast TDouble a1 = Some (VDouble s) -> cast TDouble a2 = Some (VDouble mu) ->
  cast TDouble a3 = Some (VDouble v) -> cast TDouble a4 = Some (VDouble t) ->
  cast TInt a5 = Some (VInt ns) -> cast TInt a6 = Some (VInt n) ->
  py_call_method self "simulate_paths" [a1; a2; a3; a4; a5; a6] [] =
  of_outcome (omap (fun p => (to_python (fst p), snd p))
                (perform (Paths s mu v t ns n) self)).
Proof.
  intros Hc1 Hc2 Hc3 Hc4 Hc5 Hc6.
  eapply py_call_method_perform; [reflexivity | |].
  - apply bind_positional; [reflexivity | | reflexivity].
    cbn [zip zip_with parameters target replicate app fst snd].
    repeat (constructor; [eassumption |]). constructor.
  - reflexivity.
Qed.

(** [BlackScholesEngine.call_price] with its five arguments by keyword,
    in any order, or by position. *)
Lemma bind_call_price_keywords (b : binding) (a1 a2 a3 a4 a5 : V) (s k t r v : F)
    (kwargs : list (string * V)) :
  find_binding black_scholes_bindings "call_price" = Some b ->
  cast TDouble a1 = Some (VDouble s) -> cast TDouble a2 = Some (VDouble k) ->
  cast TDouble a3 = Some (VDouble t) -> cast TDouble a4 = Some (VDouble r) ->
  cast TDouble a5 = Some (VDouble v) ->
  kwargs ≡ₚ [("S", a1); ("K", a2); ("T", a3); ("r", a4); ("sigma", a5)]%string ->
  bind_arguments b [] kwargs =
  Some [VDouble s; VDouble k; VDouble t; VDouble r; VDouble v].
Proof.
  intros Hb Hc1 Hc2 Hc3 Hc4 Hc5 Hperm. injection Hb as <-.
  assert (Hkeys : map fst kwargs ≡ₚ ["S"; "K"; "T"; "r"; "sigma"]%string)
    by (change map with (@fmap list _); rewrite Hperm; reflexivity).
  assert (Hnd : NoDup (map fst kwargs))
    by (rewrite Hkeys; apply (bool_decide_unpack _); vm_compute; exact I).
  unfold bind_arguments. cbn [annotations target length drop parameters].
  rewrite bool_decide_eq_true_2.
  2: { split; [simpl; lia | split; [| exact Hnd]].
       apply Forall_forall. intros kv Hkv.
       apply (list_elem_of_fmap_2 fst) in Hkv.
       change (fst kv ∈ map fst kwargs) in Hkv. rewrite Hkeys in Hkv. exact Hkv. }
  unfold fill_parameter.
  cbn [mapM zip_with drop replicate app mbind option_bind mret option_ret fst snd].
  assert (Hfind : forall key a,
            (key, a) ∈ [("S", a1); ("K", a2); ("T", a3); ("r", a4); ("sigma", a5)]%string ->
            List.find (fun kv => bool_decide (fst kv = key)) kwargs = Some (key, a)).
  { intros key a Hka. apply find_keyword; [exact Hnd | rewrite Hperm; exact Hka]. }
  rewrite (Hfind "S"%string a1) by repeat constructor.
  rewrite (Hfind "K"%string a2) by repeat constructor.
  rewrite (Hfind "T"%string a3) by repeat constructor.
  rewrite (Hfind "r"%string a4) by repeat constructor.
  rewrite (Hfind "sigma"%string a5) by repeat constructor.
  cbn [snd]. rewrite Hc1, Hc2, Hc3, Hc4, Hc5. reflexivity.
Qed.

End Composition.

Section Refinement.
Context {V F : Type} `{Double F} `{Sampler F} `{Casters V F}.
Local Open Scope Z_scope.

(** C35. [engine.simulate_paths] from Python, on six arguments that
    convert to [S0, mu, sigma, T, n_steps, n_paths].  A negative
    [n_paths], or [n_steps < -1], raises [ValueError] (the
    [std::length_error] of the vector constructor); [n_steps = -1] with a
    path to fill, or [n_steps = INT_MAX], is undefined behaviour on the
    C++ side, which no exception reports; otherwise the call returns a
    matrix of [n_paths] rows of [n_steps + 1] entries and the engine has
    moved on. *)
Theorem python_simulate_paths (self : MonteCarloEngine) (a1 a2 a3 a4 a5 a6 : V)
    (s mu v t : F) (ns n : Z) :
  cast TDouble a1 = Some (VDouble s) -> cast TDouble a2 = Some (VDouble mu) ->
  cast TDouble a3 = Some (VDouble v) -> cast TDouble a4 = Some (VDouble t) ->
  cast TInt a5 = Some (VInt ns) -> cast TInt a6 = Some (VInt n) ->
  let call := py_call_method self "simulate_paths" [a1; a2; a3; a4; a5; a6] [] in
  (INT_MIN <= ns < INT_MAX -> ns < -1 ∨ n < 0 -> call = Raises ValueError) ∧
  (ns = -1 -> 1 <= n -> call = Undefined) ∧
  (ns = INT_MAX -> call = Undefined) ∧
  (0 <= ns < INT_MAX -> 0 <= n ->
   exists paths self',
     call = Returns (RMatrix paths, self') ∧
     length paths = trip_count n ∧
     Forall (fun row => length row = Datatypes.S (trip_count ns) ∧
                        row !! 0%nat = Some s) paths).
Proof.
  intros Hc1 Hc2 Hc3 Hc4 Hc5 Hc6 call. subst call.
  rewrite (py_simulate_paths_call self a1 a2 a3 a4 a5 a6 s mu v t ns n) by assumption.
  cbn [perform].
  split; [| split; [| split]].
  - intros Hr Hneg. rewrite simulate_paths_length_error by assumption. reflexivity.
  - intros -> Hn. rewrite simulate_paths_out_of_bounds by assumption. reflexivity.
  - intros ->. rewrite simulate_paths_overflow. reflexivity.
  - intros Hs Hn. rewrite simulate_paths_result by assumption.
    eexists _, _. split; [reflexivity |]. apply paths_matrix_shape.
Qed.

(** [BlackScholesEngine.call_price] from Python is the C++ function:
    with the five arguments by position, or by the keywords [S], [K],
    [T], [r], [sigma] in any order, the call returns
    [call_price(S, K, T, r, sigma)].  [put_price], registered without
    names, raises [TypeError] on the same keywords. *)
Theorem python_call_price (a1 a2 a3 a4 a5 : V) (s k t r v : F)
    (kwargs : list (string * V)) :
  cast TDouble a1 = Some (VDouble s) -> cast TDouble a2 = Some (VDouble k) ->
  cast TDouble a3 = Some (VDouble t) -> cast TDouble a4 = Some (VDouble r) ->
  cast TDouble a5 = Some (VDouble v) ->
  kwargs ≡ₚ [("S", a1); ("K", a2); ("T", a3); ("r", a4); ("sigma", a5)]%string ->
  py_call_static "call_price" [] kwargs = Returns (RDouble (call_price s k t r v)) ∧
  py_call_static "call_price" [a1; a2; a3; a4; a5] []
    = Returns (RDouble (call_price s k t r v)) ∧
  py_call_static "put_price" [] kwargs = Raises TypeError.
Proof.
  intros Hc1 Hc2 Hc3 Hc4 Hc5 Hperm. split; [| split].
  - eapply (py_call_static_bound _ _ _ _ _ (Done _)); [reflexivity | |].
    + apply (bind_call_price_keywords _ a1 a2 a3 a4 a5 s k t r v kwargs);
        [reflexivity | assumption ..].
    + reflexivity.
  - unfold py_call_static, bind_arguments.
    cbn [find_binding List.find black_scholes_bindings py_name].
    rewrite bool_decide_eq_true_2 by reflexivity.
    cbn [target annotations parameters length drop].
    rewrite bool_decide_eq_true_2 by (split; [simpl; lia | split; constructor]).
    cbn [mapM zip_with drop replicate app mbind option_bind mret option_ret fst snd].
    rewrite Hc1, Hc2, Hc3, Hc4, Hc5. reflexivity.
  - eapply py_call_static_unbound; [reflexivity |].
    apply bind_unannotated_keywords; [reflexivity |].
    intros ->. apply Permutation_nil_l in Hperm. discriminate.
Qed.

End Refinement.

(** ** Examples: calls on the reals, with draws from a tape *)

Section Witnesses.

#[local] Instance tape_sampler : Sampler R := TapeSampler 0%R.
#[local] Instance exact_casters : Casters (cxx_value R) R := ExactCasters R.

#[local] Abbreviation py_double x := (VDouble x%R : cxx_value R).


(** [engine.simulate_paths(100, 0.05, 0.2, 1, 3, 2)]. *)
Lemma python_simulate_paths_witness :
  let call := py_call_method (MonteCarloEngine_new 7) "simulate_paths"
                [py_double 100; py_double (dec 5 2); py_double (dec 2 1);
                 py_double 1; VInt 3; VInt 2] [] in
  ((INT_MIN <= 3 < INT_MAX)%Z -> (3 < -1 ∨ 2 < 0)%Z -> call = Raises ValueError) ∧
  (3 = -1 -> 1 <= 2 -> call = Undefined)%Z ∧
  (3%Z = INT_MAX -> call = Undefined) ∧
  ((0 <= 3 < INT_MAX)%Z -> (0 <= 2)%Z ->
   exists paths self',
     call = Returns (RMatrix paths, self') ∧
     length paths = trip_count 2 ∧
     Forall (fun row => length row = Datatypes.S (trip_count 3) ∧
                        row !! 0%nat = Some 100%R) paths).
Proof.
  apply (python_simulate_paths (MonteCarloEngine_new 7) _ _ _ _ _ _
           100%R (dec 5 2) (dec 2 1) 1%R 3 2); reflexivity.
Defined.

(** [call_price(K=100, S=100, T=1, r=0.05, sigma=0.2)]. *)
Lemma python_call_price_witness :
  let kwargs := [("K", py_double 100); ("S", py_double 100); ("T", py_double 1);
                 ("r", py_double (dec 5 2)); ("sigma", py_double (dec 2 1))]%string in
  py_call_static "call_price" [] kwargs
    = Returns (RDouble (call_price 100%R 100%R 1%R (dec 5 2) (dec 2 1))) ∧
  py_call_static "call_price"
      [py_double 100; py_double 100; py_double 1; py_double (dec 5 2);
       py_double (dec 2 1)] []
    = Returns (RDouble (call_price 100%R 100%R 1%R (dec 5 2) (dec 2 1))) ∧
  py_call_static "put_price" [] kwargs = Raises TypeError.
Proof.
  intros kwargs. apply python_call_price; try reflexivity. apply perm_swap.
Defined.

End Witnesses.
