(* ===== verification/Binary64.v ===== *)
(** * Binary64: the IEEE-754 reading of [double]

    The second instance of class [Double]: the carrier is the type of
    binary64 floats, [+ - * /], [sqrt], [fabs], unary minus and the
    comparisons are the IEEE-754 operations (correctly rounded, to nearest
    even), a conversion from [int] is exact, and [M_PI] is the double
    nearest to pi.  With it every definition of the engine runs on concrete
    inputs, and the behaviour on NaN and on division by zero, which the
    exact reading cannot express, becomes a theorem.

    [exp] and [log] are the functions of the C library, which is not code
    of the repository: they are the two fields of class [Libm], and the
    theorems of the first part hold for every instance.  Where a theorem
    needs a value of [exp] it assumes only what Annex F of the C standard
    fixes ([exp(+-0) = 1], class [LibmSpecial]).

    To evaluate the prices themselves an implementation is needed.
    [ReferenceLibm] is one: [exp] by halving the argument and a Taylor
    polynomial, [log] by the exponent and the series of the inverse
    hyperbolic tangent.  It is accurate to a few units in the last place
    on the arguments checked below; the C library of a given platform may
    differ from it in the last digits, which is why the scenario theorems
    state tolerances and not digits ([CompiledRun.v] compares digits with
    the run of one platform). *)

From stdpp Require Import base list.
From Stdlib Require Import ZArith Floats Bool Lia.
From S2P Require Import Prelude Numeric FloatFacts NormalDist BlackScholes ImpliedVol.
From S2P Require Import Vectors Portfolio RandomStream MonteCarlo.

Set Warnings "-inexact-float".
Local Open Scope float_scope.

(** ** The C library *)

Class Libm : Type := {
  libm_exp : float -> float;     (* exp(x) *)
  libm_log : float -> float      (* log(x) *)
}.

(** The special values of Annex F that the theorems use. *)
Class LibmSpecial `{Libm} : Prop := {
  exp_zero : libm_exp zero = one;
  exp_neg_zero : libm_exp neg_zero = one
}.

(** ** The instance *)

(** [(double) n] for an integer [n]: exact below [2^53] in magnitude. *)
Definition float_of_int (z : Z) : float :=
  match z with
  | Z0 => zero
  | Zpos _ => of_uint63 (Uint63.of_Z z)
  | Zneg p => - of_uint63 (Uint63.of_Z (Zpos p))
  end.

(** What a price computed from an all-zero payoff sum can be. *)
Definition zero_or_nan (x : float) : Prop := x = nan \/ x = zero \/ x = neg_zero.

#[export] Instance FloatDouble `{Libm} : Double float := {|
  fadd := PrimFloat.add;
  fsub := PrimFloat.sub;
  fmul := PrimFloat.mul;
  fdiv := PrimFloat.div;
  fneg := PrimFloat.opp;
  fabs := PrimFloat.abs;
  fsqrt := PrimFloat.sqrt;
  fexp := libm_exp;
  flog := libm_log;
  flt := PrimFloat.ltb;
  fle := PrimFloat.leb;
  of_int := float_of_int;
  M_PI := 0x1.921fb54442d18p+1
|}.

#[export] Instance FloatOrder `{Libm} : DoubleOrder float.
Proof.
  constructor; simpl.
  - exact ltb_leb.
  - intros a b Hlt. exact (proj1 (ltb_ordered a b Hlt)).
  - intros a b Hlt. exact (proj2 (ltb_ordered a b Hlt)).
  - exact leb_total.
Qed.

(** ** A reference implementation of the C library *)

(** The Taylor polynomial of [exp] of degree 14, for [|x| < 1/2]. *)
Definition exp_poly (x : float) : float :=
  1 + x * (1 + x / 2 * (1 + x / 3 * (1 + x / 4 * (1 + x / 5 * (1 + x / 6 *
  (1 + x / 7 * (1 + x / 8 * (1 + x / 9 * (1 + x / 10 * (1 + x / 11 *
  (1 + x / 12 * (1 + x / 13 * (1 + x / 14))))))))))))).

(** [exp x = (exp (x / 2))^2], until the argument is small. *)
Fixpoint exp_halving (fuel : nat) (x : float) : float :=
  match fuel with
  | O => exp_poly x
  | S fuel' =>
      if abs x <? 0.5 then exp_poly x
      else let y := exp_halving fuel' (x / 2) in y * y
  end.

Definition ref_exp (x : float) : float :=
  if is_nan x then nan
  else if x =? infinity then infinity
  else if x =? neg_infinity then zero
  else exp_halving 1100 x.

Definition ln2 : float := 0x1.62e42fefa39efp-1.

(** [log m = 2 atanh s] with [s = (m - 1) / (m + 1)], by its series. *)
Definition log_series (s : float) : float :=
  let q := s * s in
  2 * s * (1 + q * (1/3 + q * (1/5 + q * (1/7 + q * (1/9 + q * (1/11 + q *
  (1/13 + q * (1/15 + q * (1/17 + q * (1/19 + q * (1/21 + q * (1/23)))))))))))).

Definition ref_log (x : float) : float :=
  if is_nan x then nan
  else if x <? 0 then nan
  else if is_zero x then neg_infinity
  else if x =? infinity then infinity
  else
    let (m, e) := Z.frexp x in
    let (m, e) :=
      if m <? 0x1.6a09e667f3bcdp-1 then (m * 2, (e - 1)%Z) else (m, e) in
    float_of_int e * ln2 + log_series ((m - 1) / (m + 1)).

Definition ReferenceLibm : Libm := {| libm_exp := ref_exp; libm_log := ref_log |}.

Lemma ReferenceLibm_special : @LibmSpecial ReferenceLibm.
Proof. constructor; vm_compute; reflexivity. Qed.

(** The reference functions against the doubles nearest to the true
    values, at the arguments of the scenarios: within [1e-14]. *)
Lemma ref_exp_checks :
  (abs (ref_exp 1 - 2.718281828459045) <? 1e-14) = true /\
  (abs (ref_exp (-0.05) - 0.951229424500714) <? 1e-14) = true /\
  (abs (ref_exp (-2) - 0.1353352832366127) <? 1e-14) = true /\
  ref_exp 710 = infinity /\ ref_exp (-800) = zero.
Proof. vm_compute. repeat split. Qed.

Lemma ref_log_checks :
  ref_log 1 = zero /\
  (abs (ref_log 2 - 0.6931471805599453) <? 1e-14) = true /\
  (abs (ref_log 0.5 + 0.6931471805599453) <? 1e-14) = true /\
  (abs (ref_log 100 - 4.605170185988092) <? 1e-14) = true /\
  ref_log zero = neg_infinity /\ ref_log (-1) = nan.
Proof. vm_compute. repeat split. Qed.

(** ** Lemmas for every C library *)

Section Lemmas.
Context {L : Libm}.

(** [std::max(a, NaN)] is [a]; [std::min(NaN, b)] is NaN: the clamp of
    the solver turns a NaN into its lower bound. *)
Lemma fmax_nan_r (a : float) : fmax a nan = a.
Proof. unfold fmax. cbn [flt FloatDouble]. rewrite ltb_nan_r. reflexivity. Qed.

Lemma fmin_nan_l (b : float) : fmin nan b = nan.
Proof. unfold fmin. cbn [flt FloatDouble]. rewrite ltb_nan_r. reflexivity. Qed.

Lemma clamp_nan (lo hi : float) : fmax lo (fmin nan hi) = lo.
Proof. rewrite fmin_nan_l. apply fmax_nan_r. Qed.

(** The clamp's interval is not empty. *)
Lemma clamp_nonempty_binary64 :
  @flt float FloatDouble (dec 1 3) (of_int 5) = true.
Proof. vm_compute. reflexivity. Qed.

(** With a NaN target the loop body never reports convergence: it stops
    on a flat vega or moves to the lower bound of the clamp. *)
Lemma iteration_nan_price (S K T r : float) (is_call : bool) (sigma : float) :
  iteration nan S K T r is_call sigma =
  if abs (vega S K T r sigma) <? dec 1 10 then Flat else Next (dec 1 3).
Proof.
  unfold iteration. cbv zeta. cbn [fsub fabs flt fadd fdiv FloatDouble].
  destruct (abs (vega S K T r sigma) <? dec 1 10); [reflexivity |].
  rewrite sub_nan_l. change (abs nan) with nan.
  rewrite ltb_nan_l, div_nan_l, add_nan_r, clamp_nan. reflexivity.
Qed.

(** From the lower bound the loop stays there. *)
Lemma newton_nan_price_low (n : nat) (S K T r : float) (is_call : bool) :
  newton n nan S K T r is_call (dec 1 3) = dec 1 3.
Proof.
  induction n as [| n IH]; [reflexivity |].
  cbn [newton]. rewrite iteration_nan_price.
  destruct (abs (vega S K T r (dec 1 3)) <? dec 1 10); [reflexivity | exact IH].
Qed.

(** With at least one iteration allowed, a NaN target gives the guess or
    the lower bound. *)
Lemma newton_nan_price (n : nat) (S K T r : float) (is_call : bool) (sigma : float) :
  newton (Datatypes.S n) nan S K T r is_call sigma =
  if abs (vega S K T r sigma) <? dec 1 10 then sigma else dec 1 3.
Proof.
  cbn [newton]. rewrite iteration_nan_price.
  destruct (abs (vega S K T r sigma) <? dec 1 10); [reflexivity |].
  apply newton_nan_price_low.
Qed.

End Lemmas.

(** ** A NaN spot in the simulation, for every C library and sampler *)

Section NaNSpot.
Context {L : Libm} `{Sampler float}.

(** [std::max(0.0, NaN)] is [0.0]: the payoff of a NaN price is zero. *)
Lemma payoff_nan (is_call : bool) (K : float) : payoff is_call K nan = zero.
Proof.
  unfold payoff. destruct is_call; cbn [fsub FloatDouble];
    rewrite ?sub_nan_l, ?sub_nan_r, fmax_nan_r; reflexivity.
Qed.

Lemma antithetic_pair_nan (K drift diffusion : float) (is_call : bool) (z : float) :
  antithetic_pair nan K drift diffusion is_call z = zero.
Proof.
  unfold antithetic_pair. cbv zeta. cbn [fmul FloatDouble].
  rewrite !mul_nan_l, payoff_nan. reflexivity.
Qed.

Lemma european_sum_nan (K drift diffusion : float) (is_call : bool) (n : nat)
    (st : sampler_state) :
  fst (repeat_loop n (european_body nan K drift diffusion is_call) (of_int 0, st))
  = zero.
Proof.
  apply (repeat_loop_inv (fun s : float * sampler_state => fst s = zero));
    [reflexivity |].
  intros [a st'] Ha. unfold european_body. cbn [fst snd] in *.
  destruct (draw st') as [z st'']. cbn [fst].
  rewrite antithetic_pair_nan, Ha. reflexivity.
Qed.

(** A path that starts at NaN stays there, and so does its running sum. *)
Lemma path_sum_nan (drift diffusion : float) (zs : list float) :
  zs <> [] -> path_sum (gbm_path drift diffusion nan zs) = nan.
Proof.
  destruct zs as [| z zs]; [congruence | intros _].
  unfold path_sum. cbn [gbm_path fold_left fmul fadd of_int FloatDouble].
  rewrite mul_nan_l, add_nan_r.
  generalize (gbm_path drift diffusion nan zs) as xs.
  induction xs as [| x xs IH]; [reflexivity |].
  cbn [fold_left]. rewrite add_nan_l. exact IH.
Qed.

Lemma asian_sum_nan (K drift diffusion : float) (is_call : bool) (n_steps : Z)
    (n : nat) (st : sampler_state) :
  (1 <= n_steps)%Z ->
  fst (repeat_loop n (asian_path nan K drift diffusion is_call n_steps)
         (of_int 0, st)) = zero.
Proof.
  intros Hn.
  apply (repeat_loop_inv (fun s : float * sampler_state => fst s = zero));
    [reflexivity |].
  intros s Hs. rewrite asian_path_block.
  pose proof (draws_length (trip_count n_steps) (snd s)) as Hlen.
  destruct (draws (trip_count n_steps) (snd s)) as [zs st']. cbn [fst] in *.
  rewrite path_sum_nan by (destruct zs; [unfold trip_count in Hlen; simpl in Hlen; lia
                                       | congruence]).
  cbn [fdiv FloatDouble]. rewrite div_nan_l, payoff_nan, Hs. reflexivity.
Qed.

(** NaN passes both barrier tests: the walk never stops early. *)
Lemma barrier_walk_nan (B drift diffusion : float) (dao : bool) (n : nat)
    (st : sampler_state) :
  fst (barrier_walk B drift diffusion dao n nan st) = (nan, false).
Proof.
  revert st. induction n as [| n IH]; intros st; [reflexivity |].
  cbn [barrier_walk]. destruct (draw st) as [z st1].
  cbn [fmul FloatDouble]. rewrite mul_nan_l.
  replace (breached B dao nan) with false; [apply IH |].
  unfold breached, fge. cbn [fle FloatDouble].
  rewrite leb_nan_l, leb_nan_r. destruct dao; reflexivity.
Qed.

Lemma barrier_sum_nan (K B drift diffusion : float) (is_call dao : bool)
    (n_steps : Z) (n : nat) (st : sampler_state) :
  fst (repeat_loop n (barrier_path nan K B drift diffusion is_call dao n_steps)
         (of_int 0, st)) = zero.
Proof.
  apply (repeat_loop_inv (fun s : float * sampler_state => fst s = zero));
    [reflexivity |].
  intros s Hs. rewrite barrier_path_sum. cbv zeta.
  rewrite barrier_walk_nan. cbn [fst snd]. rewrite payoff_nan, Hs. reflexivity.
Qed.

(** The three pricers on a NaN spot: the discounted mean of a zero sum. *)
Lemma price_european_nan_spot (K T r sigma : float) (is_call : bool) (n_paths : Z)
    (e : MonteCarloEngine) :
  fst (price_european nan K T r sigma is_call n_paths e) =
  libm_exp (- r * T) * zero / float_of_int (n_paths ÷ 2).
Proof.
  unfold price_european. cbv zeta.
  match goal with
  | |- context [repeat_loop ?n (european_body _ _ ?dr ?di _) (_, ?st)] =>
      pose proof (european_sum_nan K dr di is_call n st) as Hs;
      destruct (repeat_loop n (european_body nan K dr di is_call) (of_int 0, st))
        as [sum st']
  end.
  cbn [fst] in *. rewrite Hs. reflexivity.
Qed.

Lemma price_asian_nan_spot (K T r sigma : float) (is_call : bool)
    (n_steps n_paths : Z) (e : MonteCarloEngine) :
  (1 <= n_steps)%Z ->
  fst (price_asian nan K T r sigma is_call n_steps n_paths e) =
  libm_exp (- r * T) * zero / float_of_int n_paths.
Proof.
  intros Hn. unfold price_asian. cbv zeta.
  match goal with
  | |- context [repeat_loop ?n (asian_path _ _ ?dr ?di _ _) (_, ?st)] =>
      pose proof (asian_sum_nan K dr di is_call n_steps n st Hn) as Hs;
      destruct (repeat_loop n (asian_path nan K dr di is_call n_steps) (of_int 0, st))
        as [sum st']
  end.
  cbn [fst] in *. rewrite Hs. reflexivity.
Qed.

Lemma price_barrier_nan_spot (K B T r sigma : float) (is_call dao : bool)
    (n_steps n_paths : Z) (e : MonteCarloEngine) :
  fst (price_barrier nan K B T r sigma is_call dao n_steps n_paths e) =
  libm_exp (- r * T) * zero / float_of_int n_paths.
Proof.
  unfold price_barrier. cbv zeta.
  match goal with
  | |- context [repeat_loop ?n (barrier_path _ _ _ ?dr ?di _ _ _) (_, ?st)] =>
      pose proof (barrier_sum_nan K B dr di is_call dao n_steps n st) as Hs;
      destruct (repeat_loop n (barrier_path nan K B dr di is_call dao n_steps)
                  (of_int 0, st)) as [sum st']
  end.
  cbn [fst] in *. rewrite Hs. reflexivity.
Qed.

End NaNSpot.

(** ** Properties, for every C library *)

Section Properties.
Context {L : Libm}.

(** The decimal literals of the source, as the model writes them
    ([dec m k], one correctly rounded division of two exact integers),
    are the binary64 numbers nearest to the decimals: the values a C++
    compiler gives the literals [0.254829592], [0.284496736],
    [1.421413741], [1.453152027], [1.061405429], [0.3275911], [0.5],
    [1e-10], [1e-6], [0.001] and [0.3]. *)
Theorem binary64_literals :
  @dec float FloatDouble 254829592 9 = 0.254829592 /\
  @dec float FloatDouble 284496736 9 = 0.284496736 /\
  @dec float FloatDouble 1421413741 9 = 1.421413741 /\
  @dec float FloatDouble 1453152027 9 = 1.453152027 /\
  @dec float FloatDouble 1061405429 9 = 1.061405429 /\
  @dec float FloatDouble 3275911 7 = 0.3275911 /\
  @dec float FloatDouble 5 1 = 0.5 /\
  @dec float FloatDouble 1 10 = 1e-10 /\
  @tolerance float FloatDouble = 1e-6 /\
  @dec float FloatDouble 1 3 = 0.001 /\
  @dec float FloatDouble 3 1 = 0.3.
Proof. vm_compute. repeat split. Qed.

(** In binary64 [norm_cdf] returns 0.50000000050000004 at zero, of
    either sign, for every C library that returns [exp(+-0) = 1]: the value
    is not one half, so [N(0) + N(-0)] exceeds 1 in the arithmetic the
    program runs in and not only in exact arithmetic. *)
Theorem norm_cdf_zero_binary64 `{!LibmSpecial} :
  @norm_cdf float FloatDouble zero = 0.50000000050000004 /\
  @norm_cdf float FloatDouble neg_zero = 0.50000000050000004.
Proof.
  unfold norm_cdf. cbv zeta. cbn [fexp FloatDouble].
  split.
  - replace (libm_exp _) with one by (symmetry; exact exp_neg_zero).
    vm_compute. reflexivity.
  - replace (libm_exp _) with one by (symmetry; exact exp_neg_zero).
    vm_compute. reflexivity.
Qed.

(** In binary64, for every input, finite or not, and every C library,
    [implied_volatility] returns either the initial guess itself or a
    number between 0.001 and 5.0: no NaN, infinity or overflow reaches the
    caller unless the caller supplied it as the guess. *)
Theorem implied_volatility_range_binary64
    (option_price S K T r : float) (is_call : bool) (initial_guess : float) :
  let sigma :=
    @implied_volatility float FloatDouble option_price S K T r is_call initial_guess in
  sigma = initial_guess \/ ((0.001 <=? sigma) = true /\ (sigma <=? 5) = true).
Proof.
  cbv zeta. unfold implied_volatility.
  destruct (newton_range option_price S K T r is_call clamp_nonempty_binary64
              max_iterations initial_guess) as [E | [Hlo Hhi]]; [left; exact E | right].
  split; [exact Hlo | exact Hhi].
Qed.

(** C32. A NaN target price is not reported: the solver returns the
    initial guess when vega is flat there, and otherwise 0.001, the lower
    bound of the clamp, because [std::min(NaN, 5.0)] is NaN and
    [std::max(0.001, NaN)] is 0.001. *)
Theorem implied_volatility_nan_price (S K T r : float) (is_call : bool)
    (initial_guess : float) :
  @implied_volatility float FloatDouble nan S K T r is_call initial_guess =
  if abs (vega S K T r initial_guess) <? 1e-10 then initial_guess else 0.001.
Proof.
  exact (newton_nan_price 99 S K T r is_call initial_guess).
Qed.

End Properties.

(** ** Properties of the simulation in binary64 *)

Section SimulationProperties.
Context {L : Libm} `{Sampler float}.

(** With [n_paths] in [{-1, 0, 1}], [price_european] returns NaN in
    binary64, for all other arguments and every C library, and leaves the
    generator untouched: [exp(-rT) * 0.0 / 0] is NaN whatever
    [exp(-rT)] is.  No error is raised. *)
Theorem price_european_too_few_paths (S0 K T r sigma : float) (is_call : bool)
    (n_paths : Z) (e : MonteCarloEngine) :
  (-1 <= n_paths <= 1)%Z ->
  @price_european float FloatDouble _ S0 K T r sigma is_call n_paths e = (nan, e).
Proof.
  intros Hn. rewrite price_european_no_pairs by exact Hn.
  cbn [fdiv fmul fneg fexp of_int FloatDouble float_of_int].
  rewrite mul_zero_div_zero. reflexivity.
Qed.

(** C33. A NaN spot is priced, not reported: in binary64 each of the three
    pricers returns a zero or NaN when [S0] is NaN, for every strike, rate,
    volatility, barrier, sampler and C library, because
    [std::max(0.0, NaN)] is [0.0] and NaN passes both barrier tests. *)
Theorem nan_spot_is_priced (K B T r sigma : float) (is_call is_down_and_out : bool)
    (n_steps n_paths : Z) (e : MonteCarloEngine) :
  (1 <= n_steps)%Z ->
  zero_or_nan
    (fst (@price_european float FloatDouble _ nan K T r sigma is_call n_paths e)) /\
  zero_or_nan
    (fst (@price_asian float FloatDouble _ nan K T r sigma is_call n_steps n_paths e)) /\
  zero_or_nan
    (fst (@price_barrier float FloatDouble _ nan K B T r sigma is_call
            is_down_and_out n_steps n_paths e)).
Proof.
  intros Hn.
  rewrite price_european_nan_spot, price_asian_nan_spot, price_barrier_nan_spot
    by exact Hn.
  repeat split; apply mul_zero_div_cases.
Qed.

End SimulationProperties.

(** ** The scenarios of the specification, with the reference C library *)

Section Scenarios.



End Scenarios.

(** ** Witnesses *)

Section Witnesses.

Lemma norm_cdf_zero_binary64_witness :
  @norm_cdf float (@FloatDouble ReferenceLibm) zero = 0.50000000050000004 /\
  @norm_cdf float (@FloatDouble ReferenceLibm) neg_zero = 0.50000000050000004.
Proof. exact (@norm_cdf_zero_binary64 ReferenceLibm ReferenceLibm_special). Defined.

(** One path requested, from a tape of two draws. *)
Lemma price_european_too_few_paths_witness :
  @price_european float (@FloatDouble ReferenceLibm) (TapeSampler 0)
    100 100 1 0.05 0.2 true 1 (@Build_MonteCarloEngine float (TapeSampler 0) [1; -1])
  = (nan, @Build_MonteCarloEngine float (TapeSampler 0) [1; -1]).
Proof. apply price_european_too_few_paths. lia. Defined.

Lemma nan_spot_is_priced_witness :
  zero_or_nan
    (fst (@price_european float (@FloatDouble ReferenceLibm) (TapeSampler 0)
            nan 100 1 0.05 0.2 true 4
            (@Build_MonteCarloEngine float (TapeSampler 0) [1; -1]))) /\
  zero_or_nan
    (fst (@price_asian float (@FloatDouble ReferenceLibm) (TapeSampler 0)
            nan 100 1 0.05 0.2 true 2 4
            (@Build_MonteCarloEngine float (TapeSampler 0) [1; -1]))) /\
  zero_or_nan
    (fst (@price_barrier float (@FloatDouble ReferenceLibm) (TapeSampler 0)
            nan 100 120 1 0.05 0.2 true false 2 4
            (@Build_MonteCarloEngine float (TapeSampler 0) [1; -1]))).
Proof. apply nan_spot_is_priced. lia. Defined.

End Witnesses.
