(* ===== verification/NormalSampler.v ===== *)
(** * NormalSampler: [std::normal_distribution<double>] on [std::mt19937]

    The instance of the interface [Sampler] that the compiled engine
    runs with: the generator of [MersenneTwister.v] and the normal
    distribution of libstdc++ ([bits/random.h], [bits/random.tcc]), in
    binary64 with the C library of [Binary64.v].

    A draw of the distribution is one of a pair.  The pair is produced
    by the polar method: two values uniform in [-1, 1), each from one
    call of [std::generate_canonical<double, 53>] (two outputs of the
    generator), are drawn again until the point they form lies in the
    unit disc and is not its centre; the pair is the point scaled by
    [sqrt(-2 log(r2) / r2)].  The call returns the second coordinate and
    saves the first one in the distribution object, and the next call on
    that object returns the saved value without touching the generator.
    The methods of the engine construct their distribution object
    afresh, so a value saved when a method returns is lost, and the next
    method starts a new pair.

    The rejection loop has no bound in the library.  Here it takes a
    number of attempts [fuel], and the draw of the interface is NaN when
    they are used up.  A loop that returns with some fuel returns the
    same with more ([polar_fuel_le]), so do the draws and the prices
    ([draws_fuel_enough], [price_european_fuel_enough]), and the
    evaluations of [CompiledRun.v] return with the fuel chosen there;
    the chance that one attempt is rejected is [1 - pi/4], that [64]
    in a row are is below [10^-42].

    The functions of the library are templates over the generator, and
    are modelled so: a section over a type of states and the function
    [next] that returns a word and the next state, instantiated with
    [mt_next] in the sampler.

    Proved: every draw keeps the invariant of the generator, hence so
    does every session of calls on an engine
    ([engine_generator_invariant]); the outputs of the generator of a
    seeded engine are the tempered words of the recurrence that defines
    [mt19937] ([engine_outputs_recurrence]); the draws of a method are
    the values of the pairs in order, one run of the loop for two draws
    ([normal_stream], [normal_pair]), so that a session split into
    calls differently sees other draws ([split_calls_skip]); the
    accepted point satisfies the exit condition of the loop
    ([polar_accepts]) and the loop reads four words of the generator
    per attempt ([polar_rng]). *)

From stdpp Require Import base list.
From Stdlib Require Import ZArith Floats Lia.
From S2P Require Import Prelude Numeric FloatFacts RandomStream MersenneTwister.
From S2P Require Import MonteCarlo Session Binary64.

Set Warnings "-inexact-float".
Local Open Scope float_scope.

(** ** [std::generate_canonical<double, 53>] *)

(** [std::numeric_limits<double>::digits], and [log2] of the range
    [__r = max() - min() + 1 = 2^32] of the generator. *)
Definition digits : nat := 53.
Definition log2_range : nat := 32.
Definition urng_range : float := 0x1p32.

(** [__m = max(1, (__b + __log2r - 1) / __log2r)]: the outputs that one
    canonical value takes, two. *)
Definition canonical_calls : nat :=
  Nat.max 1 ((Nat.min digits 53 + log2_range - 1) / log2_range).

(** The object [std::normal_distribution<double>]: its parameters,
    [_M_saved] and [_M_saved_available]. *)
Record normal_distribution : Type := {
  mean : float;
  stddev : float;
  saved : float;
  saved_available : bool
}.

(** [std::normal_distribution<double> norm(mean, stddev)]. *)
Definition normal_distribution_new (m s : float) : normal_distribution :=
  {| mean := m; stddev := s; saved := 0; saved_available := false |}.

(** The functions of the library are templates over the generator: a
    type [G] of states and [urng()], which returns a word and the next
    state. *)
Section Urng.
Context {G : Type}.
Variable next : G -> Z * G.

(** The generator after [k] outputs. *)
Definition after_outputs (k : nat) (g : G) : G :=
  Nat.iter k (fun g => snd (next g)) g.

(** One iteration of the loop, on ([__sum], [__tmp], generator):
    [__sum += double(urng() - urng.min()) * __tmp; __tmp *= __r]. *)
Definition canonical_step (s : float * float * G) : float * float * G :=
  let u := next (snd s) in
  (fst (fst s) + float_of_int (fst u - 0) * snd (fst s),
   snd (fst s) * urng_range,
   snd u).

(** [__ret = __sum / __tmp], and [nextafter(1, 0)] when that is not
    below one. *)
Definition generate_canonical (g : G) : float * G :=
  let s := repeat_loop canonical_calls canonical_step (0, 1, g) in
  let ret := fst (fst s) / snd (fst s) in
  (if 1 <=? ret then next_down 1 else ret, snd s).

(** ** [std::normal_distribution<double>::operator()] *)

(** A point of the polar method: [__x], [__y], [__r2] and the generator
    after it. *)
Record polar_point : Type := {
  point_x : float;
  point_y : float;
  point_r2 : float;
  point_rng : G
}.

(** The body of the loop:
    [x = 2.0 * aurng() - 1.0; y = 2.0 * aurng() - 1.0; r2 = x * x + y * y]. *)
Definition attempt (g : G) : polar_point :=
  let a := generate_canonical g in
  let x := 2 * fst a - 1 in
  let b := generate_canonical (snd a) in
  let y := 2 * fst b - 1 in
  {| point_x := x; point_y := y; point_r2 := x * x + y * y; point_rng := snd b |}.

(** Its condition: [r2 > 1.0 || r2 == 0.0]. *)
Definition rejected (p : polar_point) : bool :=
  (1 <? point_r2 p) || (point_r2 p =? 0).

(** The loop [do { ... } while (r2 > 1.0 || r2 == 0.0)], with a bound on
    its attempts. *)
Fixpoint polar (fuel : nat) (g : G) : option polar_point :=
  match fuel with
  | O => None
  | S fuel' =>
      let p := attempt g in
      if rejected p then polar fuel' (point_rng p) else Some p
  end.

(** The attempts the loop makes: the rejected ones and the accepted
    one. *)
Fixpoint attempts (fuel : nat) (g : G) : nat :=
  match fuel with
  | O => O
  | S fuel' =>
      let p := attempt g in
      if rejected p then S (attempts fuel' (point_rng p)) else 1%nat
  end.

Context {L : Libm}.

(** [__mult = std::sqrt(-2 * std::log(__r2) / __r2)]. *)
Definition polar_mult (r2 : float) : float := sqrt (-2 * libm_log r2 / r2).

(** The value before scaling, the object and the generator after the
    call: the saved value if there is one, a new pair if not. *)
Definition normal_next (fuel : nat) (d : normal_distribution) (g : G)
  : option (float * (normal_distribution * G)) :=
  if saved_available d then
    Some (saved d,
          ({| mean := mean d; stddev := stddev d;
              saved := saved d; saved_available := false |}, g))
  else
    p ← polar fuel g;
    let mult := polar_mult (point_r2 p) in
    Some (point_y p * mult,
          ({| mean := mean d; stddev := stddev d;
              saved := point_x p * mult; saved_available := true |}, point_rng p)).

(** [norm(urng)]: [__ret * stddev + mean]. *)
Definition normal_sample (fuel : nat) (d : normal_distribution) (g : G)
  : option (float * (normal_distribution * G)) :=
  r ← normal_next fuel d g;
  Some (fst r * stddev d + mean d, snd r).

End Urng.

Arguments point_x {G} _.
Arguments point_y {G} _.
Arguments point_r2 {G} _.
Arguments point_rng {G} _.
Arguments rejected {G} _.

(** The sampler of the compiled engine: [std::mt19937 rng], seeded by
    the constructor; [std::normal_distribution<double> norm(0.0, 1.0)];
    [norm(rng)]. *)
Definition LibstdcxxSampler {L : Libm} (fuel : nat) : Sampler float := {|
  engine := mt19937;
  dist := normal_distribution;
  seed_engine := mt_seed;
  dist_new := normal_distribution_new 0 1;
  sample := fun d g => default (nan, (d, g)) (normal_sample mt_next fuel d g)
|}.

(** ** Draws, calls and sessions on the sampler *)

(** The next [n] draws, when each of them returns within [fuel]
    attempts. *)
Fixpoint normal_draws {L : Libm} (fuel n : nat) (st : normal_distribution * mt19937)
  : option (list float * (normal_distribution * mt19937)) :=
  match n with
  | O => Some ([], st)
  | S n' =>
      r ← normal_sample mt_next fuel (fst st) (snd st);
      rs ← normal_draws fuel n' (snd r);
      Some (fst r :: fst rs, snd rs)
  end.

(** The values of [k] runs of the loop on a distribution with mean [mu]
    and deviation [sd], two per run in the order the distribution
    returns them, and the generator after the runs. *)
Fixpoint normal_pairs {L : Libm} (fuel k : nat) (mu sd : float) (g : mt19937)
  : option (list float * mt19937) :=
  match k with
  | O => Some ([], g)
  | S k' =>
      p ← polar mt_next fuel g;
      r ← normal_pairs fuel k' mu sd (point_rng p);
      let m := polar_mult (point_r2 p) in
      Some (point_y p * m * sd + mu :: point_x p * m * sd + mu :: fst r, snd r)
  end.

(** The state a method starts to draw from: its new distribution object
    and the generator of the engine. *)
Definition fresh (g : mt19937) : normal_distribution * mt19937 :=
  (normal_distribution_new 0 1, g).

(** The engine whose generator is in the state [g]. *)
Definition engine_at {L : Libm} (fuel : nat) (g : mt19937)
  : @MonteCarloEngine float (LibstdcxxSampler fuel) :=
  @Build_MonteCarloEngine float (LibstdcxxSampler fuel) g.






(** ** The loop and the generator *)

Section UrngLemmas.
Context {G : Type} (next : G -> Z * G).
Implicit Types (g : G) (p : polar_point (G := G)).

Lemma after_outputs_add (j k : nat) g :
  after_outputs next (j + k) g = after_outputs next j (after_outputs next k g).
Proof. apply Nat.iter_add. Qed.

Lemma generate_canonical_rng g :
  snd (generate_canonical next g) = after_outputs next 2 g.
Proof. reflexivity. Qed.

Lemma attempt_rng g : point_rng (attempt next g) = after_outputs next 4 g.
Proof. reflexivity. Qed.

Lemma polar_S (fuel : nat) g :
  polar next (S fuel) g =
  if rejected (attempt next g) then polar next fuel (point_rng (attempt next g))
  else Some (attempt next g).
Proof. reflexivity. Qed.

(** What the loop returns was tried and not rejected. *)
Lemma polar_accepts (fuel : nat) g p :
  polar next fuel g = Some p ->
  rejected p = false /\
  point_r2 p = point_x p * point_x p + point_y p * point_y p.
Proof.
  revert g. induction fuel as [| fuel IH]; intros g; [done |].
  rewrite polar_S. destruct (rejected (attempt next g)) eqn:Hr; [apply IH |].
  by intros [= <-].
Qed.

(** More attempts allowed do not change what the loop returns. *)
Lemma polar_fuel_le (fuel fuel' : nat) g p :
  polar next fuel g = Some p -> (fuel ≤ fuel')%nat -> polar next fuel' g = Some p.
Proof.
  revert fuel' g. induction fuel as [| fuel IH]; intros fuel' g; [done |].
  intros Hp Hle. destruct fuel' as [| fuel']; [lia |].
  rewrite polar_S in *. destruct (rejected (attempt next g)); [| done].
  apply (IH fuel'); [done | lia].
Qed.

(** A loop that returns has taken four outputs of the generator per
    attempt. *)
Lemma polar_rng (fuel : nat) g p :
  polar next fuel g = Some p ->
  point_rng p = after_outputs next (4 * attempts next fuel g) g.
Proof.
  revert g. induction fuel as [| fuel IH]; intros g; [done |].
  rewrite polar_S. cbn [attempts]. destruct (rejected (attempt next g)).
  - intros Hp. rewrite (IH _ Hp), attempt_rng.
    replace (4 * S (attempts next fuel (after_outputs next 4 g)))%nat
      with (4 * attempts next fuel (after_outputs next 4 g) + 4)%nat by lia.
    by rewrite after_outputs_add.
  - intros [= <-]. apply attempt_rng.
Qed.

Context {L : Libm}.
Implicit Types (d : normal_distribution).

(** A call on an object that holds a saved value returns it and leaves
    the generator alone. *)
Lemma normal_sample_saved (fuel : nat) d g :
  saved_available d = true ->
  normal_sample next fuel d g =
  Some (saved d * stddev d + mean d,
        ({| mean := mean d; stddev := stddev d;
            saved := saved d; saved_available := false |}, g)).
Proof. intros Hd. unfold normal_sample, normal_next. by rewrite Hd. Qed.

(** A call on an object that holds none runs the loop, returns the
    second coordinate of the scaled point and saves the first. *)
Lemma normal_sample_fresh (fuel : nat) d g p :
  saved_available d = false -> polar next fuel g = Some p ->
  normal_sample next fuel d g =
  Some (point_y p * polar_mult (point_r2 p) * stddev d + mean d,
        ({| mean := mean d; stddev := stddev d;
            saved := point_x p * polar_mult (point_r2 p);
            saved_available := true |}, point_rng p)).
Proof. intros Hd Hp. unfold normal_sample, normal_next. by rewrite Hd, Hp. Qed.

Lemma normal_sample_fuel_le (fuel fuel' : nat) d g r :
  normal_sample next fuel d g = Some r -> (fuel ≤ fuel')%nat ->
  normal_sample next fuel' d g = Some r.
Proof.
  unfold normal_sample, normal_next. destruct (saved_available d); [done |].
  destruct (polar next fuel g) as [p |] eqn:Hp; [| done].
  intros Hr Hle. by rewrite (polar_fuel_le _ _ _ _ Hp Hle).
Qed.

(** The generator after a call: untouched, or after the outputs of the
    loop. *)
Lemma normal_sample_rng (fuel : nat) d g r :
  normal_sample next fuel d g = Some r ->
  snd (snd r) =
  after_outputs next (if saved_available d then 0 else 4 * attempts next fuel g) g.
Proof.
  unfold normal_sample, normal_next. destruct (saved_available d).
  - by intros [= <-].
  - destruct (polar next fuel g) as [p |] eqn:Hp; [| done].
    intros [= <-]. cbn [snd mbind option_bind]. by apply polar_rng.
Qed.

(** A property of the generator that [urng()] keeps. *)
Section Keeps.
Variable ok : G -> Prop.
Hypothesis next_ok : forall g, ok g -> ok (snd (next g)).

Lemma after_outputs_ok (k : nat) g : ok g -> ok (after_outputs next k g).
Proof. intros Hg. induction k as [| k IH]; [done |]. by apply next_ok. Qed.

Lemma polar_ok (fuel : nat) g p : ok g -> polar next fuel g = Some p -> ok (point_rng p).
Proof. intros Hg Hp. rewrite (polar_rng _ _ _ Hp). by apply after_outputs_ok. Qed.

Lemma normal_sample_ok (fuel : nat) d g r :
  ok g -> normal_sample next fuel d g = Some r -> ok (snd (snd r)).
Proof. intros Hg Hr. rewrite (normal_sample_rng _ _ _ _ Hr). by apply after_outputs_ok. Qed.

End Keeps.
End UrngLemmas.

(** ** The sampler of the engine *)

Section Sampler.
Context {L : Libm}.
Variable fuel : nat.
Local Abbreviation sampler := (LibstdcxxSampler fuel).

Lemma sample_unfold (d : normal_distribution) (g : mt19937) :
  @sample _ sampler d g = default (nan, (d, g)) (normal_sample mt_next fuel d g).
Proof. reflexivity. Qed.

(** Every draw keeps the invariant of the generator. *)
Lemma sample_ok (d : normal_distribution) (g : mt19937) :
  mt_ok g -> mt_ok (snd (snd (@sample _ sampler d g))).
Proof.
  intros Hg. rewrite sample_unfold.
  destruct (normal_sample mt_next fuel d g) as [r |] eqn:Hr; [| done].
  by apply (normal_sample_ok mt_next mt_ok mt_next_ok fuel d g r).
Qed.

Lemma draws_ok (n : nat) (st : normal_distribution * mt19937) :
  mt_ok (snd st) -> mt_ok (snd (snd (@draws _ sampler n st))).
Proof. apply (draws_keeps (H := sampler) mt_ok). intros d g. apply sample_ok. Qed.

End Sampler.

(** ** Enough attempts *)

Section Fuel.
Context {L : Libm}.

Lemma normal_draws_fuel_le (fuel fuel' n : nat) st rs :
  normal_draws fuel n st = Some rs -> (fuel ≤ fuel')%nat ->
  normal_draws fuel' n st = Some rs.
Proof.
  intros Hrs Hle. revert st rs Hrs. induction n as [| n IH]; intros st rs; [done |].
  cbn [normal_draws].
  destruct (normal_sample mt_next fuel (fst st) (snd st)) as [r |] eqn:Hr; [| done].
  rewrite (normal_sample_fuel_le _ _ _ _ _ _ Hr Hle). cbn [mbind option_bind].
  destruct (normal_draws fuel n (snd r)) as [rs' |] eqn:Hrs'; [| done].
  by rewrite (IH _ _ Hrs').
Qed.

Lemma draw_normal_sample (fuel : nat) (st : normal_distribution * mt19937) r :
  normal_sample mt_next fuel (fst st) (snd st) = Some r ->
  @draw _ (LibstdcxxSampler fuel) st = r.
Proof.
  destruct st as [d g]. cbn [fst snd]. intros Hr.
  unfold draw. cbn [fst snd]. by rewrite sample_unfold, Hr.
Qed.

(** Draws that return are the draws of the sampler. *)
Lemma draws_normal_draws (fuel n : nat) st rs :
  normal_draws fuel n st = Some rs -> @draws _ (LibstdcxxSampler fuel) n st = rs.
Proof.
  revert st rs. induction n as [| n IH]; intros st rs; [by intros [= <-] |].
  cbn [normal_draws]. rewrite draws_cons.
  destruct (normal_sample mt_next fuel (fst st) (snd st)) as [r |] eqn:Hr; [| done].
  rewrite (draw_normal_sample _ _ _ Hr). destruct r as [z st1].
  cbn [mbind option_bind fst snd].
  destruct (normal_draws fuel n st1) as [rs' |] eqn:Hrs'; [| done].
  intros [= <-]. by rewrite (IH _ _ Hrs').
Qed.

(** The draws on an object that holds no saved value are the values of
    the pairs, as many runs of the loop as half the draws, rounded up;
    of the last pair of an odd number of draws, the second value stays
    in the object. *)
Lemma normal_draws_pairs (fuel n : nat) (d : normal_distribution) (g : mt19937) vs g' :
  saved_available d = false ->
  normal_pairs fuel (Nat.div2 (S n)) (mean d) (stddev d) g = Some (vs, g') ->
  exists d',
    normal_draws fuel n (d, g) = Some (take n vs, (d', g')) /\
    mean d' = mean d /\ stddev d' = stddev d /\
    saved_available d' = Nat.odd n.
Proof.
  revert d g vs g'. induction n as [n IH] using lt_wf_ind. intros d g vs g' Hd.
  destruct n as [| [| n]].
  - intros [= <- <-]. by exists d.
  - cbn [Nat.div2 normal_pairs normal_draws fst snd].
    destruct (polar mt_next fuel g) as [p |] eqn:Hp; [| done].
    rewrite (normal_sample_fresh _ _ _ _ _ Hd Hp).
    intros [= <- <-]. by eexists.
  - change (Nat.div2 (S (S (S n)))) with (S (Nat.div2 (S n))).
    cbn [normal_pairs normal_draws fst snd].
    destruct (polar mt_next fuel g) as [p |] eqn:Hp; [| done].
    rewrite (normal_sample_fresh _ _ _ _ _ Hd Hp). cbn [mbind option_bind fst snd].
    rewrite normal_sample_saved by done. cbn [mbind option_bind fst snd mean stddev].
    destruct (normal_pairs fuel _ _ _ (point_rng p)) as [[ws g1] |] eqn:Hws; [| done].
    intros [= <- <-].
    edestruct (IH n) as (d' & -> & Hm & Hs & Ha); [lia | | exact Hws |]; [done |].
    exists d'. by rewrite Ha, Nat.odd_succ_succ.
Qed.




Lemma normal_pairs_length (fuel k : nat) (mu sd : float) g vs g' :
  normal_pairs fuel k mu sd g = Some (vs, g') -> length vs = (2 * k)%nat.
Proof.
  revert g vs g'. induction k as [| k IH]; intros g vs g'; [by intros [= <- _] |].
  cbn [normal_pairs]. destruct (polar mt_next fuel g) as [p |]; [| done].
  cbn [mbind option_bind].
  destruct (normal_pairs fuel k mu sd (point_rng p)) as [[ws g1] |] eqn:Hws; [| done].
  intros [= <- _]. cbn [length fst]. rewrite (IH _ _ _ Hws). lia.
Qed.

(** One draw and two draws on a fresh object, after a loop that
    returns. *)
Lemma normal_stream_steps (fuel : nat) g (p : polar_point) :
  polar mt_next fuel g = Some p ->
  let m := polar_mult (point_r2 p) in
  let fresh := (normal_distribution_new 0 1, g) in
  fst (@draws _ (LibstdcxxSampler fuel) 2 fresh)
    = [point_y p * m * 1 + 0; point_x p * m * 1 + 0] /\
  fst (@draws _ (LibstdcxxSampler fuel) 1 fresh) = [point_y p * m * 1 + 0] /\
  snd (snd (@draws _ (LibstdcxxSampler fuel) 1 fresh)) = point_rng p.
Proof.
  intros Hp m fresh.
  assert (normal_pairs fuel 1 0 1 g
          = Some ([point_y p * m * 1 + 0; point_x p * m * 1 + 0], point_rng p)) as H1
    by (cbn [normal_pairs]; by rewrite Hp).
  destruct (normal_draws_pairs fuel 2 (normal_distribution_new 0 1) g _ _ eq_refl H1)
    as (d2 & Hd2 & _).
  destruct (normal_draws_pairs fuel 1 (normal_distribution_new 0 1) g _ _ eq_refl H1)
    as (d1 & Hd1 & _).
  subst fresh. by rewrite (draws_normal_draws _ _ _ _ Hd2), (draws_normal_draws _ _ _ _ Hd1).
Qed.

End Fuel.

(** ** The engine on this sampler *)

Section Engine.
Context {L : Libm}.
Implicit Types (fuel : nat) (g : mt19937) (seed : Z).


Lemma mt_outputs_after (k : nat) g :
  snd (mt_outputs k g) = after_outputs mt_next k g.
Proof.
  revert g. induction k as [| k IH]; intros g; [done |].
  rewrite mt_outputs_S. cbn [snd]. rewrite IH.
  unfold after_outputs. by rewrite Nat.iter_succ_r.
Qed.





(** C22. The invariant of the generator holds when the constructor returns
    and after every session of calls on the engine that returns,
    whatever the arguments of the calls and however many attempts the
    rejection loop is allowed. *)
Theorem engine_generator_invariant fuel seed (cs : list (call float)) :
  Forall int_arguments cs ->
  match run cs (@MonteCarloEngine_new float (LibstdcxxSampler fuel) seed) with
  | Done (rs, e') => mt_ok (rng e')
  | Fault _ => True
  end.
Proof.
  intros Hcs. destruct (run cs _) as [[rs e'] | f] eqn:Hrun; [| done].
  apply (run_keeps (H0 := LibstdcxxSampler fuel) mt_ok cs _ rs e'
           (sample_ok fuel) Hcs Hrun).
  apply mt_seed_ok.
Qed.

(** C21. The words that the generator of a constructed engine puts out are
    the tempered words of the sequence that defines [mt19937], started
    from the seeded state: regeneration in place, 624 words at a time,
    is not visible in the output. *)
Theorem engine_outputs_recurrence fuel seed (k : nat) :
  fst (mt_outputs k (rng (@MonteCarloEngine_new float (LibstdcxxSampler fuel) seed))) =
  map temper (take k (drop state_size (mt_sequence k (mt_x (mt_seed seed))))).
Proof.
  change (rng (@MonteCarloEngine_new float (LibstdcxxSampler fuel) seed))
    with (mt_seed seed).
  apply (mt_outputs_window k k (mt_seed seed) (mt_seed_ok seed)).
  unfold mt_seed; cbn [mt_p]. lia.
Qed.

(** Two draws on a fresh distribution object are the two coordinates of
    one accepted point, the second coordinate first; the generator is
    read by the first draw only, four words per attempt. *)
Theorem normal_pair fuel g (p : polar_point) :
  polar mt_next fuel g = Some p ->
  let m := polar_mult (point_r2 p) in
  @draws _ (LibstdcxxSampler fuel) 2 (normal_distribution_new 0 1, g) =
  ([point_y p * m * 1 + 0; point_x p * m * 1 + 0],
   ({| mean := 0; stddev := 1; saved := point_x p * m; saved_available := false |},
    snd (mt_outputs (4 * attempts mt_next fuel g) g))).
Proof.
  intros Hp m. rewrite mt_outputs_after, <- (polar_rng _ _ _ _ Hp).
  apply draws_normal_draws. cbn [normal_draws fst snd].
  rewrite (normal_sample_fresh _ _ (normal_distribution_new 0 1) _ _ eq_refl Hp). cbn [mbind option_bind fst snd].
  by rewrite normal_sample_saved.
Qed.

(** C30. The draws of one method, which start on a fresh distribution
    object, are the values of the pairs in order, one run of the
    rejection loop for every two draws; the generator is left after the
    last run, and when the number of draws is odd the second value of
    the last pair is never returned. *)
Theorem normal_stream fuel (n : nat) g (vs : list float) (g' : mt19937) :
  normal_pairs fuel (Nat.div2 (S n)) 0 1 g = Some (vs, g') ->
  let r := @draws _ (LibstdcxxSampler fuel) n (normal_distribution_new 0 1, g) in
  fst r = take n vs /\ snd (snd r) = g' /\ length vs = (n + Nat.b2n (Nat.odd n))%nat.
Proof.
  intros Hvs r.
  destruct (normal_draws_pairs fuel n (normal_distribution_new 0 1) g vs g' eq_refl Hvs)
    as (d' & Hd & _).
  subst r. rewrite (draws_normal_draws _ _ _ _ Hd). cbn [fst snd].
  split; [done | split; [done |]]. rewrite (normal_pairs_length _ _ _ _ _ _ _ Hvs).
  pose proof (Nat.div2_odd (S n)) as Hn. rewrite Nat.odd_succ, <- Nat.negb_odd in Hn.
  destruct (Nat.odd n); cbn [negb Nat.b2n] in *; lia.
Qed.

(** A session split into calls sees other draws: on one distribution
    object two draws are the two values of a pair, but two calls that
    take one draw each see the first values of two pairs. *)
Theorem split_calls_skip fuel g (v0 v1 v2 v3 : float) (g' : mt19937) :
  normal_pairs fuel 2 0 1 g = Some ([v0; v1; v2; v3], g') ->
  let fresh g := (normal_distribution_new 0 1, g) in
  let call1 := @draws _ (LibstdcxxSampler fuel) 1 (fresh g) in
  let call2 := @draws _ (LibstdcxxSampler fuel) 1 (fresh (snd (snd call1))) in
  fst (@draws _ (LibstdcxxSampler fuel) 2 (fresh g)) = [v0; v1] /\
  fst call1 = [v0] /\ fst call2 = [v2] /\ snd (snd call2) = g'.
Proof.
  cbn [normal_pairs].
  destruct (polar mt_next fuel g) as [p |] eqn:Hp; [| done]. cbn [mbind option_bind].
  destruct (polar mt_next fuel (point_rng p)) as [q |] eqn:Hq; [| done].
  cbn [mbind option_bind fst snd]. intros [= <- <- <- <- <-].
  pose proof (normal_stream_steps fuel g p Hp) as Hs. cbv zeta in Hs.
  pose proof (normal_stream_steps fuel (point_rng p) q Hq) as Hs'. cbv zeta in Hs'.
  destruct Hs as (H2 & H1 & Hg), Hs' as (_ & H1' & Hg').
  by rewrite Hg, H1, H2, H1', Hg'.
Qed.

(** Draws that return within [fuel] attempts each are the draws of the
    sampler with any larger bound. *)
Theorem draws_fuel_enough fuel fuel' (n : nat) (st : normal_distribution * mt19937)
    (rs : list float * (normal_distribution * mt19937)) :
  normal_draws fuel n st = Some rs -> (fuel ≤ fuel')%nat ->
  @draws _ (LibstdcxxSampler fuel') n st = rs.
Proof. intros Hrs Hle. by eapply draws_normal_draws, normal_draws_fuel_le. Qed.


(** [price_european] returns, and returns the estimator over the draws,
    as soon as the rejection loop is allowed the attempts that those
    draws take: the bound on the loop does not show in the price. *)
Theorem price_european_fuel_enough fuel fuel' (S0 K T r sigma : float)
    (is_call : bool) (n_paths : Z) g
    (rs : list float * (normal_distribution * mt19937)) :
  normal_draws fuel (trip_count (n_paths ÷ 2)) (normal_distribution_new 0 1, g)
    = Some rs ->
  (fuel ≤ fuel')%nat ->
  @price_european float FloatDouble (LibstdcxxSampler fuel')
    S0 K T r sigma is_call n_paths (engine_at fuel' g) =
  (european_estimate S0 K T r sigma is_call n_paths (fst rs),
   engine_at fuel' (snd (snd rs))).
Proof.
  intros Hrs Hle. unfold price_european, european_estimate. cbv zeta.
  rewrite european_loop. unfold engine_at. cbn [rng dist_new LibstdcxxSampler].
  set (x := draws _ _). assert (x = rs) as ->; [| done].
  by eapply draws_normal_draws, normal_draws_fuel_le.
Qed.

End Engine.

(** ** Witnesses *)

Section Witnesses.
#[local] Existing Instance ReferenceLibm.

Lemma engine_generator_invariant_witness :
  match
    run [European 100 100 1 0.05 0.2 true 4; Asian 100 100 1 0.05 0.2 false 3 1]
      (@MonteCarloEngine_new float (LibstdcxxSampler 64) 42)
  with
  | Done (rs, e') => mt_ok (rng e')
  | Fault _ => True
  end.
Proof.
  apply (engine_generator_invariant 64 42).
  repeat apply List.Forall_cons; try exact I. apply List.Forall_nil.
Defined.


Lemma normal_pair_witness :
  let p := default (attempt mt_next (mt_seed 42)) (polar mt_next 64 (mt_seed 42)) in
  let m := polar_mult (point_r2 p) in
  @draws _ (LibstdcxxSampler 64) 2 (normal_distribution_new 0 1, mt_seed 42) =
  ([point_y p * m * 1 + 0; point_x p * m * 1 + 0],
   ({| mean := 0; stddev := 1; saved := point_x p * m; saved_available := false |},
    snd (mt_outputs (4 * attempts mt_next 64 (mt_seed 42)) (mt_seed 42)))).
Proof.
  intros p. apply (normal_pair 64 (mt_seed 42) p). vm_compute. reflexivity.
Defined.

Lemma normal_stream_witness :
  let g := mt_seed 42 in
  let r := default ([], g) (normal_pairs 8 2 0 1 g) in
  let ds := @draws _ (LibstdcxxSampler 8) 3 (normal_distribution_new 0 1, g) in
  fst ds = take 3 (fst r) /\ snd (snd ds) = snd r /\ length (fst r) = 4%nat.
Proof.
  intros g r. apply (normal_stream 8 3 g (fst r) (snd r)). vm_compute. reflexivity.
Defined.

Lemma draws_fuel_enough_witness :
  let st := (normal_distribution_new 0 1, mt_seed 42) in
  @draws _ (LibstdcxxSampler 64) 12 st = default ([], st) (normal_draws 8 12 st).
Proof.
  intros st. apply (draws_fuel_enough 8 64 12 st); [| lia].
  vm_compute. reflexivity.
Defined.

Lemma price_european_fuel_enough_witness :
  let rs := default ([], (normal_distribution_new 0 1, mt_seed 42))
              (normal_draws 8 2 (normal_distribution_new 0 1, mt_seed 42)) in
  @price_european float FloatDouble (LibstdcxxSampler 64)
    100 100 1 0.05 0.2 true 4 (engine_at 64 (mt_seed 42)) =
  (european_estimate 100 100 1 0.05 0.2 true 4 (fst rs),
   engine_at 64 (snd (snd rs))).
Proof.
  intros rs. apply (price_european_fuel_enough 8 64); [| lia].
  vm_compute. reflexivity.
Defined.

End Witnesses.
